(* ===== verification/_CoqProject ===== *)
-Q . S2P
Prelude.v
GoStrings.v
Utf8.v
Money.v
DomainErr.v
World.v
Advance.v
Proto.v
LedgerStore.v
LedgerTheory.v
LedgerProps.v
LedgerServer.v
Redis.v
Idempotency.v
GoTime.v
Sha256.v
GoJson.v
JsonParse.v
JsonStruct.v
Webhook.v
Uuid.v
ConsentRepo.v
ConsentService.v
ConsentTheory.v
ConsentProps.v
ConsentCache.v
ConsentHandler.v
RiskRules.v
RiskHandler.v
Auth.v
Config.v
GrpcServer.v
RateLimit.v
MerchantRepo.v
MerchantService.v
MerchantHandler.v
MerchantProps.v
BankAdapter.v
MockBank.v
BankBodies.v
BankProps.v
BankRoutes.v
PaymentRepo.v
Saga.v
PaymentHandler.v
Reconciliation.v
OutboxRun.v
Gateway.v
GatewayHandlers.v
GatewayAuth.v
GatewayProps.v
GatewayCalls.v
GatewayLog.v
Onboarding.v
Deliver.v
Notification.v
EventDecode.v
NotificationProps.v
Startup.v
WebhookFlow.v
SagaTrace.v
SagaProofs.v
SagaProps.v
SagaExamples.v
Platform.v
PlatformCalls.v
PlatformProps.v
PlatformExamples.v
Storefront.v
StorefrontExamples.v
PlatformFaults.v
