(* ===== verification/Prelude.v ===== *)
(** * A verification of the one-click deposit platform

The platform takes variable recurring payments: a merchant asks for a payment
under a consent that the consumer gave once, and a saga moves the money.  It is
eight Go services over gRPC, with an HTTP gateway in front.  This library models
the services, the packages they share and the way they are put together, and
proves what makes them correct; where the code does not do what it means to, a
theorem says what it does instead.

** The program and its models

A merchant trades an API key for a bearer token and sends requests to the gateway,
which checks the token, counts the request and calls a service.  A payment request
enters the payment service.  Its orchestrator
([services/payment-svc/internal/saga.go]) claims the idempotency key, writes the
payment, and then, in order: reserves the amount with the consent service, asks
the risk service for a score, asks the bank to pay, posts a double entry with the
ledger, settles the payment together with an outbox message, and confirms the
reservation.  A failing step undoes what came before.  A relay publishes the
outbox to Kafka, the notification service announces the payment to the merchant
with a signed webhook, and a worker reconciles payments that got stuck.

The files, in the order they build on each other (paths are under [src/]):

- [Prelude] (this file): the result type, the state monad [M] with its rules
  ([wp], [wp_step]), 64-bit integers, lists as tables ([where_], [update_where],
  invariant under reordering), hint databases.
- Go's standard library, executable, as far as the code uses it: [GoStrings],
  [Utf8], [GoTime] (RFC 3339 and the calendar), [Sha256] (and HMAC), [GoJson]
  (Marshal), [JsonParse] and [JsonStruct] (Unmarshal, Decode).  What Marshal writes
  reads back ([parse_json_text]); so do times ([format_parse]) and runes.
- [World]: the environment of a service.  An environment is a clock, a supply of
  UUIDs and a schedule of faults, read at a counter that every call advances; a
  call of a database runs, is refused, or runs and loses its reply.  Transactions
  are atomic, abort at the first failing statement and answer 25P02 from then on.
  [Advance]: programs only move the counter.
- [Proto]: the messages under [gen/].  [Redis], [Uuid]: interfaces.
- [pkg/shared]: [Money], [DomainErr], [Idempotency], [Webhook], [Auth] (tokens),
  [Config] (settings and the database pool), [GrpcServer] (interceptors, panics,
  trace context, health).
- [LedgerStore], [LedgerServer]: [services/ledger-svc/internal/store.go] and
  [server.go] with the tables, constraints and the deferred balance trigger of
  [migrations/ledger].  [LedgerTheory], [LedgerProps]: invariant and theorems.
- [ConsentRepo], [ConsentService], [ConsentHandler]: [services/consent-svc/internal]
  with the Redis cache.  [ConsentTheory], [ConsentProps], [ConsentCache]:
  invariant, abstract machine, theorems.
- [RiskRules], [RiskHandler]: [services/risk-svc/internal], with the theorems.
- [MerchantRepo], [MerchantService], [MerchantHandler]:
  [services/merchant-svc/internal]; [MerchantProps]: theorems.
- [BankAdapter], [MockBank], [BankRoutes]: [services/bank-adapter/internal]
  ([adapter.go], [mockbank/server.go]).  [BankBodies]: what they read of each
  other's JSON.  [BankProps]: what the adapter does to the bank.
- [PaymentRepo], [Saga], [PaymentHandler], [Reconciliation]:
  [services/payment-svc/internal] ([repo.go], [saga.go], [handler.go],
  [reconciliation.go], [outbox.go]).  [OutboxRun]: runs of the relay.
  [SagaTrace], [SagaProofs], [SagaProps], [SagaExamples]: the protocol of the
  saga, theorems and an example run.
- [RateLimit], [Gateway], [GatewayHandlers], [GatewayLog]:
  [services/gateway/internal/httpapi].  [GatewayProps], [GatewayCalls]: what it
  answers and which calls it makes; [GatewayAuth]: a request with a good token up
  to its handler; [Onboarding]: the gateway on the merchant service.
- [Deliver], [Notification]: [services/notification-svc/internal].  [EventDecode]:
  what the consumer reads of a payload; [NotificationProps]: theorems;
  [WebhookFlow]: from the outbox message to the merchant's server.
- [Startup]: the [cmd/main.go] of every service, from its environment to its
  settings or the error it exits with.
- [Platform]: payment, consent, risk, ledger and bank service on one Redis server
  in one environment.  [PlatformCalls], [PlatformProps], [PlatformExamples]: a
  payment that goes well, call by call; [PlatformFaults]: what is true of a payment
  whatever fails, a lost posting, and a retry.
- [Storefront]: the gateway on the merchant service and [Platform], as
  [services/gateway/cmd/main.go] wires them; [StorefrontExamples] evaluates a day
  of two shops through the API.

State is passed explicitly: a Go method is a Rocq function of the same name in
the monad over the data it can reach, with the method's guards and early
returns; a pair [(value, error)] is a [result]; a Go closure or loop that has no
name of its own is a definition beside its function ([post_tx], [check_lines],
[reserve_new], [run_from_bank], ...).  A query is a function on tables.

** Interfaces

Code outside the repository is a class, with laws where the code relies on
documented behaviour, and a concrete instance that shows they can hold: [Redis]
with [RedisLaws] and [Memory]; [UuidLib] with [UuidLaws] and [text_uuids];
[GrpcLib] with [simple_grpc]; golang-jwt as [JwtLib] with [JwtLaws];
[Entropy] and [Bcrypt] with their laws (crypto/rand, bcrypt); gobreaker as
[Breaker]; retry-go as [RetryLib] with [RetryLaw] and [loop_retry]; the health
server of grpc-go as [HealthLib]; [PgxPool]; the text PostgreSQL gives of a JSONB
value as [JsonbText] with [JsonbLaw] and [compact_text].  Of the network, what a
request comes to: [Wire] (the bank), [Endpoint] (a merchant's server),
[Network] (listeners and connections).  Of the standard library four things stay
parameters: the upper half of the [Unicode] tables, the verb %q of fmt
([GoFmt]), [FloatText] (ParseFloat) and the texts of JSON errors ([JsonErrors]).

Services meet at classes too: the orchestrator is written against [paymentRepo]
(the Go interface; [sql_repo] implements it and [sql_repo_laws] discharges
[RepoLaws], what the proofs rely on), [IdemStore] and [Clients]; the gateway
against [MerchantClient], [ConsentClient] and [PaymentClient]; the deliverer
against [Directory].  Nothing is assumed of the clients: what is proved of the
orchestrator and of the gateway holds whatever the services answer.  [Platform],
[Onboarding], [Storefront] and [WebhookFlow] are instances made of the services' own handlers.

** What is proved

- Saga: whatever the other services do, it keeps its protocol and ends settled or
  closed (C1); settling is atomic (C14) and books the right amounts (C6);
  reconciliation asks the bank and believes it (C18).
  C31 and C35 are gaps.
- System: an order posted to the gateway is settled by the services behind it and
  answered 201; its merchant can read the payment from then on, no other merchant
  can, and the order posted again changes nothing (C2); what the settlement leaves
  in every database (C3); whatever fails, a saga that ends without an error has
  settled the payment in every book (C7).  C32, C33 and C34: a foreign consent is
  charged, a retry is not counted towards the month, a lost posting stays.
- Ledger: for every history of calls and every pattern of failures each entry
  balances and all balances add up to zero (C4); postings are all or nothing and
  idempotent (C13), and a reversal restores every balance (C10).
- Consent: every operation is a step of an abstract machine (C8) whose histories
  keep the invariant (C16) and, under stated conditions, the monthly limit (C5);
  reservation behaves as specified (C17); C40: a reader can hide a revocation.
- Merchants and the gateway: the invariant of the merchant tables (C20); a key
  resolves to its merchant (C24); a request reaches the services only in the
  name of the merchant whose token it carries (C9); every response is well formed
  (C23) and carries the error of the service (C26); the limiter is a fixed window
  (C19); a suspended merchant gets no token (C38), but those it has work on every
  route (C39).
- Delivery: every queued message goes to Kafka, in order once nothing fails (C15);
  a settled payment reaches its merchant with a signature that verifies (C12);
  what a delivery does (C22); nothing is announced twice within a day (C21); a
  failed message is passed over (C37).
- Risk and keys: blocklisted parties are declined (C25); an idempotency key has
  one owner (C11) and waiting for it ends (C27).
- Bank: what the adapter sends (C29), the life of a payment at the bank (C30),
  and the double payment after a lost reply (C36).
- Money at 64 bits (C28).

An environment in which nothing fails from now on is [calm]; theorems without it
hold for every schedule of faults.

Theorems without a number are on the way to these or describe single functions:
signatures ([VerifyWithTolerance_spec]), errors across gRPC ([grpc_roundtrip]),
tokens ([issue_parse]), the request log ([request_is_logged]), the frame of a
gRPC handler ([frame_recovers_and_logs]), settings that are never read
([cluster_rate_limit_unread]), and others.

** Bounds and fuel

Amounts are [Z] with Go's wrap-around written out ([int64]); SQL sums are exact
and fail to scan outside 64 bits.  Functions with fuel: [Idempotency.poll], one
unit per poll of 100 ms, for which [rounds timeout] is enough on a clock that
advances by that much (C27, which also bounds the time by what a call takes);
[serializable_attempts], whose fuel is the constant of five attempts;
[Deliver.attempts], its three attempts; [Sha256.blocks], a unit per word, more
than one per block; the loops of the JSON reader, one unit per character left,
each round taking at least one ([parse_value] recurs on the nesting depth, which
encoding/json limits to 10000); the terms of a duration in [Config], one unit per
character.  The ticker loops run for a given number of ticks ([ticker_loop]), the
consumer for a given list of messages.  The adapter reads a mebibyte of an answer
([body_limit]); C30 bounds the reason of a reversal accordingly.

** What is not modelled

Instants are whole nanoseconds without PostgreSQL's rounding to microseconds;
interval arithmetic does not see daylight saving, and the processes run in UTC;
CHAR(3) padding, the error of a text that is longer, and NUL bytes in text columns are
left out; rows that an ORDER BY
does not separate come in storage order.  Concurrency is an arbitrary order of
whole calls plus the injected faults (a unique violation or a serialization
failure can be injected anywhere), not an interleaving of statements; C40 is the
exception.  C2 and C3 ask for room under the limits of the consent at every later
instant, since the clock is read more than once, and C2 for a key that is free, or
lives, at every instant of its request.  Log lines other than the request
log, metrics, contexts that end early (but for the deliverer and the retries),
signals and the closing of connections are left out, and so are: the inside of
chi, net/http, grpc-go and kafka-go (the reader commits once a second; here at the
call); the fixed pages of [swagger.go]; generated getters and stubs.  The interleaving of statements of two transactions is left out because the
isolation of PostgreSQL is not in the repository. *)
From stdpp Require Export prelude strings list gmap fin_maps pretty.
From stdpp Require Export sorting.
From Stdlib Require Export ZArith Lia.

(* ------------------------------------------------------------------ *)
(** ** Results and the state monad *)

(** A Go pair [(T, error)]: a value or a non-nil error. *)
Inductive result (E A : Type) : Type :=
| Ok (a : A)
| Err (e : E).
Arguments Ok {E A} a.
Arguments Err {E A} e.

(** Stateful code: every call returns a value and the next state; a failing
call keeps the state it reached, as Go code does. *)
Definition M (W A : Type) : Type := W -> A * W.

Definition gret {W A} (a : A) : M W A := fun w => (a, w).

Definition gbind {W A B} (m : M W A) (k : A -> M W B) : M W B :=
  fun w => let '(a, w') := m w in k a w'.

Declare Scope go_scope.
Delimit Scope go_scope with go.

Notation "x <- m ;; k" := (gbind m (fun x => k))
  (at level 100, m at next level, right associativity) : go_scope.
Notation "m ;;; k" := (gbind m (fun _ => k))
  (at level 100, right associativity) : go_scope.

(** [if err != nil { return err }]: stop at the first error. *)
Definition gtry {W E A B} (m : M W (result E A)) (k : A -> M W (result E B))
  : M W (result E B) :=
  gbind m (fun r => match r with Ok a => k a | Err e => gret (Err e) end).

Notation "x <-? m ;; k" := (gtry m (fun x => k))
  (at level 100, m at next level, right associativity) : go_scope.
Notation "m ?;; k" := (gtry m (fun _ => k))
  (at level 100, right associativity) : go_scope.

Definition res_bind {E A B} (r : result E A) (k : A -> result E B) : result E B :=
  match r with Ok a => k a | Err e => Err e end.

Definition map_err {E F A} (f : E -> F) (r : result E A) : result F A :=
  match r with Ok a => Ok a | Err e => Err (f e) end.

Definition is_ok {E A} (r : result E A) : bool :=
  match r with Ok _ => true | Err _ => false end.

(** [m] with its error passed through [f] ([domainerr.Wrap] around a call). *)
Definition gmap_err {W E F A} (f : E -> F) (m : M W (result E A)) : M W (result F A) :=
  gbind m (fun r => gret (map_err f r)).

(** Run a call of a component inside a state that contains it. *)
Definition zoom {W V A} (get : W -> V) (set : V -> W -> W) (m : M V A) : M W A :=
  fun w => let '(a, v) := m (get w) in (a, set v w).

(* ------------------------------------------------------------------ *)
(** ** Weakest preconditions for the state monad *)

Definition wp {W A} (m : M W A) (Q : A -> W -> Prop) (w : W) : Prop :=
  Q (fst (m w)) (snd (m w)).

Lemma wp_ret {W A} (a : A) (Q : A -> W -> Prop) w : Q a w -> wp (gret a) Q w.
Proof. done. Qed.

Lemma wp_bind {W A B} (m : M W A) (k : A -> M W B) Q w :
  wp m (fun a => wp (k a) Q) w -> wp (gbind m k) Q w.
Proof. unfold wp, gbind. by destruct (m w). Qed.

Lemma wp_bind_inv {W A B} (m : M W A) (k : A -> M W B) Q w :
  wp (gbind m k) Q w -> wp m (fun a => wp (k a) Q) w.
Proof. unfold wp, gbind. by destruct (m w). Qed.

Lemma wp_mono {W A} (m : M W A) (P Q : A -> W -> Prop) w :
  wp m P w -> (forall a w', P a w' -> Q a w') -> wp m Q w.
Proof. unfold wp. auto. Qed.

Lemma wp_conj {W A} (m : M W A) (P Q : A -> W -> Prop) w :
  wp m P w -> wp m Q w -> wp m (fun a w' => P a w' /\ Q a w') w.
Proof. done. Qed.

Lemma wp_try {W E A B} (m : M W (result E A)) (k : A -> M W (result E B)) Q w :
  wp m (fun r w' => match r with Ok a => wp (k a) Q w' | Err e => Q (Err e) w' end) w ->
  wp (gtry m k) Q w.
Proof. intros H. apply wp_bind. eapply wp_mono; [exact H|]. by intros [a|e] w'. Qed.

Lemma wp_gmap_err {W E F A} (f : E -> F) (m : M W (result E A)) Q w :
  wp m (fun r => Q (map_err f r)) w -> wp (gmap_err f m) Q w.
Proof. intros H. apply wp_bind. eapply wp_mono; [exact H|]. by intros r w'. Qed.

Lemma wp_run {W A} (m : M W A) Q w a w' : m w = (a, w') -> wp m Q w -> Q a w'.
Proof. unfold wp. by intros ->. Qed.

Lemma run_wp {W A} (m : M W A) Q w :
  (forall a w', m w = (a, w') -> Q a w') -> wp m Q w.
Proof. unfold wp. intros H. apply H. by destruct (m w). Qed.

Lemma wp_zoom {W V A} (get : W -> V) (set : V -> W -> W) (m : M V A) Q w :
  wp m (fun a v => Q a (set v w)) (get w) -> wp (zoom get set m) Q w.
Proof. unfold wp, zoom. by destruct (m (get w)). Qed.

(* ------------------------------------------------------------------ *)
(** ** Machine integers *)

Definition min_int64 : Z := (- 2 ^ 63)%Z.
Definition max_int64 : Z := (2 ^ 63 - 1)%Z.

(** Two's complement wrap-around of a 64-bit and of a 32-bit signed integer. *)
Definition int64 (z : Z) : Z := ((z + 2 ^ 63) mod 2 ^ 64 - 2 ^ 63)%Z.
Definition int32 (z : Z) : Z := ((z + 2 ^ 31) mod 2 ^ 32 - 2 ^ 31)%Z.

Definition in_int64 (z : Z) : Prop := (min_int64 <= z <= max_int64)%Z.

Lemma int64_id z : in_int64 z -> int64 z = z.
Proof.
  unfold in_int64, int64, min_int64, max_int64. intros H.
  rewrite Z.mod_small; lia.
Qed.

Lemma int64_range z : in_int64 (int64 z).
Proof.
  unfold in_int64, int64, min_int64, max_int64.
  pose proof (Z.mod_pos_bound (z + 2 ^ 63) (2 ^ 64)). lia.
Qed.

Lemma int64_add_idemp_l a b : int64 (int64 a + b) = int64 (a + b).
Proof.
  unfold int64. f_equal.
  replace ((a + 2 ^ 63) mod 2 ^ 64 - 2 ^ 63 + b + 2 ^ 63)%Z
    with ((a + 2 ^ 63) mod 2 ^ 64 + b)%Z by lia.
  rewrite Zplus_mod_idemp_l. f_equal. lia.
Qed.

Lemma int32_id z : (- 2 ^ 31 <= z < 2 ^ 31)%Z -> int32 z = z.
Proof. unfold int32. intros H. rewrite Z.mod_small; lia. Qed.

(* ------------------------------------------------------------------ *)
(** ** Sums over lists *)

Definition sumZ {A} (f : A -> Z) (l : list A) : Z := foldr (fun x acc => (f x + acc)%Z) 0%Z l.

#[global] Arguments sumZ : simpl never.

Lemma sumZ_nil {A} (f : A -> Z) : sumZ f [] = 0%Z.
Proof. done. Qed.

Lemma sumZ_cons {A} (f : A -> Z) x l : sumZ f (x :: l) = (f x + sumZ f l)%Z.
Proof. done. Qed.

Lemma sumZ_app {A} (f : A -> Z) l1 l2 : sumZ f (l1 ++ l2) = (sumZ f l1 + sumZ f l2)%Z.
Proof. induction l1 as [|x l1 IH]; simpl; [done|]. rewrite !sumZ_cons. lia. Qed.

Lemma sumZ_perm {A} (f : A -> Z) l1 l2 : l1 ≡ₚ l2 -> sumZ f l1 = sumZ f l2.
Proof. induction 1; rewrite ?sumZ_cons; try lia. Qed.

Lemma sumZ_map {A B} (f : B -> Z) (g : A -> B) l : sumZ f (map g l) = sumZ (fun x => f (g x)) l.
Proof. induction l as [|x l IH]; [done|]. by rewrite map_cons, !sumZ_cons, IH. Qed.

Lemma sumZ_ext {A} (f g : A -> Z) l : (forall x, x ∈ l -> f x = g x) -> sumZ f l = sumZ g l.
Proof.
  induction l as [|x l IH]; intros H; [done|]. rewrite !sumZ_cons, IH, (H x); [done|set_solver..].
Qed.

Lemma sumZ_add {A} (f g : A -> Z) l : sumZ (fun x => f x + g x)%Z l = (sumZ f l + sumZ g l)%Z.
Proof. induction l as [|x l IH]; [done|]. rewrite !sumZ_cons, IH. lia. Qed.

Lemma sumZ_opp {A} (f : A -> Z) l : sumZ (fun x => - f x)%Z l = (- sumZ f l)%Z.
Proof. induction l as [|x l IH]; [done|]. rewrite !sumZ_cons, IH. lia. Qed.

Lemma sumZ_le {A} (f g : A -> Z) l :
  (forall x, x ∈ l -> f x <= g x)%Z -> (sumZ f l <= sumZ g l)%Z.
Proof.
  induction l as [|x l IH]; intros H; [done|]. rewrite !sumZ_cons.
  assert (f x <= g x)%Z by (apply H; set_solver).
  assert (sumZ f l <= sumZ g l)%Z by (apply IH; intros; apply H; set_solver). lia.
Qed.

Lemma sumZ_nonneg {A} (f : A -> Z) l : (forall x, x ∈ l -> 0 <= f x)%Z -> (0 <= sumZ f l)%Z.
Proof.
  intros H. pose proof (sumZ_le (fun _ => 0%Z) f l H) as Hle.
  assert (sumZ (fun _ : A => 0%Z) l = 0%Z) as Hz; [|lia].
  clear. induction l as [|x l IH]; [done|]. rewrite sumZ_cons. lia.
Qed.

Lemma sumZ_zero {A} (f : A -> Z) l : (forall x, x ∈ l -> f x = 0%Z) -> sumZ f l = 0%Z.
Proof.
  induction l as [|x l IH]; intros H; [done|]. rewrite sumZ_cons, IH, (H x); [done|set_solver..].
Qed.

(** The rows of a table that satisfy a [WHERE] clause. *)
Definition where_ {A} (p : A -> bool) (l : list A) : list A := List.filter p l.

#[global] Arguments where_ : simpl never.

Lemma where_cons {A} (p : A -> bool) x l :
  where_ p (x :: l) = if p x then x :: where_ p l else where_ p l.
Proof. done. Qed.

Lemma where_app {A} (p : A -> bool) l1 l2 : where_ p (l1 ++ l2) = where_ p l1 ++ where_ p l2.
Proof. apply List.filter_app. Qed.

Lemma elem_of_where {A} (p : A -> bool) l x : x ∈ where_ p l <-> x ∈ l /\ p x = true.
Proof. unfold where_. rewrite !list_elem_of_In. apply filter_In. Qed.

Lemma sumZ_where {A} (p : A -> bool) (f : A -> Z) l :
  sumZ f (where_ p l) = sumZ (fun x => if p x then f x else 0%Z) l.
Proof.
  induction l as [|x l IH]; [done|]. rewrite where_cons, sumZ_cons. destruct (p x); rewrite ?sumZ_cons, IH; lia.
Qed.

(* ------------------------------------------------------------------ *)
(** ** Rows and their keys *)

Lemma existsb_false_notin {A B} `{EqDecision B} (f : A -> B) (b : B) (l : list A) :
  existsb (fun x => bool_decide (f x = b)) l = false -> b ∉ map f l.
Proof.
  intros H Hin. apply list_elem_of_fmap in Hin as (x & -> & Hx).
  assert (existsb (fun y => bool_decide (f y = f x)) l = true) as Ht; [|congruence].
  apply existsb_exists. exists x. split; [by apply list_elem_of_In|]. by apply bool_decide_eq_true.
Qed.

Lemma existsb_true_in {A B} `{EqDecision B} (f : A -> B) (b : B) (l : list A) :
  existsb (fun x => bool_decide (f x = b)) l = true -> b ∈ map f l.
Proof.
  intros (x & Hx & Heq)%existsb_exists. apply bool_decide_eq_true in Heq as <-.
  apply list_elem_of_fmap. exists x. split; [done|]. by apply list_elem_of_In.
Qed.

Lemma NoDup_map_snoc {A B} (f : A -> B) (l : list A) x :
  NoDup (map f l) -> f x ∉ map f l -> NoDup (map f (l ++ [x])).
Proof.
  intros Hl Hx. rewrite map_app. apply NoDup_app. split_and!; [done| |simpl; apply NoDup_singleton].
  intros y Hy [->|[]%elem_of_nil]%elem_of_cons. done.
Qed.

Lemma NoDup_map_inj {A B} (f : A -> B) (l : list A) x y :
  NoDup (map f l) -> x ∈ l -> y ∈ l -> f x = f y -> x = y.
Proof.
  induction l as [|z l IH]; simpl; [set_solver|]. intros [Hz Hl]%NoDup_cons Hx Hy Hf.
  apply elem_of_cons in Hx as [->|Hx], Hy as [->|Hy]; auto.
  - destruct Hz. rewrite Hf. by apply list_elem_of_fmap_2.
  - destruct Hz. rewrite <- Hf. by apply list_elem_of_fmap_2.
Qed.

(** A sum over rows is the sum over their keys of the rows of each key. *)
Lemma sumZ_partition {A K} `{EqDecision K} (key : A -> K) (f : A -> Z) (ks : list K) (l : list A) :
  NoDup ks -> (forall x, x ∈ l -> key x ∈ ks) ->
  sumZ f l = sumZ (fun k => sumZ f (where_ (fun x => bool_decide (key x = k)) l)) ks.
Proof.
  intros Hnd. induction l as [|x l IH]; intros Hks.
  - by rewrite (sumZ_zero (fun _ => _) ks).
  - rewrite sumZ_cons, IH by set_solver.
    symmetry. etrans; [apply sumZ_ext with (g := fun k =>
      ((if bool_decide (key x = k) then f x else 0) +
       sumZ f (where_ (fun x0 => bool_decide (key x0 = k)) l))%Z)|].
    { intros k _. rewrite where_cons. case_bool_decide; rewrite ?sumZ_cons; lia. }
    rewrite sumZ_add. f_equal.
    assert (key x ∈ ks) as Hin by set_solver. clear -Hnd Hin.
    induction ks as [|k ks IH]; [set_solver|]. rewrite sumZ_cons.
    apply NoDup_cons in Hnd as [Hk Hnd]. case_bool_decide as Heq.
    + subst. rewrite sumZ_zero; [lia|]. intros k' Hk'. case_bool_decide; [by subst|done].
    + rewrite IH; [lia|done|set_solver].
Qed.

Lemma find_bool_decide_spec {A B} `{EqDecision B} (f : A -> B) (b : B) l x :
  List.find (fun y => bool_decide (f y = b)) l = Some x -> x ∈ l /\ f x = b.
Proof.
  intros [Hin Hx]%find_some. apply bool_decide_eq_true in Hx. split; [by apply list_elem_of_In|done].
Qed.

Lemma find_bool_decide_none {A B} `{EqDecision B} (f : A -> B) (b : B) l :
  List.find (fun y => bool_decide (f y = b)) l = None -> b ∉ map f l.
Proof.
  intros H Hin. apply list_elem_of_fmap in Hin as (x & -> & Hx).
  apply list_elem_of_In in Hx. pose proof (find_none _ _ H _ Hx) as Hn. simpl in Hn.
  by rewrite bool_decide_eq_true_2 in Hn.
Qed.

Lemma find_unique {A B} `{EqDecision B} (f : A -> B) l x :
  NoDup (map f l) -> x ∈ l -> List.find (fun y => bool_decide (f y = f x)) l = Some x.
Proof.
  intros Hnd Hx. destruct (List.find _ l) as [y|] eqn:Hf.
  - apply find_bool_decide_spec in Hf as [Hy Heq]. f_equal. by eapply NoDup_map_inj.
  - apply find_bool_decide_none in Hf. destruct Hf. by apply list_elem_of_fmap_2.
Qed.

Lemma NoDup_map_where {A B} (f : A -> B) (p : A -> bool) (l : list A) :
  NoDup (map f l) -> NoDup (map f (where_ p l)).
Proof.
  induction l as [|x l IH]; simpl; [done|]. intros [Hx Hl]%NoDup_cons. rewrite where_cons.
  destruct (p x); [|by apply IH]. simpl. apply NoDup_cons. split; [|by apply IH].
  intros (y & Heq & [Hy _]%elem_of_where)%list_elem_of_fmap. apply Hx. rewrite Heq. by apply list_elem_of_fmap_2.
Qed.

Lemma where_all {A} (p : A -> bool) (l : list A) : (forall x, x ∈ l -> p x = true) -> where_ p l = l.
Proof.
  induction l as [|x l IH]; [done|]. intros Hp. rewrite where_cons, Hp by set_solver. f_equal. apply IH. set_solver.
Qed.

Lemma where_none {A} (p : A -> bool) (l : list A) : (forall x, x ∈ l -> p x = false) -> where_ p l = [].
Proof.
  induction l as [|x l IH]; [done|]. intros Hp. rewrite where_cons, Hp by set_solver. apply IH. set_solver.
Qed.

Lemma where_true {A} (l : list A) : where_ (fun _ => true) l = l.
Proof. by apply where_all. Qed.

Lemma where_where {A} (p q : A -> bool) l : where_ p (where_ q l) = where_ (fun x => q x && p x) l.
Proof.
  induction l as [|x l IH]; [done|]. rewrite !where_cons. destruct (q x); simpl; [|done].
  by rewrite where_cons, IH.
Qed.

#[export] Instance where_perm {A} (p : A -> bool) : Proper (Permutation ==> Permutation) (where_ p).
Proof.
  induction 1 as [|x l l' _ IH|x y l|l1 l2 l3 _ IH1 _ IH2]; [done| | |by etrans].
  - rewrite !where_cons. destruct (p x); [by constructor|done].
  - rewrite !where_cons. destruct (p x), (p y); (apply Permutation_swap || done).
Qed.

(** [UPDATE ... SET f WHERE p]. *)
Definition update_where {A} (p : A -> bool) (f : A -> A) (l : list A) : list A :=
  map (fun x => if p x then f x else x) l.

(** A row at the end of a table, the only one a predicate picks. *)
Lemma find_last {A} (p : A -> bool) (l : list A) x :
  existsb p l = false -> p x = true -> List.find p (l ++ [x]) = Some x.
Proof.
  induction l as [|y l IH]; simpl; [by intros _ ->|]. intros [-> Hl]%orb_false_iff Hx. auto.
Qed.

Lemma update_last {A} (p : A -> bool) f (l : list A) x :
  existsb p l = false -> p x = true -> update_where p f (l ++ [x]) = l ++ [f x].
Proof.
  unfold update_where. induction l as [|y l IH]; simpl; [by intros _ ->|]. intros [-> Hl]%orb_false_iff Hx.
  by rewrite IH.
Qed.

Lemma notin_existsb {A B} `{EqDecision B} (f : A -> B) (b : B) (l : list A) :
  b ∉ map f l -> existsb (fun x => bool_decide (f x = b)) l = false.
Proof.
  intros Hn. apply not_true_is_false. intros (x & Hx & Heq)%existsb_exists. apply bool_decide_eq_true in Heq.
  apply Hn. rewrite <- Heq. by apply list_elem_of_fmap_2, list_elem_of_In.
Qed.

Lemma find_notin {A B} `{EqDecision B} (f : A -> B) (b : B) (l : list A) :
  b ∉ map f l -> List.find (fun x => bool_decide (f x = b)) l = None.
Proof.
  intros Hn. destruct (List.find _ l) as [x|] eqn:Hf; [|done].
  apply find_bool_decide_spec in Hf as [Hx <-]. destruct Hn. by apply list_elem_of_fmap_2.
Qed.

Lemma existsb_weaken {A} (p q : A -> bool) (l : list A) :
  (forall x, q x = true -> p x = true) -> existsb p l = false -> existsb q l = false.
Proof.
  intros Hpq Hp. apply not_true_is_false. intros (x & Hx & Hq)%existsb_exists.
  apply not_true_iff_false in Hp. apply Hp, existsb_exists. eauto.
Qed.

Lemma elem_of_update_where {A} (p : A -> bool) f l y :
  y ∈ update_where p f l <-> exists x, x ∈ l /\ y = if p x then f x else x.
Proof. unfold update_where. rewrite list_elem_of_fmap. naive_solver. Qed.

(** An update that keeps a column keeps it on the whole table. *)
Lemma map_update_where {A B} (g : A -> B) (p : A -> bool) f l :
  (forall x, g (f x) = g x) -> map g (update_where p f l) = map g l.
Proof.
  intros Hg. unfold update_where. rewrite map_map. apply map_ext. intros x. by destruct (p x).
Qed.

Lemma string_length_app (s t : string) :
  String.length (s +:+ t) = (String.length s + String.length t)%nat.
Proof. induction s as [|a s IH]; simpl; [done|]. by f_equal. Qed.

(* ------------------------------------------------------------------ *)
(** ** Automation *)

(** Case analysis on the innermost scrutinee of the goal, or of a hypothesis. *)
Ltac case_inner t :=
  lazymatch t with
  | context [match ?x with _ => _ end] => case_inner x
  | _ => let H := fresh "Heq" in destruct t eqn:H
  end.
Ltac split_match :=
  match goal with
  | |- context [match ?x with _ => _ end] => case_inner x
  end.
Ltac split_match_in H :=
  match type of H with
  | context [match ?x with _ => _ end] => case_inner x
  end.

(** One step of symbolic execution of a program under [wp]. *)
Ltac wp_step :=
  lazymatch goal with
  | |- wp (gret _) _ _ => apply wp_ret
  | |- wp (gbind _ _) _ _ => apply wp_bind
  | |- wp (gtry _ _) _ _ => apply wp_try
  | |- wp (gmap_err _ _) _ _ => apply wp_gmap_err
  | |- wp (zoom _ _ _) _ _ => apply wp_zoom
  | |- wp (if ?b then _ else _) _ _ => let H := fresh "Hif" in destruct b eqn:H
  | |- wp (match ?x with _ => _ end) _ _ => let H := fresh "Hm" in destruct x eqn:H
  | |- wp (let _ := _ in _) _ _ => cbv zeta
  end.

Create HintDb vrp discriminated.
Create Rewrite HintDb vrp_sums.
#[export] Hint Resolve int64_range wp_ret : vrp.
#[export] Hint Rewrite @sumZ_nil @sumZ_cons @sumZ_app @where_app @where_cons : vrp_sums.
