(* ===== verification/GoStrings.v ===== *)
(** * The parts of Go's string library the services use.

A Go string is a sequence of bytes; it is a [string] here, one [ascii] per
byte.  [strings.TrimSpace], [strings.ToUpper], [strings.ToLower] and a [range]
loop work on the runes of its UTF-8 decoding, which is written out below
(invalid bytes decode to U+FFFD, as in [unicode/utf8]).  The case, letter and
white-space tables of package [unicode] are data for runes at and above 0x80;
they are the parameter [Unicode].  The tables are exact below 0x80. *)
From S2P Require Import Prelude.
From Stdlib Require Import Ascii.
Local Open Scope Z_scope.

Class Unicode := {
  unicode_letter_hi : Z -> bool;
  unicode_space_hi : Z -> bool;
  unicode_upper_hi : Z -> Z;
  unicode_lower_hi : Z -> Z;
}.

(** Tables with no letter and no space above 0x7f, to evaluate examples. *)
Definition ascii_tables : Unicode := {|
  unicode_letter_hi _ := false;
  unicode_space_hi _ := false;
  unicode_upper_hi r := r;
  unicode_lower_hi r := r;
|}.

Definition byte_of (c : ascii) : Z := Z.of_N (N_of_ascii c).
Definition ascii_of (z : Z) : ascii := ascii_of_N (Z.to_N z).
Definition RuneError : Z := 0xFFFD.

Definition between (lo hi : Z) (c : ascii) : bool :=
  (lo <=? byte_of c) && (byte_of c <=? hi).

Lemma byte_range c : 0 <= byte_of c < 256.
Proof. unfold byte_of. pose proof (N_ascii_bounded c). lia. Qed.

Lemma ascii_of_byte_of c : ascii_of (byte_of c) = c.
Proof. unfold ascii_of, byte_of. by rewrite N2Z.id, ascii_N_embedding. Qed.

(** One rune of a non-empty byte sequence with the bytes it takes
([utf8.DecodeRune]). *)
Definition decode_rune (b0 : ascii) (rest : list ascii) : Z * nat :=
  let x0 := byte_of b0 in
  let bad := (RuneError, 1%nat) in
  let cont c := Z.land (byte_of c) 0x3F in
  if x0 <? 0x80 then (x0, 1%nat)
  else if (0xC2 <=? x0) && (x0 <=? 0xDF) then
    match rest with
    | b1 :: _ =>
        if between 0x80 0xBF b1
        then (Z.lor (Z.shiftl (Z.land x0 0x1F) 6) (cont b1), 2%nat) else bad
    | _ => bad
    end
  else if (0xE0 <=? x0) && (x0 <=? 0xEF) then
    let lo := if x0 =? 0xE0 then 0xA0 else 0x80 in
    let hi := if x0 =? 0xED then 0x9F else 0xBF in
    match rest with
    | b1 :: b2 :: _ =>
        if between lo hi b1 && between 0x80 0xBF b2
        then (Z.lor (Z.shiftl (Z.land x0 0x0F) 12)
                (Z.lor (Z.shiftl (cont b1) 6) (cont b2)), 3%nat) else bad
    | _ => bad
    end
  else if (0xF0 <=? x0) && (x0 <=? 0xF4) then
    let lo := if x0 =? 0xF0 then 0x90 else 0x80 in
    let hi := if x0 =? 0xF4 then 0x8F else 0xBF in
    match rest with
    | b1 :: b2 :: b3 :: _ =>
        if between lo hi b1 && between 0x80 0xBF b2 && between 0x80 0xBF b3
        then (Z.lor (Z.shiftl (Z.land x0 0x07) 18)
                (Z.lor (Z.shiftl (cont b1) 12)
                   (Z.lor (Z.shiftl (cont b2) 6) (cont b3))), 4%nat) else bad
    | _ => bad
    end
  else bad.

(** The runes of a byte sequence, each with its bytes.  [skip] bytes belong to
the rune decoded last. *)
Fixpoint runes_from (skip : nat) (l : list ascii) : list (Z * list ascii) :=
  match l with
  | [] => []
  | b :: l' =>
      match skip with
      | S k => runes_from k l'
      | O => let '(r, n) := decode_rune b l' in
             (r, take n (b :: l')) :: runes_from (n - 1) l'
      end
  end.

Definition runes (s : string) : list (Z * list ascii) :=
  runes_from 0 (String.list_ascii_of_string s).

(** [utf8.ValidRune]: in range and no half of a surrogate pair. *)
Definition ValidRune (r : Z) : bool :=
  (0 <=? r) && (r <? 0xD800) || (0xDFFF <? r) && (r <=? 0x10FFFF).

Definition rune_bytes (r : Z) : list ascii :=
  if r <? 0x80 then [ascii_of r]
  else if r <? 0x800 then
    [ascii_of (Z.lor 0xC0 (Z.shiftr r 6)); ascii_of (Z.lor 0x80 (Z.land r 0x3F))]
  else if r <? 0x10000 then
    [ascii_of (Z.lor 0xE0 (Z.shiftr r 12));
     ascii_of (Z.lor 0x80 (Z.land (Z.shiftr r 6) 0x3F));
     ascii_of (Z.lor 0x80 (Z.land r 0x3F))]
  else
    [ascii_of (Z.lor 0xF0 (Z.shiftr r 18));
     ascii_of (Z.lor 0x80 (Z.land (Z.shiftr r 12) 0x3F));
     ascii_of (Z.lor 0x80 (Z.land (Z.shiftr r 6) 0x3F));
     ascii_of (Z.lor 0x80 (Z.land r 0x3F))].

(** [utf8.AppendRune]. *)
Definition encode_rune (r : Z) : list ascii := rune_bytes (if ValidRune r then r else RuneError).

Lemma encode_rune_ascii r : 0 <= r < 0x80 -> encode_rune r = [ascii_of r].
Proof.
  intros Hr. unfold encode_rune, ValidRune. replace (0 <=? r) with true by lia. replace (r <? 0xD800) with true by lia.
  unfold rune_bytes. simpl. by replace (r <? 0x80) with true by lia.
Qed.

Section Strings.
Context `{Unicode}.

Definition unicode_IsLetter (r : Z) : bool :=
  if r <? 0x80
  then ((65 <=? r) && (r <=? 90)) || ((97 <=? r) && (r <=? 122))
  else unicode_letter_hi r.

Definition unicode_IsSpace (r : Z) : bool :=
  if r <? 0x80 then ((9 <=? r) && (r <=? 13)) || (r =? 32) else unicode_space_hi r.

Definition unicode_ToUpper (r : Z) : Z :=
  if r <? 0x80 then (if (97 <=? r) && (r <=? 122) then r - 32 else r)
  else unicode_upper_hi r.

Definition unicode_ToLower (r : Z) : Z :=
  if r <? 0x80 then (if (65 <=? r) && (r <=? 90) then r + 32 else r)
  else unicode_lower_hi r.

Definition strings_Map (f : Z -> Z) (s : string) : string :=
  String.string_of_list_ascii (concat (map (fun p => encode_rune (f p.1)) (runes s))).

Definition ToUpper (s : string) : string := strings_Map unicode_ToUpper s.
Definition ToLower (s : string) : string := strings_Map unicode_ToLower s.

Fixpoint drop_spaces (l : list (Z * list ascii)) : list (Z * list ascii) :=
  match l with
  | [] => []
  | p :: l' => if unicode_IsSpace p.1 then drop_spaces l' else l
  end.

Definition TrimSpace (s : string) : string :=
  String.string_of_list_ascii
    (concat (map snd (rev (drop_spaces (rev (drop_spaces (runes s))))))).
End Strings.

Definition str_len (s : string) : Z := Z.of_nat (String.length s).

(** [s == ""]. *)
Definition is_empty (s : string) : bool := bool_decide (s = "").

(** [strings.Index], [s[:i]] and [s[i:]]. *)
Definition strings_Index (s sub : string) : option nat := String.index 0 sub s.
Definition str_take (i : nat) (s : string) : string := String.substring 0 i s.
Definition str_drop (i : nat) (s : string) : string :=
  String.substring i (String.length s - i) s.

(** [strings.Contains]. *)
Definition strings_Contains (s sub : string) : bool := bool_decide (is_Some (strings_Index s sub)).

(** [strings.HasPrefix]. *)
Definition strings_HasPrefix (s pre : string) : bool := String.prefix pre s.

(** [strings.Join]. *)
Definition strings_Join (sep : string) (l : list string) : string := String.concat sep l.

(** [%d]. *)
Definition itoa (z : Z) : string := pretty z.

(** [strconv.Atoi]: an optional sign and decimal digits, within an int64. *)
Fixpoint parse_digits (l : list ascii) (acc : Z) : option Z :=
  match l with
  | [] => Some acc
  | c :: l' => if between 48 57 c then parse_digits l' (acc * 10 + (byte_of c - 48)) else None
  end.
Definition Atoi (s : string) : option Z :=
  let check (z : Z) := if (min_int64 <=? z) && (z <=? max_int64) then Some z else None in
  let number (l : list ascii) := match l with [] => None | _ => parse_digits l 0 end in
  match String.list_ascii_of_string s with
  | "-"%char :: l => match number l with Some z => check (- z) | None => None end
  | "+"%char :: l => match number l with Some z => check z | None => None end
  | l => match number l with Some z => check z | None => None end
  end.

Definition is_digit (c : ascii) : bool := between 48 57 c.

(** The longest prefix of a text whose characters satisfy [p], and the rest. *)
Fixpoint span (p : ascii -> bool) (l : list ascii) : list ascii * list ascii :=
  match l with
  | c :: l' => if p c then let '(a, b) := span p l' in (c :: a, b) else ([], l)
  | [] => ([], [])
  end.

Lemma span_app p (l : list ascii) c rest : Forall (fun x => p x = true) l -> p c = false ->
  span p (l ++ c :: rest) = (l, c :: rest).
Proof. induction 1 as [|x l Hx _ IH]; intros Hc; simpl; [by rewrite Hc|]. by rewrite Hx, IH. Qed.

Lemma is_empty_false s : is_empty s = false <-> s <> "".
Proof. unfold is_empty. by rewrite bool_decide_eq_false. Qed.

Lemma is_empty_true s : is_empty s = true <-> s = "".
Proof. unfold is_empty. by rewrite bool_decide_eq_true. Qed.

Lemma digit_char_value (x : N) : (x < 10)%N ->
  between 48 57 (pretty.pretty_N_char x) = true /\ byte_of (pretty.pretty_N_char x) - 48 = Z.of_N x.
Proof.
  intros Hx. assert (forallb (fun k => let c := pretty.pretty_N_char (N.of_nat k) in
    between 48 57 c && (byte_of c - 48 =? Z.of_nat k)) (seq 0 10) = true) as Hall by (vm_compute; reflexivity).
  rewrite forallb_forall in Hall. specialize (Hall (N.to_nat x)). rewrite N2Nat.id in Hall.
  destruct (andb_prop _ _ (Hall ltac:(apply in_seq; lia))) as [Hb Hv]. split; [done|]. apply Z.eqb_eq in Hv. lia.
Qed.

Lemma parse_digits_all l : forall acc n, parse_digits l acc = Some n -> Forall (fun c => is_digit c = true) l.
Proof.
  induction l as [|c l IH]; intros acc n Hp; [constructor|]. simpl in Hp. fold (is_digit c) in Hp.
  destruct (is_digit c) eqn:Hc; [|done]. constructor; [done|by eapply IH].
Qed.

Lemma list_ascii_app s t : String.list_ascii_of_string (s +:+ t) = String.list_ascii_of_string s ++ String.list_ascii_of_string t.
Proof. induction s as [|c s IH]; simpl; [done|]. by rewrite IH. Qed.

Lemma string_app_list l1 l2 :
  String.string_of_list_ascii (l1 ++ l2) = String.string_of_list_ascii l1 +:+ String.string_of_list_ascii l2.
Proof. induction l1 as [|c l1 IH]; [done|]. cbn [app String.string_of_list_ascii]. by rewrite IH. Qed.

Lemma string_app_nil_r s : s +:+ "" = s.
Proof. induction s as [|c s IH]; [done|]. change (String c (s +:+ "") = String c s). by rewrite IH. Qed.

Lemma string_of_list_length l : String.length (String.string_of_list_ascii l) = length l.
Proof. induction l as [|c l IH]; [done|]. simpl. by rewrite IH. Qed.

Lemma list_of_string_length s : length (String.list_ascii_of_string s) = String.length s.
Proof. induction s as [|c s IH]; [done|]. simpl. by rewrite IH. Qed.

Lemma string_app_length a b : String.length (a +:+ b) = (String.length a + String.length b)%nat.
Proof. by rewrite <- !list_of_string_length, list_ascii_app, length_app. Qed.

Lemma str_take_length n s : (String.length (str_take n s) <= n)%nat.
Proof. revert n. induction s as [|c s IH]; intros [|n]; [simpl; lia..|]. specialize (IH n). unfold str_take in *. simpl. lia. Qed.

Lemma parse_pretty_go (x : N) : forall s, exists k, forall acc,
  parse_digits (String.list_ascii_of_string (pretty.pretty_N_go x s)) acc =
  parse_digits (String.list_ascii_of_string s) (acc * 10 ^ Z.of_nat k + Z.of_N x).
Proof.
  induction (N.lt_wf_0 x) as [x _ IH]; intros s.
  destruct (decide (x = 0)%N) as [->|Hx].
  - exists 0%nat. intros acc. rewrite pretty.pretty_N_go_0. f_equal. simpl. lia.
  - rewrite pretty.pretty_N_go_step by lia.
    destruct (IH (x / 10)%N ltac:(apply N.div_lt; lia) (String (pretty.pretty_N_char (x mod 10)) s)) as [k Hk].
    exists (S k). intros acc. rewrite Hk. cbn [String.list_ascii_of_string parse_digits].
    destruct (digit_char_value (x mod 10) ltac:(apply N.mod_lt; lia)) as [-> ->]. f_equal.
    rewrite Nat2Z.inj_succ, Z.pow_succ_r by lia. rewrite N2Z.inj_mod, N2Z.inj_div.
    pose proof (Z.div_mod (Z.of_N x) 10). lia.
Qed.

Lemma pretty_N_digits (n : N) : exists c l, String.list_ascii_of_string (pretty n) = c :: l /\
  between 48 57 c = true /\ parse_digits (c :: l) 0 = Some (Z.of_N n).
Proof.
  assert (Hp : parse_digits (String.list_ascii_of_string (pretty n)) 0 = Some (Z.of_N n)).
  { unfold pretty, pretty.pretty_N. case_decide as Hn; [by subst|]. destruct (parse_pretty_go n "") as [k ->]. done. }
  destruct (String.list_ascii_of_string (pretty n)) as [|c l] eqn:E.
  - exfalso. cbn [parse_digits] in Hp. injection Hp as Hn. by replace n with 0%N in E by lia.
  - exists c, l. split; [done|]. split; [|done]. cbn [parse_digits] in Hp. by destruct (between 48 57 c).
Qed.

(** [strconv.Atoi] reads back what [%d] wrote. *)
Lemma Atoi_itoa z : in_int64 z -> Atoi (itoa z) = Some z.
Proof.
  intros Hz. unfold in_int64 in Hz.
  assert (Hcheck : forall y, y = z -> (if (min_int64 <=? y) && (y <=? max_int64) then Some y else None) = Some z).
  { intros y ->. by replace (min_int64 <=? z) with true by lia; replace (z <=? max_int64) with true by lia. }
  unfold Atoi, itoa, pretty, pretty.pretty_Z. destruct z as [|p|p]; [reflexivity|..].
  - change (pretty p) with (pretty (N.pos p)).
    destruct (pretty_N_digits (N.pos p)) as (c & l & -> & Hc & Hp).
    destruct (decide (c = "-"%char)) as [->|]; [done|]. destruct (decide (c = "+"%char)) as [->|]; [done|].
    transitivity (match parse_digits (c :: l) 0 with Some y => if (min_int64 <=? y) && (y <=? max_int64) then Some y else None | None => None end);
      [|rewrite Hp; by apply Hcheck].
    destruct c as [[] [] [] [] [] [] [] []]; first [done|reflexivity].
  - destruct (pretty_N_digits (N.pos p)) as (c & l & Hl & Hc & Hp).
    assert (String.list_ascii_of_string ("-" +:+ pretty p) = "-"%char :: c :: l) as -> by (rewrite <- Hl; reflexivity).
    rewrite Hp. by apply Hcheck.
Qed.

(** A visible ASCII byte: neither white space nor part of a longer rune. *)
Definition visible (c : ascii) : bool := (32 <? byte_of c) && (byte_of c <? 128).

Section Visible.
Context `{Unicode}.

Lemma runes_visible l : Forall (fun c => visible c = true) l ->
  runes_from 0 l = map (fun c => (byte_of c, [c])) l.
Proof.
  induction 1 as [|c l Hc Hl IH]; [done|]. simpl.
  unfold visible in Hc. apply andb_true_iff in Hc as [_ Hc].
  unfold decode_rune. rewrite Hc. simpl. by rewrite IH.
Qed.

Lemma drop_spaces_visible l : Forall (fun c => visible c = true) l ->
  drop_spaces (map (fun c => (byte_of c, [c])) l) = map (fun c => (byte_of c, [c])) l.
Proof.
  intros [|c l' [H1 H2]%andb_true_iff Hl]; [done|]. simpl. unfold unicode_IsSpace. rewrite H2.
  apply Z.ltb_lt in H1. replace (byte_of c <=? 13) with false by lia.
  replace (byte_of c =? 32) with false by lia. by rewrite andb_false_r.
Qed.

(** [TrimSpace] leaves a text of visible ASCII bytes alone. *)
Lemma TrimSpace_visible s :
  Forall (fun c => visible c = true) (String.list_ascii_of_string s) -> TrimSpace s = s.
Proof.
  intros Hs. unfold TrimSpace, runes. rewrite (runes_visible _ Hs), (drop_spaces_visible _ Hs).
  rewrite <- map_rev, drop_spaces_visible by by apply Forall_rev.
  rewrite <- map_rev, rev_involutive, map_map. simpl.
  transitivity (String.string_of_list_ascii (String.list_ascii_of_string s));
    [|apply String.string_of_list_ascii_of_string].
  f_equal. induction (String.list_ascii_of_string s) as [|c l IH]; [done|]. simpl.
  inversion Hs; subst. by rewrite IH.
Qed.
End Visible.

#[local] Existing Instance ascii_tables.
Example trim_upper : ToUpper (TrimSpace "  gbp ") = "GBP". Proof. reflexivity. Qed.
Example upper_utf8 : ToUpper (String.string_of_list_ascii (encode_rune 0x65E5)) = String.string_of_list_ascii (encode_rune 0x65E5).
Proof. reflexivity. Qed.
Example itoa_neg : itoa (-42) = "-42". Proof. reflexivity. Qed.
Example atoi_examples : (Atoi "42", Atoi "-7", Atoi "+3", Atoi "", Atoi "4x", Atoi "9223372036854775808") =
  (Some 42, Some (-7), Some 3, None, None, None).
Proof. reflexivity. Qed.
