(* ===== verification/Utf8.v ===== *)
(** * UTF-8: what [decode_rune] reads and [encode_rune] writes.

[to_valid] is a text with its invalid bytes replaced; everything [strings.Map]
writes, so everything [ToUpper] and [ToLower] write, is valid. *)
From S2P Require Import Prelude GoStrings.
From Stdlib Require Import Ascii.
Local Open Scope Z_scope.

(** A text with every invalid byte replaced by U+FFFD. *)
Definition to_valid (s : string) : string := strings_Map (fun r => r) s.
Definition valid_utf8 (s : string) : Prop := to_valid s = s.

Lemma runes_from_drop k : forall l, runes_from k l = runes_from 0 (drop k l).
Proof. induction k as [|k IH]; intros [|b l]; simpl; auto. Qed.

Lemma runes_from_cons b l :
  runes_from 0 (b :: l) =
  let '(r, n) := decode_rune b l in (r, take n (b :: l)) :: runes_from 0 (drop (n - 1) l).
Proof. simpl. destruct (decode_rune b l) as [r n]. by rewrite runes_from_drop. Qed.

Lemma lor_shiftl a c k : 0 <= k -> 0 <= c < 2 ^ k -> Z.lor (Z.shiftl a k) c = a * 2 ^ k + c.
Proof.
  intros Hk Hc. destruct (Z.eq_dec c 0) as [->|Hc0]; [by rewrite Z.lor_0_r, Z.shiftl_mul_pow2, Z.add_0_r|]. assert (Hland : Z.land (Z.shiftl a k) c = 0).
  { apply Z.bits_inj'. intros i Hi. rewrite Z.land_spec, Z.bits_0, Z.shiftl_spec by done.
    destruct (Z.ltb_spec i k).
    - by rewrite Z.testbit_neg_r by lia.
    - rewrite (Z.bits_above_log2 c i), andb_false_r; [done|lia|].
      apply Z.log2_lt_pow2; [lia|].
      eapply Z.lt_le_trans; [apply Hc|]. apply Z.pow_le_mono_r; lia. }
  pose proof (Z.add_lor_land (Z.shiftl a k) c). rewrite Z.shiftl_mul_pow2 in * by done. lia.
Qed.

Lemma cont_range c : 0 <= Z.land (byte_of c) 0x3F < 64.
Proof. change 0x3F with (Z.ones 6). rewrite Z.land_ones by lia. apply Z.mod_pos_bound. lia. Qed.

Lemma cont_value lo hi c : between lo hi c = true -> 128 <= lo -> hi <= 191 ->
  lo - 128 <= Z.land (byte_of c) 0x3F.
Proof.
  intros [H1%Z.leb_le H2%Z.leb_le]%andb_true_iff Hlo Hhi. change 0x3F with (Z.ones 6). rewrite Z.land_ones by lia.
  change (2 ^ 6) with 64. Z.to_euclidean_division_equations. lia.
Qed.

Lemma low_bits x k : 0 <= k -> Z.land x (Z.ones k) = x mod 2 ^ k.
Proof. apply Z.land_ones. Qed.

(** The three shapes of a decoded rune: an ASCII byte, an invalid byte, or two to
four bytes that decode alike whatever follows them. *)
Lemma decode_rune_shape b l : let '(r, n) := decode_rune b l in
  (n = 1%nat /\ r = byte_of b /\ byte_of b < 128) \/
  (n = 1%nat /\ r = RuneError /\ 128 <= byte_of b) \/
  ((2 <= n)%nat /\ (n <= S (length l))%nat /\ 128 <= r /\ 128 <= byte_of b /\
   forall t, decode_rune b (take (n - 1) l ++ t) = (r, n)).
Proof.
  pose proof (byte_range b) as Hb. unfold decode_rune. cbv zeta.
  destruct (Z.ltb_spec (byte_of b) 128); [by left|].
  destruct ((0xC2 <=? byte_of b) && (byte_of b <=? 0xDF)) eqn:E2;
    [|destruct ((0xE0 <=? byte_of b) && (byte_of b <=? 0xEF)) eqn:E3;
      [|destruct ((0xF0 <=? byte_of b) && (byte_of b <=? 0xF4)) eqn:E4; [|by right; left]]].
  - apply andb_true_iff in E2 as [E1 E2]. apply Z.leb_le in E1, E2.
    destruct l as [|b1 l]; [by right; left|]. destruct (between _ _ b1) eqn:B1; [|by right; left].
    right; right. split; [lia|]. split; [simpl; lia|]. pose proof (cont_range b1).
    split; [|split; [done|]].
    + rewrite lor_shiftl by lia. change 0x1F with (Z.ones 5). rewrite (low_bits _ 5) by lia. change (2 ^ 5) with 32. change (2 ^ 6) with 64.
      Z.to_euclidean_division_equations. lia.
    + intros t. simpl. by rewrite B1.
  - apply andb_true_iff in E3 as [E1 E3]. apply Z.leb_le in E1, E3.
    destruct l as [|b1 [|b2 l]]; [by right; left..|].
    destruct (between _ _ b1 && _) eqn:B1; [|by right; left]. pose proof B1 as [B2 B3]%andb_true_iff.
    right; right. split; [lia|]. split; [simpl; lia|]. pose proof (cont_range b1). pose proof (cont_range b2).
    split; [|split; [done|]].
    + rewrite (lor_shiftl (Z.land (byte_of b1) 63)) by lia. rewrite lor_shiftl by lia.
      apply cont_value in B2; [|clear; by destruct (_ =? _)|clear; by destruct (_ =? _)].
      change 0x0F with (Z.ones 4). rewrite (low_bits _ 4) by lia. change (2 ^ 4) with 16. change (2 ^ 6) with 64. change (2 ^ 12) with 4096.
      revert B2. destruct (Z.eqb_spec (byte_of b) 224); intros B2; Z.to_euclidean_division_equations; lia.
    + intros t. simpl. by rewrite B1.
  - apply andb_true_iff in E4 as [E1 E4]. apply Z.leb_le in E1, E4.
    destruct l as [|b1 [|b2 [|b3 l]]]; [by right; left..|].
    destruct (between _ _ b1 && _ && _) eqn:B1; [|by right; left]. pose proof B1 as [[B2 B3]%andb_true_iff _]%andb_true_iff.
    right; right. split; [lia|]. split; [simpl; lia|]. pose proof (cont_range b1). pose proof (cont_range b2). pose proof (cont_range b3).
    split; [|split; [done|]].
    + rewrite (lor_shiftl (Z.land (byte_of b2) 63)) by lia. rewrite (lor_shiftl (Z.land (byte_of b1) 63)) by lia.
      rewrite lor_shiftl by lia.
      apply cont_value in B2; [|clear; by destruct (_ =? _)|clear; by destruct (_ =? _)].
      change 0x07 with (Z.ones 3). rewrite (low_bits _ 3) by lia. change (2 ^ 3) with 8.
      change (2 ^ 6) with 64. change (2 ^ 12) with 4096. change (2 ^ 18) with 262144.
      revert B2. destruct (Z.eqb_spec (byte_of b) 240); intros B2; Z.to_euclidean_division_equations; lia.
    + intros t. simpl. by rewrite B1.
Qed.

Lemma visible_valid s : Forall (fun c => visible c = true) (String.list_ascii_of_string s) -> valid_utf8 s.
Proof.
  intros Hs. unfold valid_utf8, to_valid, strings_Map, runes. rewrite runes_visible by done.
  rewrite <- (String.string_of_list_ascii_of_string s) at 2. f_equal. rewrite map_map.
  induction Hs as [|c l Hc _ IH]; [done|]. cbn [map concat fst] in *. rewrite IH.
  apply andb_true_iff in Hc as [_ Hc%Z.ltb_lt]. pose proof (byte_range c). rewrite encode_rune_ascii by lia. by rewrite ascii_of_byte_of.
Qed.

(* ------------------------------------------------------------------ *)
(** ** Writing and reading back *)

Lemma byte_of_ascii_of z : 0 <= z < 256 -> byte_of (ascii_of z) = z.
Proof. intros Hz. unfold byte_of, ascii_of. rewrite N_ascii_embedding; lia. Qed.

(** Bits of a leading and of a continuation byte. *)
Lemma low6 x : Z.land x 0x3F = x mod 64.
Proof. change 0x3F with (Z.ones 6). by rewrite low_bits. Qed.

Lemma tag_bits tag x k : 0 <= k -> 0 <= x < 2 ^ k -> tag mod 2 ^ k = 0 -> Z.lor tag x = tag + x.
Proof.
  intros Hk Hx Ht. assert (tag = Z.shiftl (tag / 2 ^ k) k) as -> by (rewrite Z.shiftl_mul_pow2 by done; pose proof (Z.div_mod tag (2 ^ k)); lia).
  rewrite lor_shiftl by done. by rewrite Z.shiftl_mul_pow2.
Qed.

Lemma cont_byte x : 0 <= x < 64 -> byte_of (ascii_of (Z.lor 0x80 x)) = 128 + x.
Proof. intros Hx. rewrite (tag_bits 0x80 x 6) by (done || lia). apply byte_of_ascii_of. lia. Qed.

Lemma between_cont x lo hi : 0 <= x < 64 -> lo <= 128 + x <= hi -> between lo hi (ascii_of (Z.lor 0x80 x)) = true.
Proof. intros Hx Hb. unfold between. rewrite cont_byte by done. apply andb_true_iff. rewrite !Z.leb_le. lia. Qed.

(** A rune decodes from the bytes that AppendRune writes of it. *)
Lemma decode_rune_bytes r t : ValidRune r = true -> exists b l, rune_bytes r = b :: l /\
  decode_rune b (l ++ t) = (r, S (length l)).
Proof.
  intros Hv. assert (0 <= r <= 0x10FFFF /\ (r < 0xD800 \/ 0xDFFF < r)) as [Hr Hs].
  { unfold ValidRune in Hv. lia. }
  unfold rune_bytes. rewrite !low6, !Z.shiftr_div_pow2 by lia. change (2 ^ 6) with 64. change (2 ^ 12) with 4096. change (2 ^ 18) with 262144.
  destruct (Z.ltb_spec r 0x80); [|destruct (Z.ltb_spec r 0x800); [|destruct (Z.ltb_spec r 0x10000)]];
    eexists _, _; (split; [reflexivity|]); unfold decode_rune; cbv zeta; cbn [app length].
  - rewrite byte_of_ascii_of by lia. by destruct (Z.ltb_spec r 0x80); [|lia].
  - assert (2 <= r / 64 < 32) by (Z.to_euclidean_division_equations; lia).
    assert (0 <= r mod 64 < 64) by (apply Z.mod_pos_bound; lia).
    rewrite (tag_bits 0xC0 (r / 64) 6), byte_of_ascii_of by (done || lia).
    replace (0xC0 + r / 64 <? 0x80) with false by lia. replace (0xC2 <=? 0xC0 + r / 64) with true by lia.
    replace (0xC0 + r / 64 <=? 0xDF) with true by lia. cbn [andb]. rewrite between_cont by lia.
    f_equal. rewrite cont_byte, low6 by done. change 0x1F with (Z.ones 5). rewrite low_bits by lia. change (2 ^ 5) with 32.
    rewrite lor_shiftl by (try apply Z.mod_pos_bound; lia). change (2 ^ 6) with 64. Z.to_euclidean_division_equations; lia.
  - assert (0 <= r / 4096 < 16) by (Z.to_euclidean_division_equations; lia).
    assert (0 <= r mod 64 < 64) by (apply Z.mod_pos_bound; lia).
    assert (0 <= (r / 64) mod 64 < 64) by (apply Z.mod_pos_bound; lia).
    assert (Hsum : r = r / 4096 * 4096 + (r / 64) mod 64 * 64 + r mod 64) by (Z.to_euclidean_division_equations; lia).
    rewrite (tag_bits 0xE0 (r / 4096) 4), byte_of_ascii_of by (done || lia).
    replace (0xE0 + r / 4096 <? 0x80) with false by lia. replace (0xE0 + r / 4096 <=? 0xDF) with false by lia.
    replace (0xE0 <=? 0xE0 + r / 4096) with true by lia. replace (0xE0 + r / 4096 <=? 0xEF) with true by lia.
    rewrite andb_false_r. cbn [andb]. rewrite !between_cont; [|lia..|].
    2: destruct (Z.eqb_spec (224 + r / 4096) 224), (Z.eqb_spec (224 + r / 4096) 237); lia.
    cbn [andb]. f_equal. rewrite !cont_byte, !low6 by done.
    change 0x0F with (Z.ones 4). rewrite low_bits by lia. change (2 ^ 4) with 16.
    replace (128 + (r / 64) mod 64) with ((r / 64) mod 64 + 2 * 64) by lia. replace (128 + r mod 64) with (r mod 64 + 2 * 64) by lia.
    rewrite !Z.mod_add, !Z.mod_mod by done.
    replace ((224 + r / 4096) mod 16) with (r / 4096) by (Z.to_euclidean_division_equations; lia).
    rewrite (lor_shiftl ((r / 64) mod 64)) by (done || lia). rewrite lor_shiftl; lia.
  - assert (0 <= r / 262144 < 5) by (Z.to_euclidean_division_equations; lia).
    assert (0 <= r mod 64 < 64) by (apply Z.mod_pos_bound; lia).
    assert (0 <= (r / 64) mod 64 < 64) by (apply Z.mod_pos_bound; lia).
    assert (0 <= (r / 4096) mod 64 < 64) by (apply Z.mod_pos_bound; lia).
    assert (Hsum : r = r / 262144 * 262144 + (r / 4096) mod 64 * 4096 + (r / 64) mod 64 * 64 + r mod 64) by (Z.to_euclidean_division_equations; lia).
    rewrite (tag_bits 0xF0 (r / 262144) 4), byte_of_ascii_of by (done || lia).
    replace (0xF0 + r / 262144 <? 0x80) with false by lia. replace (0xF0 + r / 262144 <=? 0xDF) with false by lia.
    replace (0xF0 + r / 262144 <=? 0xEF) with false by lia.
    replace (0xF0 <=? 0xF0 + r / 262144) with true by lia. replace (0xF0 + r / 262144 <=? 0xF4) with true by lia.
    rewrite !andb_false_r. cbn [andb]. rewrite !between_cont; [|lia..|].
    2: destruct (Z.eqb_spec (240 + r / 262144) 240), (Z.eqb_spec (240 + r / 262144) 244); lia.
    cbn [andb]. f_equal. rewrite !cont_byte, !low6 by done.
    change 0x07 with (Z.ones 3). rewrite low_bits by lia. change (2 ^ 3) with 8.
    replace (128 + (r / 64) mod 64) with ((r / 64) mod 64 + 2 * 64) by lia. replace (128 + r mod 64) with (r mod 64 + 2 * 64) by lia.
    replace (128 + (r / 4096) mod 64) with ((r / 4096) mod 64 + 2 * 64) by lia.
    rewrite !Z.mod_add, !Z.mod_mod by done.
    replace ((240 + r / 262144) mod 8) with (r / 262144) by (Z.to_euclidean_division_equations; lia).
    rewrite (lor_shiftl ((r / 64) mod 64)) by (done || lia). rewrite (lor_shiftl ((r / 4096) mod 64)); [|done|lia]. rewrite lor_shiftl; lia.
Qed.

Lemma encode_rune_decodes r (t : list ascii) : exists b (l : list ascii), encode_rune r = b :: l /\
  let '(r', n) := decode_rune b (l ++ t) in n = S (length l) /\ encode_rune r' = encode_rune r.
Proof.
  unfold encode_rune. set (r0 := if ValidRune r then r else RuneError).
  assert (Hv : ValidRune r0 = true) by (unfold r0; by destruct (ValidRune r) eqn:?).
  destruct (decode_rune_bytes r0 t Hv) as (b & l & He & Hd). exists b, l. rewrite Hd. split; [done|]. by rewrite Hv.
Qed.

Lemma runes_encoded rs t : exists rs', runes_from 0 (concat (map encode_rune rs) ++ t) = rs' ++ runes_from 0 t /\
  map (fun p => encode_rune p.1) rs' = map encode_rune rs.
Proof.
  induction rs as [|r rs (rs' & IH & Hrs)]; [by exists []|]. cbn [map concat]. rewrite <- app_assoc.
  destruct (encode_rune_decodes r (concat (map encode_rune rs) ++ t)) as (b & l & He & Hd). rewrite He. cbn [app].
  rewrite runes_from_cons. destruct (decode_rune b _) as [r' n]. destruct Hd as [-> Hd]. cbn [Nat.sub]. rewrite Nat.sub_0_r, drop_app_length, IH.
  eexists (_ :: rs'). split; [reflexivity|]. cbn [map fst]. by rewrite Hd, He, Hrs.
Qed.

(** What [strings.Map] returns is valid UTF-8. *)
Lemma map_valid f s t : to_valid (strings_Map f s +:+ t) = strings_Map f s +:+ to_valid t.
Proof.
  unfold to_valid. unfold strings_Map at 1. unfold runes. rewrite list_ascii_app. unfold strings_Map at 1.
  rewrite String.list_ascii_of_string_of_list_ascii. rewrite <- (map_map (fun p => f p.1) encode_rune).
  destruct (runes_encoded (map (fun p => f p.1) (runes s)) (String.list_ascii_of_string t)) as (rs & -> & Hrs).
  rewrite map_app, concat_app, Hrs, string_app_list, map_map. done.
Qed.

Lemma to_valid_idem s : valid_utf8 (to_valid s).
Proof. unfold valid_utf8. rewrite <- (string_app_nil_r (to_valid s)) at 1. unfold to_valid at 2. rewrite map_valid. by rewrite string_app_nil_r. Qed.

Lemma valid_app a b : valid_utf8 a -> to_valid (a +:+ b) = a +:+ to_valid b.
Proof. unfold valid_utf8. intros Ha. rewrite <- Ha at 1. unfold to_valid at 2. rewrite map_valid. by rewrite <- Ha at 2. Qed.

Lemma to_valid_empty s : is_empty (to_valid s) = is_empty s.
Proof.
  destruct s as [|c s]; [done|]. unfold to_valid, strings_Map, runes. cbn [String.list_ascii_of_string]. rewrite runes_from_cons.
  destruct (decode_rune _ _) as [r n]. cbn [map concat fst]. destruct (encode_rune_decodes r []) as (b & l & -> & _). done.
Qed.
