(* ===== verification/Money.v ===== *)
(** * Package [money] ([pkg/shared/money/money.go]).

Amounts are [int64] pence, kept at their width: [Add] and [Sub] wrap around. *)
From S2P Require Import Prelude GoStrings.
Local Open Scope Z_scope.

Record Money := MkMoney { AmountPence : Z; Currency : string }.

#[export] Instance Money_eq_dec : EqDecision Money.
Proof. solve_decision. Defined.

(** The zero value [Money{}]. *)
Definition zero_money : Money := MkMoney 0 "".

Section Money.
Context `{Unicode}.

Definition isAlpha (s : string) : bool :=
  forallb (fun p => unicode_IsLetter p.1) (runes s).

Definition New (amountPence : Z) (currency : string) : result string Money :=
  let currency := ToUpper (TrimSpace currency) in
  if amountPence <=? 0 then Err "amount must be positive"
  else if negb (str_len currency =? 3) || negb (isAlpha currency)
       then Err "currency must be 3-letter ISO code"
       else Ok (MkMoney amountPence currency).
End Money.

(** [%02d] of a number below one hundred. *)
Definition pad2 (z : Z) : string := if z <? 10 then "0" +:+ itoa z else itoa z.

Definition String_ (m : Money) : string :=
  let major := Z.quot (AmountPence m) 100 in
  let minor := Z.rem (AmountPence m) 100 in
  let minor := if minor <? 0 then - minor else minor in
  Currency m +:+ " " +:+ itoa major +:+ "." +:+ pad2 minor.

Definition IsZero (m : Money) : bool := AmountPence m =? 0.
Definition IsPositive (m : Money) : bool := 0 <? AmountPence m.
Definition SameCurrency (m other : Money) : bool := bool_decide (Currency m = Currency other).
Definition Equal (m other : Money) : bool :=
  (AmountPence m =? AmountPence other) && bool_decide (Currency m = Currency other).

Definition Add (m other : Money) : result string Money :=
  if negb (is_empty (Currency m)) && negb (is_empty (Currency other)) && negb (SameCurrency m other)
  then Err ("cannot add " +:+ Currency other +:+ " to " +:+ Currency m +:+ ": currency mismatch")
  else
    let cur := if is_empty (Currency m) then Currency other else Currency m in
    Ok (MkMoney (int64 (AmountPence m + AmountPence other)) cur).

Definition Sub (m other : Money) : result string Money :=
  if negb (is_empty (Currency m)) && negb (is_empty (Currency other)) && negb (SameCurrency m other)
  then Err ("cannot subtract " +:+ Currency other +:+ " from " +:+ Currency m +:+ ": currency mismatch")
  else
    let res := int64 (AmountPence m - AmountPence other) in
    if res <? 0
    then Err ("subtraction results in negative amount: " +:+ itoa (AmountPence m)
              +:+ " - " +:+ itoa (AmountPence other))
    else
      let cur := if is_empty (Currency m) then Currency other else Currency m in
      Ok (MkMoney res cur).

(* ------------------------------------------------------------------ *)
(** ** Arithmetic at 64 bits *)

(** An amount as [New] makes it, or zero. *)
Definition amount_ok (m : Money) : Prop := 0 <= AmountPence m <= max_int64.

Lemma int64_over z : max_int64 < z <= 2 * max_int64 -> int64 z = z - 2 ^ 64.
Proof.
  unfold max_int64, int64. intros Hz. rewrite <- (Z.mod_unique (z + 2 ^ 63) (2 ^ 64) 1 (z + 2 ^ 63 - 2 ^ 64)); lia.
Qed.

Lemma same_currency m o : Currency m = Currency o ->
  negb (is_empty (Currency m)) && negb (is_empty (Currency o)) && negb (SameCurrency m o) = false.
Proof. intros Heq. unfold SameCurrency. rewrite bool_decide_eq_true_2 by done. by rewrite andb_false_r. Qed.

(** C28.  Adding two amounts of one currency never reports an error.  While the sum
fits 64 bits it is exact and [Sub] undoes it; past that [Add] silently returns a
negative amount. *)
Theorem Add_exact_or_wraps m o :
  amount_ok m -> amount_ok o -> Currency m = Currency o ->
  exists s, Add m o = Ok s /\ Currency s = Currency m /\
    if AmountPence m + AmountPence o <=? max_int64
    then AmountPence s = AmountPence m + AmountPence o /\ Sub s o = Ok m
    else AmountPence s = AmountPence m + AmountPence o - 2 ^ 64 /\ IsPositive s = false.
Proof.
  intros [Hm Hm'] [Ho Ho'] Hc. unfold Add. rewrite same_currency by done. rewrite <- Hc.
  assert (Hcur : (if is_empty (Currency m) then Currency m else Currency m) = Currency m) by by destruct (is_empty _).
  eexists. split; [done|]. cbn [Currency AmountPence]. split; [done|].
  destruct (Z.leb_spec (AmountPence m + AmountPence o) max_int64).
  - rewrite int64_id by (unfold in_int64, min_int64; lia). split; [done|]. unfold Sub.
    rewrite same_currency by (cbn [Currency]; by rewrite Hcur). cbn [Currency AmountPence]. rewrite int64_id by (unfold in_int64, min_int64; lia).
    destruct (Z.ltb_spec (AmountPence m + AmountPence o - AmountPence o) 0); [lia|].
    rewrite Hcur, <- Hc, Hcur. destruct m. do 2 f_equal. simpl. lia.
  - rewrite int64_over by lia. split; [done|]. unfold IsPositive. simpl. unfold max_int64 in *.
    destruct (Z.ltb_spec 0 (AmountPence m + AmountPence o - 2 ^ 64)); [lia|done].
Qed.

(** Subtraction never goes below zero: on amounts in range it answers the
exact difference, in the currency that is set, when the currencies do not
clash and the difference is not negative, and an error otherwise. *)
Theorem Sub_spec m o r :
  amount_ok m -> amount_ok o ->
  Sub m o = Ok r <->
  (Currency m = "" \/ Currency o = "" \/ Currency m = Currency o) /\ AmountPence o <= AmountPence m /\
  r = MkMoney (AmountPence m - AmountPence o) (if is_empty (Currency m) then Currency o else Currency m).
Proof.
  intros [Hm Hm'] [Ho Ho']. unfold Sub. rewrite int64_id by (unfold in_int64, min_int64, max_int64 in *; lia).
  assert (Hcl : negb (is_empty (Currency m)) && negb (is_empty (Currency o)) && negb (SameCurrency m o) = false <->
    (Currency m = "" \/ Currency o = "" \/ Currency m = Currency o)).
  { unfold SameCurrency. rewrite !andb_false_iff, !negb_false_iff, !is_empty_true, bool_decide_eq_true. tauto. }
  destruct (_ && negb (SameCurrency m o)).
  - split; [done|]. intros [Hc _]. by apply Hcl in Hc.
  - destruct (Z.ltb_spec (AmountPence m - AmountPence o) 0).
    + split; [done|]. intros (_ & ? & _). lia.
    + split; [intros [= <-]|by intros (_ & _ & ->)]. split_and!; [by apply Hcl|lia|done].
Qed.

Definition five : Money := MkMoney 500 "GBP".

Lemma Add_witness :
  exists s, Add five five = Ok s /\ Currency s = Currency five /\
    if AmountPence five + AmountPence five <=? max_int64
    then AmountPence s = AmountPence five + AmountPence five /\ Sub s five = Ok five
    else AmountPence s = AmountPence five + AmountPence five - 2 ^ 64 /\ IsPositive s = false.
Proof. apply (Add_exact_or_wraps five five); [split; vm_compute; discriminate..|reflexivity]. Defined.

Lemma Sub_witness : Sub five (MkMoney 120 "") = Ok (MkMoney 380 "GBP").
Proof.
  apply (Sub_spec five (MkMoney 120 "") (MkMoney 380 "GBP")); [split; vm_compute; discriminate..|].
  split; [right; left; reflexivity|]. split; [vm_compute; discriminate|reflexivity].
Defined.
