(* ===== verification/DomainErr.v ===== *)
(** * Go errors and package [domainerr] ([pkg/shared/domainerr/errors.go]).

[error] is the sum of the error values the services meet: the platform's own
[*domainerr.Error] (with its wrapped cause), a gRPC status error, the errors of
the PostgreSQL, Redis and transaction layers, the bank adapter's transient
error, and [fmt.Errorf] texts without a cause or of the forms "prefix: %w" and
"prefix: %w suffix".

grpc-go is not part of the repository.  What is read of it is the parameter
[GrpcLib]: the text of a status error, how [status.FromError] reads an error
that is not itself a status, and whether [Status.WithDetails] can attach a
detail. *)
From S2P Require Import Prelude GoStrings.
From Stdlib Require Import Ascii.

(** The codes of [google.golang.org/grpc/codes]. *)
Inductive GrpcCode :=
| CodeOK | Canceled | Unknown | InvalidArgument | DeadlineExceeded | NotFound
| AlreadyExists | PermissionDenied | ResourceExhausted | FailedPrecondition
| Aborted | OutOfRange | Unimplemented | Internal | Unavailable | DataLoss
| Unauthenticated.

#[export] Instance GrpcCode_eq_dec : EqDecision GrpcCode.
Proof. solve_decision. Defined.

(** An [errdetails.ErrorInfo] detail of a status. *)
Record ErrorInfo := { Reason : string; Domain : string }.

Record Status := MkStatus {
  st_Code : GrpcCode;
  st_Message : string;
  st_Details : list ErrorInfo;
}.

Inductive error : Type :=
| DomainError (code msg : string) (cause : option error)
| StatusError (st : Status)
| PgError (sqlstate text : string)
| ErrNoRows
| ErrTxCommitRollback
| RedisNil
| TransientError (msg : string)
| PlainError (text : string)
| WrapError (prefix : string) (cause : error)
| WrapTail (prefix : string) (cause : error) (suffix : string).

(** The struct [domainerr.Error]; [err_of] is the pointer seen as an [error]. *)
Record Error := MkError { Code : string; Message : string; Cause : option error }.
Definition err_of (d : Error) : error := DomainError (Code d) (Message d) (Cause d).

Definition DomainPlatform : string := "vrp.platform".
Definition CodeValidation : string := "VALIDATION_ERROR".
Definition CodeNotFound : string := "NOT_FOUND".
Definition CodeAlreadyExists : string := "ALREADY_EXISTS".
Definition CodeConsentLimitExceeded : string := "CONSENT_LIMIT_EXCEEDED".
Definition CodeConsentExpired : string := "CONSENT_EXPIRED".
Definition CodeConsentRevoked : string := "CONSENT_REVOKED".
Definition CodeConsentInactive : string := "CONSENT_INACTIVE".
Definition CodeRiskDeclined : string := "RISK_DECLINED".
Definition CodeBankRejected : string := "BANK_REJECTED".
Definition CodeBankUnavailable : string := "BANK_UNAVAILABLE".
Definition CodeMerchantSuspended : string := "MERCHANT_SUSPENDED".
Definition CodeDuplicateIdempotency : string := "DUPLICATE_IDEMPOTENCY_KEY".
Definition CodeConflict : string := "CONFLICT".
Definition CodeInternal : string := "INTERNAL_ERROR".

Definition New (code msg : string) : error := DomainError code msg None.
Definition Wrap (code msg : string) (err : error) : error := DomainError code msg (Some err).

(** [errors.As(err, &de)] for a target of type [*domainerr.Error]: the first
platform error of the chain. *)
Fixpoint errors_As (err : error) : option Error :=
  match err with
  | DomainError c m i => Some (MkError c m i)
  | WrapError _ i | WrapTail _ i _ => errors_As i
  | _ => None
  end.

(** [errors.Is] for the sentinels [pgx.ErrNoRows] and [redis.Nil]. *)
Fixpoint errors_Is_NoRows (err : error) : bool :=
  match err with
  | ErrNoRows => true
  | DomainError _ _ (Some i) => errors_Is_NoRows i
  | WrapError _ i | WrapTail _ i _ => errors_Is_NoRows i
  | _ => false
  end.

(** [errors.As(err, &pgErr)]: the SQLSTATE of the first [*pgconn.PgError]. *)
Fixpoint errors_As_Pg (err : error) : option string :=
  match err with
  | PgError s _ => Some s
  | DomainError _ _ (Some i) => errors_As_Pg i
  | WrapError _ i | WrapTail _ i _ => errors_As_Pg i
  | _ => None
  end.

(** [pgErr.Code == "23505"]. *)
Definition isUniqueViolation (err : error) : bool :=
  match errors_As_Pg err with Some s => bool_decide (s = "23505") | None => false end.

Class GrpcLib := {
  status_text : Status -> string;
  status_FromError_wrapped : error -> option Status;
  WithDetails_fails : Status -> ErrorInfo -> bool;
}.

Section DomainErr.
Context `{GrpcLib}.

(** [err.Error()]. *)
Fixpoint Error_ (err : error) : string :=
  match err with
  | DomainError c m (Some i) => c +:+ ": " +:+ m +:+ ": " +:+ Error_ i
  | DomainError c m None => c +:+ ": " +:+ m
  | StatusError st => status_text st
  | PgError _ t => t
  | ErrNoRows => "no rows in result set"
  | ErrTxCommitRollback => "commit unexpectedly resulted in rollback"
  | RedisNil => "redis: nil"
  | TransientError m => m
  | PlainError t => t
  | WrapError t i => t +:+ ": " +:+ Error_ i
  | WrapTail t i u => t +:+ ": " +:+ Error_ i +:+ u
  end.

(** [status.FromError]: the status of an error, if it has one. *)
Definition status_FromError (err : error) : option Status :=
  match err with
  | StatusError st => Some st
  | _ => status_FromError_wrapped err
  end.

Definition status_Error (c : GrpcCode) (m : string) : error := StatusError (MkStatus c m []).

Definition isKnownCode (c : string) : bool :=
  bool_decide (c ∈ [CodeValidation; CodeNotFound; CodeAlreadyExists; CodeConsentLimitExceeded;
    CodeConsentExpired; CodeConsentRevoked; CodeConsentInactive; CodeRiskDeclined;
    CodeBankRejected; CodeBankUnavailable; CodeMerchantSuspended;
    CodeDuplicateIdempotency; CodeConflict; CodeInternal]).

Definition makeFailedPrecondition (de : Error) : error :=
  let st := MkStatus FailedPrecondition (Message de) [] in
  let info := {| Reason := Code de; Domain := DomainPlatform |} in
  if WithDetails_fails st info
  then status_Error FailedPrecondition (Code de +:+ ": " +:+ Message de)
  else StatusError (MkStatus FailedPrecondition (Message de) [info]).

(** [ToGRPC] on a non-nil error; on nil it is nil. *)
Definition ToGRPC (err : error) : error :=
  match errors_As err with
  | None => status_Error Internal (Error_ err)
  | Some de =>
      let c := Code de in
      if bool_decide (c = CodeValidation) then status_Error InvalidArgument (Message de)
      else if bool_decide (c = CodeNotFound) then status_Error NotFound (Message de)
      else if bool_decide (c ∈ [CodeAlreadyExists; CodeDuplicateIdempotency])
           then status_Error AlreadyExists (Message de)
      else if bool_decide (c ∈ [CodeConsentLimitExceeded; CodeConsentExpired; CodeConsentRevoked;
                CodeConsentInactive; CodeRiskDeclined; CodeBankRejected;
                CodeMerchantSuspended; CodeConflict])
           then makeFailedPrecondition de
      else if bool_decide (c = CodeBankUnavailable) then status_Error Unavailable (Message de)
      else status_Error Internal (Message de)
  end.

(** [FromGRPC] on a non-nil error; on nil it is nil. *)
Definition FromGRPC (err : error) : Error :=
  match errors_As err with
  | Some de => de
  | None =>
      match status_FromError err with
      | None => MkError CodeInternal (Error_ err) None
      | Some st =>
          match List.find (fun i => bool_decide (Domain i = DomainPlatform)) (st_Details st) with
          | Some info => MkError (Reason info) (st_Message st) None
          | None =>
              let msg := st_Message st in
              let by_code :=
                match st_Code st with
                | InvalidArgument => MkError CodeValidation msg None
                | NotFound => MkError CodeNotFound msg None
                | AlreadyExists => MkError CodeAlreadyExists msg None
                | Unavailable => MkError CodeBankUnavailable msg None
                | _ => MkError CodeInternal msg None
                end in
              match strings_Index msg ": " with
              | Some idx =>
                  if isKnownCode (str_take idx msg)
                  then MkError (str_take idx msg) (str_drop (idx + 2) msg) None
                  else by_code
              | None => by_code
              end
          end
      end
  end.

Definition Is (err : error) (code : string) : bool :=
  match errors_As err with Some de => bool_decide (Code de = code) | None => false end.

(** [CodeOf] and [MessageOf]; [None] is the nil error. *)
Definition CodeOf (err : option error) : string :=
  match err with
  | None => CodeInternal
  | Some e => match errors_As e with Some de => Code de | None => Code (FromGRPC e) end
  end.

Definition MessageOf (err : option error) : string :=
  match err with
  | None => ""
  | Some e => match errors_As e with Some de => Message de | None => Message (FromGRPC e) end
  end.
(* ------------------------------------------------------------------ *)
(** ** Errors across a gRPC call *)

(** A message that does not itself start with a known code and a colon. *)
Definition plain_message (m : string) : Prop :=
  forall i, strings_Index m ": " = Some i -> isKnownCode (str_take i m) = false.

Lemma FromGRPC_plain c m : plain_message m ->
  FromGRPC (status_Error c m) =
  match c with
  | InvalidArgument => MkError CodeValidation m None
  | NotFound => MkError CodeNotFound m None
  | AlreadyExists => MkError CodeAlreadyExists m None
  | Unavailable => MkError CodeBankUnavailable m None
  | _ => MkError CodeInternal m None
  end.
Proof.
  intros Hm. unfold FromGRPC. simpl. destruct (strings_Index m ": ") as [i|] eqn:Hi; [|by destruct c].
  rewrite (Hm i Hi). by destruct c.
Qed.

Fixpoint no_colon (s : string) : bool :=
  match s with
  | EmptyString => true
  | String c s' => negb (bool_decide (c = ":"%char)) && no_colon s'
  end.

(** Cutting [code: message] at its first colon. *)
Lemma cut_Index c m : no_colon c = true -> strings_Index (c +:+ ": " +:+ m) ": " = Some (String.length c).
Proof.
  unfold strings_Index. induction c as [|x c IH]; intros Hc; [by destruct m|].
  cbn [no_colon] in Hc. apply andb_true_iff in Hc as [Hx Hc]. apply negb_true_iff, bool_decide_eq_false in Hx.
  change (String x c +:+ ": " +:+ m) with (String x (c +:+ ": " +:+ m)). cbn [String.index String.prefix].
  destruct (ascii_dec ":" x); [by subst|]. by rewrite IH.
Qed.

Lemma cut_take c s : str_take (String.length c) (c +:+ s) = c.
Proof. unfold str_take. induction c as [|x c IH]; [by destruct s|]. simpl. by rewrite IH. Qed.

Lemma substring_all m : String.substring 0 (String.length m) m = m.
Proof. induction m as [|c m IH]; [done|]. simpl. by rewrite IH. Qed.

Lemma cut_drop c m : str_drop (String.length c + 2) (c +:+ ": " +:+ m) = m.
Proof.
  unfold str_drop. induction c as [|x c IH]; [simpl; rewrite Nat.sub_0_r; apply substring_all|]. exact IH.
Qed.

Lemma known_no_colon c : isKnownCode c = true -> no_colon c = true.
Proof.
  unfold isKnownCode. intros Hc%bool_decide_eq_true.
  repeat (apply elem_of_cons in Hc as [->|Hc]; [reflexivity|]). by apply elem_of_nil in Hc.
Qed.

(** A precondition failure carries its code as a detail, or in its text. *)
Lemma FromGRPC_precondition c m cause : isKnownCode c = true ->
  FromGRPC (makeFailedPrecondition (MkError c m cause)) = MkError c m None.
Proof.
  intros Hc. unfold makeFailedPrecondition, FromGRPC. simpl. destruct (WithDetails_fails _ _); [|done]. simpl.
  rewrite cut_Index by by apply known_no_colon. by rewrite cut_take, Hc, cut_drop.
Qed.

Lemma known_cases (P : string -> Prop) :
  P CodeValidation -> P CodeNotFound -> P CodeAlreadyExists -> P CodeBankUnavailable -> P CodeInternal ->
  P CodeDuplicateIdempotency ->
  Forall P [CodeConsentLimitExceeded; CodeConsentExpired; CodeConsentRevoked; CodeConsentInactive;
            CodeRiskDeclined; CodeBankRejected; CodeMerchantSuspended; CodeConflict] ->
  forall c, isKnownCode c = true -> P c.
Proof.
  intros ?????? HF c Hc. unfold isKnownCode in Hc. apply bool_decide_eq_true in Hc.
  rewrite Forall_forall in HF. repeat (apply elem_of_cons in Hc as [->|Hc]; [try done; apply HF; set_solver|]).
  by apply elem_of_nil in Hc.
Qed.

(** What a client reads back of each known code. *)
Lemma FromGRPC_ToGRPC c m cause :
  isKnownCode c = true -> plain_message m ->
  FromGRPC (ToGRPC (DomainError c m cause)) =
  MkError (if bool_decide (c = CodeDuplicateIdempotency) then CodeAlreadyExists else c) m None.
Proof.
  intros Hc Hm. revert c Hc. apply known_cases; try exact (FromGRPC_plain _ _ Hm).
  repeat constructor; apply FromGRPC_precondition; reflexivity.
Qed.

(** A platform error survives a gRPC call: the code and message a server puts
into a status are the ones its client reads back, for every known code, whether
or not the status could carry a detail, when the message does not itself begin
with a known code and a colon; DUPLICATE_IDEMPOTENCY_KEY alone comes back as
ALREADY_EXISTS. *)
Theorem grpc_roundtrip c m cause :
  isKnownCode c = true -> plain_message m ->
  FromGRPC (ToGRPC (DomainError c m cause)) =
  MkError (if bool_decide (c = CodeDuplicateIdempotency) then CodeAlreadyExists else c) m None.
Proof.
  apply FromGRPC_ToGRPC.
Qed.
End DomainErr.

(** A library that attaches every detail, to evaluate examples. *)
Definition simple_grpc : GrpcLib := {|
  status_text st := st_Message st;
  status_FromError_wrapped _ := None;
  WithDetails_fails _ _ := false;
|}.

Lemma grpc_roundtrip_witness :
  @FromGRPC simple_grpc (@ToGRPC simple_grpc (DomainError CodeRiskDeclined "score: 95" None)) =
  MkError CodeRiskDeclined "score: 95" None.
Proof.
  apply (@grpc_roundtrip simple_grpc CodeRiskDeclined "score: 95" None); [reflexivity|].
  intros i Hi. vm_compute in Hi. injection Hi as <-. reflexivity.
Defined.
