(* ===== verification/World.v ===== *)
(** * The environment of a service: clock, random identifiers, failing calls,
and SQL transactions.

A service runs in a [world]: its stored data together with an environment that
fixes, for every call number, what the clock reads, which fresh UUID is drawn
and whether the call to the database (or another engine) fails.  The
environment is arbitrary, so a theorem about all worlds is a theorem about all
clocks and all failures.  A failing call is either [Refused] (nothing was
applied) or [LostReply] (the engine applied it, and the caller sees an error).

A transaction works on a copy of the tables; [begin_func] is
[pgx.BeginFunc]/[pgx.BeginTxFunc]: roll back when the body fails, otherwise
check the deferred constraints and commit.  As in PostgreSQL, [NOW()] is the
start time of the transaction, and after a failed statement every further
statement fails with SQLSTATE 25P02 and a commit turns into a rollback. *)
From S2P Require Import Prelude DomainErr.

Inductive fault : Type :=
| NoFault
| Refused (e : error)
| LostReply (e : error).

Record env := MkEnv {
  tick : nat;
  clock : nat -> Z;
  uuid_at : nat -> string;
  fault_at : nat -> fault;
}.

Record world (S : Type) := MkWorld { w_env : env; w_st : S }.
Arguments MkWorld {S}.
Arguments w_env {S}.
Arguments w_st {S}.

Definition bump (e : env) : env := MkEnv (S (tick e)) (clock e) (uuid_at e) (fault_at e).
Definition cur_clock (e : env) : Z := clock e (tick e).
Definition cur_uuid (e : env) : string := uuid_at e (tick e).
Definition cur_fault (e : env) : fault := fault_at e (tick e).

(** No call fails from now on. *)
Definition calm (e : env) : Prop := forall n, (tick e <= n)%nat -> fault_at e n = NoFault.

Lemma calm_bump e : calm e -> calm (bump e).
Proof. intros Hc n Hn. apply Hc. simpl in Hn. lia. Qed.

Lemma calm_now e : calm e -> fault_at e (tick e) = NoFault.
Proof. intros Hc. by apply Hc. Qed.

#[export] Hint Extern 0 (calm _) => solve [repeat first [assumption | apply calm_bump]] : core.

Section Calls.
Context {S A : Type}.

(** [time.Now()]. *)
Definition time_Now : M (world S) Z :=
  fun w => (cur_clock (w_env w), MkWorld (bump (w_env w)) (w_st w)).

(** [uuid.New()]. *)
Definition uuid_New : M (world S) string :=
  fun w => (cur_uuid (w_env w), MkWorld (bump (w_env w)) (w_st w)).

(** A statement gets [NOW()] and a fresh UUID for a [gen_random_uuid()] default. *)
Definition stmt : Type := Z -> string -> S -> result error A * S.

(** A statement on its own (autocommit). *)
Definition exec (q : stmt) : M (world S) (result error A) :=
  fun w =>
    let e := w_env w in
    match cur_fault e with
    | NoFault => let '(r, s) := q (cur_clock e) (cur_uuid e) (w_st w) in (r, MkWorld (bump e) s)
    | Refused err => (Err err, MkWorld (bump e) (w_st w))
    | LostReply err =>
        let '(_, s) := q (cur_clock e) (cur_uuid e) (w_st w) in (Err err, MkWorld (bump e) s)
    end.
End Calls.
Arguments stmt : clear implicits.

(** A call outside the stored data that can fail: drawing random bytes, waiting,
asking whether the context has ended. *)
Definition draw {S A} (f : nat -> result error A) : M (world S) (result error A) :=
  fun w =>
    let e := w_env w in
    (match cur_fault e with NoFault => f (tick e) | Refused err | LostReply err => Err err end,
     MkWorld (bump e) (w_st w)).

(** A call to another service: it may not arrive, or its reply may be lost. *)
Definition remote {S A} (m : M (world S) (result error A)) : M (world S) (result error A) := fun w =>
  let e := w_env w in
  let w1 := MkWorld (bump e) (w_st w) in
  match cur_fault e with
  | NoFault => m w1
  | Refused err => (Err err, w1)
  | LostReply err => (Err err, snd (m w1))
  end.

Record tx (S : Type) := MkTx { tx_now : Z; tx_db : S; tx_aborted : bool }.
Arguments MkTx {S}.
Arguments tx_now {S}.
Arguments tx_db {S}.
Arguments tx_aborted {S}.

Definition in_failed_tx : error :=
  PgError "25P02" "ERROR: current transaction is aborted (SQLSTATE 25P02)".

Section Transactions.
Context {S A : Type}.

(** A statement inside a transaction. *)
Definition tx_exec (q : stmt S A) : M (world (tx S)) (result error A) :=
  fun w =>
    let e := w_env w in
    let t := w_st w in
    let abort := MkWorld (bump e) (MkTx (tx_now t) (tx_db t) true) in
    if tx_aborted t then (Err in_failed_tx, MkWorld (bump e) t)
    else match cur_fault e with
         | NoFault =>
             match q (tx_now t) (cur_uuid e) (tx_db t) with
             | (Ok a, s) => (Ok a, MkWorld (bump e) (MkTx (tx_now t) s false))
             | (Err err, _) => (Err err, abort)
             end
         | Refused err | LostReply err => (Err err, abort)
         end.

(** [BeginFunc]: [deferred] is the check of the deferred constraints at commit,
given the tables before and after the transaction. *)
Definition begin_func (deferred : S -> S -> option error)
    (body : M (world (tx S)) (result error A)) : M (world S) (result error A) :=
  fun w =>
    let e := w_env w in
    let s := w_st w in
    match cur_fault e with
    | Refused err | LostReply err => (Err err, MkWorld (bump e) s)
    | NoFault =>
        let '(r, w1) := body (MkWorld (bump e) (MkTx (cur_clock e) s false)) in
        let e1 := w_env w1 in
        let t := w_st w1 in
        match r with
        | Err err => (Err err, MkWorld (bump e1) s)
        | Ok a =>
            if tx_aborted t then (Err ErrTxCommitRollback, MkWorld (bump e1) s)
            else match deferred s (tx_db t) with
                 | Some err => (Err err, MkWorld (bump e1) s)
                 | None =>
                     match cur_fault e1 with
                     | NoFault => (Ok a, MkWorld (bump e1) (tx_db t))
                     | Refused err => (Err err, MkWorld (bump e1) s)
                     | LostReply err => (Err err, MkWorld (bump e1) (tx_db t))
                     end
                 end
        end
    end.
End Transactions.

(** [pool.Begin], a body, [tx.Commit], with [Rollback] deferred: as [begin_func],
with the errors of [Begin] and [Commit] wrapped by the caller. *)
Definition manual_tx {S A} (fbegin fcommit : error -> error)
    (body : M (world (tx S)) (result error A)) : M (world S) (result error A) :=
  fun w =>
    let e := w_env w in
    let s := w_st w in
    match cur_fault e with
    | Refused err | LostReply err => (Err (fbegin err), MkWorld (bump e) s)
    | NoFault =>
        let '(r, w1) := body (MkWorld (bump e) (MkTx (cur_clock e) s false)) in
        let e1 := w_env w1 in
        let t := w_st w1 in
        match r with
        | Err err => (Err err, MkWorld (bump e1) s)
        | Ok a =>
            if tx_aborted t then (Err (fcommit ErrTxCommitRollback), MkWorld (bump e1) s)
            else match cur_fault e1 with
                 | NoFault => (Ok a, MkWorld (bump e1) (tx_db t))
                 | Refused err => (Err (fcommit err), MkWorld (bump e1) s)
                 | LostReply err => (Err (fcommit err), MkWorld (bump e1) (tx_db t))
                 end
        end
    end.

(** Run a call on a part of the stored data, in the same environment. *)
Definition within {S V A} (get : S -> V) (set : V -> S -> S) (m : M (world V) A) : M (world S) A :=
  zoom (fun w => MkWorld (w_env w) (get (w_st w)))
       (fun v w => MkWorld (w_env v) (set (w_st v) (w_st w))) m.

Definition no_deferred {S} (_ _ : S) : option error := None.

(** [QueryRow(...).Scan(...)]: no row is [pgx.ErrNoRows]. *)
Definition scan_row {A} (r : result error (option A)) : result error A :=
  match r with
  | Ok (Some a) => Ok a
  | Ok None => Err ErrNoRows
  | Err e => Err e
  end.

Definition tx_row {S A} (q : stmt S (option A)) : M (world (tx S)) (result error A) :=
  (r <- tx_exec q ;; gret (scan_row r))%go.
Definition row {S A} (q : stmt S (option A)) : M (world S) (result error A) :=
  (r <- exec q ;; gret (scan_row r))%go.

(** A read-only statement. *)
Definition query {S A} (f : Z -> S -> A) : stmt S A := fun now _ s => (Ok (f now s), s).

(* ------------------------------------------------------------------ *)
(** ** Reasoning rules *)

Section Rules.
Context {S A : Type}.

Lemma wp_time_Now (Q : Z -> world S -> Prop) (w : world S) :
  Q (cur_clock (w_env w)) (MkWorld (bump (w_env w)) (w_st w)) -> wp time_Now Q w.
Proof. done. Qed.

Lemma wp_uuid_New (Q : string -> world S -> Prop) (w : world S) :
  Q (cur_uuid (w_env w)) (MkWorld (bump (w_env w)) (w_st w)) -> wp uuid_New Q w.
Proof. done. Qed.

(** A transaction statement either runs or leaves the tables alone and the
transaction aborted. *)
Lemma wp_tx_exec (q : stmt S A) (Q : result error A -> world (tx S) -> Prop) e t :
  (forall err, Q (Err err) (MkWorld (bump e) (MkTx (tx_now t) (tx_db t) true))) ->
  (forall a s, tx_aborted t = false -> q (tx_now t) (cur_uuid e) (tx_db t) = (Ok a, s) ->
     Q (Ok a) (MkWorld (bump e) (MkTx (tx_now t) s false))) ->
  wp (tx_exec q) Q (MkWorld e t).
Proof.
  unfold wp, tx_exec. destruct t as [n s []]; simpl; intros He Ho; [apply He|].
  destruct (cur_fault e); simpl; [|apply He..].
  destruct (q n (cur_uuid e) s) as [[a|err] s'] eqn:Hq; simpl; [by apply Ho|apply He].
Qed.

Lemma wp_tx_row (q : stmt S (option A)) (Q : result error A -> world (tx S) -> Prop) e now db b :
  (forall err, Q (Err err) (MkWorld (bump e) (MkTx now db true))) ->
  (forall s, b = false -> q now (cur_uuid e) db = (Ok None, s) ->
     Q (Err ErrNoRows) (MkWorld (bump e) (MkTx now s false))) ->
  (forall a s, b = false -> q now (cur_uuid e) db = (Ok (Some a), s) ->
     Q (Ok a) (MkWorld (bump e) (MkTx now s false))) ->
  wp (tx_row q) Q (MkWorld e (MkTx now db b)).
Proof.
  intros He Hn Ho. unfold tx_row. apply wp_bind.
  unfold wp, tx_exec. simpl. destruct b; simpl; [apply He|].
  destruct (cur_fault e); simpl; [|apply He..].
  destruct (q now (cur_uuid e) db) as [[[a|]|err] s'] eqn:Hq; simpl; eauto.
Qed.

Lemma wp_row (q : stmt S (option A)) (Q : result error A -> world S -> Prop) e s :
  (forall err, Q (Err err) (MkWorld (bump e) s)) ->
  (forall r s', q (cur_clock e) (cur_uuid e) s = (r, s') -> Q (scan_row r) (MkWorld (bump e) s')) ->
  (forall r s' err, q (cur_clock e) (cur_uuid e) s = (r, s') -> Q (Err err) (MkWorld (bump e) s')) ->
  wp (row q) Q (MkWorld e s).
Proof.
  intros Hr Ho Hl. unfold row. apply wp_bind. unfold wp, exec. simpl.
  destruct (cur_fault e); destruct (q (cur_clock e) (cur_uuid e) s) as [r s'] eqn:Hq; simpl; eauto.
Qed.

(** An autocommitted statement runs, or is refused, or runs unseen. *)
Lemma wp_exec (q : stmt S A) (Q : result error A -> world S -> Prop) e s :
  (forall err, Q (Err err) (MkWorld (bump e) s)) ->
  (forall r s', q (cur_clock e) (cur_uuid e) s = (r, s') -> Q r (MkWorld (bump e) s')) ->
  (forall r s' err, q (cur_clock e) (cur_uuid e) s = (r, s') -> Q (Err err) (MkWorld (bump e) s')) ->
  wp (exec q) Q (MkWorld e s).
Proof.
  unfold wp, exec. simpl. intros Hr Ho Hl.
  destruct (cur_fault e); destruct (q (cur_clock e) (cur_uuid e) s) as [r s'] eqn:Hq; simpl;
    [by apply Ho|apply Hr|by eapply Hl].
Qed.

(** Commit-time reasoning: what the body establishes for its tables when it
returns without an aborted transaction holds of the committed tables. *)
Lemma wp_begin_func (deferred : S -> S -> option error) body
    (Q : result error A -> world S -> Prop) (R : A -> env -> S -> Prop) e s :
  (forall err e', Q (Err err) (MkWorld e' s)) ->
  wp body (fun r w' => forall a, r = Ok a -> tx_aborted (w_st w') = false ->
             deferred s (tx_db (w_st w')) = None -> R a (bump (w_env w')) (tx_db (w_st w')))
     (MkWorld (bump e) (MkTx (cur_clock e) s false)) ->
  (forall a e' s', R a e' s' -> Q (Ok a) (MkWorld e' s')) ->
  (forall a e' s' err, R a e' s' -> Q (Err err) (MkWorld e' s')) ->
  wp (begin_func deferred body) Q (MkWorld e s).
Proof.
  unfold wp, begin_func. intros Hs Hb Hok Hlost. simpl.
  destruct (cur_fault e); simpl; [|apply Hs..].
  destruct (body _) as [r [e1 t1]]. simpl in *. destruct r as [a|err]; simpl; [|apply Hs].
  destruct (tx_aborted t1) eqn:Ha; simpl; [apply Hs|].
  destruct (deferred s (tx_db t1)) eqn:Hd; simpl; [apply Hs|].
  specialize (Hb a eq_refl eq_refl eq_refl).
  destruct (cur_fault e1); simpl; eauto.
Qed.

Lemma wp_manual_tx fb fc (body : M (world (tx S)) (result error A))
    (Q : result error A -> world S -> Prop) (P : A -> S -> Prop) e s :
  (forall err e', Q (Err err) (MkWorld e' s)) ->
  wp body (fun r w' => forall a, r = Ok a -> tx_aborted (w_st w') = false -> P a (tx_db (w_st w')))
     (MkWorld (bump e) (MkTx (cur_clock e) s false)) ->
  (forall a e' s', P a s' -> Q (Ok a) (MkWorld e' s')) ->
  (forall a e' s' err, P a s' -> Q (Err err) (MkWorld e' s')) ->
  wp (manual_tx fb fc body) Q (MkWorld e s).
Proof.
  unfold wp, manual_tx. intros Hs Hb Hok Hlost. simpl.
  destruct (cur_fault e); simpl; [|apply Hs..].
  destruct (body _) as [r [e1 t1]]. simpl in *. destruct r as [a|err]; simpl; [|apply Hs].
  destruct (tx_aborted t1) eqn:Ha; simpl; [apply Hs|].
  specialize (Hb a eq_refl eq_refl). destruct (cur_fault e1); simpl; eauto.
Qed.
End Rules.

Lemma wp_within {S V A} (get : S -> V) (set : V -> S -> S) (m : M (world V) A)
    (Q : A -> world S -> Prop) e s :
  wp m (fun a w => Q a (MkWorld (w_env w) (set (w_st w) s))) (MkWorld e (get s)) ->
  wp (within get set m) Q (MkWorld e s).
Proof. unfold wp, within, zoom. simpl. by destruct (m _). Qed.

(** The rules of an environment without failures. *)
Section Calm.
Context {S A : Type}.


Lemma wp_tx_exec_calm (q : stmt S A) (Q : result error A -> world (tx S) -> Prop) e now db a s :
  calm e -> q now (cur_uuid e) db = (Ok a, s) ->
  Q (Ok a) (MkWorld (bump e) (MkTx now s false)) ->
  wp (tx_exec q) Q (MkWorld e (MkTx now db false)).
Proof.
  unfold wp, tx_exec, cur_fault. intros Hc Hq HQ. simpl. by rewrite (calm_now e Hc), Hq.
Qed.

Lemma wp_exec_calm (q : stmt S A) (Q : result error A -> world S -> Prop) e s r s' :
  calm e -> q (cur_clock e) (cur_uuid e) s = (r, s') -> Q r (MkWorld (bump e) s') ->
  wp (exec q) Q (MkWorld e s).
Proof.
  unfold wp, exec, cur_fault. intros Hc Hq HQ. simpl. by rewrite (calm_now e Hc), Hq.
Qed.

Lemma wp_begin_func_calm (deferred : S -> S -> option error) body
    (Q : result error A -> world S -> Prop) e s :
  calm e ->
  wp body (fun r w' => exists a, r = Ok a /\ calm (w_env w') /\ tx_aborted (w_st w') = false /\
             deferred s (tx_db (w_st w')) = None /\
             Q (Ok a) (MkWorld (bump (w_env w')) (tx_db (w_st w'))))
     (MkWorld (bump e) (MkTx (cur_clock e) s false)) ->
  wp (begin_func deferred body) Q (MkWorld e s).
Proof.
  unfold wp, begin_func, cur_fault. intros Hc Hb. simpl. rewrite (calm_now e Hc).
  destruct (body _) as [r [e1 t1]]. simpl in *. destruct Hb as (a & -> & Hc1 & Ha & Hd & HQ).
  by rewrite Ha, Hd, (calm_now e1 Hc1).
Qed.

Lemma wp_manual_tx_calm fb fc (body : M (world (tx S)) (result error A))
    (Q : result error A -> world S -> Prop) e s :
  calm e ->
  wp body (fun r w' => exists a, r = Ok a /\ calm (w_env w') /\ tx_aborted (w_st w') = false /\
             Q (Ok a) (MkWorld (bump (w_env w')) (tx_db (w_st w'))))
     (MkWorld (bump e) (MkTx (cur_clock e) s false)) ->
  wp (manual_tx fb fc body) Q (MkWorld e s).
Proof.
  unfold wp, manual_tx, cur_fault. intros Hc Hb. simpl. rewrite (calm_now e Hc).
  destruct (body _) as [r [e1 t1]]. simpl in *. destruct Hb as (a & -> & Hc1 & Ha & HQ).
  by rewrite Ha, (calm_now e1 Hc1).
Qed.

(** Identifiers drawn from now on are new and pairwise different. *)
Definition fresh (e : env) (ids : list string) : Prop :=
  (forall n, (tick e <= n)%nat -> uuid_at e n ∉ ids) /\
  (forall n m, (tick e <= n < m)%nat -> uuid_at e n <> uuid_at e m).

Lemma fresh_cur e ids : fresh e ids -> cur_uuid e ∉ ids.
Proof. intros [Hf _]. by apply Hf. Qed.

Lemma fresh_bump e ids ids' :
  fresh e ids -> (forall i, i ∈ ids' -> i ∈ ids \/ i = cur_uuid e) -> fresh (bump e) ids'.
Proof.
  intros [Hf Hi] Hsub. split; simpl.
  - intros n Hn [Hin|Heq]%Hsub; [apply (Hf n); [lia|done]|].
    apply (Hi (tick e) n); [lia|by symmetry].
  - intros n m Hn. apply Hi. lia.
Qed.
End Calm.

Lemma wp_draw {S A} (f : nat -> result error A) (Q : result error A -> world S -> Prop) e s :
  (forall err, Q (Err err) (MkWorld (bump e) s)) -> Q (f (tick e)) (MkWorld (bump e) s) ->
  wp (draw f) Q (MkWorld e s).
Proof. unfold wp, draw. simpl. intros He Ho. destruct (cur_fault e); auto. Qed.

Lemma wp_draw_calm {S A} (f : nat -> result error A) (Q : result error A -> world S -> Prop) e s :
  calm e -> Q (f (tick e)) (MkWorld (bump e) s) -> wp (draw f) Q (MkWorld e s).
Proof. unfold wp, draw, cur_fault. simpl. intros Hc. by rewrite (calm_now e Hc). Qed.

(** Symbolic execution of the engine calls, on top of [wp_step]. *)
Ltac wp_go :=
  repeat first
    [ wp_step
    | lazymatch goal with
      | |- wp time_Now _ _ => apply wp_time_Now; simpl
      | |- wp uuid_New _ _ => apply wp_uuid_New; simpl
      end ].
