(* ===== verification/Advance.v ===== *)
(** * What a program does to its environment.

Programs read the environment at a counter and move the counter forward; they
never change the clock, the supply of identifiers or the schedule of faults.
[Advances m] says so of a program, [advance] proves it by the program's shape,
and the rules at the end carry facts about an environment across a call. *)
From S2P Require Import Prelude DomainErr World.
Local Open Scope go_scope.

Record later (e e' : env) : Prop := MkLater {
  later_tick : (tick e <= tick e')%nat;
  later_clock : clock e' = clock e;
  later_uuid : uuid_at e' = uuid_at e;
  later_fault : fault_at e' = fault_at e;
}.

#[export] Instance later_preorder : PreOrder later.
Proof.
  split; [by constructor|]. intros e1 e2 e3 [? ? ? ?] [? ? ? ?]. constructor; [lia|congruence..].
Qed.

Lemma later_bump e : later e (bump e).
Proof. constructor; simpl; [lia|done..]. Qed.

Lemma later_calm e e' : later e e' -> calm e -> calm e'.
Proof. intros [Ht _ _ Hf] Hc n Hn. rewrite Hf. apply Hc. lia. Qed.

Lemma later_fresh e e' ids : later e e' -> fresh e ids -> fresh e' ids.
Proof.
  intros [Ht _ Hu _] [H1 H2]. split; intros n; rewrite Hu; [intros ?; apply H1; lia|].
  intros m ?. apply H2. lia.
Qed.

Lemma fresh_sub e ids ids' : (forall i, i ∈ ids' -> i ∈ ids) -> fresh e ids -> fresh e ids'.
Proof. intros Hs [H1 H2]. split; [|done]. intros n Hn Hin. by apply (H1 n Hn), Hs. Qed.

(** An identifier drawn in between is not drawn again. *)
Lemma later_drawn e e' n ids : later e e' -> (tick e <= n < tick e')%nat -> fresh e ids ->
  fresh e' (uuid_at e n :: ids).
Proof.
  intros Hl Hn Hf. pose proof (later_fresh _ _ _ Hl Hf) as [H1 H2]. destruct Hl as [_ _ Hu _], Hf as [_ H3].
  split; [|done]. intros m Hm [Heq|Hin]%elem_of_cons; [|by apply (H1 m)].
  rewrite Hu in Heq. apply (H3 n m); [lia|done].
Qed.

Class Advances {S A} (m : M (world S) A) : Prop := advances : forall w, later (w_env w) (w_env (snd (m w))).

Lemma wp_advances {S A} (m : M (world S) A) (Q : A -> world S -> Prop) w : Advances m ->
  wp m (fun a w' => later (w_env w) (w_env w') -> Q a w') w -> wp m Q w.
Proof. unfold wp. intros Hm HQ. apply HQ, Hm. Qed.

Lemma adv_bind {S A B} (m : M (world S) A) (k : A -> M (world S) B) :
  Advances m -> (forall a, Advances (k a)) -> Advances (gbind m k).
Proof.
  intros Hm Hk w. unfold gbind. specialize (Hm w). destruct (m w) as [a w1]. simpl in Hm.
  etrans; [exact Hm|apply Hk].
Qed.

Section Shapes.
Context {S A B E F : Type}.

Lemma adv_ret (a : A) : Advances (S := S) (gret a).
Proof. intros w. reflexivity. Qed.

Lemma adv_try (m : M (world S) (result E A)) (k : A -> M (world S) (result E B)) :
  Advances m -> (forall a, Advances (k a)) -> Advances (gtry m k).
Proof. intros Hm Hk. unfold gtry. apply adv_bind; [done|]. intros [a|e]; [apply Hk|intros w; reflexivity]. Qed.

Lemma adv_map_err (f : E -> F) (m : M (world S) (result E A)) : Advances m -> Advances (gmap_err f m).
Proof. intros Hm. unfold gmap_err. apply adv_bind; [done|]. intros r w. reflexivity. Qed.

Lemma adv_time : Advances (S := S) time_Now.
Proof. intros w. apply later_bump. Qed.

Lemma adv_uuid : Advances (S := S) uuid_New.
Proof. intros w. apply later_bump. Qed.

Lemma adv_exec (q : stmt S A) : Advances (exec q).
Proof.
  intros w. unfold exec. destruct (cur_fault _); [|apply later_bump|];
    destruct (q _ _ _); apply later_bump.
Qed.

Lemma adv_draw (f : nat -> result error A) : Advances (S := S) (draw f).
Proof. intros w. apply later_bump. Qed.

Lemma adv_remote (m : M (world S) (result error A)) : Advances m -> Advances (remote m).
Proof.
  intros Hm w. unfold remote. destruct (cur_fault _); [| apply later_bump |];
    (etrans; [apply later_bump|apply (Hm (MkWorld (bump (w_env w)) (w_st w)))]).
Qed.

Lemma adv_tx_exec (q : stmt S A) : Advances (tx_exec q).
Proof.
  intros w. unfold tx_exec. destruct (tx_aborted _); [apply later_bump|].
  destruct (cur_fault _); [destruct (q _ _ _) as [[]]|..]; apply later_bump.
Qed.

(** A transaction: its body between two calls. *)
Lemma adv_bracket (body : M (world (tx S)) (result error A)) e s now :
  Advances body -> later e (bump (w_env (snd (body (MkWorld (bump e) (MkTx now s false)))))).
Proof.
  intros Hb. etrans; [apply later_bump|]. etrans; [apply (Hb (MkWorld (bump e) (MkTx now s false)))|apply later_bump].
Qed.

Lemma adv_begin_func deferred (body : M (world (tx S)) (result error A)) :
  Advances body -> Advances (begin_func deferred body).
Proof.
  intros Hb w. unfold begin_func. pose proof (adv_bracket body (w_env w) (w_st w) (cur_clock (w_env w)) Hb) as Hl.
  destruct (cur_fault _); [|apply later_bump..]. destruct (body _) as [[a|err] w1]; [|exact Hl].
  destruct (tx_aborted _); [exact Hl|]. destruct (deferred _ _); [exact Hl|]. destruct (cur_fault _); exact Hl.
Qed.

Lemma adv_manual_tx fb fc (body : M (world (tx S)) (result error A)) :
  Advances body -> Advances (manual_tx fb fc body).
Proof.
  intros Hb w. unfold manual_tx. pose proof (adv_bracket body (w_env w) (w_st w) (cur_clock (w_env w)) Hb) as Hl.
  destruct (cur_fault _); [|apply later_bump..]. destruct (body _) as [[a|err] w1]; [|exact Hl].
  destruct (tx_aborted _); [exact Hl|]. destruct (cur_fault _); exact Hl.
Qed.

Lemma adv_within {V} (get : S -> V) (set : V -> S -> S) (m : M (world V) A) :
  Advances m -> Advances (within get set m).
Proof.
  intros Hm w. unfold within, zoom. pose proof (Hm (MkWorld (w_env w) (get (w_st w)))) as Hl.
  destruct (m _) as [a v]. exact Hl.
Qed.
End Shapes.

Create HintDb advance discriminated.

(** Along the shape of a program; what it cannot take apart it looks up. *)
Ltac advance_step :=
  lazymatch goal with
  | |- Advances (gret _) => apply adv_ret
  | |- Advances (gbind _ _) => apply adv_bind; [|intros ?]
  | |- Advances (gtry _ _) => apply adv_try; [|intros ?]
  | |- Advances (gmap_err _ _) => apply adv_map_err
  | |- Advances time_Now => apply adv_time
  | |- Advances uuid_New => apply adv_uuid
  | |- Advances (exec _) => apply adv_exec
  | |- Advances (draw _) => apply adv_draw
  | |- Advances (remote _) => apply adv_remote
  | |- Advances (tx_exec _) => apply adv_tx_exec
  | |- Advances (begin_func _ _) => apply adv_begin_func
  | |- Advances (manual_tx _ _ _) => apply adv_manual_tx
  | |- Advances (within _ _ _) => apply adv_within
  | |- Advances (let _ := _ in _) => cbv zeta
  | |- Advances (match ?x with _ => _ end) => destruct x
  | _ => solve [auto with advance nocore]
  end.
Ltac advance := repeat advance_step.

(** A remote call that arrives and whose reply arrives. *)
Lemma wp_remote_calm {S A} (m : M (world S) (result error A)) (Q : result error A -> world S -> Prop) e s :
  calm e -> wp m Q (MkWorld (bump e) s) -> wp (remote m) Q (MkWorld e s).
Proof. unfold wp, remote, cur_fault. simpl. intros Hc HQ. by rewrite (calm_now e Hc). Qed.
