(* ===== verification/Proto.v ===== *)
(** * The messages of the gRPC services ([proto/], compiled to [gen/]).

One record per message and one inductive per enum; a message-typed field is an
[option] (nil when absent).  A proto3 enum is open, so each carries a case for
a number outside the schema.  Timestamps are nanoseconds since the epoch. *)
From S2P Require Import Prelude.

Record PMoney := MkPMoney { pm_amount_pence : Z; pm_currency : string }.
#[export] Instance PMoney_eq_dec : EqDecision PMoney.
Proof. solve_decision. Defined.

(* ledger.v1 *)
Inductive Direction :=
| DIRECTION_UNSPECIFIED | Direction_DR | Direction_CR | Direction_other (n : Z).
Inductive AccountType :=
| ACCOUNT_TYPE_UNSPECIFIED | AccountType_CONSUMER_ESCROW | AccountType_MERCHANT_ESCROW
| AccountType_PLATFORM_FEE | AccountType_other (n : Z).

Record JournalLine := MkJournalLine {
  jln_id : string;
  jln_account_type : AccountType;
  jln_owner_ref : string;
  jln_direction : Direction;
  jln_amount : option PMoney;
}.
Record JournalEntry := MkJournalEntry {
  jen_id : string;
  jen_payment_id : string;
  jen_description : string;
  jen_lines : list JournalLine;
  jen_created_at : Z;
}.
Record PostEntryRequest := MkPostEntryRequest {
  per_payment_id : string;
  per_description : string;
  per_lines : list JournalLine;
}.
Record LedgerReverseRequest := MkLedgerReverseRequest { lrr_payment_id : string; lrr_reason : string }.
Record BalanceRequest := MkBalanceRequest {
  br_account_type : AccountType; br_owner_ref : string; br_currency : string }.
Record BalanceResponse := MkBalanceResponse { brs_balance : PMoney; brs_as_of : Z }.

(* consent.v1 *)
Inductive ConsentStatus :=
| CONSENT_STATUS_UNSPECIFIED | ConsentStatus_PENDING | ConsentStatus_ACTIVE
| ConsentStatus_REVOKED | ConsentStatus_EXPIRED | ConsentStatus_other (n : Z).

Record Consent := MkConsent {
  cn_id : string;
  cn_merchant_id : string;
  cn_consumer_id : string;
  cn_bank_consent_ref : string;
  cn_status : ConsentStatus;
  cn_max_per_transaction : PMoney;
  cn_max_per_month : PMoney;
  cn_valid_from : Z;
  cn_valid_until : Z;
  cn_created_at : Z;
  cn_updated_at : Z;
}.
Record CreateConsentRequest := MkCreateConsentRequest {
  ccr_merchant_id : string;
  ccr_consumer_id : string;
  ccr_bank_consent_ref : string;
  ccr_max_per_transaction : option PMoney;
  ccr_max_per_month : option PMoney;
  ccr_valid_until : option Z;
}.
Record PageRequest := MkPageRequest { pg_page_size : Z; pg_page_token : string }.
Record ListConsentsRequest := MkListConsentsRequest {
  lcr_consumer_id : string;
  lcr_merchant_id : string;
  lcr_status : ConsentStatus;
  lcr_page : option PageRequest;
}.
Record ListConsentsResponse := MkListConsentsResponse {
  lcs_consents : list Consent;
  lcs_next_page_token : string;
  lcs_total_count : Z;
}.
Record ReserveRequest := MkReserveRequest {
  rr_consent_id : string; rr_payment_id : string; rr_amount : option PMoney }.
Record ReserveResponse := MkReserveResponse {
  rs_reservation_id : string;
  rs_remaining_monthly : PMoney;
  rs_consumer_id : string;
  rs_bank_consent_ref : string;
}.
Record ConfirmRequest := MkConfirmRequest { cf_reservation_id : string; cf_payment_id : string }.
Record ReleaseRequest := MkReleaseRequest { rl_reservation_id : string; rl_reason : string }.
Record UsageResponse := MkUsageResponse {
  us_used_this_month : PMoney; us_remaining_this_month : PMoney; us_tx_count : Z }.

(* risk.v1 *)
Inductive RiskDecision :=
| RISK_DECISION_UNSPECIFIED | RiskDecision_ALLOW | RiskDecision_REVIEW | RiskDecision_DECLINE
| RiskDecision_other (n : Z).
Record ScoreRequest := MkScoreRequest {
  sr_merchant_id : string;
  sr_consumer_id : string;
  sr_consent_id : string;
  sr_payment_id : string;
  sr_amount : option PMoney;
  sr_ip_address : string;
  sr_user_agent : string;
}.
Record ScoreResponse := MkScoreResponse {
  ss_score : Z; ss_decision : RiskDecision; ss_reason : string; ss_rules_triggered : list string }.
Record BlocklistRequest := MkBlocklistRequest { bl_type : string; bl_value : string; bl_reason : string }.
Record BlocklistEntry := MkBlocklistEntry {
  be_id : string; be_type : string; be_value : string; be_reason : string; be_created_at : Z }.

(* bank.v1 *)
Inductive BankPaymentStatus :=
| BANK_PAYMENT_STATUS_UNSPECIFIED | Bank_PENDING | Bank_AUTHORISED | Bank_SETTLED
| Bank_REJECTED | Bank_REVERSED | Bank_other (n : Z).
Record InitiateRequest := MkInitiateRequest {
  ir_payment_id : string;
  ir_bank_consent_ref : string;
  ir_consumer_id : string;
  ir_amount : option PMoney;
  ir_description : string;
}.
Record InitiateResponse := MkInitiateResponse {
  is_bank_payment_ref : string;
  is_status : BankPaymentStatus;
  is_failure_reason : string;
  is_initiated_at : Z;
}.
Record StatusResponse := MkStatusResponse {
  sp_bank_payment_ref : string; sp_status : BankPaymentStatus; sp_updated_at : Z }.
Record BankReverseRequest := MkBankReverseRequest { bv_bank_payment_ref : string; bv_reason : string }.
Record ReverseResponse := MkReverseResponse {
  rv_bank_payment_ref : string; rv_reversal_ref : string; rv_status : BankPaymentStatus }.

(* payment.v1 *)
Inductive PaymentStatus :=
| PAYMENT_STATUS_UNSPECIFIED | PS_INITIATED | PS_CONSENT_RESERVED | PS_RISK_PASSED
| PS_AUTHORISING | PS_SETTLED | PS_FAILED | PS_MANUAL_REVIEW | PS_other (n : Z).
Record PPayment := MkPPayment {
  pp_id : string;
  pp_idempotency_key : string;
  pp_merchant_id : string;
  pp_consent_id : string;
  pp_consumer_id : string;
  pp_amount : PMoney;
  pp_status : PaymentStatus;
  pp_bank_payment_ref : string;
  pp_risk_score : Z;
  pp_risk_decision : string;
  pp_failure_reason : string;
  pp_description : string;
  pp_initiated_at : Z;
  pp_settled_at : option Z;
  pp_updated_at : Z;
}.
Record InitiatePaymentRequest := MkInitiatePaymentRequest {
  ipr_idempotency_key : string;
  ipr_merchant_id : string;
  ipr_consent_id : string;
  ipr_amount : option PMoney;
  ipr_description : string;
}.
Record GetPaymentRequest := MkGetPaymentRequest { gp_payment_id : string; gp_merchant_id : string }.

#[export] Instance Direction_eq_dec : EqDecision Direction.
Proof. solve_decision. Defined.
#[export] Instance AccountType_eq_dec : EqDecision AccountType.
Proof. solve_decision. Defined.
#[export] Instance ConsentStatus_eq_dec : EqDecision ConsentStatus.
Proof. solve_decision. Defined.
#[export] Instance RiskDecision_eq_dec : EqDecision RiskDecision.
Proof. solve_decision. Defined.
#[export] Instance BankPaymentStatus_eq_dec : EqDecision BankPaymentStatus.
Proof. solve_decision. Defined.
#[export] Instance PaymentStatus_eq_dec : EqDecision PaymentStatus.
Proof. solve_decision. Defined.

(* merchant.v1 *)
Record Merchant := MkMerchant {
  mp_id : string;
  mp_name : string;
  mp_kyb_status : string;
  mp_status : string;
  mp_webhook_url : string;
  mp_created_at : Z;
  mp_updated_at : Z;
}.
Record RegisterMerchantRequest := MkRegisterMerchantRequest {
  rmr_name : string; rmr_webhook_url : string; rmr_contact_email : string }.
Record RegisterMerchantResponse := MkRegisterMerchantResponse {
  rms_merchant : Merchant; rms_api_key : string }.
Record WebhookConfig := MkWebhookConfig {
  wc_merchant_id : string; wc_webhook_url : string; wc_hmac_secret : string }.
