(* ===== verification/LedgerStore.v ===== *)
(** * The double-entry ledger ([services/ledger-svc/internal/store.go],
[migrations/ledger/000001_init.up.sql]).

The three tables are lists of rows in insertion order; each SQL statement of
the store is a [stmt] on them, with the primary keys, the unique and check
constraints and the deferred balance trigger of the migration.  [SUM] over
BIGINT is exact in PostgreSQL; the Go sums of [PostDoubleEntry] wrap at 64 bits. *)
From S2P Require Import Prelude GoStrings DomainErr World Proto.
Local Open Scope Z_scope.
Local Open Scope go_scope.

Record lineInput := MkLineInput {
  li_accountType : string;
  li_ownerRef : string;
  li_direction : string;
  li_amountPence : Z;
  li_currency : string;
}.

Record AccountRow := MkAccount {
  acc_id : string; acc_type : string; acc_owner_ref : string; acc_currency : string }.
Record EntryRow := MkEntry {
  je_id : string; je_payment_id : string; je_description : string;
  je_reversed : bool; je_created_at : Z }.
Record LineRow := MkLine {
  jl_id : string; jl_entry_id : string; jl_account_id : string;
  jl_direction : string; jl_amount_pence : Z; jl_created_at : Z }.

Record LedgerDB := MkLedgerDB {
  accounts : list AccountRow; entries : list EntryRow; lines : list LineRow }.

Definition unique_violation : error :=
  PgError "23505" "ERROR: duplicate key value violates unique constraint (SQLSTATE 23505)".
Definition check_violation : error :=
  PgError "23514" "ERROR: new row violates check constraint (SQLSTATE 23514)".
Definition fk_violation : error :=
  PgError "23503" "ERROR: insert violates foreign key constraint (SQLSTATE 23503)".

(* ------------------------------------------------------------------ *)
(** ** The statements *)

Definition account_is (accountType ownerRef currency : string) (a : AccountRow) : bool :=
  bool_decide (acc_type a = accountType) && bool_decide (acc_owner_ref a = ownerRef)
  && bool_decide (acc_currency a = currency).

(** [INSERT INTO account ... ON CONFLICT (type, owner_ref, currency) DO UPDATE ... RETURNING id] *)
Definition upsert_account (accountType ownerRef currency : string) : stmt LedgerDB string :=
  fun _ id db =>
    match List.find (account_is accountType ownerRef currency) (accounts db) with
    | Some a => (Ok (acc_id a), db)
    | None =>
        if existsb (fun a => bool_decide (acc_id a = id)) (accounts db)
        then (Err unique_violation, db)
        else (Ok id, MkLedgerDB (accounts db ++ [MkAccount id accountType ownerRef currency])
                       (entries db) (lines db))
    end.

(** [INSERT INTO journal_entry (payment_id, description) ... RETURNING id, created_at] *)
Definition insert_entry (paymentID description : string) : stmt LedgerDB (option (string * Z)) :=
  fun now id db =>
    if existsb (fun e => bool_decide (je_payment_id e = paymentID) || bool_decide (je_id e = id))
         (entries db)
    then (Err unique_violation, db)
    else (Ok (Some (id, now)),
          MkLedgerDB (accounts db)
            (entries db ++ [MkEntry id paymentID description false now]) (lines db)).

(** [INSERT INTO journal_line ... RETURNING id] *)
Definition insert_line (entryID accountID direction : string) (amountPence : Z)
  : stmt LedgerDB (option string) :=
  fun now id db =>
    if existsb (fun l => bool_decide (jl_id l = id)) (lines db) then (Err unique_violation, db)
    else if negb (bool_decide (direction ∈ ["DR"; "CR"])) || (amountPence <=? 0)
         then (Err check_violation, db)
    else if negb (existsb (fun e => bool_decide (je_id e = entryID)) (entries db))
         || negb (existsb (fun a => bool_decide (acc_id a = accountID)) (accounts db))
         then (Err fk_violation, db)
    else (Ok (Some id),
          MkLedgerDB (accounts db) (entries db)
            (lines db ++ [MkLine id entryID accountID direction amountPence now])).

(** [UPDATE journal_entry SET reversed = TRUE WHERE id = $1] *)
Definition set_reversed (entryID : string) (e : EntryRow) : EntryRow :=
  if bool_decide (je_id e = entryID)
  then MkEntry (je_id e) (je_payment_id e) (je_description e) true (je_created_at e)
  else e.
Definition mark_reversed (entryID : string) : stmt LedgerDB unit :=
  fun _ _ db =>
    (Ok tt, MkLedgerDB (accounts db) (map (set_reversed entryID) (entries db)) (lines db)).

Definition find_entry (paymentID : string) (db : LedgerDB) : option EntryRow :=
  List.find (fun e => bool_decide (je_payment_id e = paymentID)) (entries db).

(** [ORDER BY jl.created_at, jl.id] *)
Definition line_le (l1 l2 : LineRow) : Prop :=
  (jl_created_at l1 < jl_created_at l2) \/
  (jl_created_at l1 = jl_created_at l2 /\ String.le (jl_id l1) (jl_id l2)).
#[export] Instance line_le_dec : RelDecision line_le.
Proof. intros l1 l2. unfold line_le. apply _. Defined.

(** [FROM journal_line jl JOIN account a ... WHERE jl.journal_entry_id = $1 ORDER BY ...] *)
Definition entry_lines (entryID : string) (db : LedgerDB) : list (LineRow * AccountRow) :=
  omap (fun l => (fun a => (l, a)) <$>
                 List.find (fun a => bool_decide (acc_id a = jl_account_id l)) (accounts db))
    (merge_sort line_le (where_ (fun l => bool_decide (jl_entry_id l = entryID)) (lines db))).

(** [DR] counts positive, [CR] negative. *)
Definition signed (l : LineRow) : Z :=
  if bool_decide (jl_direction l = "DR") then jl_amount_pence l else - jl_amount_pence l.

Definition imbalance (entryID : string) (ls : list LineRow) : Z :=
  sumZ signed (where_ (fun l => bool_decide (jl_entry_id l = entryID)) ls).

(** [check_journal_balance()] for one inserted line. *)
Definition check_journal_balance (ls : list LineRow) (new : LineRow) : option error :=
  let mine := where_ (fun l => bool_decide (jl_entry_id l = jl_entry_id new)) ls in
  if (length mine <? 2)%nat then None
  else let i := sumZ signed mine in
       if bool_decide (min_int64 <= i <= max_int64)
       then if i =? 0 then None
            else Some (PgError "P0001" ("ERROR: Journal entry " +:+ jl_entry_id new
                          +:+ " is not balanced (imbalance=" +:+ itoa i +:+ ") (SQLSTATE P0001)"))
       else Some (PgError "22003" "ERROR: bigint out of range (SQLSTATE 22003)").

Fixpoint first_error {A} (f : A -> option error) (l : list A) : option error :=
  match l with
  | [] => None
  | x :: l' => match f x with Some e => Some e | None => first_error f l' end
  end.

(** The deferred trigger [trg_journal_balance]: once per line the transaction inserted. *)
Definition trg_journal_balance (before after : LedgerDB) : option error :=
  first_error (check_journal_balance (lines after))
    (drop (length (lines before)) (lines after)).

(* ------------------------------------------------------------------ *)
(** ** Conversions *)

Definition accountTypeToDB (t : AccountType) : result error string :=
  match t with
  | AccountType_CONSUMER_ESCROW => Ok "CONSUMER_ESCROW"
  | AccountType_MERCHANT_ESCROW => Ok "MERCHANT_ESCROW"
  | AccountType_PLATFORM_FEE => Ok "PLATFORM_FEE"
  | _ => Err (DomainErr.New CodeValidation "invalid account_type")
  end.

Definition accountTypeFromDB (s : string) : AccountType :=
  if bool_decide (s = "CONSUMER_ESCROW") then AccountType_CONSUMER_ESCROW
  else if bool_decide (s = "MERCHANT_ESCROW") then AccountType_MERCHANT_ESCROW
  else if bool_decide (s = "PLATFORM_FEE") then AccountType_PLATFORM_FEE
  else ACCOUNT_TYPE_UNSPECIFIED.

Definition directionToDB (d : Direction) : result error string :=
  match d with
  | Direction_DR => Ok "DR"
  | Direction_CR => Ok "CR"
  | _ => Err (DomainErr.New CodeValidation "invalid direction")
  end.

Definition directionFromDB (s : string) : Direction :=
  if bool_decide (s = "DR") then Direction_DR
  else if bool_decide (s = "CR") then Direction_CR
  else DIRECTION_UNSPECIFIED.

Definition isSerializationFailure (err : error) : bool :=
  match errors_As_Pg err with
  | Some s => bool_decide (s = "40001") || bool_decide (s = "40P01")
  | None => false
  end.

(* ------------------------------------------------------------------ *)
(** ** The store *)

(** The interface [querier]: a pool or a transaction. *)
Class querier (W : Type) := q_exec : forall A, stmt LedgerDB A -> M W (result error A).
Arguments q_exec {W _} {A} _.
#[export] Instance tx_querier : querier (world (tx LedgerDB)) := fun A q => tx_exec q.
#[export] Instance pool_querier : querier (world LedgerDB) := fun A q => exec q.

Definition loadEntryByPaymentID {W} `{querier W} (paymentID : string)
  : M W (result error JournalEntry) :=
  r <- q_exec (query (fun _ db => find_entry paymentID db)) ;;
  match scan_row r with
  | Err e => gret (Err (if errors_Is_NoRows e then ErrNoRows
                        else DomainErr.Wrap CodeInternal "load journal entry" e))
  | Ok en =>
      rows <- q_exec (query (fun _ db => entry_lines (je_id en) db)) ;;
      match rows with
      | Err e => gret (Err (DomainErr.Wrap CodeInternal "load journal lines" e))
      | Ok ls =>
          let lines := map (fun la =>
            let '(l, a) := la in
            MkJournalLine (jl_id l) (accountTypeFromDB (acc_type a)) (acc_owner_ref a)
              (directionFromDB (jl_direction l))
              (Some (MkPMoney (jl_amount_pence l) (acc_currency a)))) ls in
          gret (Ok (MkJournalEntry (je_id en) paymentID (je_description en) lines (je_created_at en)))
      end
  end.

Definition ensureAccount (accountType ownerRef currency : string)
  : M (world (tx LedgerDB)) (result error string) :=
  gmap_err (DomainErr.Wrap CodeInternal "ensure account")
    (tx_exec (upsert_account accountType ownerRef currency)).

(** [withSerializable]: at most five attempts, again after a serialization failure. *)
Fixpoint serializable_attempts {A} (n : nat) (last : error)
    (fn : M (world (tx LedgerDB)) (result error A)) : M (world LedgerDB) (result error A) :=
  match n with
  | O => gret (Err (DomainErr.Wrap CodeConflict "serializable transaction retries exhausted" last))
  | S n' =>
      r <- begin_func trg_journal_balance fn ;;
      match r with
      | Ok a => gret (Ok a)
      | Err e => if isSerializationFailure e then serializable_attempts n' e fn
                 else gret (Err e)
      end
  end.

Definition maxAttempts : nat := 5.
Definition withSerializable {A} (fn : M (world (tx LedgerDB)) (result error A))
  : M (world LedgerDB) (result error A) :=
  serializable_attempts maxAttempts (PlainError "") fn.

Section Store.
Context `{Unicode}.

Definition line_error (i : nat) (msg : string) : error :=
  DomainErr.New CodeValidation ("line " +:+ itoa (Z.of_nat i) +:+ ": " +:+ msg).

(** The validation loop of [PostDoubleEntry]: the lines with their normalised
currency, and the two sums. *)
Fixpoint check_lines (i : nat) (ls : list lineInput) (debit credit : Z) (currency : string)
  : result error (list lineInput * Z * Z) :=
  match ls with
  | [] => Ok ([], debit, credit)
  | l :: ls' =>
      if is_empty (li_accountType l) then Err (line_error i "account_type is required")
      else if is_empty (TrimSpace (li_ownerRef l)) then Err (line_error i "owner_ref is required")
      else if negb (bool_decide (li_direction l = "DR")) && negb (bool_decide (li_direction l = "CR"))
           then Err (line_error i "direction must be DR or CR")
      else if li_amountPence l <=? 0 then Err (line_error i "amount must be positive")
      else
        let cur := ToUpper (TrimSpace (li_currency l)) in
        if negb (str_len cur =? 3) then Err (line_error i "currency must be 3-letter ISO code")
        else if negb (is_empty currency) && negb (bool_decide (cur = currency))
             then Err (DomainErr.New CodeValidation "all lines must share the same currency")
        else
          let currency' := if is_empty currency then cur else currency in
          let debit' := if bool_decide (li_direction l = "DR")
                        then int64 (debit + li_amountPence l) else debit in
          let credit' := if bool_decide (li_direction l = "CR")
                         then int64 (credit + li_amountPence l) else credit in
          let l' := MkLineInput (li_accountType l) (li_ownerRef l) (li_direction l)
                      (li_amountPence l) cur in
          res_bind (check_lines (S i) ls' debit' credit' currency')
            (fun out => let '(rest, d, c) := out in Ok (l' :: rest, d, c))
  end.

(** The loop that inserts the lines of a new entry. *)
Fixpoint post_lines (entryID : string) (ls : list lineInput)
  : M (world (tx LedgerDB)) (result error (list JournalLine)) :=
  match ls with
  | [] => gret (Ok [])
  | l :: ls' =>
      accountID <-? ensureAccount (li_accountType l) (li_ownerRef l) (li_currency l) ;;
      lineID <-? gmap_err (DomainErr.Wrap CodeInternal "insert journal_line")
                   (tx_row (insert_line entryID accountID (li_direction l) (li_amountPence l))) ;;
      rest <-? post_lines entryID ls' ;;
      gret (Ok (MkJournalLine lineID (accountTypeFromDB (li_accountType l)) (li_ownerRef l)
                  (directionFromDB (li_direction l))
                  (Some (MkPMoney (li_amountPence l) (li_currency l))) :: rest))
  end.

(** The transaction of [PostDoubleEntry]. *)
Definition post_tx (paymentID description : string) (ls : list lineInput)
  : M (world (tx LedgerDB)) (result error JournalEntry) :=
  existing <- loadEntryByPaymentID paymentID ;;
  match existing with
  | Ok entry => gret (Ok entry)
  | Err err =>
      if negb (errors_Is_NoRows err) then gret (Err err)
      else
        r <- tx_row (insert_entry paymentID description) ;;
        match r with
        | Err err =>
            if isUniqueViolation err then
              gmap_err (DomainErr.Wrap CodeInternal "reload after unique conflict")
                (loadEntryByPaymentID paymentID)
            else gret (Err (DomainErr.Wrap CodeInternal "insert journal_entry" err))
        | Ok (entryID, createdAt) =>
            outLines <-? post_lines entryID ls ;;
            gret (Ok (MkJournalEntry entryID paymentID description outLines createdAt))
        end
  end.

Definition PostDoubleEntry (paymentID description : string) (ls : list lineInput)
  : M (world LedgerDB) (result error JournalEntry) :=
  if is_empty paymentID then gret (Err (DomainErr.New CodeValidation "payment_id is required"))
  else if (length ls <? 2)%nat
       then gret (Err (DomainErr.New CodeValidation "at least two journal lines are required"))
  else match check_lines 0 ls 0 0 "" with
       | Err e => gret (Err e)
       | Ok (ls', debit, credit) =>
           if negb (debit =? credit)
           then gret (Err (DomainErr.New CodeValidation
                  ("unbalanced entry: debit=" +:+ itoa debit +:+ " credit=" +:+ itoa credit)))
           else withSerializable (post_tx paymentID description ls')
       end.

(** The loop that inserts the opposite lines of a reversal. *)
Fixpoint reverse_lines (revEntryID : string) (orig : list (LineRow * AccountRow))
  : M (world (tx LedgerDB)) (result error unit) :=
  match orig with
  | [] => gret (Ok tt)
  | (l, a) :: orig' =>
      let opp := if bool_decide (jl_direction l = "CR") then "DR" else "CR" in
      accountID <-? ensureAccount (acc_type a) (acc_owner_ref a) (acc_currency a) ;;
      _ <-? gmap_err (DomainErr.Wrap CodeInternal "insert reverse journal_line")
              (tx_row (insert_line revEntryID accountID opp (jl_amount_pence l))) ;;
      reverse_lines revEntryID orig'
  end.

(** The transaction of [ReverseEntry]. *)
Definition reverse_tx (paymentID reason : string) : M (world (tx LedgerDB)) (result error unit) :=
  let revPaymentID := paymentID +:+ "-rev" in
  r <- tx_row (query (fun _ db => find_entry paymentID db)) ;;
  match r with
  | Err err =>
      gret (Err (if errors_Is_NoRows err then DomainErr.New CodeNotFound "journal entry not found"
                 else DomainErr.Wrap CodeInternal "load journal entry" err))
  | Ok en =>
      if je_reversed en then gret (Ok tt)
      else
        dummy <- tx_row (query (fun _ db => find_entry revPaymentID db)) ;;
        match dummy with
        | Ok _ => _ <- tx_exec (mark_reversed (je_id en)) ;; gret (Ok tt)
        | Err err =>
            if negb (errors_Is_NoRows err)
            then gret (Err (DomainErr.Wrap CodeInternal "check reverse entry" err))
            else
              orig <-? gmap_err (DomainErr.Wrap CodeInternal "load journal lines")
                         (tx_exec (query (fun _ db => entry_lines (je_id en) db))) ;;
              if (length orig =? 0)%nat
              then gret (Err (DomainErr.New CodeInternal "journal entry has no lines"))
              else
                let desc := if is_empty reason then "REVERSAL" else "REVERSAL: " +:+ reason in
                rev <- tx_row (insert_entry revPaymentID desc) ;;
                match rev with
                | Err err =>
                    if isUniqueViolation err then tx_exec (mark_reversed (je_id en))
                    else gret (Err (DomainErr.Wrap CodeInternal "insert reverse journal_entry" err))
                | Ok (revEntryID, _) =>
                    _ <-? reverse_lines revEntryID orig ;;
                    gmap_err (DomainErr.Wrap CodeInternal "mark entry reversed")
                      (tx_exec (mark_reversed (je_id en)))
                end
        end
  end.

Definition ReverseEntry (paymentID reason : string) : M (world LedgerDB) (result error unit) :=
  if is_empty paymentID then gret (Err (DomainErr.New CodeValidation "payment_id is required"))
  else withSerializable (reverse_tx paymentID reason).

(** The balance of an account: credits minus debits. *)
Definition account_balance (accountID : string) (db : LedgerDB) : Z :=
  sumZ (fun l => - signed l)
    (where_ (fun l => bool_decide (jl_account_id l = accountID)) (lines db)).

(** [SELECT COALESCE(SUM(...), 0) FROM account a LEFT JOIN journal_line jl ... WHERE ...] *)
Definition balance_query (accountType ownerRef currency : string) (db : LedgerDB) : Z :=
  sumZ (fun a => account_balance (acc_id a) db)
    (where_ (account_is accountType ownerRef currency) (accounts db)).

Definition GetBalance (accountType ownerRef currency : string)
  : M (world LedgerDB) (result error BalanceResponse) :=
  if is_empty accountType then gret (Err (DomainErr.New CodeValidation "account_type is required"))
  else if is_empty (TrimSpace ownerRef)
       then gret (Err (DomainErr.New CodeValidation "owner_ref is required"))
  else
    let currency := ToUpper (TrimSpace currency) in
    let currency := if is_empty currency then "GBP" else currency in
    if negb (str_len currency =? 3)
    then gret (Err (DomainErr.New CodeValidation "currency must be 3-letter ISO code"))
    else
      r <- exec (query (fun _ db => balance_query accountType ownerRef currency db)) ;;
      match r with
      | Err e => gret (Err (DomainErr.Wrap CodeInternal "get balance" e))
      | Ok balance =>
          if bool_decide (min_int64 <= balance <= max_int64) then
            now <- time_Now ;;
            gret (Ok (MkBalanceResponse (MkPMoney balance currency) now))
          else gret (Err (DomainErr.Wrap CodeInternal "get balance"
                            (PlainError "cannot scan numeric into int64")))
      end.

Definition GetJournalEntry (paymentID : string) : M (world LedgerDB) (result error JournalEntry) :=
  if is_empty paymentID then gret (Err (DomainErr.New CodeValidation "payment_id is required"))
  else
    r <- loadEntryByPaymentID paymentID ;;
    match r with
    | Err err => gret (Err (if errors_Is_NoRows err
                            then DomainErr.New CodeNotFound "journal entry not found" else err))
    | Ok entry => gret (Ok entry)
    end.
End Store.
