(* ===== verification/LedgerTheory.v ===== *)
(** * Correctness of the ledger.

[schema] is what the constraints of the migration keep true of the tables;
[ledger_inv] adds double entry: every journal entry has at least two lines and
its debits equal its credits, exactly.  Every store operation keeps it, under
every clock, every identifier and every failure of the database. *)
From S2P Require Import Prelude GoStrings DomainErr World Proto LedgerStore.
Local Open Scope Z_scope.

Definition acc_key (a : AccountRow) : string * string * string :=
  (acc_type a, acc_owner_ref a, acc_currency a).
Definition of_entry (eid : string) (ls : list LineRow) : list LineRow :=
  where_ (fun l => bool_decide (jl_entry_id l = eid)) ls.

Record schema (db : LedgerDB) : Prop := {
  sch_entry_ids : NoDup (map je_id (entries db));
  sch_payment_ids : NoDup (map je_payment_id (entries db));
  sch_account_ids : NoDup (map acc_id (accounts db));
  sch_account_keys : NoDup (map acc_key (accounts db));
  sch_lines : forall l, l ∈ lines db ->
    jl_entry_id l ∈ map je_id (entries db) /\ jl_account_id l ∈ map acc_id (accounts db) /\
    0 < jl_amount_pence l /\ jl_direction l ∈ ["DR"; "CR"];
}.

Record ledger_inv (db : LedgerDB) : Prop := {
  inv_schema : schema db;
  inv_two_lines : forall e, e ∈ entries db -> (2 <= length (of_entry (je_id e) (lines db)))%nat;
  inv_balanced : forall e, e ∈ entries db -> imbalance (je_id e) (lines db) = 0;
}.

Lemma account_is_spec t o c a : account_is t o c a = true <-> acc_key a = (t, o, c).
Proof.
  unfold account_is, acc_key. rewrite !andb_true_iff, !bool_decide_eq_true. naive_solver.
Qed.

(* ------------------------------------------------------------------ *)
(** ** Adding lines to an entry *)

(** What a line is asked to be: account type, owner, currency, direction, amount. *)
Definition line_spec : Type := string * string * string * string * Z.

Definition is_line (eid : string) (accs : list AccountRow) (s : line_spec) (l : LineRow) : Prop :=
  let '(t, o, c, d, n) := s in
  jl_entry_id l = eid /\ jl_direction l = d /\ jl_amount_pence l = n /\
  exists a, a ∈ accs /\ acc_id a = jl_account_id l /\ acc_key a = (t, o, c).

(** [db'] is [db] with accounts added and one line per spec appended to entry [eid]. *)
Definition grows (eid : string) (db db' : LedgerDB) (specs : list line_spec) : Prop :=
  exists accs ls, db' = MkLedgerDB (accounts db ++ accs) (entries db) (lines db ++ ls) /\
    schema db' /\ Forall2 (is_line eid (accounts db')) specs ls.

Lemma is_line_mono eid accs accs' s l :
  accs ⊆ accs' -> is_line eid accs s l -> is_line eid accs' s l.
Proof. destruct s as [[[[t o] c] d] n]. unfold is_line. set_solver. Qed.

Lemma grows_refl eid db : schema db -> grows eid db db [].
Proof. exists [], []. rewrite !app_nil_r. by destruct db. Qed.

Lemma grows_trans eid db1 db2 db3 s1 s2 :
  grows eid db1 db2 s1 -> grows eid db2 db3 s2 -> grows eid db1 db3 (s1 ++ s2).
Proof.
  intros (a1 & l1 & -> & _ & H1) (a2 & l2 & -> & Hs & H2). simpl in *.
  exists (a1 ++ a2), (l1 ++ l2). rewrite !(assoc_L (++)). split_and!; [done|done|].
  simpl in *. apply Forall2_app; [|done].
  eapply Forall2_impl; [exact H1|]. intros s l. apply is_line_mono. set_solver.
Qed.

Lemma schema_add_account db t o c id :
  schema db -> (t, o, c) ∉ map acc_key (accounts db) -> id ∉ map acc_id (accounts db) ->
  schema (MkLedgerDB (accounts db ++ [MkAccount id t o c]) (entries db) (lines db)).
Proof.
  intros [] Hk Hid. constructor; simpl; auto using NoDup_map_snoc.
  intros l Hl. destruct (sch_lines0 l Hl) as (? & ? & ? & ?). rewrite map_app. set_solver.
Qed.

Lemma wp_ensureAccount t o c e n b db (Q : result error string -> world (tx LedgerDB) -> Prop) :
  schema db ->
  (forall err w, Q (Err err) w) ->
  (forall aid accs a, let db' := MkLedgerDB (accounts db ++ accs) (entries db) (lines db) in
     schema db' -> a ∈ accounts db' -> acc_id a = aid -> acc_key a = (t, o, c) ->
     Q (Ok aid) (MkWorld (bump e) (MkTx n db' false))) ->
  wp (ensureAccount t o c) Q (MkWorld e (MkTx n db b)).
Proof.
  intros Hs Herr Hok. unfold ensureAccount. wp_step. apply wp_tx_exec; [intros; apply Herr|].
  simpl. intros aid s _ Hq. unfold upsert_account in Hq.
  destruct (List.find _ _) as [a|] eqn:Hf; simplify_eq.
  - apply find_some in Hf as [Hin Ha]. apply account_is_spec in Ha. apply list_elem_of_In in Hin.
    replace s with (MkLedgerDB (accounts s ++ []) (entries s) (lines s))
      by (rewrite app_nil_r; by destruct s).
    apply (Hok _ [] a); simpl; rewrite ?app_nil_r; [by destruct s|done..].
  - destruct (existsb _ _) eqn:Hid; simplify_eq.
    apply (Hok _ _ (MkAccount (cur_uuid e) t o c)); simpl; [|set_solver|done..].
    apply schema_add_account; [done| |by apply existsb_false_notin].
    intros (x & Hk & Hx)%list_elem_of_fmap.
    pose proof (find_none _ _ Hf x) as Hn. rewrite <- list_elem_of_In in Hn.
    specialize (Hn Hx). rewrite <- not_true_iff_false, account_is_spec in Hn. by destruct Hn.
Qed.

Lemma schema_add_line db l :
  schema db -> jl_entry_id l ∈ map je_id (entries db) -> jl_account_id l ∈ map acc_id (accounts db) ->
  0 < jl_amount_pence l -> jl_direction l ∈ ["DR"; "CR"] ->
  schema (MkLedgerDB (accounts db) (entries db) (lines db ++ [l])).
Proof.
  intros [] ? ? ? ?. constructor; simpl; auto.
  intros l' [Hl|[->|[]%elem_of_nil]%elem_of_cons]%elem_of_app; auto.
Qed.

Lemma wp_insert_line eid aid d n e now b db (Q : result error string -> world (tx LedgerDB) -> Prop) :
  schema db ->
  (forall err w, Q (Err err) w) ->
  (forall l, let db' := MkLedgerDB (accounts db) (entries db) (lines db ++ [l]) in
     jl_entry_id l = eid -> jl_account_id l = aid -> jl_direction l = d -> jl_amount_pence l = n ->
     schema db' -> Q (Ok (jl_id l)) (MkWorld (bump e) (MkTx now db' false))) ->
  wp (tx_row (insert_line eid aid d n)) Q (MkWorld e (MkTx now db b)).
Proof.
  intros Hs Herr Hok. unfold tx_row. wp_step. apply wp_tx_exec; [intros; apply Herr|].
  simpl. intros r s _ Hq. unfold insert_line in Hq.
  destruct (existsb _ (lines db)); [done|].
  destruct (negb _ || _)%bool eqn:Hc in Hq; [done|].
  destruct (negb _ || _)%bool eqn:Hf in Hq; simplify_eq.
  apply orb_false_iff in Hc as [Hd Hn], Hf as [He Ha].
  apply negb_false_iff in Hd, He, Ha. apply bool_decide_eq_true in Hd. apply Z.leb_gt in Hn.
  apply existsb_true_in in He, Ha. wp_step.
  apply (Hok (MkLine (cur_uuid e) eid aid d n now)); [done..|]. by apply schema_add_line.
Qed.

(** One line: its account is found or created, then the line is inserted. *)
Lemma wp_add_line {A} eid t o c d n f (k : string -> M (world (tx LedgerDB)) (result error A))
    e now b db (Q : result error A -> world (tx LedgerDB) -> Prop) :
  schema db ->
  (forall err w, Q (Err err) w) ->
  (forall lid e' db', grows eid db db' [(t, o, c, d, n)] ->
     wp (k lid) Q (MkWorld e' (MkTx now db' false))) ->
  wp (accountID <-? ensureAccount t o c ;;
      lineID <-? gmap_err f (tx_row (insert_line eid accountID d n)) ;; k lineID)%go Q
    (MkWorld e (MkTx now db b)).
Proof.
  intros Hs Herr Hk. wp_step. apply wp_ensureAccount; [done|intros; apply Herr|].
  intros aid accs a db1 Hs1 Ha Hid Hkey. do 2 wp_step.
  apply wp_insert_line; [done|intros; apply Herr|].
  intros l db2 He Hacc Hd Hn Hs2. apply Hk. exists accs, [l]. split_and!; [done|done|].
  constructor; [|constructor]. split_and!; [done..|]. exists a. by rewrite Hacc.
Qed.

Definition input_spec (l : lineInput) : line_spec :=
  (li_accountType l, li_ownerRef l, li_currency l, li_direction l, li_amountPence l).

Lemma wp_post_lines eid ls : forall e now b db, schema db ->
  wp (post_lines eid ls)
    (fun r w => is_ok r = true -> grows eid db (tx_db (w_st w)) (map input_spec ls))
    (MkWorld e (MkTx now db b)).
Proof.
  induction ls as [|l ls IH]; intros e now b db Hs; simpl.
  - wp_step. intros _. by apply grows_refl.
  - apply wp_add_line; [done|done|]. intros lid e' db' Hg. wp_step.
    eapply wp_mono; [apply IH; by destruct Hg as (? & ? & ? & ? & ?)|].
    intros [out|err] w' Hout; [|done]. wp_step. intros _.
    by apply (grows_trans _ _ _ _ [_] _ Hg), Hout.
Qed.

Definition opposite (d : string) : string := if bool_decide (d = "CR") then "DR" else "CR".

(** The line that undoes a line. *)
Definition reverse_spec (la : LineRow * AccountRow) : line_spec :=
  (acc_type la.2, acc_owner_ref la.2, acc_currency la.2, opposite (jl_direction la.1),
   jl_amount_pence la.1).

Lemma wp_reverse_lines eid orig : forall e now b db, schema db ->
  wp (reverse_lines eid orig)
    (fun r w => is_ok r = true -> grows eid db (tx_db (w_st w)) (map reverse_spec orig))
    (MkWorld e (MkTx now db b)).
Proof.
  induction orig as [|[l a] orig IH]; intros e now b db Hs; simpl.
  - wp_step. intros _. by apply grows_refl.
  - apply wp_add_line; [done|done|]. intros lid e' db' Hg.
    eapply wp_mono; [apply IH; by destruct Hg as (? & ? & ? & ? & ?)|].
    intros r w' Hout Hr. by apply (grows_trans _ _ _ _ [_] _ Hg), Hout.
Qed.

(* ------------------------------------------------------------------ *)
(** ** A committed entry is balanced *)

Lemma of_entry_app eid l1 l2 : of_entry eid (l1 ++ l2) = of_entry eid l1 ++ of_entry eid l2.
Proof. apply where_app. Qed.

Lemma of_entry_all eid ls : (forall l, l ∈ ls -> jl_entry_id l = eid) -> of_entry eid ls = ls.
Proof.
  induction ls as [|l ls IH]; intros H; [done|]. unfold of_entry. rewrite where_cons.
  rewrite bool_decide_eq_true_2 by (apply H; set_solver). f_equal. apply IH. set_solver.
Qed.

Lemma of_entry_none eid ls : (forall l, l ∈ ls -> jl_entry_id l <> eid) -> of_entry eid ls = [].
Proof.
  induction ls as [|l ls IH]; intros H; [done|]. unfold of_entry. rewrite where_cons.
  rewrite bool_decide_eq_false_2 by (apply H; set_solver). apply IH. set_solver.
Qed.

Lemma is_line_entry eid accs specs ls :
  Forall2 (is_line eid accs) specs ls -> forall l, l ∈ ls -> jl_entry_id l = eid.
Proof.
  induction 1 as [|[[[[t o] c] d] n] l specs ls Hl H IH]; [set_solver|].
  destruct Hl as [He _]. intros l'. rewrite elem_of_cons. naive_solver.
Qed.

Lemma first_error_none {A} (f : A -> option error) l :
  first_error f l = None -> forall x, x ∈ l -> f x = None.
Proof.
  induction l as [|y l IH]; simpl; [set_solver|]. destruct (f y) eqn:Hy; [done|].
  intros Hl x [->|Hx]%elem_of_cons; auto.
Qed.

Lemma trigger_balanced ls new eid :
  check_journal_balance ls new = None -> jl_entry_id new = eid ->
  (2 <= length (of_entry eid ls))%nat -> imbalance eid ls = 0.
Proof.
  unfold check_journal_balance, imbalance. intros Ht <- Hlen. fold (of_entry (jl_entry_id new) ls) in *.
  destruct (Nat.ltb_spec (length (of_entry (jl_entry_id new) ls)) 2); [lia|].
  case_bool_decide; [|done].
  by destruct (Z.eqb_spec (sumZ signed (of_entry (jl_entry_id new) ls)) 0).
Qed.

(** A transaction that adds a fresh entry with at least two lines keeps the
ledger balanced when the deferred trigger accepts it. *)
Lemma inv_new_entry db en db' specs f :
  ledger_inv db ->
  je_id en ∉ map je_id (entries db) -> je_payment_id en ∉ map je_payment_id (entries db) ->
  grows (je_id en) (MkLedgerDB (accounts db) (entries db ++ [en]) (lines db)) db' specs ->
  (2 <= length specs)%nat ->
  (forall x, je_id (f x) = je_id x /\ je_payment_id (f x) = je_payment_id x) ->
  trg_journal_balance db (MkLedgerDB (accounts db') (map f (entries db')) (lines db')) = None ->
  ledger_inv (MkLedgerDB (accounts db') (map f (entries db')) (lines db')).
Proof.
  intros [[Hei Hpi Hai Hak Hl] Htwo Hbal] Hid Hpid (accs & ls & -> & Hs & Hspec) Hlen Hf Htrg.
  simpl in *.
  assert (length ls = length specs) as Hlenls by (symmetry; by eapply Forall2_length).
  pose proof (is_line_entry _ _ _ _ Hspec) as Hls.
  assert (Hold : forall l, l ∈ lines db -> jl_entry_id l <> je_id en).
  { intros l Hin Heq. destruct (Hl l Hin) as [He _]. congruence. }
  assert (Hnew : of_entry (je_id en) (lines db ++ ls) = ls).
  { by rewrite of_entry_app, of_entry_none, of_entry_all. }
  assert (Hbnew : imbalance (je_id en) (lines db ++ ls) = 0).
  { unfold trg_journal_balance in Htrg. simpl in Htrg. rewrite drop_app_length in Htrg.
    destruct ls as [|l ls]; [simpl in *; lia|].
    eapply (trigger_balanced _ l); [eapply first_error_none; [exact Htrg|set_solver]
      |apply Hls; set_solver|rewrite Hnew; lia]. }
  assert (Hids : map je_id (map f (entries db ++ [en])) = map je_id (entries db ++ [en])).
  { rewrite map_map. apply map_ext. intros x. apply Hf. }
  assert (Hpids : map je_payment_id (map f (entries db ++ [en])) = map je_payment_id (entries db ++ [en])).
  { rewrite map_map. apply map_ext. intros x. apply Hf. }
  assert (Heach : forall e, e ∈ map f (entries db ++ [en]) ->
            je_id e = je_id en \/ exists e0, e0 ∈ entries db /\ je_id e = je_id e0).
  { intros e (x & -> & Hx)%list_elem_of_fmap. rewrite (proj1 (Hf x)).
    apply elem_of_app in Hx as [Hx|[->|[]%elem_of_nil]%elem_of_cons]; eauto. }
  assert (Holde : forall e0, e0 ∈ entries db -> of_entry (je_id e0) (lines db ++ ls) = of_entry (je_id e0) (lines db)).
  { intros e0 He0. rewrite of_entry_app, (of_entry_none _ ls), app_nil_r; [done|].
    intros l Hin. rewrite (Hls l Hin). intros Heq. apply Hid. rewrite Heq. by apply list_elem_of_fmap_2. }
  constructor; simpl.
  - destruct Hs as [Hs1 Hs2 Hs3 Hs4 Hs5]. simpl in *. constructor; simpl; rewrite ?Hids, ?Hpids; auto.
  - intros e [->|(e0 & He0 & ->)]%Heach; [rewrite Hnew; lia|]. rewrite Holde by done. by apply Htwo.
  - intros e [->|(e0 & He0 & ->)]%Heach; [done|]. unfold imbalance.
    fold (of_entry (je_id e0) (lines db ++ ls)). rewrite Holde by done. by apply Hbal.
Qed.

(* ------------------------------------------------------------------ *)
(** ** The transactions of the store *)

(** What [loadEntryByPaymentID] answers for a stored entry. *)
Definition entry_view (pid : string) (db : LedgerDB) (en : EntryRow) : JournalEntry :=
  MkJournalEntry (je_id en) pid (je_description en)
    (map (fun la : LineRow * AccountRow =>
       let '(l, a) := la in
       MkJournalLine (jl_id l) (accountTypeFromDB (acc_type a)) (acc_owner_ref a)
         (directionFromDB (jl_direction l)) (Some (MkPMoney (jl_amount_pence l) (acc_currency a))))
       (entry_lines (je_id en) db))
    (je_created_at en).

(** A row query in a transaction: an error leaves the tables alone, and a
missing row in a live transaction means there is none. *)
Lemma wp_tx_find {A} (f : LedgerDB -> option A) e now b db
    (Q : result error A -> world (tx LedgerDB) -> Prop) :
  (forall err w, tx_db (w_st w) = db ->
     (errors_Is_NoRows err = true -> tx_aborted (w_st w) = false ->
      f db = None /\ w_st w = MkTx now db false) -> Q (Err err) w) ->
  (forall a, b = false -> f db = Some a -> Q (Ok a) (MkWorld (bump e) (MkTx now db false))) ->
  wp (tx_row (query (fun _ s => f s))) Q (MkWorld e (MkTx now db b)).
Proof.
  intros Herr Hok. unfold tx_row. wp_step. apply wp_tx_exec.
  - intros err. wp_step. by apply Herr.
  - simpl. intros r s Hb [= Hr <-]. wp_step. destruct r as [a|]; simpl; auto.
Qed.

Lemma wp_loadEntry pid e now b db (Q : result error JournalEntry -> world (tx LedgerDB) -> Prop) :
  (forall err w, tx_db (w_st w) = db ->
     (errors_Is_NoRows err = true -> tx_aborted (w_st w) = false ->
      find_entry pid db = None /\ w_st w = MkTx now db false) -> Q (Err err) w) ->
  (forall en e', b = false -> find_entry pid db = Some en ->
     Q (Ok (entry_view pid db en)) (MkWorld e' (MkTx now db false))) ->
  wp (loadEntryByPaymentID pid) Q (MkWorld e (MkTx now db b)).
Proof.
  intros Herr Hok. unfold loadEntryByPaymentID, q_exec, tx_querier. wp_step.
  apply wp_tx_exec.
  - intros err. simpl. wp_step. apply Herr; [done|]. by intros _ [=].
  - simpl. intros r s -> [= Hr <-]. destruct r as [en|]; simpl; cycle 1.
    { wp_step. by apply Herr. }
    wp_step. apply wp_tx_exec.
    + intros err. wp_step. by apply Herr.
    + simpl. intros ls s' _ [= <- <-]. wp_step. by apply Hok.
Qed.

Lemma schema_add_entry db en :
  schema db -> je_id en ∉ map je_id (entries db) -> je_payment_id en ∉ map je_payment_id (entries db) ->
  schema (MkLedgerDB (accounts db) (entries db ++ [en]) (lines db)).
Proof.
  intros Hs Hid Hp. pose proof (sch_lines _ Hs) as Hl. destruct Hs. constructor; simpl; auto using NoDup_map_snoc.
  intros l Hin. destruct (Hl l Hin) as (? & ? & ? & ?). split_and!; try done.
  rewrite map_app, elem_of_app. by left.
Qed.

Lemma find_entry_none pid db :
  find_entry pid db = None -> pid ∉ map je_payment_id (entries db).
Proof. apply find_bool_decide_none. Qed.

Lemma find_entry_notin pid db :
  pid ∉ map je_payment_id (entries db) -> find_entry pid db = None.
Proof.
  intros Hn. unfold find_entry. destruct (List.find _ _) as [en|] eqn:Hf; [|done].
  apply find_bool_decide_spec in Hf as [Hin <-]. destruct Hn. by apply list_elem_of_fmap_2.
Qed.

Lemma wp_insert_entry pid desc e now b db (Q : result error (string * Z) -> world (tx LedgerDB) -> Prop) :
  schema db ->
  (forall err w, tx_aborted (w_st w) = true -> Q (Err err) w) ->
  (forall en, let db' := MkLedgerDB (accounts db) (entries db ++ [en]) (lines db) in
     je_payment_id en = pid -> je_reversed en = false ->
     je_id en ∉ map je_id (entries db) -> pid ∉ map je_payment_id (entries db) -> schema db' ->
     Q (Ok (je_id en, je_created_at en)) (MkWorld (bump e) (MkTx now db' false))) ->
  wp (tx_row (insert_entry pid desc)) Q (MkWorld e (MkTx now db b)).
Proof.
  intros [] Herr Hok. unfold tx_row. wp_step. apply wp_tx_exec; [intros; by apply Herr|].
  simpl. intros r s _ Hq. unfold insert_entry in Hq. destruct (existsb _ _) eqn:Hex; simplify_eq.
  wp_step.
  assert ((cur_uuid e ∉ map je_id (entries db)) /\ (pid ∉ map je_payment_id (entries db))) as [Hi Hp].
  { rewrite <- not_true_iff_false, existsb_exists in Hex. split.
    all: intros (x & Heq & Hx)%list_elem_of_fmap; apply Hex; exists x; apply list_elem_of_In in Hx;
      (split; [done|]); rewrite orb_true_iff, !bool_decide_eq_true; auto. }
  apply (Hok (MkEntry (cur_uuid e) pid desc false now)); [done..|].
  constructor; simpl; auto using NoDup_map_snoc.
  intros l Hl. destruct (sch_lines0 l Hl) as (? & ? & ? & ?). rewrite map_app. set_solver.
Qed.

(** The outcome of a successful posting transaction. *)
Definition posted (pid : string) (ls : list lineInput) (db : LedgerDB) (out : JournalEntry)
    (db' : LedgerDB) : Prop :=
  (exists en, find_entry pid db = Some en /\ out = entry_view pid db en /\ db' = db) \/
  (exists en, find_entry pid db = None /\ je_payment_id en = pid /\ je_reversed en = false /\
     je_id en = jen_id out /\ jen_payment_id out = pid /\
     (je_id en ∉ map je_id (entries db)) /\ (pid ∉ map je_payment_id (entries db)) /\
     grows (je_id en) (MkLedgerDB (accounts db) (entries db ++ [en]) (lines db)) db'
       (map input_spec ls)).

Lemma wp_post_tx pid desc ls e now db : schema db ->
  wp (post_tx pid desc ls)
    (fun r w => forall out, r = Ok out -> tx_aborted (w_st w) = false ->
       posted pid ls db out (tx_db (w_st w)))
    (MkWorld e (MkTx now db false)).
Proof.
  intros Hs. unfold post_tx. wp_step. apply wp_loadEntry.
  - intros err [e1 t1] Hdb Hnone. simpl in *. wp_step; [by wp_step|].
    apply negb_false_iff in Hif. destruct t1 as [n1 db1 b1]. simpl in *. subst db1.
    wp_step. apply wp_insert_entry; [done|..].
    + intros err2 [e2 [n2 db2 b2]] Hab. simpl in *. subst b2. wp_step; [|by wp_step].
      wp_step. apply wp_loadEntry; [done|]. by intros en e' ?.
    + intros en db' Hpid Hrev Hid Hp Hs'. wp_step.
      eapply wp_mono; [by apply wp_post_lines|].
      intros [out|err2] [e2 t2] Hgrow; [|done]. wp_step. intros _ [= <-] Hab. right.
      exists en. simpl in *. split_and!; auto.
      by apply find_entry_notin.
  - intros en e' _ Hf. wp_step. intros _ [= <-] _. left. by exists en.
Qed.

Definition mark (eid : string) (db : LedgerDB) : LedgerDB :=
  MkLedgerDB (accounts db) (map (set_reversed eid) (entries db)) (lines db).
Definition rev_id (pid : string) : string := pid +:+ "-rev".

(** The outcome of a successful reversal: nothing to do, the flag alone when
the reversing entry is there already, or the flag and a new reversing entry. *)
Definition reversed (pid : string) (db db' : LedgerDB) : Prop :=
  exists en, find_entry pid db = Some en /\
    ((je_reversed en = true /\ db' = db) \/
     (je_reversed en = false /\ is_Some (find_entry (rev_id pid) db) /\ db' = mark (je_id en) db) \/
     (je_reversed en = false /\ exists rv db1,
        je_payment_id rv = rev_id pid /\ je_reversed rv = false /\
        (je_id rv ∉ map je_id (entries db)) /\ (rev_id pid ∉ map je_payment_id (entries db)) /\
        grows (je_id rv) (MkLedgerDB (accounts db) (entries db ++ [rv]) (lines db)) db1
          (map reverse_spec (entry_lines (je_id en) db)) /\
        db' = mark (je_id en) db1)).

Lemma wp_mark_reversed eid e now b db (Q : result error unit -> world (tx LedgerDB) -> Prop) :
  (forall err w, tx_aborted (w_st w) = true -> Q (Err err) w) ->
  (b = false -> Q (Ok tt) (MkWorld (bump e) (MkTx now (mark eid db) false))) ->
  wp (tx_exec (mark_reversed eid)) Q (MkWorld e (MkTx now db b)).
Proof.
  intros Herr Hok. apply wp_tx_exec; [intros; by apply Herr|]. simpl.
  intros [] s Hb [= <-]. by apply Hok.
Qed.

Lemma wp_reverse_tx pid reason e now db : schema db ->
  wp (reverse_tx pid reason)
    (fun r w => r = Ok tt -> tx_aborted (w_st w) = false -> reversed pid db (tx_db (w_st w)))
    (MkWorld e (MkTx now db false)).
Proof.
  intros Hs. unfold reverse_tx. wp_step. apply wp_tx_find; [intros err w _ _; by wp_step|].
  intros en _ Hen. wp_step; [wp_step; intros _ _; by exists en; eauto|].
  wp_step. apply wp_tx_find.
  - intros err [e1 [n1 db1 b1]] Hdb Hnone. simpl in *. subst db1. wp_step; [by wp_step|].
    do 2 wp_step. apply wp_tx_exec; [done|]. simpl. intros orig s Hb [= <- <-].
    wp_step; [by wp_step|]. wp_step. apply wp_insert_entry; [done|..].
    + intros err2 [e2 [n2 db2 b2]] Hab. simpl in *. subst b2. wp_step; [|by wp_step].
      by apply wp_mark_reversed.
    + intros rv db' Hpid Hrev Hid Hp Hs'. wp_step.
      eapply wp_mono; [by apply wp_reverse_lines|].
      intros [[]|err2] [e2 [n2 db2 b2]] Hgrow; [|done]. simpl in Hgrow. wp_step.
      apply wp_mark_reversed; [by intros err3 w Hw _; rewrite Hw|]. intros -> _ _.
      exists en. split; [done|]. right; right. split; [done|]. exists rv, db2. auto 10.
  - intros rv _ Hrv. wp_step. apply wp_mark_reversed.
    + intros err w Hw. wp_step. by rewrite Hw.
    + intros _. wp_step. intros _ _. exists en. split; [done|]. right; left. eauto.
Qed.

(* ------------------------------------------------------------------ *)
(** ** The five attempts *)

(** Whatever a committing transaction establishes from an invariant holds after
the retry loop, and an error leaves either the old tables or committed ones. *)
Lemma wp_serializable {A} (fn : M (world (tx LedgerDB)) (result error A)) (I : LedgerDB -> Prop)
    (R : A -> LedgerDB -> LedgerDB -> Prop) n : forall last e db,
  I db ->
  (forall e now s, I s -> wp fn (fun r w => forall a, r = Ok a -> tx_aborted (w_st w) = false ->
     trg_journal_balance s (tx_db (w_st w)) = None ->
     I (tx_db (w_st w)) /\ R a s (tx_db (w_st w))) (MkWorld e (MkTx now s false))) ->
  wp (serializable_attempts n last fn)
    (fun r w => I (w_st w) /\ forall a, r = Ok a -> exists s, I s /\ R a s (w_st w))
    (MkWorld e db).
Proof.
  induction n as [|n IH]; intros last e db Hdb Hfn; simpl; [by wp_step|]. wp_step.
  apply wp_begin_func with (R := fun a _ s' => I s' /\ R a db s').
  - intros err e'. wp_step; [by apply IH|by wp_step].
  - eapply wp_mono; [by apply Hfn|]. simpl. auto.
  - intros a e' s' [Hs HR]. wp_step. split; [done|]. intros ? [= <-]. eauto.
  - intros a e' s' err [Hs HR]. wp_step; [by apply IH|by wp_step].
Qed.

(* ------------------------------------------------------------------ *)
(** ** Double entry is an invariant *)

Lemma set_reversed_keeps eid x :
  je_id (set_reversed eid x) = je_id x /\ je_payment_id (set_reversed eid x) = je_payment_id x.
Proof. unfold set_reversed. by case_bool_decide. Qed.

Lemma map_set_reversed eid (l : list EntryRow) :
  map je_id (map (set_reversed eid) l) = map je_id l /\
  map je_payment_id (map (set_reversed eid) l) = map je_payment_id l.
Proof. rewrite !map_map. split; apply map_ext; intros x; apply set_reversed_keeps. Qed.

Lemma inv_mark eid db : ledger_inv db -> ledger_inv (mark eid db).
Proof.
  intros [[] Htwo Hbal]. destruct (map_set_reversed eid (entries db)) as [Hi Hp].
  constructor; [constructor; simpl; by rewrite ?Hi, ?Hp|..].
  all: intros e (x & -> & Hx)%list_elem_of_fmap; rewrite (proj1 (set_reversed_keeps eid x)); simpl; auto.
Qed.

(** The join with the accounts drops no line: each line's account exists. *)
Lemma omap_total {A B} (f : A -> option B) (l : list A) :
  (forall x, x ∈ l -> is_Some (f x)) -> exists l', omap f l = l' /\ Forall2 (fun x y => f x = Some y) l l'.
Proof.
  induction l as [|x l IH]; intros H; [by exists []|]. destruct IH as (l' & Hl & HF); [set_solver|].
  destruct (H x) as [y Hy]; [set_solver|]. exists (y :: l').
  split; [|by constructor]. simpl. rewrite Hy. by f_equal.
Qed.

Lemma find_account db aid :
  aid ∈ map acc_id (accounts db) ->
  exists a, List.find (fun a => bool_decide (acc_id a = aid)) (accounts db) = Some a /\
    a ∈ accounts db /\ acc_id a = aid.
Proof.
  intros Hin. destruct (List.find _ _) as [a|] eqn:Hf.
  - apply find_bool_decide_spec in Hf as Hs. destruct Hs. eauto.
  - by apply find_bool_decide_none in Hf.
Qed.

(** The joined lines of an entry are its lines, in some order, each with its account. *)
Lemma entry_lines_spec eid db : schema db ->
  exists srt, srt ≡ₚ of_entry eid (lines db) /\
    Forall2 (fun l la => la.1 = l /\ la.2 ∈ accounts db /\ acc_id la.2 = jl_account_id l)
      srt (entry_lines eid db).
Proof.
  intros [_ _ _ _ Hl]. exists (merge_sort line_le (of_entry eid (lines db))).
  assert (Hp := merge_sort_Permutation line_le (of_entry eid (lines db))). split; [done|].
  destruct (omap_total (fun l => (fun a => (l, a)) <$>
      List.find (fun a => bool_decide (acc_id a = jl_account_id l)) (accounts db))
    (merge_sort line_le (of_entry eid (lines db)))) as (la & Hla & HF); cycle 1.
  - unfold entry_lines. fold (of_entry eid (lines db)). rewrite Hla.
    eapply Forall2_impl; [exact HF|]. intros l y Hy. simpl in Hy.
    apply fmap_Some in Hy as (a & Ha & ->). apply find_bool_decide_spec in Ha. by destruct Ha.
  - intros l Hin. rewrite Hp in Hin. unfold of_entry in Hin. apply elem_of_where in Hin as [Hin _].
    destruct (Hl l Hin) as (_ & Hacc & _). apply find_account in Hacc as (a & -> & _). by eexists.
Qed.

Lemma entry_lines_length eid db :
  schema db -> length (entry_lines eid db) = length (of_entry eid (lines db)).
Proof.
  intros Hs. destruct (entry_lines_spec eid db Hs) as (srt & Hp & HF).
  rewrite <- (Forall2_length _ _ _ HF). by apply Permutation_length.
Qed.

Lemma find_entry_spec pid db en :
  find_entry pid db = Some en -> en ∈ entries db /\ je_payment_id en = pid.
Proof. apply find_bool_decide_spec. Qed.

Lemma posted_inv pid ls db out db' :
  ledger_inv db -> (2 <= length ls)%nat -> posted pid ls db out db' ->
  trg_journal_balance db db' = None -> ledger_inv db'.
Proof.
  intros Hinv Hlen [(en & _ & _ & ->)|(en & _ & Hpid & _ & _ & _ & Hid & Hp & Hg)] Htrg; [done|].
  assert (db' = MkLedgerDB (accounts db') (map id (entries db')) (lines db')) as E
    by (rewrite map_id; by destruct db').
  rewrite E in Htrg |- *. eapply inv_new_entry; [done|done|by rewrite Hpid|exact Hg| |done|done].
  by rewrite length_map.
Qed.

Lemma reversed_inv pid db db' :
  ledger_inv db -> reversed pid db db' -> trg_journal_balance db db' = None -> ledger_inv db'.
Proof.
  intros Hinv (en & Hen & [[_ ->]|[(_ & _ & ->)|(_ & rv & db1 & Hpid & _ & Hid & Hp & Hg & ->)]]) Htrg;
    [done|by apply inv_mark|].
  eapply inv_new_entry; [done|done|by rewrite Hpid|exact Hg| |apply set_reversed_keeps|exact Htrg].
  rewrite length_map, entry_lines_length by apply Hinv. apply Hinv. by eapply find_entry_spec.
Qed.
