(* ===== verification/LedgerProps.v ===== *)
(** * What the ledger promises.

Theorems about the four store operations: double entry under every history of
calls and failures, all-or-nothing postings, reversals that restore every
balance, idempotent replays, retry exhaustion, and success of valid postings. *)
From S2P Require Import Prelude GoStrings DomainErr World Proto LedgerStore LedgerTheory.
Local Open Scope Z_scope.
Local Open Scope go_scope.

(** An early return with an error contradicts a successful result. *)
Ltac skip_guard :=
  match goal with
  | |- (if ?b then Err _ else _) = Ok _ -> _ => destruct b; [done|]
  end.

Section Props.
Context `{Unicode}.

Lemma check_lines_length ls : forall i d c cur ls' d' c',
  check_lines i ls d c cur = Ok (ls', d', c') -> length ls' = length ls.
Proof.
  induction ls as [|l ls IH]; intros i d c cur ls' d' c'; simpl; [by intros [= <-]|].
  repeat skip_guard.
  destruct (check_lines (S i) ls _ _ _) as [[[ls1 d1] c1]|] eqn:Hc; simpl; [|done].
  intros [= <- _ _]. simpl. f_equal. by eapply IH.
Qed.

(** The tables after a posting that created the entry [eid]. *)
Definition stored (pid : string) (ls : list lineInput) (db : LedgerDB) (eid : string)
    (db' : LedgerDB) : Prop :=
  exists en, je_id en = eid /\ je_payment_id en = pid /\ je_reversed en = false /\
    (eid ∉ map je_id (entries db)) /\ (pid ∉ map je_payment_id (entries db)) /\
    grows eid (MkLedgerDB (accounts db) (entries db ++ [en]) (lines db)) db' (map input_spec ls).

Lemma find_entry_snoc pid en db accs ls :
  pid ∉ map je_payment_id (entries db) -> je_payment_id en = pid ->
  find_entry pid (MkLedgerDB accs (entries db ++ [en]) ls) = Some en.
Proof.
  intros Hn <-. unfold find_entry. simpl. induction (entries db) as [|x l IH]; simpl.
  - by rewrite bool_decide_eq_true_2.
  - rewrite bool_decide_eq_false_2; [|set_solver]. apply IH. set_solver.
Qed.

Lemma stored_find pid ls db eid db' : stored pid ls db eid db' ->
  exists en, find_entry pid db' = Some en /\ je_id en = eid /\ je_reversed en = false.
Proof.
  intros (en & He & Hp & Hr & _ & Hn & (accs & ls' & -> & _)). exists en. simpl.
  split; [|done]. by apply find_entry_snoc.
Qed.

(** Post conditions of the retried transaction: nothing, or this one posting. *)
Definition post_inv (pid : string) (ls : list lineInput) (db s : LedgerDB) : Prop :=
  ledger_inv s /\ (s = db \/ (find_entry pid db = None /\ exists eid, stored pid ls db eid s)).

Lemma wp_post pid desc ls e db :
  ledger_inv db -> (2 <= length ls)%nat ->
  wp (withSerializable (post_tx pid desc ls))
    (fun r w => post_inv pid ls db (w_st w) /\
       forall out, r = Ok out ->
         match find_entry pid db with
         | Some en => w_st w = db /\ out = entry_view pid db en
         | None => stored pid ls db (jen_id out) (w_st w)
         end) (MkWorld e db).
Proof.
  intros Hinv Hlen. eapply wp_mono; [eapply (wp_serializable _ (post_inv pid ls db)
    (fun out s s' => posted pid ls s out s' /\ post_inv pid ls db s)); [by split; [|left]|]|].
  - intros e' now s [Hs Hcase]. eapply wp_mono; [apply wp_post_tx; apply Hs|].
    intros r [e1 t1] Hr out -> Hab Htrg. specialize (Hr out eq_refl Hab). simpl in *.
    split; [|by split]. split; [by eapply posted_inv|].
    destruct Hr as [(en & Hf & -> & ->)|(en & Hf & Hp & Hrv & Hid & _ & Hi & Hn & Hg)]; [done|].
    right. destruct Hcase as [->|(Hdb & eid & Hst)].
    + split; [done|]. exists (je_id en), en. auto 10.
    + apply stored_find in Hst as (x & Hx & _). congruence.
  - intros r [e' s'] [HI HR]. split; [done|]. intros out ->. simpl in *.
    destruct (HR out eq_refl) as (s & _ & Hp & [_ [->|(Hdb & eid & Hst)]]).
    + destruct Hp as [(en & -> & -> & ->)|(en & -> & Hp & Hrv & <- & _ & Hi & Hn & Hg)]; [done|].
      exists en. auto 10.
    + rewrite Hdb. pose proof (stored_find _ _ _ _ _ Hst) as (x & Hx & <- & _).
      destruct Hp as [(en & Hf & -> & ->)|(en & Hf & _)]; [|congruence].
      rewrite Hx in Hf. by injection Hf as <-.
Qed.

Lemma wp_PostDoubleEntry pid desc ls e db :
  ledger_inv db ->
  wp (PostDoubleEntry pid desc ls)
    (fun r w => (ledger_inv (w_st w)) /\
       (w_st w = db \/ exists ls' n eid, check_lines 0 ls 0 0 "" = Ok (ls', n, n) /\
          find_entry pid db = None /\ stored pid ls' db eid (w_st w)) /\
       forall out, r = Ok out -> exists ls' n, check_lines 0 ls 0 0 "" = Ok (ls', n, n) /\
         match find_entry pid db with
         | Some en => w_st w = db /\ out = entry_view pid db en
         | None => stored pid ls' db (jen_id out) (w_st w)
         end) (MkWorld e db).
Proof.
  intros Hinv. unfold PostDoubleEntry. wp_step; [wp_step; naive_solver|].
  wp_step; [wp_step; naive_solver|]. apply Nat.ltb_ge in Hif0.
  destruct (check_lines 0 ls 0 0 "") as [[[ls' d] c]|err] eqn:Hc; [|wp_step; naive_solver].
  wp_step; [wp_step; naive_solver|]. apply negb_false_iff, Z.eqb_eq in Hif1 as ->.
  eapply wp_mono; [apply wp_post; [done|]|].
  { by rewrite (check_lines_length _ _ _ _ _ _ _ _ Hc). }
  intros r w [[Hi Hcase] Hout]. split_and!; [done| |intros out Ho; exists ls', c; split; [done|by apply Hout]].
  destruct Hcase as [?|(? & eid & ?)]; [by left|]. right. by exists ls', c, eid.
Qed.

(* ------------------------------------------------------------------ *)
(** ** Reversal *)

Definition rev_inv (pid : string) (db s : LedgerDB) : Prop :=
  ledger_inv s /\ (s = db \/ reversed pid db s).

Lemma find_set_reversed eid pid (l : list EntryRow) :
  List.find (fun x => bool_decide (je_payment_id x = pid)) (map (set_reversed eid) l) =
  set_reversed eid <$> List.find (fun x => bool_decide (je_payment_id x = pid)) l.
Proof.
  induction l as [|x l IH]; simpl; [done|].
  rewrite (proj2 (set_reversed_keeps eid x)). by case_bool_decide.
Qed.

Lemma find_mark eid pid db : find_entry pid (mark eid db) = set_reversed eid <$> find_entry pid db.
Proof. apply find_set_reversed. Qed.

Lemma set_reversed_self en : je_reversed (set_reversed (je_id en) en) = true.
Proof. unfold set_reversed. by rewrite bool_decide_eq_true_2. Qed.

Lemma find_app_l {A} (f : A -> bool) l1 l2 x : List.find f l1 = Some x -> List.find f (l1 ++ l2) = Some x.
Proof. induction l1 as [|y l1 IH]; simpl; [done|]. by destruct (f y). Qed.

(** After a reversal the entry is there and flagged. *)
Lemma reversed_find pid db db' : reversed pid db db' ->
  exists en, find_entry pid db' = Some en /\ je_reversed en = true.
Proof.
  intros (en & Hen & [[Hr ->]|[(_ & _ & ->)|(_ & rv & db1 & _ & _ & _ & _ & Hg & ->)]]); [by eauto|..].
  - exists (set_reversed (je_id en) en). rewrite find_mark, Hen. auto using set_reversed_self.
  - exists (set_reversed (je_id en) en). rewrite find_mark.
    destruct Hg as (accs & ls & -> & _). unfold find_entry. simpl.
    erewrite find_app_l by exact Hen. auto using set_reversed_self.
Qed.

Lemma reversed_again pid db db' db'' : reversed pid db db' -> reversed pid db' db'' -> db'' = db'.
Proof.
  intros (en & Hen & Hr)%reversed_find (en' & Hen' & Hcase).
  rewrite Hen in Hen'. injection Hen' as <-.
  destruct Hcase as [[_ ->]|[(Hf & _)|(Hf & _)]]; congruence.
Qed.

Lemma wp_ReverseEntry pid reason e db :
  ledger_inv db ->
  wp (ReverseEntry pid reason)
    (fun r w => rev_inv pid db (w_st w) /\ (r = Ok tt -> reversed pid db (w_st w)))
    (MkWorld e db).
Proof.
  intros Hinv. unfold ReverseEntry. wp_step; [wp_step; split; [split; auto|done]|].
  eapply wp_mono; [eapply (wp_serializable _ (rev_inv pid db)
    (fun _ _ s' => reversed pid db s')); [by split; [|left]|]|].
  - intros e' now s [Hs Hcase]. eapply wp_mono; [apply wp_reverse_tx; apply Hs|].
    intros r [e1 t1] Hr [] -> Hab Htrg. specialize (Hr eq_refl Hab). simpl in *.
    assert (reversed pid db (tx_db t1)) as Hrev.
    { destruct Hcase as [->|Hc]; [done|]. by rewrite (reversed_again _ _ _ _ Hc Hr). }
    split; [|done]. split; [by eapply reversed_inv|by right].
  - intros r w [HI HR]. split; [done|]. intros ->. by destruct (HR tt eq_refl) as (s & _ & ?).
Qed.

(* ------------------------------------------------------------------ *)
(** ** Histories *)

Inductive ledger_op : Type :=
| OpPost (paymentID description : string) (ls : list lineInput)
| OpReverse (paymentID reason : string)
| OpBalance (accountType ownerRef currency : string)
| OpJournal (paymentID : string).

Definition run_op (op : ledger_op) : M (world LedgerDB) unit :=
  match op with
  | OpPost pid desc ls => _ <- PostDoubleEntry pid desc ls ;; gret tt
  | OpReverse pid reason => _ <- ReverseEntry pid reason ;; gret tt
  | OpBalance t o c => _ <- GetBalance t o c ;; gret tt
  | OpJournal pid => _ <- GetJournalEntry pid ;; gret tt
  end.

Fixpoint run_ops (ops : list ledger_op) : M (world LedgerDB) unit :=
  match ops with
  | [] => gret tt
  | op :: ops' => run_op op ;;; run_ops ops'
  end.

Definition empty_ledger : LedgerDB := MkLedgerDB [] [] [].

Lemma wp_read {A} (f : Z -> LedgerDB -> A) (Q : result error A -> world LedgerDB -> Prop) e db :
  (forall err, Q (Err err) (MkWorld (bump e) db)) ->
  (forall a, Q (Ok a) (MkWorld (bump e) db)) ->
  wp (exec (query f)) Q (MkWorld e db).
Proof.
  intros He Ho. apply wp_exec; [by auto|..].
  - intros r s [= <- <-]. apply Ho.
  - intros r s err [= _ <-]. apply He.
Qed.

Lemma wp_GetBalance t o c e db :
  wp (GetBalance t o c) (fun _ w => w_st w = db) (MkWorld e db).
Proof.
  unfold GetBalance. wp_step; [by wp_step|]. wp_step; [by wp_step|]. cbv zeta.
  wp_step; [by wp_step|]. wp_step. apply wp_read; [intros; by wp_step|].
  intros b. wp_step; [|by wp_step]. wp_step. apply wp_time_Now. by wp_step.
Qed.

Lemma wp_GetJournalEntry pid e db :
  wp (GetJournalEntry pid) (fun _ w => w_st w = db) (MkWorld e db).
Proof.
  unfold GetJournalEntry, loadEntryByPaymentID, q_exec, pool_querier.
  wp_step; [by wp_step|]. wp_step. wp_step. apply wp_read; [intros; by do 2 wp_step|].
  intros [en|]; simpl; [|by do 2 wp_step]. wp_step.
  apply wp_read; intros; by do 2 wp_step.
Qed.

Lemma wp_ledger_op op e db : ledger_inv db ->
  wp (run_op op) (fun _ w => ledger_inv (w_st w)) (MkWorld e db).
Proof.
  intros Hinv. destruct op; simpl; wp_step.
  - eapply wp_mono; [by apply wp_PostDoubleEntry|]. intros r w [? _]. by wp_step.
  - eapply wp_mono; [by apply wp_ReverseEntry|]. intros r w [[? _] _]. by wp_step.
  - eapply wp_mono; [by apply wp_GetBalance|]. intros r w <-. by wp_step.
  - eapply wp_mono; [by apply wp_GetJournalEntry|]. intros r w <-. by wp_step.
Qed.

Lemma wp_ledger_ops ops : forall e db, ledger_inv db ->
  wp (run_ops ops) (fun _ w => ledger_inv (w_st w)) (MkWorld e db).
Proof.
  induction ops as [|op ops IH]; intros e db Hinv; simpl; [by wp_step|]. wp_step.
  eapply wp_mono; [by apply wp_ledger_op|]. intros _ [e' s] Hs. by apply IH.
Qed.

Lemma empty_inv : ledger_inv empty_ledger.
Proof. constructor; [constructor|..]; simpl; try constructor; set_solver. Qed.

(** Debits equal credits over all accounts. *)
Lemma trial_balance db : ledger_inv db ->
  sumZ (fun a => account_balance (acc_id a) db) (accounts db) = 0.
Proof.
  intros [[Hei _ Hai _ Hl] _ Hbal]. rewrite <- (sumZ_map (fun k => account_balance k db) acc_id).
  etrans; [symmetry; apply (sumZ_partition jl_account_id (fun l => - signed l));
    [done|intros l Hin; apply (Hl l Hin)]|].
  rewrite sumZ_opp, (sumZ_partition jl_entry_id signed (map je_id (entries db)));
    [|done|intros l Hin; apply (Hl l Hin)].
  rewrite sumZ_zero; [done|]. intros k (en & -> & Hen)%list_elem_of_fmap. by apply Hbal.
Qed.

(* ------------------------------------------------------------------ *)
(** ** Balances after a posting and a reversal *)

(** What the lines of an entry add to the balance of an account. *)
Definition contribution (aid : string) (ls : list LineRow) : Z :=
  sumZ (fun l => - signed l) (where_ (fun l => bool_decide (jl_account_id l = aid)) ls).

Lemma contribution_app aid l1 l2 : contribution aid (l1 ++ l2) = contribution aid l1 + contribution aid l2.
Proof. unfold contribution. by rewrite where_app, sumZ_app. Qed.

Lemma contribution_perm aid l1 l2 : l1 ≡ₚ l2 -> contribution aid l1 = contribution aid l2.
Proof. intros Hp. unfold contribution. rewrite !sumZ_where. by apply sumZ_perm. Qed.

Lemma contribution_opposite aid l1 l2 :
  Forall2 (fun l l' => jl_account_id l' = jl_account_id l /\ signed l' = - signed l) l1 l2 ->
  contribution aid l2 = - contribution aid l1.
Proof.
  unfold contribution. rewrite !sumZ_where.
  induction 1 as [|l l' l1 l2 [Ha Hs] _ IH]; [done|]. rewrite !sumZ_cons, Ha, Hs, IH.
  case_bool_decide; lia.
Qed.

Lemma reverse_line_opposite rid accs l la l' :
  NoDup (map acc_key accs) -> la.2 ∈ accs -> acc_id la.2 = jl_account_id l -> la.1 = l ->
  jl_direction l ∈ ["DR"; "CR"] -> is_line rid accs (reverse_spec la) l' ->
  jl_account_id l' = jl_account_id l /\ signed l' = - signed l.
Proof.
  destruct la as [l0 a]. simpl. intros Hnd Ha Hid -> Hdir (_ & Hd & Hn & a' & Ha' & Hid' & Hk).
  assert (a' = a) as -> by (eapply (NoDup_map_inj acc_key); eauto).
  split; [congruence|]. unfold signed. rewrite Hd, Hn. unfold opposite.
  apply elem_of_cons in Hdir as [->|[->|[]%elem_of_nil]%elem_of_cons]; simpl; lia.
Qed.

Lemma reversal_contribution eid rid aid db db1 accs ls :
  schema db -> schema db1 -> accounts db ⊆ accounts db1 -> accs = accounts db1 ->
  Forall2 (is_line rid accs) (map reverse_spec (entry_lines eid db)) ls ->
  contribution aid ls = - contribution aid (of_entry eid (lines db)).
Proof.
  intros Hs Hs1 Hsub -> HF. destruct (entry_lines_spec eid db Hs) as (srt & Hp & Hsrt).
  rewrite <- (contribution_perm _ _ _ Hp). apply contribution_opposite.
  rewrite Forall2_fmap_l in HF.
  assert (Hdir : forall l, l ∈ srt -> jl_direction l ∈ ["DR"; "CR"]).
  { intros l Hl. rewrite Hp in Hl. unfold of_entry in Hl. apply elem_of_where in Hl as [Hl _].
    apply (sch_lines _ Hs l Hl). }
  clear Hp. revert ls HF. induction Hsrt as [|l la srt las (H1 & H2 & H3) _ IH]; intros ls HF;
    inversion HF; subst; constructor; [|apply IH; [set_solver|done]].
  apply (reverse_line_opposite rid (accounts db1) _ la); auto; [apply Hs1|apply Hdir; set_solver].
Qed.

(** A reversal that writes the reversing entry takes the entry's lines back
from every account. *)
Lemma reversed_balance pid db db' en aid :
  schema db -> reversed pid db db' -> find_entry pid db = Some en -> je_reversed en = false ->
  find_entry (rev_id pid) db = None ->
  account_balance aid db' = account_balance aid db - contribution aid (of_entry (je_id en) (lines db)).
Proof.
  intros Hs (en' & Hen & Hcase) Hf Hr Hnone. rewrite Hf in Hen. injection Hen as <-.
  destruct Hcase as [[? _]|[(_ & [x Hx] & _)|(_ & rv & db1 & _ & _ & _ & _ & Hg & ->)]]; [congruence..|].
  destruct Hg as (accs & ls & -> & Hs1 & HF). unfold account_balance at 1. simpl.
  fold (contribution aid (lines db ++ ls)). rewrite contribution_app.
  rewrite (reversal_contribution _ _ _ _ _ _ _ Hs Hs1 ltac:(simpl; set_solver) eq_refl HF).
  fold (contribution aid (lines db)). unfold account_balance.
  fold (contribution aid (lines db)). lia.
Qed.

Lemma append_rev_neq pid : rev_id pid <> pid.
Proof.
  intros Heq%(f_equal String.length). unfold rev_id in Heq.
  rewrite string_length_app in Heq. simpl in Heq. lia.
Qed.

Lemma stored_lines pid ls db eid db' : schema db -> stored pid ls db eid db' ->
  exists new, lines db' = lines db ++ new /\ of_entry eid (lines db') = new /\
    schema db' /\ Forall2 (is_line eid (accounts db')) (map input_spec ls) new /\
    (exists en, entries db' = entries db ++ [en] /\ je_payment_id en = pid).
Proof.
  intros Hs (en & <- & Hp & _ & Hid & _ & (accs & new & -> & Hs' & HF)). exists new. simpl.
  split_and!; [done| |done|done|eauto].
  rewrite of_entry_app, of_entry_none, of_entry_all; [done|by eapply is_line_entry|].
  intros l Hl Heq. apply Hid. rewrite <- Heq. apply (sch_lines _ Hs l Hl).
Qed.

Lemma find_entry_other pid pid' db db' en :
  entries db' = entries db ++ [en] -> je_payment_id en = pid -> pid' <> pid ->
  find_entry pid' db = None -> find_entry pid' db' = None.
Proof.
  intros He Hp Hne Hn. apply find_entry_notin. rewrite He, map_app. apply find_entry_none in Hn.
  simpl. set_solver.
Qed.

(* ------------------------------------------------------------------ *)
(** ** Valid postings succeed *)

Definition all_ids (db : LedgerDB) : list string :=
  map acc_id (accounts db) ++ map je_id (entries db) ++ map jl_id (lines db).

Definition valid_line (l : lineInput) : Prop :=
  li_direction l ∈ ["DR"; "CR"] /\ 0 < li_amountPence l.

(** A live transaction whose next identifiers are fresh. *)
Definition live (e : env) (db : LedgerDB) : Prop := calm e /\ fresh e (all_ids db).

Lemma existsb_notin {A B} `{EqDecision B} (f : A -> B) b l :
  b ∉ map f l -> existsb (fun x => bool_decide (f x = b)) l = false.
Proof.
  intros Hn. destruct (existsb _ _) eqn:He; [|done]. by apply existsb_true_in in He.
Qed.

Lemma in_existsb {A B} `{EqDecision B} (f : A -> B) b l :
  b ∈ map f l -> existsb (fun x => bool_decide (f x = b)) l = true.
Proof.
  intros Hn. destruct (existsb _ _) eqn:He; [done|]. by apply existsb_false_notin in He.
Qed.

Lemma run_ensureAccount t o c e now db (Q : result error string -> world (tx LedgerDB) -> Prop) :
  live e db ->
  (forall aid accs, let db' := MkLedgerDB (accounts db ++ accs) (entries db) (lines db) in
     aid ∈ map acc_id (accounts db') -> live (bump e) db' ->
     Q (Ok aid) (MkWorld (bump e) (MkTx now db' false))) ->
  wp (ensureAccount t o c) Q (MkWorld e (MkTx now db false)).
Proof.
  intros [Hc Hf] HQ. unfold ensureAccount. wp_step.
  pose proof (fresh_cur _ _ Hf) as Hcur. unfold all_ids in Hcur.
  destruct (List.find (account_is t o c) (accounts db)) as [a|] eqn:Hfind.
  - eapply wp_tx_exec_calm; [done|unfold upsert_account; by rewrite Hfind|]. simpl.
    apply find_some in Hfind as [Hin%list_elem_of_In _].
    specialize (HQ (acc_id a) []). simpl in HQ. rewrite app_nil_r in HQ.
    replace db with (MkLedgerDB (accounts db) (entries db) (lines db)) by by destruct db.
    apply HQ; [by apply list_elem_of_fmap_2|]. split; [done|].
    eapply fresh_bump; [exact Hf|]. unfold all_ids. simpl. auto.
  - eapply wp_tx_exec_calm; [done|unfold upsert_account; rewrite Hfind, existsb_notin; [done|set_solver]|].
    simpl. apply HQ; simpl; [rewrite map_app; set_solver|]. split; [done|].
    eapply fresh_bump; [exact Hf|]. unfold all_ids. simpl. intros i. rewrite map_app. set_solver.
Qed.

Lemma run_insert_line eid aid d n e now db (Q : result error string -> world (tx LedgerDB) -> Prop) :
  live e db -> eid ∈ map je_id (entries db) -> aid ∈ map acc_id (accounts db) ->
  d ∈ ["DR"; "CR"] -> 0 < n ->
  (forall lid l, let db' := MkLedgerDB (accounts db) (entries db) (lines db ++ [l]) in
     live (bump e) db' -> Q (Ok lid) (MkWorld (bump e) (MkTx now db' false))) ->
  wp (tx_row (insert_line eid aid d n)) Q (MkWorld e (MkTx now db false)).
Proof.
  intros [Hc Hf] He Ha Hd Hn HQ. unfold tx_row. wp_step.
  pose proof (fresh_cur _ _ Hf) as Hcur. unfold all_ids in Hcur.
  eapply wp_tx_exec_calm; [done| |].
  { unfold insert_line. rewrite (existsb_notin jl_id) by set_solver.
    rewrite bool_decide_eq_true_2 by done. destruct (Z.leb_spec n 0); [lia|]. simpl.
    rewrite !in_existsb by done. done. }
  wp_step. apply HQ. split; [done|].
  eapply fresh_bump; [exact Hf|]. unfold all_ids. simpl. intros i. rewrite map_app. set_solver.
Qed.

Lemma run_post_lines eid ls : forall e now db,
  live e db -> eid ∈ map je_id (entries db) -> Forall valid_line ls ->
  wp (post_lines eid ls)
    (fun r w => exists out, r = Ok out /\ calm (w_env w) /\ tx_aborted (w_st w) = false)
    (MkWorld e (MkTx now db false)).
Proof.
  induction ls as [|l ls IH]; intros e now db Hlive Hin Hv; simpl.
  - wp_step. exists []. split_and!; [done|apply Hlive|done].
  - apply Forall_cons in Hv as [[Hd Hn] Hv]. wp_step. apply run_ensureAccount; [done|].
    intros aid accs db1 Haid Hl1. do 2 wp_step. apply run_insert_line; [done..|].
    intros lid row db2 Hl2. simpl. wp_step. eapply wp_mono; [by apply IH|].
    intros r w (out & -> & Hc & Ha). wp_step. eauto.
Qed.

Definition signed_spec (s : line_spec) : Z :=
  let '(_, _, _, d, n) := s in if bool_decide (d = "DR") then n else - n.

Lemma is_line_sum eid accs specs ls :
  Forall2 (is_line eid accs) specs ls -> sumZ signed ls = sumZ signed_spec specs.
Proof.
  induction 1 as [|[[[[t o] c] d] n] l specs ls Hl _ IH]; [done|]. rewrite !sumZ_cons, IH.
  destruct Hl as (_ & Hd & Hn & _). unfold signed. by rewrite Hd, Hn.
Qed.

Lemma first_error_intro {A} (f : A -> option error) l :
  (forall x, x ∈ l -> f x = None) -> first_error f l = None.
Proof.
  induction l as [|x l IH]; intros Hf; simpl; [done|]. rewrite Hf by set_solver. apply IH. set_solver.
Qed.

Lemma trigger_accepts pid ls db eid db' :
  schema db -> stored pid ls db eid db' -> sumZ signed_spec (map input_spec ls) = 0 ->
  trg_journal_balance db db' = None.
Proof.
  intros Hs Hst Hsum. destruct (stored_lines _ _ _ _ _ Hs Hst) as (new & Hl & Hof & _ & HF & _).
  unfold trg_journal_balance. rewrite Hl, drop_app_length.
  pose proof (is_line_entry _ _ _ _ HF) as Hent. rewrite Hl in Hof.
  assert (Hall : forall l, l ∈ new -> check_journal_balance (lines db ++ new) l = None).
  { intros l Hin. unfold check_journal_balance. rewrite (Hent l Hin).
    fold (of_entry eid (lines db ++ new)). rewrite Hof, (is_line_sum _ _ _ _ HF), Hsum.
    by destruct (_ <? _)%nat. }
  by apply first_error_intro.
Qed.

(** Debits minus credits of a request, exactly. *)
Definition net (ls : list lineInput) : Z :=
  sumZ (fun l => if bool_decide (li_direction l = "DR") then li_amountPence l else - li_amountPence l) ls.

Lemma check_lines_spec ls : forall i d c cur ls' d' c',
  check_lines i ls d c cur = Ok (ls', d', c') ->
  Forall valid_line ls' /\ sumZ signed_spec (map input_spec ls') = net ls /\
  int64 (d' - c') = int64 (d - c + net ls).
Proof.
  induction ls as [|l ls IH]; intros i d c cur ls' d' c'; simpl.
  { intros [= <- <- <-]. unfold net. rewrite sumZ_nil, Z.add_0_r. auto. }
  do 2 skip_guard.
  destruct (negb (bool_decide (li_direction l = "DR")) && _) eqn:Hdir; [done|].
  destruct (Z.leb_spec (li_amountPence l) 0) as [|Hpos]; [done|].
  do 2 skip_guard.
  destruct (check_lines (S i) ls _ _ _) as [[[ls1 d1] c1]|] eqn:Hc; simpl; [|done].
  intros [= <- <- <-]. apply IH in Hc as (Hv & Hsum & Hnet). unfold net in *. rewrite sumZ_cons.
  assert (li_direction l ∈ ["DR"; "CR"]) as Hin.
  { apply andb_false_iff in Hdir as [Hd|Hd]; apply negb_false_iff, bool_decide_eq_true in Hd;
      rewrite Hd; set_solver. }
  split_and!; [by constructor; [split|]|by rewrite map_cons, sumZ_cons, Hsum|].
  rewrite Hnet. clear -Hin. unfold int64. f_equal.
  apply elem_of_cons in Hin as [->|[->|[]%elem_of_nil]%elem_of_cons]; simpl.
  - set (z := sumZ _ ls). unfold int64.
    replace ((d + li_amountPence l + 2 ^ 63) mod 2 ^ 64 - 2 ^ 63 - c + z + 2 ^ 63)
      with ((d + li_amountPence l + 2 ^ 63) mod 2 ^ 64 + (z - c)) by lia.
    rewrite Zplus_mod_idemp_l. f_equal. lia.
  - set (z := sumZ _ ls). unfold int64.
    replace (d - ((c + li_amountPence l + 2 ^ 63) mod 2 ^ 64 - 2 ^ 63) + z + 2 ^ 63)
      with (d + z + 2 ^ 64 - (c + li_amountPence l + 2 ^ 63) mod 2 ^ 64) by lia.
    rewrite Zminus_mod_idemp_r.
    replace (d - c + (- li_amountPence l + z) + 2 ^ 63)
      with (d + z + 2 ^ 64 - (c + li_amountPence l + 2 ^ 63) + 0 * 2 ^ 64) by lia.
    by rewrite Z.mod_add.
Qed.

Lemma check_lines_range ls : forall i d c cur ls' d' c',
  in_int64 d -> in_int64 c -> check_lines i ls d c cur = Ok (ls', d', c') -> in_int64 d' /\ in_int64 c'.
Proof.
  induction ls as [|l ls IH]; intros i d c cur ls' d' c' Hd Hcr; simpl; [by intros [= <- <- <-]|].
  repeat skip_guard.
  destruct (check_lines (S i) ls _ _ _) as [[[ls1 d1] c1]|] eqn:Hc; simpl; [|done].
  intros [= <- <- <-]. apply IH in Hc; [done|..]; repeat case_bool_decide; try apply int64_range; done.
Qed.

(** The wrapped sums agree when the request is exactly balanced. *)
Lemma check_lines_balanced ls ls' d c :
  net ls = 0 -> check_lines 0 ls 0 0 "" = Ok (ls', d, c) -> d = c.
Proof.
  intros Hnet Hc. pose proof (check_lines_spec _ _ _ _ _ _ _ _ Hc) as (_ & _ & Hs).
  rewrite Hnet in Hs. unfold int64 in Hs.
  destruct (check_lines_range _ 0 0 0 "" _ _ _ ltac:(done) ltac:(done) Hc) as [[? ?] [? ?]].
  unfold min_int64, max_int64 in *. change ((0 - 0 + 0 + 2 ^ 63) mod 2 ^ 64) with (2 ^ 63) in Hs.
  assert ((d - c + 2 ^ 63) mod 2 ^ 64 = 2 ^ 63) as Hm by lia.
  pose proof (Z.div_mod (d - c + 2 ^ 63) (2 ^ 64) ltac:(lia)). lia.
Qed.

Lemma run_post_tx pid desc ls e now db :
  live e db -> schema db -> Forall valid_line ls ->
  wp (post_tx pid desc ls)
    (fun r w => exists out, r = Ok out /\ calm (w_env w) /\ tx_aborted (w_st w) = false)
    (MkWorld e (MkTx now db false)).
Proof.
  intros [Hc Hf] Hs Hv. unfold post_tx, loadEntryByPaymentID, q_exec, tx_querier. do 2 wp_step.
  eapply wp_tx_exec_calm; [done|done|]. destruct (find_entry pid db) as [en|] eqn:Hfe; simpl.
  - wp_step. eapply wp_tx_exec_calm; [done|done|]. do 2 wp_step. eauto.
  - wp_step. simpl. wp_step. unfold tx_row. wp_step.
    assert (Hf' : fresh (bump e) (all_ids db)) by (eapply fresh_bump; [exact Hf|auto]).
    pose proof (fresh_cur _ _ Hf') as Hcur. unfold all_ids in Hcur.
    eapply wp_tx_exec_calm; [done|unfold insert_entry|].
    { destruct (existsb _ _) eqn:Hex; [|done]. apply existsb_exists in Hex as (x & Hx & Hor).
      apply list_elem_of_In in Hx. apply orb_true_iff in Hor as [Hor|Hor]; apply bool_decide_eq_true in Hor.
      - apply find_entry_none in Hfe. destruct Hfe. rewrite <- Hor. by apply list_elem_of_fmap_2.
      - destruct Hcur. rewrite <- Hor. apply elem_of_app; right; apply elem_of_app; left.
        by apply list_elem_of_fmap_2. }
    wp_step. simpl. wp_step. eapply wp_mono; [apply run_post_lines; [| |done]|].
    + split; [done|]. eapply fresh_bump; [exact Hf'|]. unfold all_ids. simpl. intros i.
      rewrite map_app. set_solver.
    + simpl. rewrite map_app. set_solver.
    + intros r w (out & -> & ? & ?). wp_step. eauto.
Qed.

Lemma serializable_error {A} (fn : M (world (tx LedgerDB)) (result error A)) n : forall last w err w',
  isSerializationFailure last = true \/ (0 < n)%nat ->
  serializable_attempts n last fn w = (Err err, w') -> isSerializationFailure err = true ->
  exists last', err = DomainErr.Wrap CodeConflict "serializable transaction retries exhausted" last' /\
    isSerializationFailure last' = true.
Proof.
  induction n as [|n IH]; intros last w err w' Hl; simpl.
  - intros [= <- <-] _. destruct Hl as [Hl|]; [eauto|lia].
  - unfold gbind. destruct (begin_func _ _ w) as [[a|e1] w1]; [by intros [=]|].
    destruct (isSerializationFailure e1) eqn:Hs; [by apply IH; left|].
    intros [= <- <-] Ht. congruence.
Qed.

Lemma run_PostDoubleEntry pid desc ls e db :
  calm e -> fresh (bump e) (all_ids db) -> ledger_inv db ->
  is_empty pid = false -> (2 <= length ls)%nat ->
  is_ok (check_lines 0 ls 0 0 "") = true -> net ls = 0 ->
  is_ok (fst (PostDoubleEntry pid desc ls (MkWorld e db))) = true.
Proof.
  intros Hc Hf Hinv Hpid Hlen Hok Hnet.
  change (wp (PostDoubleEntry pid desc ls) (fun r _ => is_ok r = true) (MkWorld e db)).
  unfold PostDoubleEntry. rewrite Hpid. destruct (Nat.ltb_spec (length ls) 2); [lia|].
  destruct (check_lines 0 ls 0 0 "") as [[[ls' d] c]|] eqn:Hcl; [|done].
  rewrite (check_lines_balanced _ _ _ _ Hnet Hcl), Z.eqb_refl. unfold withSerializable, maxAttempts.
  simpl. wp_step.
  destruct (check_lines_spec _ _ _ _ _ _ _ _ Hcl) as (Hv & Hsum & _). rewrite Hnet in Hsum.
  apply wp_begin_func_calm; [done|]. pose proof (inv_schema _ Hinv) as Hs.
  eapply wp_mono; [apply wp_conj; [by apply (wp_post_tx pid desc ls')|
    by apply (run_post_tx pid desc ls')]|].
  intros r w [Hpost (out & -> & Hcw & Ha)]. exists out. split_and!; [done..| |done].
  destruct (Hpost out eq_refl Ha) as [(en & _ & _ & ->)|(en & Hf0 & Hp & Hr & Hid & _ & Hi & Hn & Hg)].
  - unfold trg_journal_balance. by rewrite drop_all.
  - eapply (trigger_accepts pid ls' db (je_id en)); [done| |done]. exists en. auto 10.
Qed.

(* ------------------------------------------------------------------ *)
(** ** The properties *)

(** C4.  For every history of postings, reversals and reads from the empty
ledger, under every clock, every choice of identifiers and every pattern of
database failures (refused calls, lost replies, aborted transactions), the
tables satisfy the double-entry invariant (each entry has at least two lines
and its debits equal its credits exactly) and the balances of all accounts add
up to zero. *)
Theorem ledger_double_entry (e : env) (ops : list ledger_op) :
  let db := w_st (snd (run_ops ops (MkWorld e empty_ledger))) in
  ledger_inv db /\ sumZ (fun a => account_balance (acc_id a) db) (accounts db) = 0.
Proof.
  pose proof (wp_ledger_ops ops e _ empty_inv) as Hinv. split; [done|by apply trial_balance].
Qed.

(** C10.  Reversing a posted payment restores the balance of every account to
what it was before the posting, whatever failed and was retried on the way. *)
Theorem post_then_reverse_restores_balances pid desc reason ls e e' db :
  ledger_inv db -> find_entry pid db = None -> find_entry (rev_id pid) db = None ->
  let p := PostDoubleEntry pid desc ls (MkWorld e db) in
  let q := ReverseEntry pid reason (MkWorld e' (w_st (snd p))) in
  is_ok (fst p) = true -> is_ok (fst q) = true ->
  forall aid, account_balance aid (w_st (snd q)) = account_balance aid db.
Proof.
  intros Hinv Hnone Hrev p q Hp Hq aid.
  destruct (wp_PostDoubleEntry pid desc ls e db Hinv) as (Hinv1 & _ & Hout). fold p in Hinv1, Hout.
  destruct (fst p) as [out|] eqn:Hfp; [|done]. destruct (Hout out eq_refl) as (ls' & n & _ & Hst).
  rewrite Hnone in Hst. pose proof (stored_find _ _ _ _ _ Hst) as (en & Hen & Hid & Hnr).
  destruct (stored_lines _ _ _ _ _ (inv_schema _ Hinv) Hst) as (new & Hl & Hof & Hs1 & _ & (x & Hx & Hxp)).
  destruct (wp_ReverseEntry pid reason e' _ Hinv1) as [_ Hr]. fold q in Hr.
  destruct (fst q) as [[]|]; [|done].
  rewrite (reversed_balance _ _ _ _ aid Hs1 (Hr eq_refl) Hen Hnr), Hid, Hof.
  - unfold account_balance. rewrite Hl. fold (contribution aid (lines db ++ new)).
    rewrite contribution_app. unfold contribution. lia.
  - eapply find_entry_other; eauto using append_rev_neq.
Qed.

(** C13.  [PostDoubleEntry] is all or nothing and idempotent on the payment id.
On success: if the payment already had an entry the tables are unchanged and
the answer is that entry; otherwise exactly one unreversed entry was added, with
exactly the requested lines (currency normalised) under the answered id.  On an
error the tables are unchanged or hold that one complete entry (lost reply). *)
Theorem PostDoubleEntry_outcome pid desc ls e db :
  ledger_inv db ->
  let p := PostDoubleEntry pid desc ls (MkWorld e db) in
  (w_st (snd p) = db \/ exists ls' n eid, check_lines 0 ls 0 0 "" = Ok (ls', n, n) /\
     find_entry pid db = None /\ stored pid ls' db eid (w_st (snd p))) /\
  (forall out, fst p = Ok out -> exists ls' n, check_lines 0 ls 0 0 "" = Ok (ls', n, n) /\
     match find_entry pid db with
     | Some en => w_st (snd p) = db /\ out = entry_view pid db en
     | None => stored pid ls' db (jen_id out) (w_st (snd p))
     end).
Proof. intros Hinv. apply (wp_PostDoubleEntry pid desc ls e db Hinv). Qed.

(** A well-formed and exactly balanced request succeeds when the database
answers and the identifiers drawn are fresh: no guard of the code and neither
the constraints nor the deferred trigger of the schema rejects it. *)
Theorem PostDoubleEntry_succeeds pid desc ls e db :
  calm e -> fresh (bump e) (all_ids db) -> ledger_inv db ->
  is_empty pid = false -> (2 <= length ls)%nat ->
  is_ok (check_lines 0 ls 0 0 "") = true -> net ls = 0 ->
  is_ok (fst (PostDoubleEntry pid desc ls (MkWorld e db))) = true.
Proof. apply run_PostDoubleEntry. Qed.

(** Reversals are idempotent: after a reversal that succeeded, another one
of the same payment changes nothing, whether it succeeds or fails. *)
Theorem ReverseEntry_idempotent pid reason reason' e e' db :
  ledger_inv db ->
  let p := ReverseEntry pid reason (MkWorld e db) in
  is_ok (fst p) = true ->
  w_st (snd (ReverseEntry pid reason' (MkWorld e' (w_st (snd p))))) = w_st (snd p).
Proof.
  intros Hinv p Hp. destruct (wp_ReverseEntry pid reason e db Hinv) as [[Hinv1 _] Hr]. fold p in Hinv1, Hr.
  destruct (fst p) as [[]|]; [|done].
  destruct (wp_ReverseEntry pid reason' e' _ Hinv1) as [[_ [Heq|Hrev]] _]; [done|].
  by apply (reversed_again pid db); [apply Hr|].
Qed.

(** [withSerializable] never lets a raw serialization failure (SQLSTATE
40001 or 40P01) out: such an error reaches the caller only as CONFLICT, after
the last of the attempts. *)
Theorem withSerializable_conflict {A} (fn : M (world (tx LedgerDB)) (result error A)) w err :
  fst (withSerializable fn w) = Err err -> isSerializationFailure err = true ->
  exists last, err = DomainErr.Wrap CodeConflict "serializable transaction retries exhausted" last /\
    isSerializationFailure last = true.
Proof.
  destruct (withSerializable fn w) as [r w'] eqn:Hw. simpl. intros ->.
  apply (serializable_error fn 5 (PlainError "") w err w'); [right; lia|done].
Qed.

(** The re-read after a failed insert cannot succeed: the transaction
is aborted by then, so [loadEntryByPaymentID] fails with SQLSTATE 25P02 and
[PostDoubleEntry]'s body answers an internal error instead of the entry of the
concurrent winner. *)
Theorem reload_after_conflict_fails pid desc w err w1 :
  tx_row (insert_entry pid desc) w = (Err err, w1) ->
  fst (loadEntryByPaymentID pid w1) = Err (DomainErr.Wrap CodeInternal "load journal entry" in_failed_tx).
Proof.
  destruct w as [e [now db b]].
  assert (wp (tx_row (insert_entry pid desc))
    (fun r w' => forall err, r = Err err -> tx_aborted (w_st w') = true) (MkWorld e (MkTx now db b))) as Hwp.
  { unfold tx_row. wp_step. apply wp_tx_exec; [by intros; wp_step|]. simpl. intros r s _ Hq.
    wp_step. unfold insert_entry in Hq. destruct (existsb _ _); simplify_eq. by intros ? [=]. }
  intros Hr. apply (wp_run _ _ _ _ _ Hr) in Hwp. specialize (Hwp err eq_refl).
  destruct w1 as [e1 [n1 db1 b1]]. simpl in Hwp. by subst b1.
Qed.
End Props.

(* ------------------------------------------------------------------ *)
(** ** Witnesses *)

#[local] Existing Instance ascii_tables.

Definition demo_env_at (n : nat) : env :=
  MkEnv n Z.of_nat (fun n => pretty (N.of_nat n)) (fun _ => NoFault).
Definition demo_env : env := demo_env_at 0.

Definition demo_lines : list lineInput :=
  [ MkLineInput "CONSUMER_ESCROW" "alice" "DR" 5000 "gbp ";
    MkLineInput "MERCHANT_ESCROW" "shop" "CR" 4975 "GBP";
    MkLineInput "PLATFORM_FEE" "platform" "CR" 25 "GBP" ].

Definition demo_db : LedgerDB :=
  w_st (snd (PostDoubleEntry "p0" "" demo_lines (MkWorld demo_env empty_ledger))).

Lemma demo_fresh n : fresh (demo_env_at n) [].
Proof.
  split; [set_solver|]. simpl. intros i j Hij Heq. apply (inj pretty) in Heq. lia.
Qed.

Lemma post_then_reverse_witness :
  let after := w_st (snd (ReverseEntry "p0" "" (MkWorld (demo_env_at 100)
     (w_st (snd (PostDoubleEntry "p0" "" demo_lines (MkWorld demo_env empty_ledger))))))) in
  length (lines after) = 6%nat /\
  Forall (fun a => account_balance (acc_id a) after = account_balance (acc_id a) empty_ledger) (accounts after).
Proof.
  split; [vm_compute; reflexivity|]. apply Forall_forall. intros a _.
  apply (post_then_reverse_restores_balances "p0" "" "" demo_lines demo_env (demo_env_at 100) empty_ledger).
  - apply empty_inv.
  - reflexivity.
  - reflexivity.
  - vm_compute. reflexivity.
  - vm_compute. reflexivity.
Defined.

Lemma PostDoubleEntry_outcome_witness :
  let p := PostDoubleEntry "p0" "" demo_lines (MkWorld demo_env empty_ledger) in
  is_ok (fst p) = true /\ length (lines (w_st (snd p))) = 3%nat /\
  (forall out, fst p = Ok out -> exists ls' n, check_lines 0 demo_lines 0 0 "" = Ok (ls', n, n) /\
     stored "p0" ls' empty_ledger (jen_id out) (w_st (snd p))).
Proof.
  split; [vm_compute; reflexivity|]. split; [vm_compute; reflexivity|].
  apply (PostDoubleEntry_outcome "p0" "" demo_lines demo_env empty_ledger). apply empty_inv.
Defined.

Lemma PostDoubleEntry_succeeds_witness :
  is_ok (fst (PostDoubleEntry "p0" "" demo_lines (MkWorld demo_env empty_ledger))) = true.
Proof.
  apply (PostDoubleEntry_succeeds "p0" "" demo_lines demo_env empty_ledger).
  - intros n. reflexivity.
  - exact (demo_fresh 1).
  - apply empty_inv.
  - reflexivity.
  - simpl. lia.
  - vm_compute. reflexivity.
  - vm_compute. reflexivity.
Defined.

Lemma demo_inv : ledger_inv demo_db.
Proof. apply (wp_PostDoubleEntry "p0" "" demo_lines demo_env empty_ledger empty_inv). Qed.

Lemma ReverseEntry_idempotent_witness :
  let p := ReverseEntry "p0" "why" (MkWorld (demo_env_at 100) demo_db) in
  is_ok (fst p) = true /\
  w_st (snd (ReverseEntry "p0" "" (MkWorld demo_env (w_st (snd p))))) = w_st (snd p).
Proof.
  split; [vm_compute; reflexivity|].
  apply (ReverseEntry_idempotent "p0" "why" "" (demo_env_at 100) demo_env demo_db); [apply demo_inv|].
  vm_compute. reflexivity.
Defined.

Definition serialization_failure : error := PgError "40001" "could not serialize access".

Lemma withSerializable_conflict_witness :
  exists last, DomainErr.Wrap CodeConflict "serializable transaction retries exhausted" serialization_failure =
    DomainErr.Wrap CodeConflict "serializable transaction retries exhausted" last /\
    isSerializationFailure last = true.
Proof.
  apply (withSerializable_conflict (A := unit) (gret (Err serialization_failure))
           (MkWorld demo_env empty_ledger)); vm_compute; reflexivity.
Defined.

Definition conflict_env : env :=
  MkEnv 0 Z.of_nat (fun n => pretty (N.of_nat n)) (fun _ => Refused unique_violation).

Lemma reload_after_conflict_witness :
  let w := MkWorld conflict_env (MkTx 0 demo_db false) in
  fst (loadEntryByPaymentID "p0" (snd (tx_row (insert_entry "p0" "") w))) =
    Err (DomainErr.Wrap CodeInternal "load journal entry" in_failed_tx).
Proof.
  apply (reload_after_conflict_fails "p0" "" (MkWorld conflict_env (MkTx 0 demo_db false)) unique_violation).
  reflexivity.
Defined.
