(* ===== verification/LedgerServer.v ===== *)
(** * The gRPC server of the ledger ([services/ledger-svc/internal/server.go]).

A nil request is [None].  Every error leaves through [domainerr.ToGRPC]. *)
From S2P Require Import Prelude GoStrings DomainErr World Proto LedgerStore LedgerTheory LedgerProps.
Local Open Scope Z_scope.
Local Open Scope go_scope.

Section Server.
Context `{Unicode} `{GrpcLib}.

Definition request_required : error := DomainErr.New CodeValidation "request is required".

(** The loop that turns the lines of a request into [lineInput]s. *)
Fixpoint convert_lines (ls : list JournalLine) : result error (list lineInput) :=
  match ls with
  | [] => Ok []
  | l :: ls' =>
      res_bind (accountTypeToDB (jln_account_type l)) (fun accType =>
      res_bind (directionToDB (jln_direction l)) (fun dir =>
      match jln_amount l with
      | None => Err (DomainErr.New CodeValidation "line amount is required")
      | Some amt =>
          res_bind (convert_lines ls') (fun rest =>
            Ok (MkLineInput accType (jln_owner_ref l) dir (pm_amount_pence amt) (pm_currency amt) :: rest))
      end))
  end.

Definition PostDoubleEntry (req : option PostEntryRequest)
  : M (world LedgerDB) (result error JournalEntry) :=
  match req with
  | None => gret (Err (ToGRPC request_required))
  | Some req =>
      match convert_lines (per_lines req) with
      | Err e => gret (Err (ToGRPC e))
      | Ok ls => gmap_err ToGRPC
                   (LedgerStore.PostDoubleEntry (per_payment_id req) (per_description req) ls)
      end
  end.

Definition ReverseEntry (req : option LedgerReverseRequest) : M (world LedgerDB) (result error unit) :=
  match req with
  | None => gret (Err (ToGRPC request_required))
  | Some req => gmap_err ToGRPC (LedgerStore.ReverseEntry (lrr_payment_id req) (lrr_reason req))
  end.

Definition GetBalance (req : option BalanceRequest) : M (world LedgerDB) (result error BalanceResponse) :=
  match req with
  | None => gret (Err (ToGRPC request_required))
  | Some req =>
      match accountTypeToDB (br_account_type req) with
      | Err e => gret (Err (ToGRPC e))
      | Ok t => gmap_err ToGRPC (LedgerStore.GetBalance t (br_owner_ref req) (br_currency req))
      end
  end.

Definition GetJournalEntry (paymentID : option string) : M (world LedgerDB) (result error JournalEntry) :=
  match paymentID with
  | None => gret (Err (ToGRPC request_required))
  | Some pid => gmap_err ToGRPC (LedgerStore.GetJournalEntry pid)
  end.

(** Only the three account types and two directions of the schema get through. *)
Lemma convert_lines_types ls : forall ins,
  convert_lines ls = Ok ins ->
  Forall (fun l => li_accountType l ∈ ["CONSUMER_ESCROW"; "MERCHANT_ESCROW"; "PLATFORM_FEE"] /\
                   li_direction l ∈ ["DR"; "CR"]) ins.
Proof.
  induction ls as [|l ls IH]; simpl; intros ins; [by intros [= <-]; constructor|].
  destruct (accountTypeToDB (jln_account_type l)) as [t|] eqn:Ht; simpl; [|done].
  destruct (directionToDB (jln_direction l)) as [d|] eqn:Hd; simpl; [|done].
  destruct (jln_amount l) as [amt|]; simpl; [|done].
  destruct (convert_lines ls) as [rest|]; simpl; [|done]. intros [= <-].
  constructor; [|by apply IH]. simpl. split.
  - destruct (jln_account_type l); simplify_eq/=; set_solver.
  - destruct (jln_direction l); simplify_eq/=; set_solver.
Qed.

(** The balance a query answers for an account that exists. *)
Lemma balance_query_unique t o c a db :
  schema db -> a ∈ accounts db -> acc_key a = (t, o, c) ->
  balance_query t o c db = account_balance (acc_id a) db.
Proof.
  intros Hs Ha Hk. unfold balance_query. pose proof (sch_account_keys _ Hs) as Hnd.
  induction (accounts db) as [|x l IH]; [by apply elem_of_nil in Ha|].
  rewrite where_cons. simpl in Hnd. apply NoDup_cons in Hnd as [Hx Hnd].
  assert (Hrest : forall y, y ∈ l -> acc_key y = (t, o, c) -> account_is t o c x = false).
  { intros y Hy Hyk. destruct (account_is t o c x) eqn:E; [|done]. apply account_is_spec in E.
    destruct Hx. rewrite E, <- Hyk. by apply list_elem_of_fmap_2. }
  apply elem_of_cons in Ha as [<-|Ha].
  - rewrite (proj2 (account_is_spec t o c a) Hk), sumZ_cons.
    assert (where_ (account_is t o c) l = []) as ->; [|rewrite sumZ_nil; lia].
    destruct (where_ _ l) as [|y r] eqn:E; [done|].
    assert (y ∈ where_ (account_is t o c) l) as Hy by (rewrite E; set_solver).
    apply elem_of_where in Hy as [Hy Hy']. apply account_is_spec in Hy'.
    rewrite (proj2 (account_is_spec t o c a) Hk) in Hrest. by specialize (Hrest y Hy Hy').
  - rewrite (Hrest a Ha Hk). by apply IH.
Qed.
Lemma balance_query_absent t o c db :
  (forall a, a ∈ accounts db -> acc_key a <> (t, o, c)) -> balance_query t o c db = 0.
Proof.
  intros Hno. unfold balance_query. assert (where_ (account_is t o c) (accounts db) = []) as ->; [|done].
  destruct (where_ _ _) as [|y r] eqn:E; [done|].
  assert (y ∈ where_ (account_is t o c) (accounts db)) as Hy by (rewrite E; constructor).
  apply elem_of_where in Hy as [Hy Hk]. apply account_is_spec in Hk. by apply Hno in Hy.
Qed.

(** What a line adds to the balance of the account [(t, o, c)]. *)
Definition credit (t o c : string) (s : line_spec) : Z :=
  let '(t', o', c', d, n) := s in
  if bool_decide ((t', o', c') = (t, o, c)) then (if bool_decide (d = "DR") then - n else n) else 0.

(** The sum of the lines of one account among new lines. *)
Lemma contribution_specs eid db a t o c specs ls :
  schema db -> a ∈ accounts db -> acc_key a = (t, o, c) ->
  Forall2 (is_line eid (accounts db)) specs ls ->
  contribution (acc_id a) ls = sumZ (credit t o c) specs.
Proof.
  intros Hs Ha Hk HF. induction HF as [|[[[[t' o'] c'] d] n] l specs ls Hl _ IH]; [done|].
  destruct Hl as (_ & Hd & Hn & a' & Ha' & Hid & Hk'). rewrite sumZ_cons. unfold contribution in *. rewrite where_cons. unfold credit at 1.
  rewrite <- Hid. destruct (decide (acc_id a' = acc_id a)) as [Heq|Hne].
  - assert (a' = a) as ->.
    { apply (NoDup_map_inj acc_id (accounts db)); [apply Hs|done..]. }
    rewrite Hk in Hk'. simplify_eq. rewrite !bool_decide_eq_true_2, sumZ_cons, IH by done. unfold signed. 
    case_bool_decide; lia.
  - rewrite bool_decide_eq_false_2, IH by done. rewrite bool_decide_eq_false_2; [lia|].
    intros Heq. destruct Hne. f_equal. apply (NoDup_map_inj acc_key (accounts db)); [apply Hs|done..|congruence].
Qed.

(** Posting lines moves the balances by exactly those lines. *)
Lemma balance_after_growth eid db db' t o c specs :
  schema db -> grows eid db db' specs ->
  balance_query t o c db' = balance_query t o c db + sumZ (credit t o c) specs.
Proof.
  intros Hs (accs & ls & -> & Hs' & HF). simpl in HF.
  destruct (decide (Exists (fun a => acc_key a = (t, o, c)) (accounts db ++ accs))) as [Hex|Hno].
  - apply Exists_exists in Hex as (a & Ha & Hk). rewrite (balance_query_unique t o c a _ Hs' Ha Hk).
    unfold account_balance. simpl. fold (contribution (acc_id a) (lines db ++ ls)). rewrite contribution_app.
    rewrite (contribution_specs _ _ a t o c _ _ Hs' Ha Hk HF). f_equal.
    apply elem_of_app in Ha as [Ha|Ha]; [by rewrite (balance_query_unique t o c a _ Hs Ha Hk)|].
    rewrite balance_query_absent.
    + assert (where_ (fun l => bool_decide (jl_account_id l = acc_id a)) (lines db) = []) as Hw; [|by unfold contribution; rewrite Hw].
      destruct (where_ _ _) as [|l r] eqn:E; [done|].
      assert (l ∈ where_ (fun l => bool_decide (jl_account_id l = acc_id a)) (lines db)) as Hl by (rewrite E; constructor).
      apply elem_of_where in Hl as [Hl Heq%bool_decide_eq_true].
      pose proof (sch_account_ids _ Hs') as Hnd. simpl in Hnd. rewrite map_app in Hnd.
      apply NoDup_app in Hnd as (_ & Hd & _). destruct (Hd (acc_id a)); [|by apply list_elem_of_fmap_2].
      rewrite <- Heq. by apply (sch_lines _ Hs).
    + intros b Hb Hkb. pose proof (sch_account_keys _ Hs') as Hnd. simpl in Hnd. rewrite map_app in Hnd.
      apply NoDup_app in Hnd as (_ & Hd & _). apply (Hd (acc_key b)); [by apply list_elem_of_fmap_2|].
      rewrite Hkb, <- Hk. by apply list_elem_of_fmap_2.
  - rewrite Exists_exists in Hno. rewrite !balance_query_absent; [|intros a Ha Hk; apply Hno; set_solver..].
    assert (sumZ (credit t o c) specs = 0) as ->; [|done].
    clear Hs'. induction HF as [|[[[[t' o'] c'] d] n] l specs ls (_ & _ & _ & a & Ha & _ & Hk) _ IH]; [done|].
    rewrite sumZ_cons, IH. unfold credit. rewrite bool_decide_eq_false_2; [done|].
    intros Heq. apply Hno. exists a. by rewrite <- Heq.
Qed.
End Server.
