(* ===== verification/Redis.v ===== *)
(** * The Redis server the services talk to.

The server is not part of the repository: it is the class [Redis] of the
commands the code issues, on a state [R], and [RedisLaws] states what the Redis
documentation promises of them in terms of the values live at a time ([live]),
the members of a set and the counters.  [Memory] is an in-memory server that
satisfies the laws, with which examples are evaluated.  A command runs under
[exec], so it can also be refused or lose its reply. *)
From S2P Require Import Prelude DomainErr World.
Local Open Scope Z_scope.

Class Redis (R : Type) := {
  r_SetNX : string -> string -> Z -> stmt R string;   (* SET k v NX PX ttl *)
  r_Set : string -> string -> Z -> stmt R unit;       (* SET k v PX ttl *)
  r_Get : string -> stmt R string;
  r_Del : string -> stmt R unit;
  r_Exists : string -> stmt R Z;                      (* EXISTS k: how many of the keys exist *)
  r_Incr : string -> stmt R Z;
  r_Expire : string -> Z -> stmt R unit;
  r_SAdd : string -> string -> stmt R unit;
  r_SRem : string -> string -> stmt R unit;
  r_SIsMember : string -> string -> stmt R bool;
}.

(** What the commands do, as documented: [live r now k] is the value GET would
answer at time [now]. *)
Class RedisLaws (R : Type) `{Redis R} := {
  live : R -> Z -> string -> option string;
  member : R -> string -> string -> bool;
  count : R -> Z -> string -> Z;

  SetNX_law : forall k v ttl now u r, let '(a, r') := r_SetNX k v ttl now u r in
    match live r now k with
    | None => a = Ok "OK" /\ live r' now k = (if 0 <? ttl then Some v else None)
    | Some _ => a = Err RedisNil /\ r' = r
    end /\ (forall t k', k' <> k -> live r' t k' = live r t k') /\
    (forall t, now + ttl <= t -> live r now k = None -> live r' t k = None);
  Set_law : forall k v ttl now u r, let '(a, r') := r_Set k v ttl now u r in
    a = Ok tt /\ (forall t, now <= t -> live r' t k = if t <? now + ttl then Some v else None) /\
    (forall t k', k' <> k -> live r' t k' = live r t k');
  Get_law : forall k now u r, r_Get k now u r =
    (match live r now k with Some v => Ok v | None => Err RedisNil end, r);
  Del_law : forall k now u r, let '(a, r') := r_Del k now u r in
    a = Ok tt /\ (forall t, live r' t k = None) /\
    (forall t k', k' <> k -> live r' t k' = live r t k');
  Exists_law : forall k now u r, r_Exists k now u r =
    (Ok (match live r now k with Some _ => 1 | None => 0 end), r);
  SAdd_law : forall k m now u r, let '(a, r') := r_SAdd k m now u r in
    a = Ok tt /\ member r' k m = true /\
    (forall k' m', (k', m') <> (k, m) -> member r' k' m' = member r k' m');
  SRem_law : forall k m now u r, let '(a, r') := r_SRem k m now u r in
    a = Ok tt /\ member r' k m = false /\
    (forall k' m', (k', m') <> (k, m) -> member r' k' m' = member r k' m');
  SIsMember_law : forall k m now u r, r_SIsMember k m now u r = (Ok (member r k m), r);
  Incr_law : forall k now u r, let '(a, r') := r_Incr k now u r in
    a = Ok (count r now k + 1) /\ count r' now k = count r now k + 1 /\
    (forall t k', k' <> k -> count r' t k' = count r t k');
  Incr_later : forall k now u r t, now <= t -> 0 < count r t k ->
    count (snd (r_Incr k now u r)) t k = count r t k + 1;
  Expire_law : forall k ttl now u r, let '(a, r') := r_Expire k ttl now u r in
    a = Ok tt /\ (forall t, now <= t < now + ttl -> count r' t k = count r now k) /\
    (forall t k', k' <> k -> count r' t k' = count r t k');
  SetNX_member : forall k v ttl now u r k' m, member (snd (r_SetNX k v ttl now u r)) k' m = member r k' m;
  Incr_member : forall k now u r k' m, member (snd (r_Incr k now u r)) k' m = member r k' m;
  Expire_member : forall k ttl now u r k' m, member (snd (r_Expire k ttl now u r)) k' m = member r k' m;
}.

(* ------------------------------------------------------------------ *)
(** ** An in-memory server *)

Record Memory := MkMemory {
  m_strings : gmap string (string * Z);      (* value, expiry *)
  m_counters : gmap string (Z * option Z);   (* count, expiry *)
  m_sets : gset (string * string);
}.
Definition empty_memory : Memory := MkMemory ∅ ∅ ∅.

Definition m_live (r : Memory) (now : Z) (k : string) : option string :=
  '(v, x) ← m_strings r !! k; if now <? x then Some v else None.

Definition m_put (k v : string) (ttl now : Z) (r : Memory) : Memory :=
  MkMemory (<[k := (v, now + ttl)]> (m_strings r)) (m_counters r) (m_sets r).

Definition m_count (r : Memory) (now : Z) (k : string) : Z * option Z :=
  match m_counters r !! k with
  | Some (n, Some x) => if now <? x then (n, Some x) else (0, None)
  | Some (n, None) => (n, None)
  | None => (0, None)
  end.

#[export] Instance memory_redis : Redis Memory := {|
  r_SetNX k v ttl now _ r :=
    match m_live r now k with
    | Some _ => (Err RedisNil, r)
    | None => (Ok "OK", m_put k v ttl now r)
    end;
  r_Set k v ttl now _ r := (Ok tt, m_put k v ttl now r);
  r_Get k now _ r := (match m_live r now k with Some v => Ok v | None => Err RedisNil end, r);
  r_Del k _ _ r := (Ok tt, MkMemory (delete k (m_strings r)) (delete k (m_counters r)) (m_sets r));
  r_Exists k now _ r := (Ok (match m_live r now k with Some _ => 1 | None => 0 end), r);
  r_Incr k now _ r :=
    let '(n, x) := m_count r now k in
    (Ok (n + 1), MkMemory (m_strings r) (<[k := (n + 1, x)]> (m_counters r)) (m_sets r));
  r_Expire k ttl now _ r :=
    let '(n, _) := m_count r now k in
    (Ok tt, MkMemory (m_strings r) (<[k := (n, Some (now + ttl))]> (m_counters r)) (m_sets r));
  r_SAdd k m _ _ r := (Ok tt, MkMemory (m_strings r) (m_counters r) ({[(k, m)]} ∪ m_sets r));
  r_SRem k m _ _ r := (Ok tt, MkMemory (m_strings r) (m_counters r) (m_sets r ∖ {[(k, m)]}));
  r_SIsMember k m _ _ r := (Ok (bool_decide ((k, m) ∈ m_sets r)), r);
|}.

Lemma m_live_put_same k v ttl now r t :
  m_live (m_put k v ttl now r) t k = if t <? now + ttl then Some v else None.
Proof. unfold m_live, m_put. simpl. by rewrite lookup_insert_eq. Qed.

Lemma m_live_put_other k k' v ttl now r t :
  k' <> k -> m_live (m_put k v ttl now r) t k' = m_live r t k'.
Proof. intros Hne. unfold m_live, m_put. simpl. by rewrite lookup_insert_ne. Qed.

#[export] Program Instance memory_laws : RedisLaws Memory := {|
  live := m_live;
  member r k m := bool_decide ((k, m) ∈ m_sets r);
  count r now k := fst (m_count r now k);
|}.
Next Obligation.
  intros k v ttl now u r. simpl. destruct (m_live r now k) eqn:Hl; simpl; [done|].
  rewrite m_live_put_same. split_and!; [done|destruct (Z.ltb_spec now (now + ttl)),
    (Z.ltb_spec 0 ttl); try done; lia|intros; by apply m_live_put_other|].
  intros t Ht _. rewrite m_live_put_same. destruct (Z.ltb_spec t (now + ttl)); [lia|done].
Qed.
Next Obligation.
  intros k v ttl now u r. simpl. split_and!; [done|intros; apply m_live_put_same|].
  intros; by apply m_live_put_other.
Qed.
Next Obligation. done. Qed.
Next Obligation.
  intros k now u r. simpl. unfold m_live. simpl. split_and!; [done|..].
  - intros t. by rewrite lookup_delete_eq.
  - intros t k' Hne. by rewrite lookup_delete_ne.
Qed.
Next Obligation. done. Qed.
Next Obligation.
  intros k m now u r. simpl. split_and!; [done|apply bool_decide_eq_true; set_solver|].
  intros k' m' Hne. apply bool_decide_ext. set_solver.
Qed.
Next Obligation.
  intros k m now u r. simpl. split_and!; [done|apply bool_decide_eq_false; set_solver|].
  intros k' m' Hne. apply bool_decide_ext. set_solver.
Qed.
Next Obligation. done. Qed.
Next Obligation.
  intros k now u r. simpl. destruct (m_count r now k) as [n x] eqn:Hc. simpl. split_and!; [done|..].
  - unfold m_count in *. simpl. rewrite lookup_insert_eq.
    destruct x as [x|]; [|done]. destruct (m_counters r !! k) as [[n' [x'|]]|]; simplify_eq.
    destruct (now <? x') eqn:E; simplify_eq. by rewrite E.
  - intros t k' Hne. unfold m_count. simpl. by rewrite lookup_insert_ne.
Qed.
Next Obligation.
  intros k now u r t Ht Hpos. simpl. destruct (m_count r now k) as [n x] eqn:Hc. simpl.
  unfold m_count in *. simpl. rewrite lookup_insert_eq.
  destruct (m_counters r !! k) as [[n' [x'|]]|]; simplify_eq/=; try done.
  destruct (Z.ltb_spec t x'); [|done]. destruct (Z.ltb_spec now x'); [|lia]. simplify_eq.
  destruct (Z.ltb_spec t x'); [done|lia].
Qed.
Next Obligation.
  intros k ttl now u r. simpl. destruct (m_count r now k) as [n x] eqn:Hc. simpl. split_and!; [done|..].
  - intros t Ht. unfold m_count at 1. simpl. rewrite lookup_insert_eq.
    destruct (Z.ltb_spec t (now + ttl)); [done|lia].
  - intros t k' Hne. unfold m_count. simpl. by rewrite lookup_insert_ne.
Qed.
Next Obligation. intros. simpl. by destruct (m_live r now k). Qed.
Next Obligation. intros. simpl. by destruct (m_count r now k). Qed.
Next Obligation. intros. simpl. by destruct (m_count r now k). Qed.
