(* ===== verification/Idempotency.v ===== *)
(** * The idempotency store ([pkg/shared/idempotency/redis.go]).

[Begin], [Complete], [Release] and [WaitForCompletion] over any Redis server
that keeps [RedisLaws].  The polling loop takes fuel; [wait_terminates] gives
enough of it for a clock that advances. *)
From S2P Require Import Prelude DomainErr World Redis.
Local Open Scope Z_scope.
Local Open Scope go_scope.

Definition nanosecond : Z := 1.
Definition millisecond : Z := 1000000.
Definition second : Z := 1000 * millisecond.
Definition minute : Z := 60 * second.
Definition hour : Z := 60 * minute.

Definition StatusProcessing : string := "PROCESSING".
Definition DefaultTTL : Z := 24 * hour.

Definition key (k : string) : string := "idempotency:" +:+ k.

Definition is_redis_nil (e : error) : bool := match e with RedisNil => true | _ => false end.

Section Store.
Context {R : Type} `{Redis R}.

(** The pair [(ok, completedValue)] or the error. *)
Definition Begin (idemKey : string) : M (world R) (result error (bool * string)) :=
  let claim := exec (r_SetNX (key idemKey) StatusProcessing DefaultTTL) in
  let claimed (r : result error string) := match r with Ok s => bool_decide (s = "OK") | Err _ => false end in
  let finish (g : result error string) : M (world R) (result error (bool * string)) :=
    match g with
    | Err gerr => gret (Err (WrapError "idempotency get" gerr))
    | Ok val => gret (Ok (false, if bool_decide (val = StatusProcessing) then "" else val))
    end in
  res <- claim ;;
  if claimed res then gret (Ok (true, ""))
  else
    g <- exec (r_Get (key idemKey)) ;;
    match g with
    | Err RedisNil =>
        res <- claim ;;
        if claimed res then gret (Ok (true, ""))
        else g <- exec (r_Get (key idemKey)) ;; finish g
    | _ => finish g
    end.

Definition Complete (idemKey value : string) : M (world R) (result error unit) :=
  exec (r_Set (key idemKey) value DefaultTTL).

Definition Release (idemKey : string) : M (world R) (result error unit) :=
  exec (r_Del (key idemKey)).

(** [select] between [ctx.Done()] and a 100 ms timer: the error of the context, if any. *)
Definition pause : M (world R) (result error unit) := exec (query (fun _ _ => tt)).

(** One round: [Some] ends the loop. *)
Fixpoint poll (fuel : nat) (idemKey : string) (deadline : Z)
  : M (world R) (option (result error (string * bool))) :=
  match fuel with
  | O => gret None
  | S fuel' =>
      now <- time_Now ;;
      if negb (now <? deadline) then gret (Some (Ok ("", false)))
      else
        g <- exec (r_Get (key idemKey)) ;;
        match g with
        | Err RedisNil => gret (Some (Ok ("", false)))
        | Err e => gret (Some (Err e))
        | Ok val =>
            if negb (bool_decide (val = StatusProcessing)) then gret (Some (Ok (val, true)))
            else
              c <- pause ;;
              match c with
              | Err e => gret (Some (Err e))
              | Ok _ => poll fuel' idemKey deadline
              end
        end
  end.

Definition WaitForCompletion (fuel : nat) (idemKey : string) (timeout : Z)
  : M (world R) (option (result error (string * bool))) :=
  now <- time_Now ;;
  poll fuel idemKey (now + timeout).
End Store.

(* ------------------------------------------------------------------ *)
(** ** Correctness *)

Section Laws.
Context {R : Type} `{RedisLaws R}.

(** Who owns the key: the callers that were told [true] and did not release it. *)
Lemma Begin_absent k e r :
  calm e -> live r (cur_clock e) (key k) = None ->
  wp (Begin k) (fun a w => a = Ok (true, "") /\ w_env w = bump e /\
                  live (w_st w) (cur_clock e) (key k) = Some StatusProcessing /\
                  forall k' m, member (w_st w) k' m = member r k' m) (MkWorld e r).
Proof.
  intros Hc Hl. unfold Begin. wp_step.
  pose proof (SetNX_member (key k) StatusProcessing DefaultTTL (cur_clock e) (cur_uuid e) r) as Hmem.
  pose proof (SetNX_law (key k) StatusProcessing DefaultTTL (cur_clock e) (cur_uuid e) r) as Hlaw.
  destruct (r_SetNX _ _ _ _ _ r) as [a r'] eqn:Hq. rewrite Hl in Hlaw.
  destruct Hlaw as [[-> Hl'] _]. eapply wp_exec_calm; [done|exact Hq|]. simpl. by wp_step.
Qed.

(** A key that stays present between the two commands is never claimed again. *)
Lemma Begin_present k v e r :
  calm e -> live r (cur_clock e) (key k) = Some v -> live r (cur_clock (bump e)) (key k) = Some v ->
  wp (Begin k) (fun a w => a = Ok (false, if bool_decide (v = StatusProcessing) then "" else v) /\
                  w_st w = r) (MkWorld e r).
Proof.
  intros Hc Hl Hl1. unfold Begin. wp_step.
  pose proof (SetNX_law (key k) StatusProcessing DefaultTTL (cur_clock e) (cur_uuid e) r) as Hlaw.
  destruct (r_SetNX _ _ _ _ _ r) as [a r'] eqn:Hq. rewrite Hl in Hlaw.
  destruct Hlaw as [[-> ->] _]. eapply wp_exec_calm; [done|exact Hq|]. simpl. wp_step.
  eapply wp_exec_calm; [done|apply Get_law|]. rewrite Hl1. by wp_step.
Qed.

(** Rounds of the polling loop left before [deadline] at 100 ms each. *)
Definition rounds (timeout : Z) : nat := Z.to_nat (timeout / (100 * millisecond) + 2).

(** The clock advances by the pause of each round (three calls). *)
Definition ticking (e : env) : Prop :=
  forall n, clock e n <= clock e (S n) /\ clock e n + 100 * millisecond <= clock e (3 + n)%nat.

(** A call takes at most [d]. *)
Definition within_pace (d : Z) (e : env) : Prop := forall n, clock e (S n) <= clock e n + d.

(** The error of a call that failed. *)
Definition met (e : env) (err : error) : Prop := exists n, fault_at e n = Refused err \/ fault_at e n = LostReply err.

(** What a wait that ends at [now] answers: a value that the key holds; nothing,
because the deadline has passed or the key is gone; or the error of a call. *)
Definition waited (k : string) (deadline : Z) (e : env) (r : R) (a : result error (string * bool)) (now : Z) : Prop :=
  match a with
  | Ok (v, true) => v <> StatusProcessing /\ exists t, live r t (key k) = Some v
  | Ok (v, false) => v = "" /\ (deadline <= now \/ (exists t, live r t (key k) = None) \/ met e RedisNil)
  | Err err => met e err
  end.

(** The end of a wait: in time, with nothing changed. *)
Definition wait_ends (k : string) (deadline d : Z) (e : env) (r : R) (a : option (result error (string * bool))) (w : world R) : Prop :=
  w_st w = r /\ cur_clock (w_env w) <= deadline + 4 * d /\ exists x, a = Some x /\ waited k deadline e r x (cur_clock (w_env w)).

Lemma wait_ends_bump k deadline d e r a w : wait_ends k deadline d (bump e) r a w -> wait_ends k deadline d e r a w.
Proof. done. Qed.

Lemma wp_get k e (r : R) (Q : result error string -> world R -> Prop) :
  (forall err, met e err -> Q (Err err) (MkWorld (bump e) r)) ->
  Q (match live r (cur_clock e) (key k) with Some v => Ok v | None => Err RedisNil end) (MkWorld (bump e) r) ->
  wp (exec (r_Get (key k))) Q (MkWorld e r).
Proof.
  intros Hf HQ. unfold wp, exec, cur_fault. cbn [w_env w_st]. rewrite Get_law.
  destruct (fault_at e (tick e)) eqn:He; cbn [fst snd]; [done|apply Hf; exists (tick e); auto..].
Qed.

Lemma wp_pause e (r : R) (Q : result error unit -> world R -> Prop) :
  (forall err, met e err -> Q (Err err) (MkWorld (bump e) r)) -> Q (Ok tt) (MkWorld (bump e) r) ->
  wp pause Q (MkWorld e r).
Proof.
  intros Hf HQ. unfold wp, pause, exec, cur_fault. cbn [w_env w_st query].
  destruct (fault_at e (tick e)) eqn:He; cbn [fst snd]; [done|apply Hf; exists (tick e); auto..].
Qed.

Lemma poll_terminates k deadline d fuel : forall e r,
  ticking e -> within_pace d e -> deadline - cur_clock e <= (Z.of_nat fuel - 1) * (100 * millisecond) -> (0 < fuel)%nat ->
  cur_clock e <= deadline + 3 * d ->
  wp (poll fuel k deadline) (wait_ends k deadline d e r) (MkWorld e r).
Proof.
  induction fuel as [|fuel IH]; intros e r Ht Hp Hd Hf Hc; [lia|]. cbn [poll]. wp_step. apply wp_time_Now. cbn [w_env w_st].
  pose proof (Ht (tick e)) as [H1 H3]. pose proof (Ht (S (tick e))) as [H2 _]. pose proof (Ht (S (S (tick e)))) as [H2' _].
  pose proof (Hp (tick e)) as P1. pose proof (Hp (S (tick e))) as P2. pose proof (Hp (S (S (tick e)))) as P3.
  unfold cur_clock in *. cbn [tick clock bump Nat.add] in *.
  destruct (Z.ltb_spec (clock e (tick e)) deadline) as [Hlt|Hge]; cbn [negb].
  2: { wp_step. split_and!; [done|cbn; lia|]. eexists. split; [done|]. cbn [waited]. split; [reflexivity|]. left. cbn. lia. }
  wp_step. apply wp_get.
  { intros err Herr. destruct err; wp_step; (split_and!; [done|cbn; lia|eexists; split; [done|]]); try exact Herr.
    cbn [waited]. split; [reflexivity|]. right. right. exact Herr. }
  unfold cur_clock. cbn [tick clock bump].
  destruct (live r _ (key k)) as [v|] eqn:Hl.
  2: { wp_step. split_and!; [done|cbn; lia|]. eexists. split; [done|]. cbn [waited]. split; [reflexivity|]. right. left. eauto. }
  destruct (decide (v = StatusProcessing)) as [->|Hv].
  2: { rewrite bool_decide_eq_false_2 by done. cbn [negb]. wp_step. split_and!; [done|cbn; lia|]. eexists. split; [done|]. cbn [waited]. eauto. }
  rewrite bool_decide_eq_true_2 by done. cbn [negb]. wp_step. apply wp_pause.
  { intros err Herr. wp_step. split_and!; [done|cbn; lia|]. eexists. by split. }
  eapply wp_mono; [apply IH; [done|done| |unfold millisecond in *; lia|cbn; lia]|].
  - cbn. unfold millisecond in *. lia.
  - intros a w Hw. apply wait_ends_bump, wait_ends_bump, wait_ends_bump, Hw.
Qed.

(** C11.  Exactly one of two calls of [Begin] with the same key owns the work,
as long as the first claim lives: the first answers ok, the second does not and
leaves the store alone, and after [Complete] a later call answers the stored
value, so the owner's result is what every other caller sees. *)
Theorem Begin_exclusive k v e e' e'' r :
  calm e -> calm e' -> calm e'' -> live r (cur_clock e) (key k) = None ->
  v <> StatusProcessing ->
  let r1 := w_st (snd (Begin k (MkWorld e r))) in
  live r1 (cur_clock e') (key k) = Some StatusProcessing ->
  live r1 (cur_clock (bump e')) (key k) = Some StatusProcessing ->
  cur_clock e'' <= cur_clock (bump e'') <= cur_clock (bump (bump e'')) ->
  cur_clock (bump (bump e'')) < cur_clock e'' + DefaultTTL ->
  fst (Begin k (MkWorld e r)) = Ok (true, "") /\
  fst (Begin k (MkWorld e' r1)) = Ok (false, "") /\ w_st (snd (Begin k (MkWorld e' r1))) = r1 /\
  fst ((Complete k v ;;; Begin k) (MkWorld e'' r1)) = Ok (false, v).
Proof.
  intros Hc Hc' Hc'' Hnone Hv r1 Hl Hl' Hmono Httl.
  destruct (Begin_absent k e r Hc Hnone) as [H1 _].
  destruct (Begin_present k StatusProcessing e' r1 Hc' Hl Hl') as [H2 H3].
  rewrite bool_decide_eq_true_2 in H2 by done. split_and!; [done..|].
  change (wp (Complete k v ;;; Begin k) (fun a _ => a = Ok (false, v)) (MkWorld e'' r1)).
  wp_step. unfold Complete.
  pose proof (Set_law (key k) v DefaultTTL (cur_clock e'') (cur_uuid e'') r1) as Hs.
  destruct (r_Set _ _ _ _ _ r1) as [a r2] eqn:Hq. destruct Hs as (-> & Hlive & _).
  eapply wp_exec_calm; [done|exact Hq|].
  assert (Hat : forall t, cur_clock e'' <= t < cur_clock e'' + DefaultTTL -> live r2 t (key k) = Some v).
  { intros t Ht. rewrite Hlive by lia. destruct (Z.ltb_spec t (cur_clock e'' + DefaultTTL)); [done|lia]. }
  eapply wp_mono; [apply (Begin_present k v (bump e'') r2); [done|apply Hat; lia|apply Hat; lia]|].
  intros b w [-> _]. by rewrite bool_decide_eq_false_2.
Qed.

(** C27.  [WaitForCompletion] returns in time: on a clock that advances at least
100 ms per round and at most [d] per call, [rounds timeout] rounds are enough,
whatever Redis answers and whatever fails, and at most four calls after the
timeout the wait is over; the store is as it was, and the answer is a value that
the key holds, nothing when the timeout has passed or the key is gone, or the
error of a call that failed. *)
Theorem wait_terminates k timeout d e r :
  ticking e -> within_pace d e -> 0 <= timeout ->
  exists x w, WaitForCompletion (rounds timeout) k timeout (MkWorld e r) = (Some x, w) /\ w_st w = r /\
    cur_clock (w_env w) <= cur_clock e + timeout + 4 * d /\
    waited k (cur_clock e + timeout) e r x (cur_clock (w_env w)).
Proof.
  intros Ht Hp Hto.
  assert (Hwp : wp (WaitForCompletion (rounds timeout) k timeout) (wait_ends k (cur_clock e + timeout) d e r) (MkWorld e r)).
  { unfold WaitForCompletion. wp_step. apply wp_time_Now. cbn [w_env w_st].
    pose proof (Ht (tick e)) as [H1 _]. pose proof (Hp (tick e)) as P1.
    pose proof (Z.div_pos timeout (100 * millisecond) Hto ltac:(done)).
    pose proof (Z.mul_succ_div_gt timeout (100 * millisecond) ltac:(done)).
    eapply wp_mono; [apply (poll_terminates k (cur_clock e + timeout) d); [done|done| |unfold rounds; lia|unfold cur_clock; cbn; lia]|].
    - unfold rounds, cur_clock. cbn [tick clock bump]. rewrite Z2Nat.id by lia. unfold millisecond in *. lia.
    - intros a w. apply wait_ends_bump. }
  destruct (WaitForCompletion _ _ _ _) as [a w] eqn:Hrun. unfold wp in Hwp. rewrite Hrun in Hwp.
  destruct Hwp as (Hst & Hclock & x & Ha & Hx). cbn [fst snd] in *. subst a. by exists x, w.
Qed.
End Laws.

(* ------------------------------------------------------------------ *)
(** ** Witnesses *)

Definition idem_env (n : nat) : env :=
  MkEnv n (fun n => Z.of_nat n * 100 * millisecond) (fun n => pretty (N.of_nat n)) (fun _ => NoFault).

Lemma Begin_exclusive_witness :
  fst (Begin "k" (MkWorld (idem_env 0) empty_memory)) = Ok (true, "") /\
  let r1 := w_st (snd (Begin "k" (MkWorld (idem_env 0) empty_memory))) in
  fst (Begin "k" (MkWorld (idem_env 5) r1)) = Ok (false, "") /\
  w_st (snd (Begin "k" (MkWorld (idem_env 5) r1))) = r1 /\
  fst ((Complete "k" "p1" ;;; Begin "k") (MkWorld (idem_env 9) r1)) = Ok (false, "p1").
Proof.
  apply (Begin_exclusive "k" "p1" (idem_env 0) (idem_env 5) (idem_env 9) empty_memory);
    try (intros n; reflexivity); try reflexivity; try (vm_compute; reflexivity); try discriminate.
  split; vm_compute; discriminate.
Defined.

(** The owner does not come back: after five seconds the wait ends with nothing. *)
Lemma wait_terminates_witness :
  exists x w, WaitForCompletion (rounds (5 * second)) "k" (5 * second)
    (MkWorld (idem_env 3) (w_st (snd (Begin "k" (MkWorld (idem_env 0) empty_memory))))) = (Some x, w) /\
    x = Ok ("", false) /\ cur_clock (w_env w) <= 5 * second + 700 * millisecond.
Proof.
  destruct (wait_terminates "k" (5 * second) (100 * millisecond) (idem_env 3)
    (w_st (snd (Begin "k" (MkWorld (idem_env 0) empty_memory))))) as (x & w & Hrun & _ & Hclock & _).
  - intros n. simpl. unfold millisecond. lia.
  - intros n. simpl. unfold millisecond. lia.
  - vm_compute. discriminate.
  - exists x, w. split; [exact Hrun|]. split; [|exact Hclock].
    vm_compute in Hrun. injection Hrun as <- <-. reflexivity.
Defined.
