(* ===== verification/GoTime.v ===== *)
(** * Calendar time: what the services use of Go's package [time].

An instant is a number of nanoseconds since 1970-01-01T00:00:00Z.  [civil] is
the proleptic Gregorian date of a day number and [days_of] its inverse
([time.Date]); [Format_RFC3339] and [Format_RFC3339Nano] are [Format] with these
layouts in UTC, and [Parse_RFC3339] is [time.Parse], which reads the same texts
for both layouts: a fraction of a second may follow the seconds, after a period
or a comma, the hour may have one digit, and the zone is Z or an offset of at
most 24 hours and 60 minutes. *)
From S2P Require Import Prelude GoStrings Idempotency.
From Stdlib Require Import Ascii.
Local Open Scope Z_scope.

(** Years begin on the first of March here, so that the leap day comes last. *)
Definition civil (days : Z) : Z * Z * Z :=
  let z := days + 719468 in
  let era := z / 146097 in
  let doe := z mod 146097 in
  let yoe := (doe - doe / 1460 + doe / 36524 - doe / 146096) / 365 in
  let doy := doe - (365 * yoe + yoe / 4 - yoe / 100) in
  let mp := (5 * doy + 2) / 153 in
  let d := doy - (153 * mp + 2) / 5 + 1 in
  let m := if mp <? 10 then mp + 3 else mp - 9 in
  (yoe + 400 * era + (if m <=? 2 then 1 else 0), m, d).

Definition days_of (y m d : Z) : Z :=
  let y' := if m <=? 2 then y - 1 else y in
  let era := y' / 400 in
  let yoe := y' mod 400 in
  let mp := if 2 <? m then m - 3 else m + 9 in
  let doy := (153 * mp + 2) / 5 + d - 1 in
  146097 * era + (365 * yoe + yoe / 4 - yoe / 100 + doy) - 719468.

Definition isLeap (y : Z) : bool :=
  (y mod 4 =? 0) && (negb (y mod 100 =? 0) || (y mod 400 =? 0)).

Definition daysIn (m y : Z) : Z :=
  if m =? 2 then (if isLeap y then 29 else 28)
  else if (m =? 4) || (m =? 6) || (m =? 9) || (m =? 11) then 30 else 31.

Definition day_seconds : Z := 86400.

(** [time.Date(y, m, d, hh, mm, ss, ns, UTC)]. *)
Definition date_of (y m d hh mm ss ns : Z) : Z :=
  (days_of y m d * day_seconds + hh * 3600 + mm * 60 + ss) * second + ns.

(** The zero [time.Time], 0001-01-01T00:00:00Z. *)
Definition zero_time : Z := date_of 1 1 1 0 0 0 0.
Definition IsZero (t : Z) : bool := t =? zero_time.

(* ------------------------------------------------------------------ *)
(** ** Formatting *)

Definition digit (n : Z) : ascii := ascii_of (48 + n).
Definition two (n : Z) : list ascii := [digit (n / 10); digit (n mod 10)].
Definition four (n : Z) : list ascii := two (n / 100) ++ two (n mod 100).

(** The year, zero-padded to four digits, with a sign when it is negative. *)
Definition year_text (y : Z) : list ascii :=
  if y <? 0 then "-"%char :: (if - y <=? 9999 then four (- y) else String.list_ascii_of_string (itoa (- y)))
  else if y <=? 9999 then four y else String.list_ascii_of_string (itoa y).

(** Nine digits of a fraction, without the zeros at the end. *)
Fixpoint drop_zeros (l : list ascii) : list ascii :=
  match l with
  | [] => []
  | c :: l' => if bool_decide (c = "0"%char) then drop_zeros l' else l
  end.
Definition nine (n : Z) : list ascii :=
  two (n / 10000000) ++ two (n / 100000 mod 100) ++ two (n / 1000 mod 100) ++ two (n / 10 mod 100)
  ++ [digit (n mod 10)].
Definition fraction (ns : Z) : list ascii :=
  if ns =? 0 then [] else "."%char :: rev (drop_zeros (rev (nine ns))).

Definition format_with (nano : bool) (t : Z) : string :=
  let secs := t / second in
  let '(y, m, d) := civil (secs / day_seconds) in
  let r := secs mod day_seconds in
  String.string_of_list_ascii
    (year_text y ++ "-"%char :: two m ++ "-"%char :: two d ++ "T"%char :: two (r / 3600)
     ++ ":"%char :: two (r mod 3600 / 60) ++ ":"%char :: two (r mod 60)
     ++ (if nano then fraction (t mod second) else []) ++ ["Z"%char]).
Definition Format_RFC3339 : Z -> string := format_with false.
Definition Format_RFC3339Nano : Z -> string := format_with true.

(* ------------------------------------------------------------------ *)
(** ** Parsing *)

Definition digit_value (c : ascii) : option Z :=
  if between 48 57 c then Some (byte_of c - 48) else None.

(** [getnum(value, true)]: two digits; [getnum(value, false)]: one or two. *)
Definition getnum (fixed : bool) (l : list ascii) : option (Z * list ascii) :=
  match l with
  | a :: l1 =>
      x ← digit_value a;
      match l1 with
      | b :: l2 => match digit_value b with
                   | Some y => Some (10 * x + y, l2)
                   | None => if fixed then None else Some (x, l1)
                   end
      | [] => if fixed then None else Some (x, l1)
      end
  | [] => None
  end.

Definition skip (c : ascii) (l : list ascii) : option (list ascii) :=
  match l with a :: l' => if bool_decide (a = c) then Some l' else None | [] => None end.

(** The digits of a fraction: nanoseconds from the first nine, the rest is read
and dropped. *)
Fixpoint read_fraction (scale acc : Z) (l : list ascii) : Z * list ascii :=
  match l with
  | a :: l' => match digit_value a with
               | Some x => read_fraction (scale / 10) (acc + x * scale) l'
               | None => (acc, l)
               end
  | [] => (acc, [])
  end.
Definition getfraction (l : list ascii) : Z * list ascii :=
  match l with
  | c :: (d :: _) as l' =>
      if (bool_decide (c = "."%char) || bool_decide (c = ","%char)) && bool_decide (is_Some (digit_value d))
      then read_fraction (second / 10) 0 l' else (0, l)
  | _ => (0, l)
  end.

(** The offset of the zone in seconds; nothing may follow it. *)
Definition getzone (l : list ascii) : option Z :=
  match l with
  | ["Z"%char] => Some 0
  | s :: l1 =>
      '(hr, l2) ← getnum true l1;
      l3 ← skip ":"%char l2;
      '(mm, l4) ← getnum true l3;
      if (24 <? hr) || (60 <? mm) then None
      else match l4 with
           | [] => if bool_decide (s = "+"%char) then Some ((hr * 60 + mm) * 60)
                   else if bool_decide (s = "-"%char) then Some (- ((hr * 60 + mm) * 60)) else None
           | _ => None
           end
  | [] => None
  end.

Definition Parse_RFC3339 (s : string) : option Z :=
  '(y1, l) ← getnum true (String.list_ascii_of_string s);
  '(y2, l) ← getnum true l;
  let y := 100 * y1 + y2 in
  l ← skip "-"%char l;
  '(m, l) ← getnum true l;
  l ← skip "-"%char l;
  '(d, l) ← getnum true l;
  l ← skip "T"%char l;
  '(hh, l) ← getnum false l;
  l ← skip ":"%char l;
  '(mm, l) ← getnum true l;
  l ← skip ":"%char l;
  '(ss, l) ← getnum true l;
  let '(ns, l) := getfraction l in
  offset ← getzone l;
  if (m <? 1) || (12 <? m) || (d <? 1) || (daysIn m y <? d) || (23 <? hh) || (59 <? mm) || (59 <? ss) then None
  else Some (date_of y m d hh mm ss ns - offset * second).

Example format_epoch : Format_RFC3339 0 = "1970-01-01T00:00:00Z". Proof. reflexivity. Qed.
Example format_leap : Format_RFC3339Nano (951827696 * second + 120000000) = "2000-02-29T12:34:56.12Z".
Proof. vm_compute. reflexivity. Qed.
Example format_zero : Format_RFC3339 zero_time = "0001-01-01T00:00:00Z". Proof. vm_compute. reflexivity. Qed.
Example parse_offset : Parse_RFC3339 "2000-02-29T13:34:56.12+01:00" = Some (951827696 * second + 120000000).
Proof. vm_compute. reflexivity. Qed.
Example parse_bad : (Parse_RFC3339 "2001-02-29T00:00:00Z", Parse_RFC3339 "2001-02-28 00:00:00Z", Parse_RFC3339 "") = (None, None, None).
Proof. vm_compute. reflexivity. Qed.

(* ------------------------------------------------------------------ *)
(** ** The calendar *)

Lemma year_of_era doe : 0 <= doe < 146097 ->
  let yoe := (doe - doe / 1460 + doe / 36524 - doe / 146096) / 365 in
  let doy := doe - (365 * yoe + yoe / 4 - yoe / 100) in
  0 <= yoe < 400 /\ 0 <= doy <= 365 /\ (doy = 365 -> (yoe + 1) mod 4 = 0 /\ ((yoe + 1) mod 100 <> 0 \/ yoe = 399)).
Proof.
  intros H. cbv zeta.
  set (yoe := (doe - doe / 1460 + doe / 36524 - doe / 146096) / 365).
  assert (0 <= yoe < 400) by (unfold yoe; Z.to_euclidean_division_equations; lia).
  split; [done|].
  assert (0 <= doe - (365 * yoe + yoe / 4 - yoe / 100) <= 365)
    by (unfold yoe; Z.to_euclidean_division_equations; lia).
  split; [done|]. intros Hd. unfold yoe in *. Z.to_euclidean_division_equations; lia.
Qed.

Lemma month_of_day doy : 0 <= doy <= 365 ->
  let mp := (5 * doy + 2) / 153 in
  let d := doy - (153 * mp + 2) / 5 + 1 in
  0 <= mp <= 11 /\ 1 <= d <= 31 /\ (mp = 1 \/ mp = 3 \/ mp = 6 \/ mp = 8 -> d <= 30) /\
  (mp = 11 -> d <= 29 /\ (d = 29 -> doy = 365)).
Proof. intros H. cbv zeta. Z.to_euclidean_division_equations; lia. Qed.

(** [civil] gives a valid date, and [days_of] is its inverse. *)
Lemma civil_valid z : let '(y, m, d) := civil z in
  1 <= m <= 12 /\ 1 <= d <= daysIn m y /\ days_of y m d = z.
Proof.
  unfold civil. cbv zeta.
  pose proof (Z.mod_pos_bound (z + 719468) 146097 ltac:(lia)) as Hdoe.
  pose proof (Z.div_mod (z + 719468) 146097 ltac:(lia)) as Hz.
  set (era := (z + 719468) / 146097) in *. set (doe := (z + 719468) mod 146097) in *. clearbody era doe.
  pose proof (year_of_era doe Hdoe) as (Hy & Hdoy & Hleap). cbv zeta in Hy, Hdoy, Hleap.
  set (yoe := (doe - doe / 1460 + doe / 36524 - doe / 146096) / 365) in *. clearbody yoe.
  remember (doe - (365 * yoe + yoe / 4 - yoe / 100)) as doy eqn:Edoy.
  pose proof (month_of_day doy Hdoy) as (Hmp & Hd & Hshort & Hfeb). cbv zeta in Hmp, Hd, Hshort, Hfeb.
  set (mp := (5 * doy + 2) / 153) in *. clearbody mp.
  remember (doy - (153 * mp + 2) / 5 + 1) as d eqn:Ed.
  unfold days_of, daysIn.
  destruct (Z.ltb_spec mp 10) as [Hm|Hm].
  - destruct (Z.leb_spec (mp + 3) 2); [lia|]. destruct (Z.ltb_spec 2 (mp + 3)); [|lia].
    replace (yoe + 400 * era + 0) with (yoe + era * 400) by lia.
    rewrite Z.div_add, Z.mod_add, Z.div_small, Z.mod_small by lia.
    replace (mp + 3 - 3) with mp by lia.
    destruct (Z.eqb_spec (mp + 3) 2); [lia|].
    split; [lia|]. split; [|lia].
    destruct (_ || _ || _ || _) eqn:Ho; [|lia].
    split; [lia|]. apply Hshort. rewrite !orb_true_iff, !Z.eqb_eq in Ho. lia.
  - destruct (Z.leb_spec (mp - 9) 2); [|lia]. destruct (Z.ltb_spec 2 (mp - 9)); [lia|].
    replace (yoe + 400 * era + 1 - 1) with (yoe + era * 400) by lia.
    rewrite Z.div_add, Z.mod_add, Z.div_small, Z.mod_small by lia.
    replace (mp - 9 + 9) with mp by lia.
    split; [lia|]. split; [|lia]. split; [lia|].
    destruct (Z.eqb_spec (mp - 9) 2) as [E2|E2].
    + destruct Hfeb as [Hf1 Hf2]; [lia|]. destruct (isLeap _) eqn:El; [lia|].
      destruct (decide (d = 29)) as [E29|]; [|lia]. exfalso. destruct (Hleap (Hf2 E29)) as [H4 H100].
      unfold isLeap in El. replace (yoe + 400 * era + 1) with (yoe + 1 + era * 4 * 100) in El by lia.
      rewrite Z.mod_add in El by lia. replace (yoe + 1 + era * 4 * 100) with (yoe + 1 + era * 400) in El by lia.
      rewrite Z.mod_add in El by lia. replace (yoe + 1 + era * 400) with (yoe + 1 + era * 100 * 4) in El by lia.
      rewrite Z.mod_add, H4 in El by lia. simpl in El. destruct H100 as [H100| ->]; [|done].
      apply Z.eqb_neq in H100. by rewrite H100 in El.
    + destruct (_ || _ || _ || _) eqn:Ho; [|lia]. rewrite !orb_true_iff, !Z.eqb_eq in Ho. lia.
Qed.

(* ------------------------------------------------------------------ *)
(** ** Round trip *)

Definition year_of (t : Z) : Z := (civil (t / second / day_seconds)).1.1.

Lemma digit_value_digit n : 0 <= n < 10 -> digit_value (digit n) = Some n.
Proof.
  intros Hn. assert (forallb (fun k => bool_decide (digit_value (digit (Z.of_nat k)) = Some (Z.of_nat k))) (List.seq 0 10) = true)
    as Hall by (vm_compute; reflexivity).
  rewrite forallb_forall in Hall. specialize (Hall (Z.to_nat n)). rewrite Z2Nat.id in Hall by lia.
  apply bool_decide_eq_true in Hall; [done|]. apply in_seq. lia.
Qed.

Lemma getnum_two fixed n l : 0 <= n < 100 -> getnum fixed (two n ++ l) = Some (n, l).
Proof.
  intros Hn. unfold two. cbn [app getnum].
  rewrite !digit_value_digit by (Z.to_euclidean_division_equations; lia). simpl. do 2 f_equal.
  Z.to_euclidean_division_equations; lia.
Qed.

Lemma drop_zeros_split l : exists k, l = replicate k "0"%char ++ drop_zeros l.
Proof.
  induction l as [|c l [k Hk]]; simpl; [by exists 0%nat|]. case_bool_decide as Hc; [|by exists 0%nat].
  exists (S k). simpl. by rewrite <- Hk, Hc.
Qed.

Lemma read_zeros k scale acc : read_fraction scale acc (replicate k "0"%char ++ ["Z"%char]) = (acc, ["Z"%char]).
Proof.
  revert scale acc. induction k as [|k IH]; intros scale acc; [done|]. cbn [replicate app read_fraction].
  change (digit_value "0") with (Some 0). cbn. by rewrite Z.mul_0_l, Z.add_0_r.
Qed.

(** Zeros at the end of a fraction do not count. *)
Lemma read_trailing l k : forall scale acc, Forall (fun c => is_Some (digit_value c)) l ->
  read_fraction scale acc (l ++ replicate k "0"%char ++ ["Z"%char]) = read_fraction scale acc (l ++ ["Z"%char]).
Proof.
  induction l as [|c l IH]; intros scale acc Hl.
  - rewrite app_nil_l, read_zeros. done.
  - apply Forall_cons in Hl as [[x Hx] Hl]. simpl. rewrite Hx. by apply IH.
Qed.

Lemma digit_is_digit n : 0 <= n < 10 -> is_Some (digit_value (digit n)).
Proof. intros Hn. rewrite digit_value_digit by done. eauto. Qed.

Lemma nine_digits n : 0 <= n < second -> Forall (fun c => is_Some (digit_value c)) (nine n).
Proof.
  intros Hn. unfold second, millisecond in Hn. unfold nine, two.
  repeat (constructor; [apply digit_is_digit; Z.to_euclidean_division_equations; lia|]). constructor.
Qed.

Lemma read_nine n : 0 <= n < second -> read_fraction (second / 10) 0 (nine n ++ ["Z"%char]) = (n, ["Z"%char]).
Proof.
  unfold second, millisecond. intros Hn. unfold nine, two. cbn [app read_fraction].
  rewrite !digit_value_digit by (Z.to_euclidean_division_equations; lia).
  change (digit_value "Z") with (@None Z). cbv iota beta.
  f_equal. change (1000 * 1000000 / 10) with 100000000.
  change (100000000 / 10) with 10000000. change (10000000 / 10) with 1000000. change (1000000 / 10) with 100000.
  change (100000 / 10) with 10000. change (10000 / 10) with 1000. change (1000 / 10) with 100. change (100 / 10) with 10.
  change (10 / 10) with 1.
  Z.to_euclidean_division_equations; lia.
Qed.

Lemma getfraction_fraction n : 0 <= n < second -> getfraction (fraction n ++ ["Z"%char]) = (n, ["Z"%char]).
Proof.
  intros Hn. unfold fraction. destruct (Z.eqb_spec n 0) as [->|Hz]; [done|].
  destruct (drop_zeros_split (rev (nine n))) as [k Hk].
  apply (f_equal (@rev ascii)) in Hk. rewrite rev_involutive, rev_app_distr in Hk.
  set (ds := rev (drop_zeros (rev (nine n)))) in *.
  rewrite (rev_alt (replicate k "0"%char)) in Hk. fold (reverse (replicate k "0"%char)) in Hk.
  rewrite reverse_replicate in Hk.
  pose proof (nine_digits n Hn) as Hall. rewrite Hk in Hall. apply Forall_app in Hall as [Hds _].
  pose proof (read_nine n Hn) as Hr. rewrite Hk, <- app_assoc, (read_trailing _ _ _ _ Hds) in Hr.
  destruct ds as [|d ds'] eqn:Eds; [|].
  { cbn [app read_fraction] in Hr. change (digit_value "Z") with (@None Z) in Hr. cbn in Hr. injection Hr. lia. }
  cbn [app getfraction]. apply Forall_cons in Hds as [Hd _]. rewrite (bool_decide_eq_true_2 _ Hd). exact Hr.
Qed.

Lemma format_parse nano t : 0 <= year_of t <= 9999 ->
  Parse_RFC3339 (format_with nano t) = Some (if nano then t else t / second * second).
Proof.
  unfold year_of, format_with, Parse_RFC3339.
  pose proof (civil_valid (t / second / day_seconds)) as Hc.
  destruct (civil _) as [[y m] d]. cbn [fst snd]. rewrite String.list_ascii_of_string_of_list_ascii. intros Hy. destruct Hc as (Hm & Hd & Hdays).
  assert (daysIn m y <= 31) by (unfold daysIn; repeat case_match; lia).
  pose proof (Z.mod_pos_bound (t / second) day_seconds ltac:(done)) as Hr.
  pose proof (Z.div_mod (t / second) day_seconds ltac:(done)) as Hsplit.
  pose proof (Z.div_mod t second ltac:(done)) as Ht.
  pose proof (Z.mod_pos_bound t second ltac:(done)) as Hns.
  set (r := (t / second) mod day_seconds) in *. unfold day_seconds in Hr.
  unfold year_text. destruct (Z.ltb_spec y 0); [lia|]. destruct (Z.leb_spec y 9999); [|lia].
  unfold four. rewrite <- !app_assoc.
  rewrite getnum_two by (Z.to_euclidean_division_equations; lia). cbn [mbind option_bind].
  rewrite getnum_two by (Z.to_euclidean_division_equations; lia). cbn [mbind option_bind skip].
  replace (100 * (y / 100) + y mod 100) with y by (rewrite <- Z.div_mod; lia).
  rewrite bool_decide_eq_true_2 by done. cbn [mbind option_bind].
  rewrite getnum_two by lia. cbn [mbind option_bind skip]. rewrite bool_decide_eq_true_2 by done. cbn [mbind option_bind].
  rewrite getnum_two by lia. cbn [mbind option_bind skip]. rewrite bool_decide_eq_true_2 by done. cbn [mbind option_bind].
  rewrite getnum_two by (Z.to_euclidean_division_equations; lia). cbn [mbind option_bind skip].
  rewrite bool_decide_eq_true_2 by done. cbn [mbind option_bind].
  rewrite getnum_two by (Z.to_euclidean_division_equations; lia). cbn [mbind option_bind skip].
  rewrite bool_decide_eq_true_2 by done. cbn [mbind option_bind].
  rewrite getnum_two by (Z.to_euclidean_division_equations; lia). cbn [mbind option_bind].
  assert (getfraction ((if nano then fraction (t mod second) else []) ++ ["Z"%char]) =
          (if nano then t mod second else 0, ["Z"%char])) as ->
    by (destruct nano; [by apply getfraction_fraction|done]).
  cbn [getzone mbind option_bind].
  assert ((m <? 1) || (12 <? m) || (d <? 1) || (daysIn m y <? d) || (23 <? r / 3600) || (59 <? r mod 3600 / 60) || (59 <? r mod 60) = false) as ->.
  { rewrite !orb_false_iff, !Z.ltb_ge. Z.to_euclidean_division_equations; lia. }
  f_equal. unfold date_of. rewrite Hdays.
  assert (r = r / 3600 * 3600 + r mod 3600 / 60 * 60 + r mod 60) as Er by (Z.to_euclidean_division_equations; lia).
  assert (t / second = t / second / day_seconds * day_seconds + r / 3600 * 3600 + r mod 3600 / 60 * 60 + r mod 60) as Hsec by lia.
  rewrite <- Hsec. destruct nano; lia.
Qed.

(** A formatted instant is visible ASCII. *)
Abbreviation all_visible := (Forall (fun c => visible c = true)).

Lemma digit_visible n : 0 <= n < 10 -> visible (digit n) = true.
Proof.
  intros Hn. assert (forallb (fun k => visible (digit (Z.of_nat k))) (seq 0 10) = true) as Hall by reflexivity.
  rewrite forallb_forall in Hall. specialize (Hall (Z.to_nat n) ltac:(apply in_seq; lia)). by rewrite Z2Nat.id in Hall by lia.
Qed.

Lemma is_digit_visible c : is_digit c = true -> visible c = true.
Proof. unfold is_digit, between, visible. intros [H1%Z.leb_le H2%Z.leb_le]%andb_true_iff. apply andb_true_iff. rewrite !Z.ltb_lt. lia. Qed.

Lemma two_visible n : 0 <= n < 100 -> all_visible (two n).
Proof. intros Hn. unfold two. repeat constructor; apply digit_visible; Z.to_euclidean_division_equations; lia. Qed.

Lemma four_visible n : 0 <= n < 10000 -> all_visible (four n).
Proof. intros Hn. unfold four. apply Forall_app. split; apply two_visible; Z.to_euclidean_division_equations; lia. Qed.

Lemma itoa_visible n : 0 <= n -> all_visible (String.list_ascii_of_string (itoa n)).
Proof.
  intros Hn. assert (itoa n = pretty (Z.to_N n)) as -> by (by destruct n).
  destruct (pretty_N_digits (Z.to_N n)) as (c & l & -> & _ & Hp). apply parse_digits_all in Hp.
  eapply List.Forall_impl; [|exact Hp]. intros x. apply is_digit_visible.
Qed.

Lemma year_visible y : all_visible (year_text y).
Proof.
  unfold year_text. destruct (Z.ltb_spec y 0).
  - constructor; [done|]. destruct (Z.leb_spec (- y) 9999); [apply four_visible; lia|apply itoa_visible; lia].
  - destruct (Z.leb_spec y 9999); [apply four_visible; lia|apply itoa_visible; lia].
Qed.

Lemma drop_zeros_visible l : all_visible l -> all_visible (drop_zeros l).
Proof. induction 1 as [|c l Hc Hl IH]; simpl; [done|]. case_bool_decide; [done|by constructor]. Qed.

Lemma nine_visible n : 0 <= n < second -> all_visible (nine n).
Proof.
  unfold second, millisecond. intros Hn. unfold nine.
  repeat (apply Forall_app; split); try (apply two_visible; Z.to_euclidean_division_equations; lia).
  repeat constructor. apply digit_visible. Z.to_euclidean_division_equations; lia.
Qed.

Lemma format_visible nano t : all_visible (String.list_ascii_of_string (format_with nano t)).
Proof.
  unfold format_with. pose proof (civil_valid (t / second / day_seconds)) as Hc.
  destruct (civil _) as [[y m] d]. rewrite String.list_ascii_of_string_of_list_ascii. destruct Hc as (Hm & Hd & _).
  assert (daysIn m y <= 31) by (unfold daysIn; repeat case_match; lia).
  pose proof (Z.mod_pos_bound (t / second) day_seconds ltac:(done)) as Hr. unfold day_seconds in Hr.
  repeat first [apply Forall_app; split|apply List.Forall_cons; [done|]|apply List.Forall_nil].
  - apply year_visible.
  - apply two_visible. lia.
  - apply two_visible. lia.
  - apply two_visible. unfold day_seconds. Z.to_euclidean_division_equations; lia.
  - apply two_visible. Z.to_euclidean_division_equations; lia.
  - apply two_visible. Z.to_euclidean_division_equations; lia.
  - destruct nano; [|constructor]. unfold fraction. destruct (_ =? _); constructor; [done|].
    apply Forall_rev, drop_zeros_visible, Forall_rev, nine_visible, Z.mod_pos_bound. done.
Qed.

Lemma drop_zeros_length l : (length (drop_zeros l) <= length l)%nat.
Proof. induction l as [|c l IH]; [done|]. simpl. case_bool_decide; simpl; lia. Qed.

(** A time of the years 0 to 9999 takes at most 30 characters. *)
Lemma format_length nano t : 0 <= year_of t <= 9999 -> (String.length (format_with nano t) <= 30)%nat.
Proof.
  unfold year_of, format_with. cbv zeta. destruct (civil _) as [[y m] d]. cbn [fst]. intros Hy.
  rewrite string_of_list_length, !length_app. cbn [length]. rewrite !length_app. cbn [length].
  assert (length (year_text y) = 4%nat) as ->.
  { unfold year_text. destruct (Z.ltb_spec y 0); [lia|]. by destruct (Z.leb_spec y 9999); [|lia]. }
  assert (length (if nano then fraction (t mod second) else []) <= 10)%nat.
  { destruct nano; [|simpl; lia]. unfold fraction. destruct (_ =? 0); [simpl; lia|]. cbn [length]. rewrite length_rev.
    pose proof (drop_zeros_length (rev (nine (t mod second)))) as Hd. rewrite length_rev in Hd.
    assert (length (nine (t mod second)) = 9%nat) by done. lia. }
  simpl. rewrite length_app. cbn [length]. lia.
Qed.
