(* ===== verification/Sha256.v ===== *)
(** * SHA-256, HMAC and hexadecimal text (Go's [crypto/sha256], [crypto/hmac],
[encoding/hex]), executable.

Bytes are [Z] in [0, 256); words are [Z] in [0, 2^32), every operation reduced
to that width.  The standard's test vectors are checked by evaluation. *)
From S2P Require Import Prelude GoStrings.
From Stdlib Require Import Ascii.
Local Open Scope Z_scope.

Definition word32 (z : Z) : Z := Z.land z 0xFFFFFFFF.
Definition rotr (n x : Z) : Z := Z.lor (Z.shiftr x n) (word32 (Z.shiftl x (32 - n))).
Definition not32 (x : Z) : Z := Z.lxor x 0xFFFFFFFF.

Definition Ch (x y z : Z) : Z := Z.lxor (Z.land x y) (Z.land (not32 x) z).
Definition Maj (x y z : Z) : Z := Z.lxor (Z.land x y) (Z.lxor (Z.land x z) (Z.land y z)).
Definition Sigma0 (x : Z) : Z := Z.lxor (rotr 2 x) (Z.lxor (rotr 13 x) (rotr 22 x)).
Definition Sigma1 (x : Z) : Z := Z.lxor (rotr 6 x) (Z.lxor (rotr 11 x) (rotr 25 x)).
Definition sigma0 (x : Z) : Z := Z.lxor (rotr 7 x) (Z.lxor (rotr 18 x) (Z.shiftr x 3)).
Definition sigma1 (x : Z) : Z := Z.lxor (rotr 17 x) (Z.lxor (rotr 19 x) (Z.shiftr x 10)).

(** The constants of the standard are the first 32 bits of the fractional parts
of the cube roots of the first 64 primes and of the square roots of the first
eight; they are computed from that definition. *)
Definition is_prime (n : nat) : bool := forallb (fun d => negb (Nat.eqb (Nat.modulo n d) 0)) (seq 2 (n - 2)).
Definition primes_below (n : nat) : list Z := map Z.of_nat (List.filter is_prime (seq 2 (n - 2))).

(** The integer cube root of [n], bit by bit from [2 ^ bits]. *)
Fixpoint cube_root (bits : nat) (acc n : Z) : Z :=
  match bits with
  | O => acc
  | S b => let c := acc + 2 ^ Z.of_nat b in cube_root b (if c ^ 3 <=? n then c else acc) n
  end.

Definition K256 : list Z := Eval vm_compute in
  map (fun p => cube_root 36 0 (p * 2 ^ 96) mod 2 ^ 32) (primes_below 312).
Definition H256 : list Z := Eval vm_compute in
  map (fun p => Z.sqrt (p * 2 ^ 64) mod 2 ^ 32) (primes_below 20).

(** The eight chaining words. *)
Record digest := MkDigest { d0 : Z; d1 : Z; d2 : Z; d3 : Z; d4 : Z; d5 : Z; d6 : Z; d7 : Z }.
Definition digest_init : digest :=
  let h i := nth i H256 0 in MkDigest (h 0%nat) (h 1%nat) (h 2%nat) (h 3%nat) (h 4%nat) (h 5%nat) (h 6%nat) (h 7%nat).

(** The last sixteen words of the schedule, newest first, and the next one. *)
Definition next_word (w : list Z) : Z :=
  word32 (sigma1 (nth 1 w 0) + nth 6 w 0 + sigma0 (nth 14 w 0) + nth 15 w 0).

Definition round (d : digest) (k w : Z) : digest :=
  let t1 := word32 (d7 d + Sigma1 (d4 d) + Ch (d4 d) (d5 d) (d6 d) + k + w) in
  let t2 := word32 (Sigma0 (d0 d) + Maj (d0 d) (d1 d) (d2 d)) in
  MkDigest (word32 (t1 + t2)) (d0 d) (d1 d) (d2 d) (word32 (d3 d + t1)) (d4 d) (d5 d) (d6 d).

(** [todo] are the words of the block that are still to be used. *)
Fixpoint rounds (ks todo w : list Z) (d : digest) : digest :=
  match ks with
  | [] => d
  | k :: ks' =>
      match todo with
      | x :: todo' => rounds ks' todo' (x :: w) (round d k x)
      | [] => let x := next_word w in rounds ks' [] (x :: take 15 w) (round d k x)
      end
  end.

Definition add_digest (a b : digest) : digest :=
  MkDigest (word32 (d0 a + d0 b)) (word32 (d1 a + d1 b)) (word32 (d2 a + d2 b)) (word32 (d3 a + d3 b))
           (word32 (d4 a + d4 b)) (word32 (d5 a + d5 b)) (word32 (d6 a + d6 b)) (word32 (d7 a + d7 b)).

Definition block (d : digest) (ws : list Z) : digest := add_digest d (rounds K256 ws [] d).

Fixpoint be_words (bs : list Z) : list Z :=
  match bs with
  | a :: b :: c :: d :: bs' =>
      Z.lor (Z.shiftl a 24) (Z.lor (Z.shiftl b 16) (Z.lor (Z.shiftl c 8) d)) :: be_words bs'
  | _ => []
  end.

Definition be_bytes (n : nat) (x : Z) : list Z :=
  map (fun i => Z.land (Z.shiftr x (8 * Z.of_nat (n - 1 - i))) 255) (seq 0 n).

(** The message, 0x80, zeros up to 56 modulo 64, and the length in bits. *)
Definition padded (bs : list Z) : list Z :=
  let n := Z.of_nat (length bs) in
  bs ++ 0x80 :: replicate (Z.to_nat ((55 - n) mod 64)) 0 ++ be_bytes 8 (8 * n).

Fixpoint blocks (fuel : nat) (ws : list Z) (d : digest) : digest :=
  match fuel, ws with
  | S fuel', _ :: _ => blocks fuel' (drop 16 ws) (block d (take 16 ws))
  | _, _ => d
  end.

Definition digest_bytes (d : digest) : list Z :=
  concat (map (be_bytes 4) [d0 d; d1 d; d2 d; d3 d; d4 d; d5 d; d6 d; d7 d]).

(** One unit of fuel per block: there are at most as many blocks as words. *)
Definition sha256_Sum (bs : list Z) : list Z :=
  let ws := be_words (padded bs) in digest_bytes (blocks (length ws) ws digest_init).

Lemma digest_bytes_length d : length (digest_bytes d) = 32%nat.
Proof. reflexivity. Qed.

Lemma be_bytes_range n x : Forall (fun b => 0 <= b < 256) (be_bytes n x).
Proof.
  apply Forall_forall. intros b (i & -> & _)%list_elem_of_fmap. change 255 with (Z.ones 8).
  rewrite Z.land_ones by lia. apply Z.mod_pos_bound. lia.
Qed.

(* ------------------------------------------------------------------ *)
(** ** HMAC *)

Definition zero_pad (n : nat) (bs : list Z) : list Z := bs ++ replicate (n - length bs) 0.

Definition hmac_key (key : list Z) : list Z :=
  zero_pad 64 (if 64 <? Z.of_nat (length key) then sha256_Sum key else key).

Definition hmac_Sum (key msg : list Z) : list Z :=
  let k := hmac_key key in
  sha256_Sum (map (Z.lxor 0x5c) k ++ sha256_Sum (map (Z.lxor 0x36) k ++ msg)).

(* ------------------------------------------------------------------ *)
(** ** Strings and hexadecimal text *)

Definition bytes_of (s : string) : list Z := map byte_of (String.list_ascii_of_string s).

Definition hex_digit (z : Z) : ascii := ascii_of (if z <? 10 then 48 + z else 87 + z).
Definition hex_Encode (bs : list Z) : string :=
  String.string_of_list_ascii (concat (map (fun b => [hex_digit (Z.shiftr b 4); hex_digit (Z.land b 15)]) bs)).

Lemma hex_Encode_length bs : String.length (hex_Encode bs) = (2 * length bs)%nat.
Proof. unfold hex_Encode. induction bs as [|b bs IH]; [done|]. cbn in *. lia. Qed.

Lemma hex_digit_visible z : 0 <= z < 16 -> visible (hex_digit z) = true.
Proof.
  intros Hz. assert (forallb (fun n => visible (hex_digit (Z.of_nat n))) (seq 0 16) = true) as Hall by reflexivity.
  rewrite forallb_forall in Hall. specialize (Hall (Z.to_nat z)). rewrite Z2Nat.id in Hall by lia.
  apply Hall, in_seq. lia.
Qed.

Lemma hex_Encode_visible bs : Forall (fun b => 0 <= b < 256) bs ->
  Forall (fun c => visible c = true) (String.list_ascii_of_string (hex_Encode bs)).
Proof.
  unfold hex_Encode. rewrite String.list_ascii_of_string_of_list_ascii.
  induction 1 as [|b bs Hb Hbs IH]; simpl; constructor; [|constructor; [|done]].
  - apply hex_digit_visible. rewrite Z.shiftr_div_pow2 by lia. simpl.
    split; [apply Z.div_pos; lia|apply Z.div_lt_upper_bound; lia].
  - apply hex_digit_visible. change 15 with (Z.ones 4). rewrite Z.land_ones by lia.
    apply Z.mod_pos_bound. lia.
Qed.

Example sha256_abc : hex_Encode (sha256_Sum (bytes_of "abc")) =
  "ba7816bf8f01cfea414140de5dae2223b00361a396177a9cb410ff61f20015ad".
Proof. vm_compute. reflexivity. Qed.

Example sha256_two_blocks :
  hex_Encode (sha256_Sum (bytes_of "abcdbcdecdefdefgefghfghighijhijkijkljklmklmnlmnomnopnopq")) =
  "248d6a61d20638b8e5c026930c3e6039a33ce45964ff2167f6ecedd419db06c1".
Proof. vm_compute. reflexivity. Qed.

Example hmac_fox :
  hex_Encode (hmac_Sum (bytes_of "key") (bytes_of "The quick brown fox jumps over the lazy dog")) =
  "f7bc83f430538424b13298e6aa6fb143ef4d59a14946175997479dbc2d1a3cd8".
Proof. vm_compute. reflexivity. Qed.
