(* ===== verification/GoJson.v ===== *)
(** * JSON text, as [encoding/json] writes it.

[json_text] is the output of [json.Marshal] for a value built of objects, arrays,
strings, integers and null: strings are escaped as Marshal does (HTML characters, control
characters, U+2028, U+2029 and invalid UTF-8), object members come in the order
of the struct's fields.  A raw message is already JSON text. *)
From S2P Require Import Prelude GoStrings Sha256.
From Stdlib Require Import Ascii.
Local Open Scope Z_scope.

Inductive value : Type :=
| VStr (s : string)
| VInt (z : Z)
| VNull
| VRaw (text : string)
| VArr (items : list value)
| VObj (members : list (string * value)).

Definition hex4 (z : Z) : list ascii :=
  [hex_digit (Z.land (Z.shiftr z 12) 15); hex_digit (Z.land (Z.shiftr z 8) 15);
   hex_digit (Z.land (Z.shiftr z 4) 15); hex_digit (Z.land z 15)].

(** One rune with its bytes; an invalid byte decodes to U+FFFD of one byte. *)
Definition escape_rune (p : Z * list ascii) : list ascii :=
  let '(r, bs) := p in
  let backslash := ascii_of 92 in
  let u (z : Z) := backslash :: "u"%char :: hex4 z in
  if (r =? 34) || (r =? 92) then backslash :: bs
  else if r =? 8 then [backslash; "b"%char]
  else if r =? 12 then [backslash; "f"%char]
  else if r =? 10 then [backslash; "n"%char]
  else if r =? 13 then [backslash; "r"%char]
  else if r =? 9 then [backslash; "t"%char]
  else if (r <? 32) || (r =? 60) || (r =? 62) || (r =? 38) then u r
  else if (r =? RuneError) && Nat.eqb (length bs) 1 then u r
  else if (r =? 0x2028) || (r =? 0x2029) then u r
  else bs.

Definition quoted (s : string) : list ascii :=
  ascii_of 34 :: concat (map escape_rune (runes s)) ++ [ascii_of 34].

Fixpoint commas (l : list (list ascii)) : list ascii :=
  match l with
  | [] => []
  | [x] => x
  | x :: l' => x ++ ","%char :: commas l'
  end.

Fixpoint json_chars (v : value) : list ascii :=
  match v with
  | VStr s => quoted s
  | VInt z => String.list_ascii_of_string (itoa z)
  | VNull => String.list_ascii_of_string "null"
  | VRaw t => String.list_ascii_of_string t
  | VArr vs => "["%char :: commas (map json_chars vs) ++ ["]"%char]
  | VObj ms => "{"%char :: commas (map (fun m => quoted m.1 ++ ":"%char :: json_chars m.2) ms) ++ ["}"%char]
  end.
Definition json_text (v : value) : string := String.string_of_list_ascii (json_chars v).

(** A member with the tag [omitempty]. *)
Definition omit_str (name s : string) : list (string * value) := if is_empty s then [] else [(name, VStr s)].
Definition omit_int (name : string) (z : Z) : list (string * value) := if z =? 0 then [] else [(name, VInt z)].

Example json_object : json_text (VObj (("a", VStr "x") :: ("b", VInt (-7)) :: omit_str "c" "" ++ omit_int "d" 0)) =
  String.string_of_list_ascii (map ascii_of
    [123; 34; 97; 34; 58; 34; 120; 34; 44; 34; 98; 34; 58; 45; 55; 125]).
Proof. vm_compute. reflexivity. Qed.
Example json_escape : json_text (VStr (String.string_of_list_ascii [ascii_of 60; ascii_of 10; ascii_of 255])) =
  String.string_of_list_ascii (ascii_of 34 :: (ascii_of 92 :: String.list_ascii_of_string "u003c") ++
    ([ascii_of 92; "n"%char]) ++ (ascii_of 92 :: String.list_ascii_of_string "ufffd") ++ [ascii_of 34]).
Proof. vm_compute. reflexivity. Qed.
