(* ===== verification/JsonParse.v ===== *)
(** * Reading JSON, as [encoding/json] does.

[parse_value] reads one value: the syntax of the scanner, strings as [unquote]
turns them into bytes (surrogate pairs joined; lone surrogates and invalid UTF-8
become U+FFFD), numbers kept as their text, at most 10000 values nested.  Reading
what [json_text] wrote gives the value back ([parse_json_text]). *)
From S2P Require Import Prelude GoStrings Utf8 Sha256 GoJson.
From Stdlib Require Import Ascii.
Local Open Scope Z_scope.

Inductive jvalue : Type :=
| JvNull
| JvBool (b : bool)
| JvNum (text : string)
| JvStr (s : string)
| JvArr (items : list jvalue)
| JvObj (members : list (string * jvalue)).

(* ------------------------------------------------------------------ *)
(** ** Strings *)

Definition is_json_space (c : ascii) : bool :=
  let x := byte_of c in (x =? 32) || (x =? 9) || (x =? 13) || (x =? 10).
Fixpoint skip_spaces (l : list ascii) : list ascii :=
  match l with c :: l' => if is_json_space c then skip_spaces l' else l | [] => [] end.

Definition hex_value (c : ascii) : option Z :=
  if between 48 57 c then Some (byte_of c - 48)
  else if between 97 102 c then Some (byte_of c - 87)
  else if between 65 70 c then Some (byte_of c - 55)
  else None.

(** Four hexadecimal digits. *)
Definition read_hex4 (l : list ascii) : option (Z * list ascii) :=
  match l with
  | a :: b :: c :: d :: l' =>
      a ← hex_value a; b ← hex_value b; c ← hex_value c; d ← hex_value d;
      Some (((a * 16 + b) * 16 + c) * 16 + d, l')
  | _ => None
  end.

Definition is_surrogate (r : Z) : bool := (0xD800 <=? r) && (r <? 0xE000).

(** [utf16.DecodeRune]. *)
Definition join_surrogates (r1 r2 : Z) : option Z :=
  if (0xD800 <=? r1) && (r1 <? 0xDC00) && (0xDC00 <=? r2) && (r2 <? 0xE000)
  then Some (Z.shiftl (r1 - 0xD800) 10 + (r2 - 0xDC00) + 0x10000) else None.

(** The character of an escape of two characters. *)
Definition simple_escape (c : ascii) : option ascii :=
  let x := byte_of c in
  if (x =? 34) || (x =? 92) || (x =? 47) then Some c
  else if x =? 98 then Some (ascii_of 8)
  else if x =? 102 then Some (ascii_of 12)
  else if x =? 110 then Some (ascii_of 10)
  else if x =? 114 then Some (ascii_of 13)
  else if x =? 116 then Some (ascii_of 9)
  else None.

(** The rest of an escape after [\u]: its bytes and what follows. *)
Definition read_unicode (l : list ascii) : option (list ascii * list ascii) :=
  '(r, l1) ← read_hex4 l;
  Some (if is_surrogate r
        then match l1 with
             | "092"%char :: "u"%char :: l2 =>
                 match read_hex4 l2 with
                 | Some (r2, l3) => match join_surrogates r r2 with
                                    | Some z => (encode_rune z, l3)
                                    | None => (encode_rune RuneError, l1)
                                    end
                 | None => (encode_rune RuneError, l1)
                 end
             | _ => (encode_rune RuneError, l1)
             end
        else (encode_rune r, l1)).

(** The bytes of a string from after its opening quote, and what follows the
closing one.  Every round takes a byte at least. *)
Fixpoint read_string (fuel : nat) (l : list ascii) : option (list ascii * list ascii) :=
  match fuel, l with
  | _, [] | O, _ => None
  | S fuel', c :: l' =>
      if byte_of c =? 34 then Some ([], l')
      else if byte_of c =? 92 then
        match l' with
        | "u"%char :: l2 => '(bs, l3) ← read_unicode l2; '(s, rest) ← read_string fuel' l3; Some (bs ++ s, rest)
        | e :: l2 => b ← simple_escape e; '(s, rest) ← read_string fuel' l2; Some (b :: s, rest)
        | [] => None
        end
      else if byte_of c <? 32 then None
      else let '(r, n) := decode_rune c l' in
           '(s, rest) ← read_string fuel' (drop (n - 1) l'); Some (encode_rune r ++ s, rest)
  end.

(* ------------------------------------------------------------------ *)
(** ** Numbers *)

Definition read_fraction_part (l : list ascii) : option (list ascii * list ascii) :=
  match l with
  | "."%char :: l1 => match span is_digit l1 with ([], _) => None | (ds, l2) => Some ("."%char :: ds, l2) end
  | _ => Some ([], l)
  end.

Definition read_exponent_part (l : list ascii) : option (list ascii * list ascii) :=
  match l with
  | c :: l1 =>
      if bool_decide (c = "e"%char) || bool_decide (c = "E"%char) then
        let '(sign, l2) := match l1 with
                           | s :: l2 => if bool_decide (s = "+"%char) || bool_decide (s = "-"%char) then ([s], l2) else ([], l1)
                           | [] => ([], l1)
                           end in
        match span is_digit l2 with ([], _) => None | (ds, l3) => Some (c :: sign ++ ds, l3) end
      else Some ([], l)
  | [] => Some ([], l)
  end.

(** The text of a number: sign, integer part without leading zeros, fraction, exponent. *)
Definition read_number (l : list ascii) : option (list ascii * list ascii) :=
  let '(sign, l1) := match l with "-"%char :: l1 => (["-"%char], l1) | _ => ([], l) end in
  '(int, l2) ← match l1 with
               | "0"%char :: l2 => Some (["0"%char], l2)
               | _ => match span is_digit l1 with ([], _) => None | (ds, l2) => Some (ds, l2) end
               end;
  '(frac, l3) ← read_fraction_part l2;
  '(exp, l4) ← read_exponent_part l3;
  Some (sign ++ int ++ frac ++ exp, l4).

(* ------------------------------------------------------------------ *)
(** ** Values *)

Definition literal (text : string) (v : jvalue) (l : list ascii) : option (jvalue * list ascii) :=
  let t := String.list_ascii_of_string text in
  if bool_decide (take (length t) l = t) then Some (v, drop (length t) l) else None.

Section Composites.
Context (value : list ascii -> option (jvalue * list ascii)).

(** The items of an array, from after its bracket; [fuel] for as many items. *)
Fixpoint read_items (fuel : nat) (l : list ascii) : option (list jvalue * list ascii) :=
  match fuel with
  | O => None
  | S fuel' =>
      '(v, l1) ← value l;
      match skip_spaces l1 with
      | ","%char :: l2 => '(vs, rest) ← read_items fuel' l2; Some (v :: vs, rest)
      | "]"%char :: l2 => Some ([v], l2)
      | _ => None
      end
  end.

Fixpoint read_members (fuel : nat) (l : list ascii) : option (list (string * jvalue) * list ascii) :=
  match fuel with
  | O => None
  | S fuel' =>
      match skip_spaces l with
      | "034"%char :: l1 =>
          '(k, l2) ← read_string (length l1) l1;
          match skip_spaces l2 with
          | ":"%char :: l3 =>
              '(v, l4) ← value l3;
              let m := (String.string_of_list_ascii k, v) in
              match skip_spaces l4 with
              | ","%char :: l5 => '(ms, rest) ← read_members fuel' l5; Some (m :: ms, rest)
              | "}"%char :: l5 => Some ([m], l5)
              | _ => None
              end
          | _ => None
          end
      | _ => None
      end
  end.
End Composites.

Fixpoint parse_value (depth : nat) (l : list ascii) : option (jvalue * list ascii) :=
  match skip_spaces l with
  | "034"%char :: l1 => '(s, rest) ← read_string (length l1) l1; Some (JvStr (String.string_of_list_ascii s), rest)
  | "["%char :: l1 =>
      match depth with
      | O => None
      | S depth' =>
          match skip_spaces l1 with
          | "]"%char :: rest => Some (JvArr [], rest)
          | _ => '(vs, rest) ← read_items (parse_value depth') (length l1) l1; Some (JvArr vs, rest)
          end
      end
  | "{"%char :: l1 =>
      match depth with
      | O => None
      | S depth' =>
          match skip_spaces l1 with
          | "}"%char :: rest => Some (JvObj [], rest)
          | _ => '(ms, rest) ← read_members (parse_value depth') (length l1) l1; Some (JvObj ms, rest)
          end
      end
  | "n"%char :: _ => literal "null" JvNull (skip_spaces l)
  | "t"%char :: _ => literal "true" (JvBool true) (skip_spaces l)
  | "f"%char :: _ => literal "false" (JvBool false) (skip_spaces l)
  | l1 => '(n, rest) ← read_number l1; Some (JvNum (String.string_of_list_ascii n), rest)
  end.

Definition maxNestingDepth : nat := 100 * 100.

(** [json.Unmarshal] reads a text that is one value. *)
Definition json_parse (text : string) : option jvalue :=
  '(v, rest) ← parse_value maxNestingDepth (String.list_ascii_of_string text);
  match skip_spaces rest with [] => Some v | _ => None end.

(** [Decoder.Decode] reads the first value of a stream. *)
Definition json_first (text : string) : option jvalue :=
  fst <$> parse_value maxNestingDepth (String.list_ascii_of_string text).

(** [q] below stands for the quotation mark in the examples. *)
Definition unq (s : string) : string :=
  String.string_of_list_ascii (map (fun c => if bool_decide (c = "`"%char) then ascii_of 34 else c) (String.list_ascii_of_string s)).

Example parse_examples :
  (json_parse (unq " { `a` : [1, -2.50e+3 , true,null] , `b`:`x\u00e9\ud83d\ude00\n` } "), json_parse "01", json_parse "1 2",
   json_first "1 2", json_parse (unq "{`a`:1,}"), json_parse "[1,]", json_parse "") =
  (Some (JvObj [("a", JvArr [JvNum "1"; JvNum "-2.50e+3"; JvBool true; JvNull]);
                ("b", JvStr (String.string_of_list_ascii (("x"%char :: encode_rune 0xE9) ++ encode_rune 0x1F600 ++ [ascii_of 10])))]),
   None, None, Some (JvNum "1"), None, None, None).
Proof. vm_compute. reflexivity. Qed.

(* ------------------------------------------------------------------ *)
(** ** Reading what was written: strings *)

Lemma hex_value_digit d : 0 <= d < 16 -> hex_value (hex_digit d) = Some d.
Proof.
  intros Hd. assert (forallb (fun k => bool_decide (hex_value (hex_digit (Z.of_nat k)) = Some (Z.of_nat k))) (seq 0 16) = true) as Hall
    by (vm_compute; reflexivity).
  rewrite forallb_forall in Hall. specialize (Hall (Z.to_nat d) ltac:(apply in_seq; lia)).
  rewrite Z2Nat.id in Hall by lia. by apply bool_decide_eq_true in Hall.
Qed.

Lemma read_hex4_hex4 r t : 0 <= r < 65536 -> read_hex4 (hex4 r ++ t) = Some (r, t).
Proof.
  intros Hr. unfold hex4, read_hex4. cbn [app]. change 15 with (Z.ones 4). rewrite !Z.land_ones by lia.
  rewrite !Z.shiftr_div_pow2 by lia. change (2 ^ 4) with 16. change (2 ^ 8) with 256. change (2 ^ 12) with 4096.
  rewrite !hex_value_digit by (apply Z.mod_pos_bound; lia). cbn [mbind option_bind]. do 2 f_equal.
  Z.to_euclidean_division_equations. lia.
Qed.

Lemma read_backslash_u fuel r t : 0 <= r < 65536 -> is_surrogate r = false ->
  read_string (S fuel) (ascii_of 92 :: "u"%char :: hex4 r ++ t) =
  '(s, rest) ← read_string fuel t; Some (encode_rune r ++ s, rest).
Proof.
  intros Hr Hs. cbn [read_string]. change (byte_of (ascii_of 92)) with 92. cbn iota beta.
  change (92 =? 34) with false. change (92 =? 92) with true. cbv iota. unfold read_unicode. rewrite read_hex4_hex4 by done.
  cbn [mbind option_bind]. by rewrite Hs.
Qed.

Lemma read_backslash fuel e b t : simple_escape e = Some b ->
  read_string (S fuel) (ascii_of 92 :: e :: t) = '(s, rest) ← read_string fuel t; Some (b :: s, rest).
Proof.
  intros He. cbn [read_string]. change (byte_of (ascii_of 92)) with 92. cbn iota beta.
  change (92 =? 34) with false. change (92 =? 92) with true. cbv iota.
  destruct (ascii_dec e "u"%char) as [->|Hne]; [by vm_compute in He|].
  transitivity (b' ← simple_escape e; '(s, rest) ← read_string fuel t; Some (b' :: s, rest)); [|by rewrite He].
  destruct e as [[] [] [] [] [] [] [] []]; first [reflexivity|done].
Qed.

(** What [escape_rune] writes for one rune is read as the rune. *)
Lemma read_escaped fuel b l t : let '(r, n) := decode_rune b l in
  read_string (S fuel) (escape_rune (r, take n (b :: l)) ++ t) =
  '(s, rest) ← read_string fuel t; Some (encode_rune r ++ s, rest).
Proof.
  pose proof (decode_rune_shape b l) as Hshape. destruct (decode_rune b l) as [r n] eqn:Hd.
  pose proof (byte_range b) as Hb.
  assert (Hu : 0 <= r < 65536 -> is_surrogate r = false ->
    read_string (S fuel) ((ascii_of 92 :: "u"%char :: hex4 r) ++ t) = '(s, rest) ← read_string fuel t; Some (encode_rune r ++ s, rest))
    by apply read_backslash_u.
  destruct Hshape as [(-> & -> & Hlt)|[(-> & -> & Hge)|(Hn & Hlen & Hr & Hge & Hloc)]].
  - assert (Henc : encode_rune (byte_of b) = [b]).
    { rewrite encode_rune_ascii by lia. by rewrite ascii_of_byte_of. }
    cbn [take]. unfold escape_rune. rewrite Henc in *.
    destruct (_ || _) eqn:E1.
    { cbn [app]. apply read_backslash. unfold simple_escape. apply orb_true_iff in E1 as [E1|E1]; rewrite E1, ?orb_true_r; done. }
    destruct (Z.eqb_spec (byte_of b) 8) as [E|_]; [by cbn [app]; rewrite (read_backslash _ _ (ascii_of 8)), <- E, ascii_of_byte_of|].
    destruct (Z.eqb_spec (byte_of b) 12) as [E|_]; [by cbn [app]; rewrite (read_backslash _ _ (ascii_of 12)), <- E, ascii_of_byte_of|].
    destruct (Z.eqb_spec (byte_of b) 10) as [E|_]; [by cbn [app]; rewrite (read_backslash _ _ (ascii_of 10)), <- E, ascii_of_byte_of|].
    destruct (Z.eqb_spec (byte_of b) 13) as [E|_]; [by cbn [app]; rewrite (read_backslash _ _ (ascii_of 13)), <- E, ascii_of_byte_of|].
    destruct (Z.eqb_spec (byte_of b) 9) as [E|_]; [by cbn [app]; rewrite (read_backslash _ _ (ascii_of 9)), <- E, ascii_of_byte_of|].
    assert (Hsur : is_surrogate (byte_of b) = false) by (unfold is_surrogate; destruct (Z.leb_spec 0xD800 (byte_of b)); [lia|done]).
    destruct ((byte_of b <? 32) || (byte_of b =? 60) || (byte_of b =? 62) || (byte_of b =? 38)) eqn:E2; [by apply Hu; [lia|]|].
    destruct ((byte_of b =? RuneError) && _) eqn:E3.
    { apply andb_true_iff in E3 as [E3 _]. apply Z.eqb_eq in E3. unfold RuneError in E3. lia. }
    destruct ((byte_of b =? 8232) || (byte_of b =? 8233)) eqn:E4; [by apply Hu; [lia|]|]. cbn [app read_string].
    apply orb_false_iff in E1 as [-> ->]. do 2 apply orb_false_iff in E2 as [E2 _]. apply orb_false_iff in E2 as [-> _].
    unfold decode_rune. cbv zeta. destruct (Z.ltb_spec (byte_of b) 128); [|lia]. cbn [Nat.sub]. by rewrite drop_0, Henc.
  - by apply Hu.
  - assert (Hbs : take n (b :: l) = b :: take (n - 1) l) by (by destruct n as [|n]; [lia|]; simpl; rewrite Nat.sub_0_r).
    unfold escape_rune. rewrite Hbs.
    destruct (Z.eqb_spec r 34); [lia|]. destruct (Z.eqb_spec r 92); [lia|]. destruct (Z.eqb_spec r 8); [lia|].
    destruct (Z.eqb_spec r 12); [lia|]. destruct (Z.eqb_spec r 10); [lia|]. destruct (Z.eqb_spec r 13); [lia|].
    destruct (Z.eqb_spec r 9); [lia|]. destruct (Z.ltb_spec r 32); [lia|]. destruct (Z.eqb_spec r 60); [lia|].
    destruct (Z.eqb_spec r 62); [lia|]. destruct (Z.eqb_spec r 38); [lia|]. cbn [orb].
    assert (length (b :: take (n - 1) l) =? 1 = false)%nat as Hone by (apply Nat.eqb_neq; simpl; rewrite length_take; lia).
    rewrite Hone, andb_false_r. destruct ((r =? 8232) || (r =? 8233)) eqn:E4.
    { apply orb_true_iff in E4 as [E4|E4]; apply Z.eqb_eq in E4; subst r; by apply Hu. }
    cbn [app read_string]. destruct (Z.eqb_spec (byte_of b) 34); [lia|]. destruct (Z.eqb_spec (byte_of b) 92); [lia|].
    destruct (Z.ltb_spec (byte_of b) 32); [lia|]. rewrite Hloc. rewrite drop_app_length'; [done|]. rewrite length_take. lia.
Qed.

Lemma read_quoted_runes k : forall l fuel rest, (length l < k)%nat -> (length (runes_from 0 l) < fuel)%nat ->
  read_string fuel (concat (map escape_rune (runes_from 0 l)) ++ ascii_of 34 :: rest) =
  Some (concat (map (fun p => encode_rune p.1) (runes_from 0 l)), rest).
Proof.
  induction k as [|k IH]; intros [|b l] fuel rest Hk Hfuel; [lia|lia| |].
  - destruct fuel as [|fuel]; [simpl in Hfuel; lia|]. reflexivity.
  - rewrite runes_from_cons in *. destruct fuel as [|fuel]; [simpl in Hfuel; lia|].
    pose proof (fun t => read_escaped fuel b l t) as Hread. destruct (decode_rune b l) as [r n].
    cbn [map concat length] in *. rewrite <- app_assoc, Hread. rewrite IH; [done| |lia]. rewrite length_drop. simpl in Hk. lia.
Qed.

Lemma escape_nonempty r b l : escape_rune (r, b :: l) <> [].
Proof. unfold escape_rune. by repeat case_match. Qed.

Lemma escaped_length k : forall l, (length l < k)%nat ->
  (length (runes_from 0 l) <= length (concat (map escape_rune (runes_from 0 l))))%nat.
Proof.
  induction k as [|k IH]; intros [|b l] Hk; [simpl in *; lia..|done|]. rewrite runes_from_cons.
  pose proof (decode_rune_shape b l) as Hd. destruct (decode_rune b l) as [r n]. cbn [map concat length]. rewrite length_app.
  assert (Hn : take n (b :: l) = b :: take (n - 1) l).
  { destruct n as [|n]; [destruct Hd as [(? & _)|[(? & _)|(? & _)]]; lia|]. simpl. by rewrite Nat.sub_0_r. }
  rewrite Hn. pose proof (escape_nonempty r b (take (n - 1) l)) as Hne.
  specialize (IH (drop (n - 1) l)). rewrite length_drop in IH. simpl in Hk. specialize (IH ltac:(lia)).
  destruct (escape_rune _); [done|]. simpl. lia.
Qed.

(** A string reads back as what Marshal makes of it: valid UTF-8. *)
Lemma read_quoted s rest :
  let l := concat (map escape_rune (runes s)) ++ ascii_of 34 :: rest in
  read_string (length l) l = Some (String.list_ascii_of_string (to_valid s), rest).
Proof.
  intros l. unfold to_valid, strings_Map. rewrite String.list_ascii_of_string_of_list_ascii.
  eapply read_quoted_runes; [apply Nat.lt_succ_diag_r|]. unfold l. rewrite length_app. simpl.
  pose proof (escaped_length _ (String.list_ascii_of_string s) (Nat.lt_succ_diag_r _)). unfold runes. lia.
Qed.

(* ------------------------------------------------------------------ *)
(** ** Reading what was written: integers *)

Lemma digit_cases c : is_digit c = true -> c ∈ (["0"; "1"; "2"; "3"; "4"; "5"; "6"; "7"; "8"; "9"] : list ascii)%char.
Proof. destruct c as [[] [] [] [] [] [] [] []]; vm_compute; intros [=]; set_solver. Qed.

Lemma pretty_nonzero (x : N) : forall s, (0 < x)%N -> exists c l,
  String.list_ascii_of_string (pretty.pretty_N_go x s) = c :: l /\ c <> "0"%char.
Proof.
  induction (N.lt_wf_0 x) as [x _ IH]; intros s Hx. rewrite pretty.pretty_N_go_step by lia.
  destruct (decide (x / 10 = 0)%N) as [E|E].
  - assert (Hlt : (x < 10)%N) by (pose proof (N.div_mod x 10 ltac:(done)); pose proof (N.mod_lt x 10 ltac:(done)); lia).
    rewrite E, pretty.pretty_N_go_0. eexists _, _. split; [reflexivity|]. rewrite N.mod_small by done.
    destruct (digit_char_value x Hlt) as [_ Hv]. intros Hc. rewrite Hc in Hv. change (byte_of "0" - 48) with 0 in Hv. lia.
  - apply IH; [apply N.div_lt; lia|by apply N.neq_0_lt_0].
Qed.

(** The digits of a positive number: at least one, none of them first a zero. *)
Lemma pretty_pos_digits p : exists c l, String.list_ascii_of_string (pretty (N.pos p)) = c :: l /\ c <> "0"%char /\
  Forall (fun c => is_digit c = true) (c :: l).
Proof.
  destruct (pretty_N_digits (N.pos p)) as (c & l & Hl & _ & Hp). exists c, l. split; [done|].
  split; [|by eapply parse_digits_all]. unfold pretty, pretty.pretty_N in Hl.
  destruct (pretty_nonzero (N.pos p) "" ltac:(lia)) as (c' & l' & Hl' & Hc').
  rewrite decide_False in Hl by done. congruence.
Qed.

(** What may follow a number. *)
Definition number_ends (rest : list ascii) : Prop :=
  match rest with
  | [] => True
  | c :: _ => is_digit c = false /\ c <> "."%char /\ c <> "e"%char /\ c <> "E"%char
  end.

Lemma span_digits l rest : Forall (fun c => is_digit c = true) l -> number_ends rest -> span is_digit (l ++ rest) = (l, rest).
Proof.
  intros Hl Hrest. destruct rest as [|c rest].
  - rewrite app_nil_r. induction Hl as [|c l Hc _ IH]; [done|]. simpl. by rewrite Hc, IH.
  - apply span_app; [done|]. by destruct Hrest.
Qed.

Lemma no_more_number rest : number_ends rest -> read_fraction_part rest = Some ([], rest) /\ read_exponent_part rest = Some ([], rest).
Proof.
  destruct rest as [|c rest]; [done|]. intros (_ & Hdot & He & HE). unfold read_exponent_part.
  rewrite !bool_decide_eq_false_2 by done. split; [|done]. destruct c as [[] [] [] [] [] [] [] []]; first [reflexivity|done].
Qed.

Lemma read_digits c l rest : c <> "0"%char -> Forall (fun c => is_digit c = true) (c :: l) -> number_ends rest ->
  read_number (c :: l ++ rest) = Some (c :: l, rest) /\ read_number ("-"%char :: c :: l ++ rest) = Some ("-"%char :: c :: l, rest).
Proof.
  intros Hc Hl Hrest. pose proof (Forall_inv Hl) as Hdig. apply digit_cases in Hdig.
  pose proof (span_digits (c :: l) rest Hl Hrest) as Hspan. cbn [app] in Hspan.
  destruct (no_more_number rest Hrest) as [Hf He].
  assert (Hread : forall sign, ('(int, l2) ← (match span is_digit (c :: l ++ rest) with ([], _) => None | (ds, l2) => Some (ds, l2) end);
     '(frac, l3) ← read_fraction_part l2; '(exp, l4) ← read_exponent_part l3; Some (sign ++ int ++ frac ++ exp, l4)) = Some (sign ++ c :: l, rest)).
  { intros sign. rewrite Hspan. cbn [mbind option_bind]. rewrite Hf. cbn [mbind option_bind]. rewrite He. cbn [mbind option_bind].
    by rewrite !app_nil_r. }
  pose proof (Hread []) as H1. pose proof (Hread ["-"%char]) as H2. cbn [app] in H1, H2.
  rewrite <- H1 at 1. rewrite <- H2 at 1. clear -Hc Hdig.
  repeat (apply elem_of_cons in Hdig as [->|Hdig]; [first [done|split; reflexivity]|]). by apply elem_of_nil in Hdig.
Qed.

Lemma read_itoa z rest : number_ends rest ->
  read_number (String.list_ascii_of_string (itoa z) ++ rest) = Some (String.list_ascii_of_string (itoa z), rest) /\
  exists c l, String.list_ascii_of_string (itoa z) = c :: l /\ (is_digit c = true \/ c = "-"%char).
Proof.
  intros Hrest. destruct (no_more_number rest Hrest) as [Hf He]. unfold itoa. destruct z as [|p|p].
  - change (pretty 0) with "0". cbn [String.list_ascii_of_string app]. split; [|by eexists _, _; split; [|left]].
    unfold read_number. cbn [mbind option_bind]. rewrite Hf. cbn [mbind option_bind]. by rewrite He.
  - change (pretty (Z.pos p)) with (pretty (N.pos p)). destruct (pretty_pos_digits p) as (c & l & -> & Hc & Hl).
    split; [apply (read_digits c l rest Hc Hl Hrest)|]. exists c, l. split; [done|]. left. by apply Forall_inv in Hl.
  - change (pretty (Z.neg p)) with ("-" +:+ pretty (N.pos p)). destruct (pretty_pos_digits p) as (c & l & Hpl & Hc & Hl).
    rewrite list_ascii_app, Hpl. split; [apply (read_digits c l rest Hc Hl Hrest)|]. eexists _, _. split; [reflexivity|by right].
Qed.

(* ------------------------------------------------------------------ *)
(** ** Reading what was written: values *)

(** What a value reads back as. *)
Fixpoint reads_as (v : value) : jvalue :=
  match v with
  | VStr s => JvStr (to_valid s)
  | VInt z => JvNum (itoa z)
  | VNull | VRaw _ => JvNull
  | VArr vs => JvArr (map reads_as vs)
  | VObj ms => JvObj (map (fun m => (to_valid m.1, reads_as m.2)) ms)
  end.

(** A value without raw text, nested at most so deep. *)
Fixpoint plain_value (depth : nat) (v : value) : bool :=
  match v with
  | VStr _ | VInt _ | VNull => true
  | VRaw _ => false
  | VArr vs => match depth with O => false | S d => forallb (plain_value d) vs end
  | VObj ms => match depth with O => false | S d => forallb (fun m => plain_value d m.2) ms end
  end.

Definition opens (v : list ascii) : Prop := exists c l, v = c :: l /\ is_json_space c = false /\ c <> "]"%char /\ c <> "}"%char.

Lemma skip_spaces_id c l : is_json_space c = false -> skip_spaces (c :: l) = c :: l.
Proof. simpl. by intros ->. Qed.

Lemma json_opens v d : plain_value d v = true -> opens (json_chars v).
Proof.
  destruct v as [s|z| |t|vs|ms]; [| | |by destruct d| |]; intros _; [by eexists _, _| |by eexists _, _..].
  destruct (read_itoa z [] I) as (_ & c & l & Hcl & Hc). simpl. rewrite Hcl. exists c, l. split; [done|].
  destruct Hc as [Hc| ->]; [|done]. apply digit_cases in Hc.
  repeat (apply elem_of_cons in Hc as [->|Hc]; [done|]). by apply elem_of_nil in Hc.
Qed.

Lemma commas_cons x y l : commas (x :: y :: l) = x ++ ","%char :: commas (y :: l).
Proof. done. Qed.

Lemma commas_length l : Forall (fun x => x <> []) l -> (length l <= length (commas l))%nat.
Proof.
  induction 1 as [|x l Hx Hl IH]; [done|]. destruct l as [|y l]; [destruct x; [done|simpl; lia]|].
  rewrite commas_cons, length_app. simpl in *. lia.
Qed.

Definition reads_back (read : list ascii -> option (jvalue * list ascii)) (v : value) : Prop :=
  forall rest, number_ends rest -> read (json_chars v ++ rest) = Some (reads_as v, rest).

Lemma read_items_chars read vs rest : vs <> [] -> Forall (reads_back read) vs -> forall fuel, (length vs <= fuel)%nat ->
  read_items read fuel (commas (map json_chars vs) ++ "]"%char :: rest) = Some (map reads_as vs, rest).
Proof.
  intros Hne Hvs. induction Hvs as [|v vs Hv Hvs IH]; [done|]. intros [|fuel] Hfuel; [simpl in Hfuel; lia|].
  destruct vs as [|v2 vs]; cbn [map read_items].
  - cbn [commas]. rewrite Hv by done. reflexivity.
  - rewrite commas_cons, <- app_assoc. cbn [app]. rewrite Hv by done. cbn [mbind option_bind].
    rewrite skip_spaces_id by done. cbn [map] in IH. rewrite IH; [done|done|simpl in *; lia].
Qed.

(** The text of a member. *)
Definition member_chars (m : string * value) : list ascii := quoted m.1 ++ ":"%char :: json_chars m.2.

Lemma read_members_chars read ms rest : ms <> [] -> Forall (fun m => reads_back read m.2) ms ->
  forall fuel, (length ms <= fuel)%nat ->
  read_members read fuel (commas (map member_chars ms) ++ "}"%char :: rest) =
  Some (map (fun m => (to_valid m.1, reads_as m.2)) ms, rest).
Proof.
  intros Hne Hms. induction Hms as [|[k v] ms Hv Hms IH]; [done|]. intros [|fuel] Hfuel; [simpl in Hfuel; lia|].
  assert (Hstart : forall t, read_members read (S fuel) (member_chars (k, v) ++ t) =
    '(v', l4) ← read (json_chars v ++ t);
    match skip_spaces l4 with
    | ","%char :: l5 => '(ms, rest) ← read_members read fuel l5; Some ((to_valid k, v') :: ms, rest)
    | "}"%char :: l5 => Some ([(to_valid k, v')], l5)
    | _ => None
    end).
  { intros t. unfold member_chars, quoted. cbn [fst snd app]. rewrite <- !app_assoc. cbn [app read_members].
    rewrite skip_spaces_id by done. change (ascii_of 34) with ("034"%char) at 1. cbv iota.
    rewrite read_quoted. cbn [mbind option_bind]. rewrite skip_spaces_id by done. by rewrite String.string_of_list_ascii_of_string. }
  cbn [snd] in Hv. destruct ms as [|m2 ms]; cbn [map].
  - cbn [commas]. rewrite Hstart, Hv by done. reflexivity.
  - rewrite commas_cons, <- app_assoc. cbn [app]. rewrite Hstart, Hv by done. cbn [mbind option_bind].
    rewrite skip_spaces_id by done. cbn [map] in IH. rewrite IH; [done|done|simpl in *; lia].
Qed.

(** The shapes of [parse_value], by the first character. *)
Lemma parse_quote d l : parse_value d (ascii_of 34 :: l) =
  '(s, rest) ← read_string (length l) l; Some (JvStr (String.string_of_list_ascii s), rest).
Proof. by destruct d. Qed.

Lemma parse_bracket d l : opens l -> parse_value (S d) ("["%char :: l) =
  '(vs, rest) ← read_items (parse_value d) (length l) l; Some (JvArr vs, rest).
Proof.
  intros (c & l' & -> & Hs & Hc & _). cbn [parse_value]. rewrite skip_spaces_id by done. cbv iota. rewrite skip_spaces_id by done.
  destruct c as [[] [] [] [] [] [] [] []]; first [reflexivity|done].
Qed.

Lemma parse_brace d l : opens l -> parse_value (S d) ("{"%char :: l) =
  '(ms, rest) ← read_members (parse_value d) (length l) l; Some (JvObj ms, rest).
Proof.
  intros (c & l' & -> & Hs & _ & Hc). cbn [parse_value]. rewrite skip_spaces_id by done. cbv iota. rewrite skip_spaces_id by done.
  destruct c as [[] [] [] [] [] [] [] []]; first [reflexivity|done].
Qed.

Lemma parse_number d c l : is_digit c = true \/ c = "-"%char ->
  parse_value d (c :: l) = '(n, rest) ← read_number (c :: l); Some (JvNum (String.string_of_list_ascii n), rest).
Proof.
  intros [Hc| ->]; [|by destruct d]. apply digit_cases in Hc.
  repeat (apply elem_of_cons in Hc as [->|Hc]; [by destruct d|]). by apply elem_of_nil in Hc.
Qed.

Lemma opens_app l t : opens l -> opens (l ++ t).
Proof. intros (c & l' & -> & H). by exists c, (l' ++ t). Qed.

Lemma opens_commas x l : opens x -> opens (commas (x :: l)).
Proof. intros Hx. destruct l as [|y l]; [done|]. rewrite commas_cons. by apply opens_app. Qed.

Lemma Forall_nonempty l : Forall opens l -> Forall (fun x => x <> []) l.
Proof. intros H. eapply List.Forall_impl; [|exact H]. by intros x (c & l' & -> & _). Qed.

Lemma plain_reads_back d : forall v, plain_value d v = true -> reads_back (parse_value d) v.
Proof.
  assert (Hleaf : forall d v, match v with VStr _ | VInt _ | VNull => reads_back (parse_value d) v | _ => True end).
  { intros d0 [s|z| | | |]; [| | |done..]; intros rest Hrest; cbn [json_chars reads_as].
    - unfold quoted. cbn [app]. rewrite <- app_assoc, parse_quote. cbn [app]. rewrite read_quoted. cbn [mbind option_bind].
      by rewrite String.string_of_list_ascii_of_string.
    - destruct (read_itoa z rest Hrest) as (Hread & c & l & Hcl & Hc). rewrite Hcl in *. cbn [app] in *.
      rewrite parse_number, Hread by done. cbn [mbind option_bind]. by rewrite <- Hcl, String.string_of_list_ascii_of_string.
    - by destruct d0. }
  induction d as [|d IH]; intros v Hv; [destruct v as [s|z| | | |]; [apply (Hleaf 0%nat (VStr s))|apply (Hleaf 0%nat (VInt z))|apply (Hleaf 0%nat VNull)|done..]|].
  destruct v as [s|z| |t|vs|ms]; [apply (Hleaf (S d) (VStr s))|apply (Hleaf (S d) (VInt z))|apply (Hleaf (S d) VNull)|done| |]; intros rest Hrest.
  - cbn [plain_value] in Hv. rewrite forallb_forall in Hv. cbn [json_chars reads_as app]. rewrite <- app_assoc. cbn [app].
    destruct vs as [|v vs]; [by destruct d|]. assert (Hopens : Forall opens (map json_chars (v :: vs))).
    { apply Forall_map, List.Forall_forall. intros x Hx. by eapply json_opens, Hv. }
    rewrite parse_bracket by (apply opens_app, opens_commas; by apply Forall_inv in Hopens).
    rewrite read_items_chars; [done|done| |].
    + apply List.Forall_forall. intros x Hx. by apply IH, Hv.
    + pose proof (commas_length _ (Forall_nonempty _ Hopens)) as Hlen. rewrite length_map in Hlen. rewrite length_app. lia.
  - cbn [plain_value] in Hv. rewrite forallb_forall in Hv. cbn [json_chars reads_as app]. rewrite <- app_assoc. cbn [app].
    fold member_chars. destruct ms as [|m ms]; [by destruct d|]. assert (Hopens : Forall opens (map member_chars (m :: ms))).
    { apply Forall_map, List.Forall_forall. intros x Hx. by eexists _, _. }
    rewrite parse_brace by (apply opens_app, opens_commas; by apply Forall_inv in Hopens).
    change (map (fun m0 : string * value => quoted m0.1 ++ ":"%char :: json_chars m0.2) (m :: ms)) with (map member_chars (m :: ms)).
    rewrite read_members_chars; [done|done| |].
    + apply List.Forall_forall. intros x Hx. by apply IH, Hv.
    + pose proof (commas_length _ (Forall_nonempty _ Hopens)) as Hlen. rewrite length_map in Hlen. rewrite length_app. lia.
Qed.

(** What Marshal writes is one value, and Unmarshal and Decode read it back. *)
Lemma parse_json_text v : plain_value maxNestingDepth v = true ->
  json_parse (json_text v) = Some (reads_as v) /\ json_first (json_text v) = Some (reads_as v).
Proof.
  intros Hv. pose proof (plain_reads_back _ v Hv [] I) as Hr. rewrite app_nil_r in Hr.
  unfold json_parse, json_first, json_text. rewrite String.list_ascii_of_string_of_list_ascii, Hr. done.
Qed.

Lemma plain_value_mono d1 : forall d2 v, (d1 <= d2)%nat -> plain_value d1 v = true -> plain_value d2 v = true.
Proof.
  induction d1 as [|d1 IH]; intros [|d2] v Hle; [done| |lia|]; destruct v as [| | | |vs|ms]; try done;
    cbn [plain_value]; rewrite !forallb_forall; intros Hv x Hx; apply IH; auto; lia.
Qed.
