(* ===== verification/JsonStruct.v ===== *)
(** * Decoding JSON into a struct, as [encoding/json] does.

The text is read whole first; then each member of the object goes to the field of
its name (exactly, or else by case folding), in order, so that the last of several
wins.  [null] leaves a field alone, and a value of another type is an error that
is kept while the other members are still decoded.  A decoder of [T] therefore
returns the new value and whether an error was kept. *)
From S2P Require Import Prelude GoStrings Utf8 Idempotency GoTime Sha256 GoJson JsonParse.
From Stdlib Require Import Ascii.
Local Open Scope Z_scope.

(* ------------------------------------------------------------------ *)
(** ** Field names *)

(** [foldRune], as far as names of ASCII letters are concerned: the least rune of
the case orbit; the long s and the Kelvin sign fold to ASCII letters. *)
Definition fold_rune (r : Z) : Z :=
  if (97 <=? r) && (r <=? 122) then r - 32
  else if r =? 0x17F then 83
  else if r =? 0x212A then 75
  else r.
Definition fold_name (s : string) : string := strings_Map fold_rune s.

Definition match_field (names : list string) (k : string) : option string :=
  match List.find (fun n => bool_decide (n = k)) names with
  | Some n => Some n
  | None => List.find (fun n => bool_decide (fold_name n = fold_name k)) names
  end.

(* ------------------------------------------------------------------ *)
(** ** Decoders *)

Definition decoder (T : Type) : Type := jvalue -> T -> T * bool.

Definition dec_string : decoder string := fun v old =>
  match v with
  | JvNull => (old, false)
  | JvStr s => (s, false)
  | _ => (old, true)
  end.

(** [strconv.ParseInt] of the text of a number, within so many bits. *)
Definition dec_int (bits : Z) : decoder Z := fun v old =>
  match v with
  | JvNull => (old, false)
  | JvNum text =>
      match Atoi text with
      | Some n => if (- 2 ^ (bits - 1) <=? n) && (n <? 2 ^ (bits - 1)) then (n, false) else (old, true)
      | None => (old, true)
      end
  | _ => (old, true)
  end.

(** [UnmarshalJSON] of a [time.Time]; of a text without escapes, as Marshal writes times. *)
Definition dec_time : decoder Z := fun v old =>
  match v with
  | JvNull => (old, false)
  | JvStr s => match Parse_RFC3339 s with Some t => (t, false) | None => (old, true) end
  | _ => (old, true)
  end.

Lemma dec_time_format t old : 0 <= year_of t <= 9999 ->
  dec_time (JvStr (to_valid (Format_RFC3339Nano t))) old = (t, false).
Proof.
  intros Ht. assert (to_valid (Format_RFC3339Nano t) = Format_RFC3339Nano t) as -> by apply visible_valid, format_visible.
  unfold dec_time, Format_RFC3339Nano. by rewrite (format_parse true).
Qed.

(** An integer of so many bits reads as itself. *)
Lemma dec_int_itoa bits n t : 0 < bits <= 64 -> - 2 ^ (bits - 1) <= n < 2 ^ (bits - 1) ->
  dec_int bits (JvNum (itoa n)) t = (n, false).
Proof.
  intros Hb Hn. assert (2 ^ (bits - 1) <= 2 ^ 63) by (apply Z.pow_le_mono_r; lia). unfold dec_int.
  rewrite Atoi_itoa by (unfold in_int64, min_int64, max_int64; lia).
  destruct (Z.leb_spec (- 2 ^ (bits - 1)) n); [|lia]. by destruct (Z.ltb_spec n (2 ^ (bits - 1))); [|lia].
Qed.

Record field (T : Type) := MkField { fd_name : string; fd_decode : decoder T }.
Arguments MkField {T}.
Arguments fd_name {T}.
Arguments fd_decode {T}.

(** The field at [get], changed by [put]. *)
Definition field_at {T A} (name : string) (get : T -> A) (put : A -> T -> T) (d : decoder A) : field T :=
  MkField name (fun v t => let '(a, failed) := d v (get t) in (put a t, failed)).

Section Struct.
Context {T : Type} (DisallowUnknownFields : bool) (fields : list (field T)).

Definition decode_member (st : T * bool) (m : string * jvalue) : T * bool :=
  let '(t, failed) := st in
  match match_field (map fd_name fields) m.1 with
  | None => (t, failed || DisallowUnknownFields)
  | Some name =>
      match List.find (fun f => bool_decide (fd_name f = name)) fields with
      | None => st
      | Some f => let '(t', failed') := fd_decode f m.2 t in (t', failed || failed')
      end
  end.

Definition dec_struct : decoder T := fun v t =>
  match v with
  | JvNull => (t, false)
  | JvObj ms => fold_left decode_member ms (t, false)
  | _ => (t, true)
  end.
End Struct.

(** [json.Unmarshal(text, &t)] and [NewDecoder(text).Decode(&t)]: nothing is
decoded of a text with a syntax error. *)
Definition Unmarshal {T} (d : decoder T) (text : string) (zero : T) : T * bool :=
  match json_parse text with Some v => d v zero | None => (zero, true) end.
Definition Decode {T} (d : decoder T) (text : string) (zero : T) : T * bool :=
  match json_first text with Some v => d v zero | None => (zero, true) end.

(* ------------------------------------------------------------------ *)
(** ** Members in any order *)

(** What a member of the exact name [f] does, when the names are distinct. *)
Lemma decode_member_exact {T} (strict : bool) (fields : list (field T)) f v st :
  NoDup (map fd_name fields) -> f ∈ fields ->
  decode_member strict fields st (fd_name f, v) = let '(t, failed) := fd_decode f v st.1 in (t, st.2 || failed).
Proof.
  intros Hnd Hf. destruct st as [t failed]. unfold decode_member, match_field. cbn [fst snd].
  destruct (List.find _ (map fd_name fields)) as [n|] eqn:Hfind.
  - apply (find_bool_decide_spec (fun n => n)) in Hfind as [_ ->]. by rewrite (find_unique fd_name fields f Hnd Hf).
  - apply (find_bool_decide_none (fun n => n)) in Hfind. rewrite map_id in Hfind. destruct Hfind. by apply list_elem_of_fmap_2.
Qed.

(** A member that no field takes. *)
Lemma decode_member_unknown {T} (fields : list (field T)) k v st :
  match_field (map fd_name fields) k = None -> decode_member false fields st (k, v) = st.
Proof. destruct st as [t failed]. unfold decode_member. cbn [fst]. intros ->. by rewrite orb_false_r. Qed.

(** A lower-case name matches its own field or none. *)
Definition lower_name (k : string) : bool :=
  forallb (fun c => between 97 122 c || bool_decide (c = "_"%char)) (String.list_ascii_of_string k).

Lemma lower_valid k : lower_name k = true -> to_valid k = k.
Proof.
  intros Hk. apply visible_valid. unfold lower_name in Hk. rewrite forallb_forall in Hk. apply List.Forall_forall.
  intros c Hc. apply Hk, orb_true_iff in Hc as [[H1%Z.leb_le H2%Z.leb_le]%andb_true_iff|Hc%bool_decide_eq_true]; [|by subst].
  unfold visible. apply andb_true_iff. rewrite !Z.ltb_lt. lia.
Qed.

Lemma fold_lower l : forallb (fun c => between 97 122 c || bool_decide (c = "_"%char)) l = true ->
  concat (map (fun p => encode_rune (fold_rune p.1)) (runes_from 0 l)) =
  map (fun c => if bool_decide (c = "_"%char) then c else ascii_of (byte_of c - 32)) l.
Proof.
  induction l as [|c l IH]; [done|]. cbn [forallb]. intros [Hc Hl]%andb_true_iff. rewrite runes_from_cons.
  assert (Hd : decode_rune c l = (byte_of c, 1%nat)).
  { unfold decode_rune. cbv zeta. destruct (Z.ltb_spec (byte_of c) 128); [done|].
    apply orb_true_iff in Hc as [[_ Hc%Z.leb_le]%andb_true_iff|Hc%bool_decide_eq_true]; [lia|]. subst c. by vm_compute in H. }
  rewrite Hd. cbn [Nat.sub map concat fst]. rewrite drop_0, IH by done. case_bool_decide as Hu; [by subst c|].
  apply orb_true_iff in Hc as [Hc|Hc]; [|done]. unfold fold_rune. unfold between in Hc. rewrite Hc.
  apply andb_true_iff in Hc as [H1%Z.leb_le H2%Z.leb_le]. by rewrite encode_rune_ascii by lia.
Qed.

Lemma lower_inj l1 : forall l2,
  forallb (fun c => between 97 122 c || bool_decide (c = "_"%char)) l1 = true ->
  forallb (fun c => between 97 122 c || bool_decide (c = "_"%char)) l2 = true ->
  let up := map (fun c => if bool_decide (c = "_"%char) then c else ascii_of (byte_of c - 32)) in
  up l1 = up l2 -> l1 = l2.
Proof.
  induction l1 as [|c1 l1 IH]; intros [|c2 l2] H1 H2 up Heq; try done. cbn [forallb] in H1, H2.
  apply andb_true_iff in H1 as [Hc1 Hl1]. apply andb_true_iff in H2 as [Hc2 Hl2]. unfold up in Heq. cbn [map] in Heq.
  injection Heq as Hc Hl. f_equal; [|by apply IH]. clear -Hc1 Hc2 Hc.
  assert (Hval : forall c, between 97 122 c = true -> byte_of (ascii_of (byte_of c - 32)) = byte_of c - 32).
  { intros c [Ha%Z.leb_le Hb%Z.leb_le]%andb_true_iff. unfold byte_of at 1, ascii_of. rewrite N_ascii_embedding; lia. }
  apply orb_true_iff in Hc1 as [Hc1|Hc1%bool_decide_eq_true], Hc2 as [Hc2|Hc2%bool_decide_eq_true]; subst; [| | |done].
  - rewrite !bool_decide_eq_false_2 in Hc by (by intros ->). apply (f_equal byte_of) in Hc. rewrite !Hval in Hc by done.
    rewrite <- (ascii_of_byte_of c1), <- (ascii_of_byte_of c2). f_equal. lia.
  - rewrite bool_decide_eq_false_2 in Hc by (by intros ->). rewrite bool_decide_eq_true_2 in Hc by done.
    apply (f_equal byte_of) in Hc. rewrite Hval in Hc by done. change (byte_of "_") with 95 in Hc.
    apply andb_true_iff in Hc1 as [_ Hb%Z.leb_le]. lia.
  - rewrite (bool_decide_eq_false_2 (c2 = _)) in Hc by (by intros ->). rewrite bool_decide_eq_true_2 in Hc by done.
    apply (f_equal byte_of) in Hc. rewrite Hval in Hc by done. change (byte_of "_") with 95 in Hc.
    apply andb_true_iff in Hc2 as [_ Hb%Z.leb_le]. lia.
Qed.

Lemma fold_name_lower_inj k1 k2 : lower_name k1 = true -> lower_name k2 = true -> fold_name k1 = fold_name k2 -> k1 = k2.
Proof.
  intros H1 H2 Heq. apply (f_equal String.list_ascii_of_string) in Heq. unfold fold_name, strings_Map, runes in Heq.
  rewrite !String.list_ascii_of_string_of_list_ascii, !fold_lower in Heq by done. apply lower_inj in Heq; [|done..].
  by rewrite <- (String.string_of_list_ascii_of_string k1), <- (String.string_of_list_ascii_of_string k2), Heq.
Qed.

Lemma match_field_lower names k : forallb lower_name names = true -> lower_name k = true -> k ∉ names ->
  match_field names k = None.
Proof.
  intros Hn Hk Hin. unfold match_field. destruct (List.find _ names) as [n|] eqn:Hf.
  { apply (find_bool_decide_spec (fun n => n)) in Hf as [Hn' ->]. done. }
  destruct (List.find (fun n => bool_decide (fold_name n = fold_name k)) names) as [n|] eqn:Hf2; [|done].
  apply (find_bool_decide_spec fold_name) in Hf2 as [Hn' Heq]. rewrite forallb_forall in Hn.
  apply fold_name_lower_inj in Heq; [by subst| |done]. by apply Hn, list_elem_of_In.
Qed.

(* ------------------------------------------------------------------ *)
(** ** What a field holds in the end *)

(** The value of a member of an object. *)
Definition obj_member {A} (name : string) (ms : list (string * A)) : option A :=
  snd <$> List.find (fun m => bool_decide (m.1 = name)) ms.

Lemma obj_member_in {A} name (ms : list (string * A)) v : obj_member name ms = Some v -> (name, v) ∈ ms.
Proof.
  unfold obj_member. destruct (List.find _ ms) as [[k x]|] eqn:Hf; [|done]. intros [= <-].
  by apply (find_bool_decide_spec fst) in Hf as [Hin <-].
Qed.

Lemma obj_member_perm {A} name (ms1 ms2 : list (string * A)) : NoDup (map fst ms1) -> ms1 ≡ₚ ms2 ->
  obj_member name ms1 = obj_member name ms2.
Proof.
  intros Hnd Hp. assert (Hnd2 : NoDup (map fst ms2)) by (by rewrite <- Hp). unfold obj_member.
  destruct (List.find _ ms1) as [m|] eqn:H1.
  - apply (find_bool_decide_spec fst) in H1 as [Hin <-]. rewrite Hp in Hin. by rewrite (find_unique fst ms2 m Hnd2 Hin).
  - apply (find_bool_decide_none fst) in H1. destruct (List.find _ ms2) as [m|] eqn:H2; [|done].
    apply (find_bool_decide_spec fst) in H2 as [Hin <-]. destruct H1. rewrite <- Hp in Hin. by apply list_elem_of_fmap_2.
Qed.

Lemma obj_member_map {A B} name (f : A -> B) (ms : list (string * A)) :
  obj_member name (map (fun m => (m.1, f m.2)) ms) = f <$> obj_member name ms.
Proof. unfold obj_member. induction ms as [|[k v] ms IH]; [done|]. simpl. by case_bool_decide. Qed.

Section Fields.
Context {T A : Type} (fields : list (field T)) (names : NoDup (map fd_name fields)) (lower : forallb lower_name (map fd_name fields) = true).
Context (get : T -> A) (name : string) (d : decoder A).
Context (own : forall f, f ∈ fields -> fd_name f = name -> forall v t, get (fd_decode f v t).1 = (d v (get t)).1).
Context (other : forall f, f ∈ fields -> fd_name f <> name -> forall v t, get (fd_decode f v t).1 = get t).

Lemma get_decode_member k v st : name ∈ map fd_name fields -> lower_name k = true ->
  get (decode_member false fields st (k, v)).1 = if bool_decide (k = name) then (d v (get st.1)).1 else get st.1.
Proof using lower names other own.
  intros Hname Hk. case_bool_decide as Heq.
  - subst k. apply list_elem_of_fmap in Hname as (f & -> & Hf). rewrite decode_member_exact by done.
    rewrite <- (own f Hf eq_refl). by destruct (fd_decode f v st.1).
  - destruct (decide (k ∈ map fd_name fields)) as [Hin|Hin].
    + apply list_elem_of_fmap in Hin as (f & -> & Hf). rewrite decode_member_exact by done.
      rewrite <- (other f Hf Heq v st.1). by destruct (fd_decode f v st.1).
    + by rewrite decode_member_unknown by by apply match_field_lower.
Qed.

Lemma get_decoded ms : forall st, name ∈ map fd_name fields -> NoDup (map fst ms) ->
  forallb (fun m => lower_name m.1) ms = true ->
  get (fold_left (decode_member false fields) ms st).1 =
  match obj_member name ms with Some v => (d v (get st.1)).1 | None => get st.1 end.
Proof using lower names other own.
  induction ms as [|[k v] ms IH]; intros st Hname Hnd Hlow; [done|]. cbn [fold_left map forallb fst] in *.
  apply NoDup_cons in Hnd as [Hk Hnd]. apply andb_true_iff in Hlow as [Hlk Hlow]. rewrite IH by done.
  unfold obj_member. cbn [List.find fst]. rewrite get_decode_member by done. case_bool_decide as Heq; [|done]. subst k.
  destruct (List.find _ ms) as [m|] eqn:Hf; [|done]. apply (find_bool_decide_spec fst) in Hf as [Hin Hm].
  destruct Hk. rewrite <- Hm. by apply list_elem_of_fmap_2.
Qed.
End Fields.

Lemma decoded_without_error {T} (fields : list (field T)) ms : forall st,
  NoDup (map fd_name fields) -> forallb lower_name (map fd_name fields) = true -> forallb (fun m => lower_name m.1) ms = true ->
  (forall f v, f ∈ fields -> (fd_name f, v) ∈ ms -> forall t, (fd_decode f v t).2 = false) ->
  (fold_left (decode_member false fields) ms st).2 = st.2.
Proof.
  induction ms as [|[k v] ms IH]; intros st Hnd Hlow Hms Hok; [done|]. cbn [fold_left forallb fst] in *.
  apply andb_true_iff in Hms as [Hk Hms]. rewrite IH; [|done|done|done|intros f x Hf Hx; apply Hok; set_solver].
  destruct (decide (k ∈ map fd_name fields)) as [Hin|Hin].
  - apply list_elem_of_fmap in Hin as (f & -> & Hf). rewrite decode_member_exact by done.
    pose proof (Hok f v Hf ltac:(set_solver) st.1) as H2. destruct (fd_decode f v st.1) as [t b]. cbn in *. by rewrite H2, orb_false_r.
  - by rewrite decode_member_unknown by by apply match_field_lower.
Qed.

