(* ===== verification/Webhook.v ===== *)
(** * Webhook signatures ([pkg/shared/webhook/hmac.go]).

An instant is a number of nanoseconds since the epoch, a [time.Duration] is an
[int64] of nanoseconds.  [time.Since] saturates at the ends of that range, and
negating the least duration gives it back. *)
From S2P Require Import Prelude GoStrings Sha256 Idempotency.
From Stdlib Require Import Ascii.
Local Open Scope Z_scope.

Definition DefaultMaxAge : Z := 5 * minute.
Definition sigPrefix : string := "sha256=".
Definition sigLen : nat := 71.

(** [t.Unix()]. *)
Definition Unix (t : Z) : Z := int64 (t / second).

(** [time.Since(t)] at the instant [now]. *)
Definition time_Since (now t : Z) : Z := Z.max min_int64 (Z.min max_int64 (now - t)).

Definition signed_message (timestamp : Z) (body : string) : string :=
  itoa (Unix timestamp) +:+ "." +:+ body.

Definition Sign (secret : string) (timestamp : Z) (body : string) : string :=
  sigPrefix +:+ hex_Encode (hmac_Sum (bytes_of secret) (bytes_of (signed_message timestamp body))).

Definition VerifyWithTolerance (secret signature : string) (timestamp : Z) (body : string) (maxAge now : Z) : bool :=
  let stale :=
    (0 <? maxAge) &&
    let age := time_Since now timestamp in
    let age := if age <? 0 then int64 (- age) else age in
    maxAge <? age in
  if stale then false
  else bool_decide (Sign secret timestamp body = signature).

Definition Verify (secret signature : string) (timestamp : Z) (body : string) (now : Z) : bool :=
  VerifyWithTolerance secret signature timestamp body DefaultMaxAge now.

Definition TimestampHeader (t : Z) : string := itoa (Unix t).

(* ------------------------------------------------------------------ *)
(** ** The signed text *)

Fixpoint no_dot (s : string) : bool :=
  match s with
  | EmptyString => true
  | String c s' => negb (bool_decide (c = "."%char)) && no_dot s'
  end.

Lemma split_at_dot a : forall b x y,
  no_dot a = true -> no_dot b = true -> a +:+ "." +:+ x = b +:+ "." +:+ y -> a = b /\ x = y.
Proof.
  induction a as [|c a IH]; intros [|c' b] x y; simpl; intros Ha Hb Heq; simplify_eq; try done.
  apply andb_true_iff in Ha as [_ Ha], Hb as [_ Hb]. by destruct (IH b x y Ha Hb) as [-> ->].
Qed.

Lemma no_dot_digits x : forall s, no_dot s = true -> no_dot (pretty.pretty_N_go x s) = true.
Proof.
  induction (N.lt_wf_0 x) as [x _ IH]; intros s Hs.
  destruct (decide (x = 0)%N) as [->|Hx]; [by rewrite pretty.pretty_N_go_0|].
  rewrite pretty.pretty_N_go_step by lia. apply IH; [apply N.div_lt; lia|].
  simpl. rewrite Hs, andb_true_r. apply negb_true_iff, bool_decide_eq_false_2. unfold pretty.pretty_N_char. by repeat case_match.
Qed.

Lemma no_dot_itoa z : no_dot (itoa z) = true.
Proof.
  assert (Hn : forall n : N, no_dot (pretty n) = true).
  { intros n. unfold pretty, pretty.pretty_N. case_decide; [done|]. by apply no_dot_digits. }
  unfold itoa, pretty, pretty.pretty_Z. destruct z; [done|apply Hn|]. simpl. apply Hn.
Qed.

(** The signed text is unambiguous: two (timestamp, body) pairs give the same
text under the MAC exactly when they are the same second and the same body, so
a signature cannot be moved to another body by shifting the separator. *)
Theorem signed_message_unambiguous t t' body body' :
  signed_message t body = signed_message t' body' <-> Unix t = Unix t' /\ body = body'.
Proof.
  split; [|by intros [Ht ->]; unfold signed_message; rewrite Ht]. intros Heq.
  destruct (split_at_dot _ _ _ _ (no_dot_itoa _) (no_dot_itoa _) Heq) as [Ht ->]. split; [|done].
  by apply (inj pretty) in Ht.
Qed.

(** The buffer of [Sign] is filled exactly. *)
Lemma Sign_length secret t body : String.length (Sign secret t body) = sigLen.
Proof. unfold Sign. rewrite string_length_app, hex_Encode_length. reflexivity. Qed.

(** What [VerifyWithTolerance] accepts, exactly: the signature of this
timestamp and body under this secret, when no window is asked for or the
timestamp is within [maxAge] of now on either side; and also any timestamp
2^63 nanoseconds or more in the future, whose saturated age survives the
negation as a negative number. *)
Theorem VerifyWithTolerance_spec secret signature t body maxAge now :
  maxAge < max_int64 ->
  VerifyWithTolerance secret signature t body maxAge now = true <->
  signature = Sign secret t body /\
  (maxAge <= 0 \/ Z.abs (now - t) <= maxAge \/ now - t <= min_int64).
Proof.
  intros Hmax. unfold VerifyWithTolerance.
  assert (Hage : forall age, age = (if time_Since now t <? 0 then int64 (- time_Since now t) else time_Since now t) ->
    0 < maxAge -> (maxAge < age <-> ~ (Z.abs (now - t) <= maxAge \/ now - t <= min_int64))).
  { intros age -> Hpos. unfold time_Since, min_int64, max_int64 in *.
    destruct (Z.ltb_spec (Z.max (- 2 ^ 63) (Z.min (2 ^ 63 - 1) (now - t))) 0); [|lia].
    destruct (decide (now - t <= - 2 ^ 63)) as [Hfar|Hnear].
    - rewrite Z.max_l by lia. change (int64 (- - 2 ^ 63)) with (- 2 ^ 63). lia.
    - rewrite int64_id by (unfold in_int64, min_int64, max_int64; lia). lia. }
  specialize (Hage _ eq_refl). destruct (Z.ltb_spec 0 maxAge); simpl.
  - specialize (Hage ltac:(done)).
    destruct (Z.ltb_spec maxAge (if time_Since now t <? 0 then int64 (- time_Since now t) else time_Since now t)) as [Hlt|Hge].
    + apply Hage in Hlt. split; [done|]. intros [_ [?|?]]; [lia|tauto].
    + rewrite bool_decide_eq_true. split; [intros <-|by intros [-> _]]. split; [done|].
      destruct (decide (Z.abs (now - t) <= maxAge)); [tauto|]. destruct (decide (now - t <= min_int64)); [tauto|].
      exfalso. apply Z.le_ngt in Hge. apply Hge, Hage. tauto.
  - rewrite bool_decide_eq_true. split; [intros <-; auto|by intros [-> _]].
Qed.

Definition demo_second : Z := 1700000000 * second.

Lemma VerifyWithTolerance_witness :
  VerifyWithTolerance "s3cret" (Sign "s3cret" demo_second "{}") demo_second "{}" DefaultMaxAge (demo_second + minute) = true /\
  VerifyWithTolerance "s3cret" (Sign "s3cret" demo_second "{}") demo_second "{}" DefaultMaxAge (demo_second + 6 * minute) = false.
Proof.
  split.
  - apply (VerifyWithTolerance_spec "s3cret" _ demo_second "{}" DefaultMaxAge (demo_second + minute)); [vm_compute; reflexivity|].
    split; [reflexivity|]. right. left. vm_compute. discriminate.
  - vm_compute. reflexivity.
Defined.
