(* ===== verification/Uuid.v ===== *)
(** * UUIDs.

[google/uuid] and the UUID type of PostgreSQL are not part of the repository.
A [uuid.UUID] is its canonical text here.  [uuid_Parse] is [uuid.Parse] followed
by [String()] ([uuid_Parse_err] its error); [pg_uuid] is what the database makes of a text parameter of type
UUID, and [pg_uuid_err] the error of one that it cannot read. *)
From S2P Require Import Prelude GoStrings DomainErr World Idempotency GoTime.

Class UuidLib := {
  uuid_Parse : string -> option string;
  uuid_Parse_err : string -> error;
  pg_uuid : string -> option string;
  pg_uuid_err : string -> error;
}.

(** Documented behaviour: parsing is a projection on canonical texts, which are
visible characters, the two libraries agree on those, and an unreadable parameter is neither "no rows" nor
a unique violation. *)
Class UuidLaws `{UuidLib} := {
  uuid_Parse_canonical : forall s u, uuid_Parse s = Some u -> uuid_Parse u = Some u /\ pg_uuid u = Some u;
  uuid_Parse_text : forall s u, uuid_Parse s = Some u -> u <> "" /\ Forall (fun c => visible c = true) (String.list_ascii_of_string u);
  pg_uuid_canonical : forall s u, pg_uuid s = Some u -> pg_uuid u = Some u;
  pg_uuid_err_rows : forall s, errors_Is_NoRows (pg_uuid_err s) = false;
  pg_uuid_err_unique : forall s, isUniqueViolation (pg_uuid_err s) = false;
}.

(** A library in which every non-empty visible text is canonical, for examples. *)
Definition canonical_text (s : string) : bool := negb (is_empty s) && forallb visible (String.list_ascii_of_string s).
Definition text_uuids : UuidLib := {|
  uuid_Parse s := if canonical_text s then Some s else None;
  uuid_Parse_err _ := PlainError "invalid UUID";
  pg_uuid s := if canonical_text s then Some s else None;
  pg_uuid_err _ := PlainError "invalid UUID";
|}.
Lemma text_uuid_laws : @UuidLaws text_uuids.
Proof.
  constructor; simpl; try done; intros s u; destruct (canonical_text s) eqn:Hs; intros [= <-]; [by rewrite Hs| |by rewrite Hs].
  apply andb_true_iff in Hs as [Hne%negb_true_iff Hv]. split; [by intros ->|].
  rewrite forallb_forall in Hv. apply List.Forall_forall. intros c Hc. by apply Hv.
Qed.

(** Numbered names are canonical. *)
Lemma numbered_canonical pre n : forallb visible (String.list_ascii_of_string pre) = true -> canonical_text (pre +:+ pretty (N.of_nat n)) = true.
Proof.
  intros Hpre. destruct (pretty_N_digits (N.of_nat n)) as (c & l & Hl & _ & Hp). apply parse_digits_all in Hp.
  unfold canonical_text. rewrite list_ascii_app, forallb_app, Hpre, Hl. apply andb_true_iff. split.
  - destruct pre; [|done]. by destruct (pretty (N.of_nat n)).
  - apply forallb_forall. intros x Hx. apply is_digit_visible. by apply (proj1 (List.Forall_forall _ _) Hp).
Qed.

(** A statement with a UUID parameter. *)
Definition uuid_arg `{UuidLib} {S A} (s : string) (k : string -> stmt S A) : stmt S A :=
  fun now u db =>
    match pg_uuid s with
    | Some id => k id now u db
    | None => (Err (pg_uuid_err s), db)
    end.

Lemma uuid_arg_ok `{UuidLib} {S A} s (k : string -> stmt S A) now u db a db' :
  uuid_arg s k now u db = (Ok a, db') -> exists id, pg_uuid s = Some id /\ k id now u db = (Ok a, db').
Proof. unfold uuid_arg. destruct (pg_uuid s); [eauto|done]. Qed.
