(* ===== verification/ConsentRepo.v ===== *)
(** * The consent tables and their statements
([services/consent-svc/internal/repo.go], [migrations/consent/000001_init.up.sql]).

A table is the list of its rows in insertion order.  Each repository method is
the [stmt] it sends; [FOR UPDATE] locks are implied by transactions being
atomic here.  [SUM] of BIGINT is an exact NUMERIC, read back into an int64. *)
From S2P Require Import Prelude GoStrings DomainErr World Uuid Idempotency LedgerStore.
Local Open Scope Z_scope.
Local Open Scope go_scope.

Definition StatusPending : string := "PENDING".
Definition StatusActive : string := "ACTIVE".
Definition StatusRevoked : string := "REVOKED".
Definition StatusExpired : string := "EXPIRED".
Definition ResHeld : string := "HELD".
Definition ResConfirmed : string := "CONFIRMED".
Definition ResReleased : string := "RELEASED".
Definition defaultCurrency : string := "GBP".

Record ConsentRow := MkConsentRow {
  c_ID : string;
  c_MerchantID : string;
  c_ConsumerID : string;
  c_BankConsentRef : string;
  c_Status : string;
  c_MaxAmountPence : Z;
  c_MaxMonthlyPence : Z;
  c_Currency : string;
  c_ValidFrom : Z;
  c_ValidUntil : Z;
  c_CreatedAt : Z;
  c_UpdatedAt : Z;
}.

Record ReservationRow := MkReservationRow {
  r_ID : string;
  r_ConsentID : string;
  r_PaymentID : string;
  r_AmountPence : Z;
  r_Status : string;
  r_ExpiresAt : Z;
  r_CreatedAt : Z;
}.

Record UsageRow := MkUsageRow {
  u_id : string; u_consent_id : string; u_payment_id : string;
  u_amount_pence : Z; u_settled_at : Z }.

Record ConsentDB := MkConsentDB {
  consents : list ConsentRow; reservations : list ReservationRow; usages : list UsageRow }.

Definition set_consents (l : list ConsentRow) (db : ConsentDB) : ConsentDB :=
  MkConsentDB l (reservations db) (usages db).
Definition set_reservations (l : list ReservationRow) (db : ConsentDB) : ConsentDB :=
  MkConsentDB (consents db) l (usages db).
Definition set_usages (l : list UsageRow) (db : ConsentDB) : ConsentDB :=
  MkConsentDB (consents db) (reservations db) l.

Definition days30 : Z := 30 * 24 * hour.

Definition find_consent (id : string) (db : ConsentDB) : option ConsentRow :=
  List.find (fun c => bool_decide (c_ID c = id)) (consents db).
Definition find_reservation (id : string) (db : ConsentDB) : option ReservationRow :=
  List.find (fun r => bool_decide (r_ID r = id)) (reservations db).
Definition find_by_payment (pid : string) (db : ConsentDB) : option ReservationRow :=
  List.find (fun r => bool_decide (r_PaymentID r = pid)) (reservations db).

Definition with_status (st : string) (r : ReservationRow) : ReservationRow :=
  MkReservationRow (r_ID r) (r_ConsentID r) (r_PaymentID r) (r_AmountPence r) st
    (r_ExpiresAt r) (r_CreatedAt r).

(** [SUM(amount_pence) FROM consent_usage WHERE consent_id = $1 AND settled_at > NOW() - 30 days] *)
Definition used_sum (consentID : string) (now : Z) (db : ConsentDB) : Z :=
  sumZ u_amount_pence
    (where_ (fun u => bool_decide (u_consent_id u = consentID) && (now - days30 <? u_settled_at u))
       (usages db)).
(** [... FROM consent_reservation WHERE consent_id = $1 AND status = 'HELD' AND expires_at > NOW()] *)
Definition held_sum (consentID : string) (now : Z) (db : ConsentDB) : Z :=
  sumZ r_AmountPence
    (where_ (fun r => bool_decide (r_ConsentID r = consentID) && bool_decide (r_Status r = ResHeld)
                      && (now <? r_ExpiresAt r))
       (reservations db)).

Definition fits_int64 (z : Z) : bool := bool_decide (min_int64 <= z <= max_int64).

Section Repo.
Context `{UuidLib}.

(** The row the statement stores, with the generated columns. *)
Definition InsertConsent (c : ConsentRow) : stmt ConsentDB (option ConsentRow) :=
  uuid_arg (c_MerchantID c) (fun mid now id db =>
    let row := MkConsentRow id mid (c_ConsumerID c) (c_BankConsentRef c) (c_Status c)
                 (c_MaxAmountPence c) (c_MaxMonthlyPence c) (c_Currency c) now (c_ValidUntil c) now now in
    if negb (bool_decide (c_Status c ∈ [StatusPending; StatusActive; StatusRevoked; StatusExpired]))
    then (Err check_violation, db)
    else if existsb (fun x => bool_decide (c_BankConsentRef x = c_BankConsentRef c)
                              || bool_decide (c_ID x = id)) (consents db)
    then (Err unique_violation, db)
    else (Ok (Some row), set_consents (consents db ++ [row]) db)).

Definition GetConsent (id : string) : stmt ConsentDB (option ConsentRow) :=
  uuid_arg id (fun id => query (fun _ db => find_consent id db)).

Definition RevokeConsent (id merchantID : string) : stmt ConsentDB (option ConsentRow) :=
  let run (id : string) (mine : ConsentRow -> bool) : stmt ConsentDB (option ConsentRow) :=
    fun now _ db =>
      let p c := bool_decide (c_ID c = id) && bool_decide (c_Status c = StatusActive) && mine c in
      let f c := MkConsentRow (c_ID c) (c_MerchantID c) (c_ConsumerID c) (c_BankConsentRef c)
                   StatusRevoked (c_MaxAmountPence c) (c_MaxMonthlyPence c) (c_Currency c)
                   (c_ValidFrom c) (c_ValidUntil c) (c_CreatedAt c) now in
      (Ok (f <$> List.find p (consents db)), set_consents (update_where p f (consents db)) db) in
  uuid_arg id (fun id =>
    if is_empty merchantID then run id (fun _ => true)
    else uuid_arg merchantID (fun mid => run id (fun c => bool_decide (c_MerchantID c = mid)))).

(** [ORDER BY created_at DESC], rows of one instant in storage order. *)
Definition newer (c1 c2 : ConsentRow) : Prop := c_CreatedAt c2 <= c_CreatedAt c1.
#[export] Instance newer_dec : RelDecision newer.
Proof. intros c1 c2. unfold newer. apply _. Defined.

(** The page and [COUNT( * ) OVER()], which no row carries when the page is empty. *)
Definition ListConsents (consumerID merchantID status : string) (limit offset : Z)
  : stmt ConsentDB (list ConsentRow * Z) :=
  let run (mine : ConsentRow -> bool) : stmt ConsentDB (list ConsentRow * Z) :=
    fun _ _ db =>
      let hits := where_ (fun c =>
        (is_empty consumerID || bool_decide (c_ConsumerID c = consumerID)) && mine c
        && (is_empty status || bool_decide (c_Status c = status))) (consents db) in
      let page := take (Z.to_nat limit) (drop (Z.to_nat offset) (merge_sort newer hits)) in
      (Ok (page, match page with [] => 0 | _ => Z.of_nat (length hits) end), db) in
  if is_empty merchantID then run (fun _ => true)
  else uuid_arg merchantID (fun mid => run (fun c => bool_decide (c_MerchantID c = mid))).

Definition GetReservationByPaymentID (paymentID : string) : stmt ConsentDB (option ReservationRow) :=
  uuid_arg paymentID (fun pid => query (fun _ db => find_by_payment pid db)).

Definition LockConsent (id : string) : stmt ConsentDB (option ConsentRow) := GetConsent id.

Definition RollingUsage (consentID : string) : stmt ConsentDB (Z * Z) :=
  uuid_arg consentID (fun id now _ db =>
    let used := used_sum id now db in
    let held := held_sum id now db in
    if fits_int64 used && fits_int64 held then (Ok (used, held), db)
    else (Err (PlainError "cannot scan numeric into int64"), db)).

(** [COUNT( * )::int]; more rows than an int fits is an error of the cast. *)
Definition TxCountThisMonth (consentID : string) : stmt ConsentDB Z :=
  uuid_arg consentID (fun id now _ db =>
    let n := Z.of_nat (length (where_ (fun u => bool_decide (u_consent_id u = id)
                                       && (now - days30 <? u_settled_at u)) (usages db))) in
    if n <? 2 ^ 31 then (Ok n, db) else (Err (PgError "22003" "ERROR: integer out of range (SQLSTATE 22003)"), db)).

Definition InsertReservation (consentID paymentID : string) (amount : Z)
  : stmt ConsentDB (option ReservationRow) :=
  uuid_arg consentID (fun cid => uuid_arg paymentID (fun pid now id db =>
    let row := MkReservationRow id cid pid amount ResHeld (now + 10 * minute) now in
    if existsb (fun r => bool_decide (r_PaymentID r = pid) || bool_decide (r_ID r = id)) (reservations db)
    then (Err unique_violation, db)
    else if negb (existsb (fun c => bool_decide (c_ID c = cid)) (consents db))
    then (Err fk_violation, db)
    else (Ok (Some row), set_reservations (reservations db ++ [row]) db))).

Definition GetReservation (id : string) : stmt ConsentDB (option ReservationRow) :=
  uuid_arg id (fun id => query (fun _ db => find_reservation id db)).

(** [UPDATE consent_reservation SET status = to WHERE id = $2 AND status = 'HELD' AND mine RETURNING ...] *)
Definition move_held (to id : string) (mine : ReservationRow -> bool) : stmt ConsentDB (option ReservationRow) :=
  fun _ _ db =>
    let p r := bool_decide (r_ID r = id) && bool_decide (r_Status r = ResHeld) && mine r in
    (Ok (with_status to <$> List.find p (reservations db)),
     set_reservations (update_where p (with_status to) (reservations db)) db).

Definition ConfirmReservation (id paymentID : string) : stmt ConsentDB (option ReservationRow) :=
  uuid_arg id (fun id =>
    if is_empty paymentID then move_held ResConfirmed id (fun _ => true)
    else uuid_arg paymentID (fun pid =>
      move_held ResConfirmed id (fun r => bool_decide (r_PaymentID r = pid)))).

Definition ReleaseReservation (id : string) : stmt ConsentDB (option ReservationRow) :=
  uuid_arg id (fun id => move_held ResReleased id (fun _ => true)).

Definition InsertUsage (consentID paymentID : string) (amount : Z) : stmt ConsentDB unit :=
  uuid_arg consentID (fun cid => uuid_arg paymentID (fun pid now id db =>
    if existsb (fun u => bool_decide (u_payment_id u = pid)) (usages db) then (Ok tt, db)
    else if existsb (fun u => bool_decide (u_id u = id)) (usages db) then (Err unique_violation, db)
    else if negb (existsb (fun c => bool_decide (c_ID c = cid)) (consents db)) then (Err fk_violation, db)
    else (Ok tt, set_usages (usages db ++ [MkUsageRow id cid pid amount now]) db))).
End Repo.
