(* ===== verification/ConsentService.v ===== *)
(** * The consent service ([services/consent-svc/internal/service.go]).

The state is the tables and the cache, which is absent when the service runs
without Redis ([rdb == nil]).  A cached consent is the JSON of its row; the times
of a row are taken to be in UTC, as in the containers, so that they are written
with the zone Z. *)
From S2P Require Import Prelude GoStrings DomainErr World Uuid Redis Idempotency GoTime GoJson JsonStruct ConsentRepo.
Local Open Scope Z_scope.
Local Open Scope go_scope.

Definition cacheTTL : Z := 5 * minute.

(** The members of a row, which have the names of the fields. *)
Definition row_json (c : ConsentRow) : value :=
  VObj [("ID", VStr (c_ID c)); ("MerchantID", VStr (c_MerchantID c)); ("ConsumerID", VStr (c_ConsumerID c));
        ("BankConsentRef", VStr (c_BankConsentRef c)); ("Status", VStr (c_Status c)); ("MaxAmountPence",
        VInt (c_MaxAmountPence c)); ("MaxMonthlyPence", VInt (c_MaxMonthlyPence c)); ("Currency", VStr
        (c_Currency c)); ("ValidFrom", VStr (Format_RFC3339Nano (c_ValidFrom c))); ("ValidUntil", VStr
        (Format_RFC3339Nano (c_ValidUntil c))); ("CreatedAt", VStr (Format_RFC3339Nano (c_CreatedAt c)));
        ("UpdatedAt", VStr (Format_RFC3339Nano (c_UpdatedAt c)))].

(** [json.Marshal(c)]: a time marshals when its year has four digits. *)
Definition json_Marshal (c : ConsentRow) : option string :=
  if forallb (fun t => (0 <=? year_of t) && (year_of t <=? 9999)) [c_ValidFrom c; c_ValidUntil c; c_CreatedAt c; c_UpdatedAt c]
  then Some (json_text (row_json c)) else None.

Definition ConsentRow_fields : list (field ConsentRow) := [
  field_at "ID" c_ID
    (fun a r => MkConsentRow a (c_MerchantID r) (c_ConsumerID r) (c_BankConsentRef r) (c_Status r) (c_MaxAmountPence r) (c_MaxMonthlyPence r) (c_Currency r) (c_ValidFrom r) (c_ValidUntil r) (c_CreatedAt r) (c_UpdatedAt r)) dec_string;
  field_at "MerchantID" c_MerchantID
    (fun a r => MkConsentRow (c_ID r) a (c_ConsumerID r) (c_BankConsentRef r) (c_Status r) (c_MaxAmountPence r) (c_MaxMonthlyPence r) (c_Currency r) (c_ValidFrom r) (c_ValidUntil r) (c_CreatedAt r) (c_UpdatedAt r)) dec_string;
  field_at "ConsumerID" c_ConsumerID
    (fun a r => MkConsentRow (c_ID r) (c_MerchantID r) a (c_BankConsentRef r) (c_Status r) (c_MaxAmountPence r) (c_MaxMonthlyPence r) (c_Currency r) (c_ValidFrom r) (c_ValidUntil r) (c_CreatedAt r) (c_UpdatedAt r)) dec_string;
  field_at "BankConsentRef" c_BankConsentRef
    (fun a r => MkConsentRow (c_ID r) (c_MerchantID r) (c_ConsumerID r) a (c_Status r) (c_MaxAmountPence r) (c_MaxMonthlyPence r) (c_Currency r) (c_ValidFrom r) (c_ValidUntil r) (c_CreatedAt r) (c_UpdatedAt r)) dec_string;
  field_at "Status" c_Status
    (fun a r => MkConsentRow (c_ID r) (c_MerchantID r) (c_ConsumerID r) (c_BankConsentRef r) a (c_MaxAmountPence r) (c_MaxMonthlyPence r) (c_Currency r) (c_ValidFrom r) (c_ValidUntil r) (c_CreatedAt r) (c_UpdatedAt r)) dec_string;
  field_at "MaxAmountPence" c_MaxAmountPence
    (fun a r => MkConsentRow (c_ID r) (c_MerchantID r) (c_ConsumerID r) (c_BankConsentRef r) (c_Status r) a (c_MaxMonthlyPence r) (c_Currency r) (c_ValidFrom r) (c_ValidUntil r) (c_CreatedAt r) (c_UpdatedAt r)) (dec_int 64);
  field_at "MaxMonthlyPence" c_MaxMonthlyPence
    (fun a r => MkConsentRow (c_ID r) (c_MerchantID r) (c_ConsumerID r) (c_BankConsentRef r) (c_Status r) (c_MaxAmountPence r) a (c_Currency r) (c_ValidFrom r) (c_ValidUntil r) (c_CreatedAt r) (c_UpdatedAt r)) (dec_int 64);
  field_at "Currency" c_Currency
    (fun a r => MkConsentRow (c_ID r) (c_MerchantID r) (c_ConsumerID r) (c_BankConsentRef r) (c_Status r) (c_MaxAmountPence r) (c_MaxMonthlyPence r) a (c_ValidFrom r) (c_ValidUntil r) (c_CreatedAt r) (c_UpdatedAt r)) dec_string;
  field_at "ValidFrom" c_ValidFrom
    (fun a r => MkConsentRow (c_ID r) (c_MerchantID r) (c_ConsumerID r) (c_BankConsentRef r) (c_Status r) (c_MaxAmountPence r) (c_MaxMonthlyPence r) (c_Currency r) a (c_ValidUntil r) (c_CreatedAt r) (c_UpdatedAt r)) dec_time;
  field_at "ValidUntil" c_ValidUntil
    (fun a r => MkConsentRow (c_ID r) (c_MerchantID r) (c_ConsumerID r) (c_BankConsentRef r) (c_Status r) (c_MaxAmountPence r) (c_MaxMonthlyPence r) (c_Currency r) (c_ValidFrom r) a (c_CreatedAt r) (c_UpdatedAt r)) dec_time;
  field_at "CreatedAt" c_CreatedAt
    (fun a r => MkConsentRow (c_ID r) (c_MerchantID r) (c_ConsumerID r) (c_BankConsentRef r) (c_Status r) (c_MaxAmountPence r) (c_MaxMonthlyPence r) (c_Currency r) (c_ValidFrom r) (c_ValidUntil r) a (c_UpdatedAt r)) dec_time;
  field_at "UpdatedAt" c_UpdatedAt
    (fun a r => MkConsentRow (c_ID r) (c_MerchantID r) (c_ConsumerID r) (c_BankConsentRef r) (c_Status r) (c_MaxAmountPence r) (c_MaxMonthlyPence r) (c_Currency r) (c_ValidFrom r) (c_ValidUntil r) (c_CreatedAt r) a) dec_time].

(** [json.Unmarshal(val, &c)], when there is no error. *)
Definition json_Unmarshal (val : string) : option ConsentRow :=
  let '(c, failed) := Unmarshal (dec_struct false ConsentRow_fields) val
    (MkConsentRow "" "" "" "" "" 0 0 "" zero_time zero_time zero_time zero_time) in
  if failed then None else Some c.

Record CreateInput := MkCreateInput {
  ci_MerchantID : string; ci_ConsumerID : string; ci_BankConsentRef : string;
  ci_MaxAmountPence : Z; ci_MaxMonthlyPence : Z; ci_Currency : string;
  ci_ValidUntil : option Z (* the zero time is None *) }.
Record ReserveInput := MkReserveInput {
  ri_ConsentID : string; ri_PaymentID : string; ri_AmountPence : Z; ri_Currency : string }.
Record ReserveResult := MkReserveResult {
  rr_ReservationID : string; rr_RemainingMonthly : Z; rr_Currency : string;
  rr_ConsumerID : string; rr_BankConsentRef : string }.
Record UsageResult := MkUsageResult {
  ur_UsedPence : Z; ur_RemainingPence : Z; ur_Currency : string; ur_TxCount : Z }.

Record Service (R : Type) := MkService { s_db : ConsentDB; s_rdb : option R }.
Arguments MkService {R}.
Arguments s_db {R}.
Arguments s_rdb {R}.

Definition cacheKey (id : string) : string := "consent:" +:+ id.

Section Service.
Context {R : Type} `{Redis R} `{UuidLib}.
Abbreviation St := (world (Service R)).

Definition on_db {A} (m : M (world ConsentDB) A) : M St A :=
  within s_db (fun db s => MkService db (s_rdb s)) m.
Definition pool_row {A} (q : stmt ConsentDB (option A)) : M St (result error A) := on_db (row q).
Definition pool_exec {A} (q : stmt ConsentDB A) : M St (result error A) := on_db (exec q).
Definition in_tx {A} (body : M (world (tx ConsentDB)) (result error A)) : M St (result error A) :=
  on_db (begin_func no_deferred body).

(** A Redis command, when there is a client. *)
Definition on_rdb {A} (q : stmt R A) : M St (option (result error A)) :=
  fun w => match s_rdb (w_st w) with
           | None => (None, w)
           | Some r => let '(a, w') := exec q (MkWorld (w_env w) r) in
                       (Some a, MkWorld (w_env w') (MkService (s_db (w_st w)) (Some (w_st w'))))
           end.

Definition cacheGet (id : string) : M St (option ConsentRow) :=
  val <- on_rdb (r_Get (cacheKey id)) ;;
  match val with
  | Some (Ok v) => gret (json_Unmarshal v)
  | _ => gret None
  end.

Definition cacheSet (c : ConsentRow) : M St unit :=
  match json_Marshal c with
  | None => gret tt
  | Some b => _ <- on_rdb (r_Set (cacheKey (c_ID c)) b cacheTTL) ;; gret tt
  end.

Definition cacheDel (id : string) : M St unit :=
  _ <- on_rdb (r_Del (cacheKey id)) ;; gret tt.

Definition not_found : error := DomainErr.New CodeNotFound "consent not found".

(** [merchantID != "" && c.MerchantID != merchantID] *)
Definition foreign (merchantID : string) (c : ConsentRow) : bool :=
  negb (is_empty merchantID) && negb (bool_decide (c_MerchantID c = merchantID)).

Definition CreateConsent (inp : CreateInput) : M St (result error ConsentRow) :=
  let invalid msg := gret (Err (DomainErr.New CodeValidation msg)) in
  if is_empty (ci_MerchantID inp) then invalid "merchant_id is required"
  else if is_empty (ci_ConsumerID inp) then invalid "consumer_id is required"
  else if is_empty (ci_BankConsentRef inp) then invalid "bank_consent_ref is required"
  else if ci_MaxAmountPence inp <=? 0 then invalid "max_per_transaction must be positive"
  else if ci_MaxMonthlyPence inp <=? 0 then invalid "max_per_month must be positive"
  else if ci_MaxMonthlyPence inp <? ci_MaxAmountPence inp
       then invalid "max_per_transaction cannot exceed max_per_month"
  else match ci_ValidUntil inp with
       | None => invalid "valid_until must be in the future"
       | Some until =>
           now <- time_Now ;;
           if negb (now <? until) then invalid "valid_until must be in the future"
           else
             let cur := if is_empty (ci_Currency inp) then defaultCurrency else ci_Currency inp in
             let row := MkConsentRow "" (ci_MerchantID inp) (ci_ConsumerID inp) (ci_BankConsentRef inp)
                          StatusActive (ci_MaxAmountPence inp) (ci_MaxMonthlyPence inp) cur 0 until 0 0 in
             r <- pool_row (InsertConsent row) ;;
             match r with
             | Err err =>
                 gret (Err (if isUniqueViolation err
                            then DomainErr.Wrap CodeAlreadyExists "bank_consent_ref already registered" err
                            else DomainErr.Wrap CodeInternal "insert consent" err))
             | Ok st =>
                 (* [Scan] fills the generated columns; the others keep the given values *)
                 let row := MkConsentRow (c_ID st) (ci_MerchantID inp) (ci_ConsumerID inp)
                              (ci_BankConsentRef inp) StatusActive (ci_MaxAmountPence inp)
                              (ci_MaxMonthlyPence inp) cur (c_ValidFrom st) until
                              (c_CreatedAt st) (c_UpdatedAt st) in
                 cacheSet row ;;; gret (Ok row)
             end
       end.

Definition GetConsent (consentID merchantID : string) : M St (result error ConsentRow) :=
  if is_empty consentID then gret (Err (DomainErr.New CodeValidation "consent_id is required"))
  else
    c <- cacheGet consentID ;;
    match c with
    | Some c => gret (if foreign merchantID c then Err not_found else Ok c)
    | None =>
        r <- pool_row (ConsentRepo.GetConsent consentID) ;;
        match r with
        | Err err => gret (Err (if errors_Is_NoRows err then not_found
                                else DomainErr.Wrap CodeInternal "get consent" err))
        | Ok row =>
            if foreign merchantID row then gret (Err not_found)
            else cacheSet row ;;; gret (Ok row)
        end
    end.

Definition RevokeConsent (consentID merchantID reason : string) : M St (result error ConsentRow) :=
  if is_empty consentID then gret (Err (DomainErr.New CodeValidation "consent_id is required"))
  else
    r <- pool_row (ConsentRepo.GetConsent consentID) ;;
    match r with
    | Err err => gret (Err (if errors_Is_NoRows err then not_found
                            else DomainErr.Wrap CodeInternal "get consent" err))
    | Ok existing =>
        if foreign merchantID existing then gret (Err not_found)
        else if bool_decide (c_Status existing = StatusRevoked)
             then cacheDel consentID ;;; gret (Ok existing)
        else if negb (bool_decide (c_Status existing = StatusActive))
             then gret (Err (DomainErr.New CodeConsentInactive "consent is not active"))
        else
          u <- pool_row (ConsentRepo.RevokeConsent consentID merchantID) ;;
          match u with
          | Err err =>
              gret (Err (if errors_Is_NoRows err
                         then DomainErr.New CodeConflict "consent could not be revoked"
                         else DomainErr.Wrap CodeInternal "revoke consent" err))
          | Ok row => cacheDel consentID ;;; gret (Ok row)
          end
    end.

Definition ListConsents (consumerID merchantID status : string) (limit offset : Z)
  : M St (result error (list ConsentRow * Z)) :=
  let limit := if limit <=? 0 then 20 else limit in
  let limit := if 100 <? limit then 100 else limit in
  let offset := if offset <? 0 then 0 else offset in
  gmap_err (fun e => DomainErr.Wrap CodeInternal "list consents" (WrapError "list consents" e))
    (pool_exec (ConsentRepo.ListConsents consumerID merchantID status limit offset)).

(** [if remaining < 0 { remaining = 0 }] *)
Definition floor0 (z : Z) : Z := if z <? 0 then 0 else z.

Definition reserve_result (c : ConsentRow) (resID : string) (remaining : Z) : ReserveResult :=
  MkReserveResult resID (floor0 remaining) (c_Currency c) (c_ConsumerID c) (c_BankConsentRef c).

(** The branch of a payment that has a reservation. *)
Definition reserve_existing (existing : ReservationRow)
  : M (world (tx ConsentDB)) (result error ReserveResult) :=
  c <-? gmap_err (DomainErr.Wrap CodeInternal "lock consent")
          (tx_row (LockConsent (r_ConsentID existing))) ;;
  uh <-? gmap_err (fun e => DomainErr.Wrap CodeInternal "rolling usage" (WrapError "rolling usage" e))
           (tx_exec (RollingUsage (c_ID c))) ;;
  let '(used, held) := uh in
  gret (Ok (reserve_result c (r_ID existing) (int64 (c_MaxMonthlyPence c - used - held)))).

(** The status switch: [None] lets the payment through. *)
Definition check_status (c : ConsentRow) : M (world (tx ConsentDB)) (option error) :=
  if bool_decide (c_Status c = StatusRevoked)
  then gret (Some (DomainErr.New CodeConsentRevoked "consent revoked"))
  else if bool_decide (c_Status c = StatusExpired)
  then gret (Some (DomainErr.New CodeConsentExpired "consent expired"))
  else
    now <- time_Now ;;
    if negb (now <? c_ValidUntil c) then gret (Some (DomainErr.New CodeConsentExpired "consent expired"))
    else if negb (bool_decide (c_Status c = StatusActive))
    then gret (Some (DomainErr.New CodeConsentInactive "consent is not active"))
    else gret None.

(** The branch of a new payment. *)
Definition reserve_new (inp : ReserveInput) : M (world (tx ConsentDB)) (result error ReserveResult) :=
  lc <- tx_row (LockConsent (ri_ConsentID inp)) ;;
  match lc with
  | Err err => gret (Err (if errors_Is_NoRows err then not_found
                          else DomainErr.Wrap CodeInternal "lock consent" err))
  | Ok c =>
      bad <- check_status c ;;
      match bad with
      | Some e => gret (Err e)
      | None =>
          if negb (is_empty (ri_Currency inp)) && negb (is_empty (c_Currency c))
             && negb (bool_decide (ri_Currency inp = c_Currency c))
          then gret (Err (DomainErr.New CodeValidation "currency mismatch"))
          else if c_MaxAmountPence c <? ri_AmountPence inp
          then gret (Err (DomainErr.New CodeConsentLimitExceeded "amount exceeds per-transaction limit"))
          else
            uh <-? gmap_err (fun e => DomainErr.Wrap CodeInternal "rolling usage" (WrapError "rolling usage" e))
                     (tx_exec (RollingUsage (c_ID c))) ;;
            let '(used, held) := uh in
            if c_MaxMonthlyPence c <? int64 (used + held + ri_AmountPence inp)
            then gret (Err (DomainErr.New CodeConsentLimitExceeded "amount exceeds monthly limit"))
            else
              res <- tx_row (InsertReservation (c_ID c) (ri_PaymentID inp) (ri_AmountPence inp)) ;;
              match res with
              | Err err0 =>
                  let err := WrapError "insert reservation" err0 in
                  if isUniqueViolation err then
                    existing <-? gmap_err (DomainErr.Wrap CodeInternal "re-read reservation")
                                   (tx_row (GetReservationByPaymentID (ri_PaymentID inp))) ;;
                    gret (Ok (reserve_result c (r_ID existing) (int64 (c_MaxMonthlyPence c - used - held))))
                  else gret (Err (DomainErr.Wrap CodeInternal "insert reservation" err))
              | Ok res =>
                  gret (Ok (reserve_result c (r_ID res)
                              (int64 (c_MaxMonthlyPence c - used - held - ri_AmountPence inp))))
              end
      end
  end.

Definition reserve_tx (inp : ReserveInput) : M (world (tx ConsentDB)) (result error ReserveResult) :=
  ex <- tx_row (GetReservationByPaymentID (ri_PaymentID inp)) ;;
  match ex with
  | Ok existing => reserve_existing existing
  | Err err => if negb (errors_Is_NoRows err)
               then gret (Err (DomainErr.Wrap CodeInternal "lookup reservation" err))
               else reserve_new inp
  end.

Definition ValidateAndReserve (inp : ReserveInput) : M St (result error ReserveResult) :=
  if is_empty (ri_ConsentID inp) then gret (Err (DomainErr.New CodeValidation "consent_id is required"))
  else if is_empty (ri_PaymentID inp) then gret (Err (DomainErr.New CodeValidation "payment_id is required"))
  else if ri_AmountPence inp <=? 0 then gret (Err (DomainErr.New CodeValidation "amount must be positive"))
  else in_tx (reserve_tx inp).

Definition confirm_tx (reservationID paymentID : string) : M (world (tx ConsentDB)) (result error unit) :=
  rr <- tx_row (GetReservation reservationID) ;;
  match rr with
  | Err err => gret (Err (if errors_Is_NoRows err
                          then DomainErr.New CodeNotFound "reservation not found"
                          else DomainErr.Wrap CodeInternal "get reservation" err))
  | Ok res =>
      if negb (is_empty paymentID) && negb (bool_decide (r_PaymentID res = paymentID))
      then gret (Err (DomainErr.New CodeValidation "payment_id does not match reservation"))
      else if bool_decide (r_Status res = ResConfirmed)
      then tx_exec (InsertUsage (r_ConsentID res) (r_PaymentID res) (r_AmountPence res))
      else if bool_decide (r_Status res = ResReleased)
      then gret (Err (DomainErr.New CodeConflict "reservation already released"))
      else if negb (bool_decide (r_Status res = ResHeld))
      then gret (Err (DomainErr.New CodeConflict "reservation is not held"))
      else
        up <- tx_row (ConsentRepo.ConfirmReservation reservationID paymentID) ;;
        match up with
        | Err err => gret (Err (if errors_Is_NoRows err
                                then DomainErr.New CodeConflict "reservation could not be confirmed"
                                else DomainErr.Wrap CodeInternal "confirm reservation" err))
        | Ok updated =>
            gmap_err (DomainErr.Wrap CodeInternal "insert usage")
              (tx_exec (InsertUsage (r_ConsentID updated) (r_PaymentID updated) (r_AmountPence updated)))
        end
  end.

Definition ConfirmReservation (reservationID paymentID : string) : M St (result error unit) :=
  if is_empty reservationID then gret (Err (DomainErr.New CodeValidation "reservation_id is required"))
  else in_tx (confirm_tx reservationID paymentID).

Definition release_tx (reservationID : string) : M (world (tx ConsentDB)) (result error unit) :=
  rr <- tx_row (GetReservation reservationID) ;;
  match rr with
  | Err err => gret (Err (if errors_Is_NoRows err
                          then DomainErr.New CodeNotFound "reservation not found"
                          else DomainErr.Wrap CodeInternal "get reservation" err))
  | Ok res =>
      if bool_decide (r_Status res = ResReleased) then gret (Ok tt)
      else if bool_decide (r_Status res = ResConfirmed)
      then gret (Err (DomainErr.New CodeConflict "reservation already confirmed"))
      else if negb (bool_decide (r_Status res = ResHeld))
      then gret (Err (DomainErr.New CodeConflict "reservation is not held"))
      else
        up <- tx_row (ConsentRepo.ReleaseReservation reservationID) ;;
        match up with
        | Err err => gret (Err (if errors_Is_NoRows err
                                then DomainErr.New CodeConflict "reservation could not be released"
                                else DomainErr.Wrap CodeInternal "release reservation" err))
        | Ok _ => gret (Ok tt)
        end
  end.

Definition ReleaseReservation (reservationID reason : string) : M St (result error unit) :=
  if is_empty reservationID then gret (Err (DomainErr.New CodeValidation "reservation_id is required"))
  else in_tx (release_tx reservationID).

Definition GetRollingUsage (consentID : string) : M St (result error UsageResult) :=
  if is_empty consentID then gret (Err (DomainErr.New CodeValidation "consent_id is required"))
  else
    r <- pool_row (ConsentRepo.GetConsent consentID) ;;
    match r with
    | Err err => gret (Err (if errors_Is_NoRows err then not_found
                            else DomainErr.Wrap CodeInternal "get consent" err))
    | Ok c =>
        uh <-? gmap_err (fun e => DomainErr.Wrap CodeInternal "rolling usage" (WrapError "rolling usage" e))
                 (pool_exec (RollingUsage consentID)) ;;
        let '(used, held) := uh in
        txCount <-? gmap_err (DomainErr.Wrap CodeInternal "tx count")
                      (pool_exec (TxCountThisMonth consentID)) ;;
        gret (Ok (MkUsageResult (int64 (used + held)) (floor0 (int64 (c_MaxMonthlyPence c - used - held)))
                    (c_Currency c) txCount))
    end.
End Service.
