(* ===== verification/ConsentTheory.v ===== *)
(** * Correctness of the consent service.

[consent_inv] is what every operation keeps of the tables: unique keys, three
reservation states, and usage rows for exactly the confirmed reservations, with
their consent and amount.  [evolves] is the reservation state machine: HELD may
become CONFIRMED or RELEASED, both final, and nothing else of a reservation
ever changes. *)
From S2P Require Import Prelude GoStrings DomainErr World Uuid Redis Idempotency LedgerStore ConsentRepo ConsentService.
Local Open Scope Z_scope.

(* ------------------------------------------------------------------ *)
(** ** The reservation state machine *)

Inductive res_step (r : ReservationRow) : ReservationRow -> Prop :=
| res_same : res_step r r
| res_confirm : r_Status r = ResHeld -> res_step r (with_status ResConfirmed r)
| res_release : r_Status r = ResHeld -> res_step r (with_status ResReleased r).

#[export] Instance res_step_preorder : PreOrder res_step.
Proof.
  split; [constructor|].
  intros r1 r2 r3 [|H1|H1]; [done|..]; intros [|H2|H2]; by try constructor.
Qed.

Definition evolves (db db' : ConsentDB) : Prop :=
  exists rs new us, reservations db' = rs ++ new /\ Forall2 res_step (reservations db) rs /\
    usages db' = usages db ++ us.

Lemma evolves_refl db : evolves db db.
Proof. exists (reservations db), [], []. rewrite !app_nil_r. split_and!; [done|reflexivity|done]. Qed.

Lemma evolves_trans db1 db2 db3 : evolves db1 db2 -> evolves db2 db3 -> evolves db1 db3.
Proof.
  intros (rs1 & new1 & us1 & H1 & HF1 & HU1) (rs2 & new2 & us2 & H2 & HF2 & HU2).
  rewrite H1 in HF2. apply Forall2_app_inv_l in HF2 as (a & b & Ha & Hb & ->).
  exists a, (b ++ new2), (us1 ++ us2). rewrite H2, HU2, HU1, !(assoc_L (++)). split_and!; [done| |done].
  by etrans.
Qed.

#[export] Instance evolves_preorder : PreOrder evolves.
Proof. split; [intros ?; apply evolves_refl|intros ???; apply evolves_trans]. Qed.

(* ------------------------------------------------------------------ *)
(** ** The invariant *)

Section Inv.
Context `{UuidLib}.

Record consent_inv (db : ConsentDB) : Prop := {
  ci_consents : NoDup (map c_ID (consents db));
  ci_res_ids : NoDup (map r_ID (reservations db));
  ci_res_payments : NoDup (map r_PaymentID (reservations db));
  ci_use_payments : NoDup (map u_payment_id (usages db));
  ci_rows : forall r, r ∈ reservations db ->
    r_Status r ∈ [ResHeld; ResConfirmed; ResReleased] /\ 0 < r_AmountPence r /\
    r_ConsentID r ∈ map c_ID (consents db) /\
    pg_uuid (r_ConsentID r) = Some (r_ConsentID r) /\ pg_uuid (r_PaymentID r) = Some (r_PaymentID r);
  ci_used : forall u, u ∈ usages db -> exists r, r ∈ reservations db /\ r_Status r = ResConfirmed /\
    r_PaymentID r = u_payment_id u /\ r_ConsentID r = u_consent_id u /\ r_AmountPence r = u_amount_pence u;
  ci_confirmed : forall r, r ∈ reservations db -> r_Status r = ResConfirmed ->
    r_PaymentID r ∈ map u_payment_id (usages db);
}.

Definition empty_consents : ConsentDB := MkConsentDB [] [] [].

Lemma empty_consents_inv : consent_inv empty_consents.
Proof. constructor; simpl; try constructor; set_solver. Qed.

Lemma find_reservation_spec id db r :
  find_reservation id db = Some r -> r ∈ reservations db /\ r_ID r = id.
Proof. apply find_bool_decide_spec. Qed.
Lemma find_by_payment_spec pid db r :
  find_by_payment pid db = Some r -> r ∈ reservations db /\ r_PaymentID r = pid.
Proof. apply find_bool_decide_spec. Qed.
Lemma find_consent_spec id db c : find_consent id db = Some c -> c ∈ consents db /\ c_ID c = id.
Proof. apply find_bool_decide_spec. Qed.

(** Moving HELD rows to a final status. *)
Lemma update_evolves db p to :
  to = ResConfirmed \/ to = ResReleased -> (forall r, p r = true -> r_Status r = ResHeld) ->
  evolves db (set_reservations (update_where p (with_status to) (reservations db)) db).
Proof.
  intros Hto Hp. eexists _, [], []. simpl. rewrite !app_nil_r. split_and!; [done| |done].
  unfold update_where. rewrite <- (list_fmap_id (reservations db)) at 1. apply Forall2_fmap.
  apply Forall_Forall2_diag, Forall_forall. intros r _. simpl. destruct (p r) eqn:E; [|done].
  destruct Hto as [->| ->]; constructor; auto.
Qed.

Lemma inv_new_reservation db row :
  consent_inv db -> r_ID row ∉ map r_ID (reservations db) ->
  r_PaymentID row ∉ map r_PaymentID (reservations db) -> r_Status row = ResHeld ->
  0 < r_AmountPence row -> r_ConsentID row ∈ map c_ID (consents db) ->
  pg_uuid (r_ConsentID row) = Some (r_ConsentID row) ->
  pg_uuid (r_PaymentID row) = Some (r_PaymentID row) ->
  consent_inv (set_reservations (reservations db ++ [row]) db) /\
  evolves db (set_reservations (reservations db ++ [row]) db).
Proof.
  intros [] Hid Hpid Hst Ham Hc Hu1 Hu2. split.
  - constructor; simpl; auto using NoDup_map_snoc.
    + intros r [Hr|[->|[]%elem_of_nil]%elem_of_cons]%elem_of_app; [by auto|].
      rewrite Hst. split_and!; auto. set_solver.
    + intros u Hu. destruct (ci_used0 u Hu) as (r & Hr & ?). exists r. set_solver.
    + intros r [Hr|[->|[]%elem_of_nil]%elem_of_cons]%elem_of_app; [by auto|]. by rewrite Hst.
  - exists (reservations db), [row], []. rewrite app_nil_r. split_and!; [done| |done].
    reflexivity.
Qed.

(** A reservation released or confirmed; a confirmation comes with its usage row. *)
Lemma inv_release db p :
  consent_inv db -> (forall r, p r = true -> r_Status r = ResHeld) ->
  consent_inv (set_reservations (update_where p (with_status ResReleased) (reservations db)) db).
Proof.
  intros [] Hp. constructor; simpl; auto.
  - by rewrite map_update_where.
  - by rewrite map_update_where.
  - intros r' (r & Hr & ->)%elem_of_update_where. destruct (p r); [|by auto].
    destruct (ci_rows0 r Hr) as (_ & ?). simpl. split; [set_solver|done].
  - intros u Hu. destruct (ci_used0 u Hu) as (r & Hr & Hs & ?). exists r. split; [|done].
    apply elem_of_update_where. exists r. split; [done|]. destruct (p r) eqn:E; [|done].
    apply Hp in E. rewrite Hs in E. discriminate.
  - intros r' (r & Hr & ->)%elem_of_update_where. destruct (p r); [done|by auto].
Qed.

Lemma inv_confirm db r p u :
  consent_inv db -> r ∈ reservations db -> r_Status r = ResHeld ->
  (forall x, x ∈ reservations db -> p x = true -> x = r) -> p r = true ->
  u_payment_id u = r_PaymentID r -> u_consent_id u = r_ConsentID r -> u_amount_pence u = r_AmountPence r ->
  consent_inv (set_usages (usages db ++ [u])
    (set_reservations (update_where p (with_status ResConfirmed) (reservations db)) db)).
Proof.
  intros Hinv Hr Hst Honly Hp Hup Huc Hua.
  assert (Hfresh : u_payment_id u ∉ map u_payment_id (usages db)).
  { rewrite Hup. intros (u0 & Heq & Hu0)%list_elem_of_fmap.
    destruct (ci_used _ Hinv u0 Hu0) as (r0 & Hr0 & Hs0 & Hp0 & _).
    assert (r0 = r) as -> by (eapply (NoDup_map_inj r_PaymentID); [apply Hinv|done|done|congruence]).
    rewrite Hst in Hs0. discriminate. }
  destruct Hinv. constructor; simpl; auto using NoDup_map_snoc.
  - by rewrite map_update_where.
  - by rewrite map_update_where.
  - intros r' (x & Hx & ->)%elem_of_update_where. destruct (p x); [|by auto].
    destruct (ci_rows0 x Hx) as (_ & ?). simpl. split; [set_solver|done].
  - intros u0 [Hu0|[->|[]%elem_of_nil]%elem_of_cons]%elem_of_app.
    + destruct (ci_used0 u0 Hu0) as (x & Hx & Hs & ?). exists x. split; [|done].
      apply elem_of_update_where. exists x. split; [done|]. destruct (p x) eqn:E; [|done].
      rewrite (Honly x Hx E) in Hs. rewrite Hst in Hs. discriminate.
    + exists (with_status ResConfirmed r). split; [|done]. apply elem_of_update_where. exists r. by rewrite Hp.
  - intros r' (x & Hx & ->)%elem_of_update_where. rewrite map_app. simpl. destruct (p x) eqn:E.
    + intros _. rewrite (Honly x Hx E). simpl. set_solver.
    + intros Hs. specialize (ci_confirmed0 x Hx Hs). set_solver.
Qed.
End Inv.

(* ------------------------------------------------------------------ *)
(** ** The transactions *)

Section Transactions.
Context `{UuidLaws}.

(** What a successful [ValidateAndReserve] transaction did: found the payment's
reservation, or made one within the limits of an active consent. *)
Definition found (inp : ReserveInput) (db : ConsentDB) (out : ReserveResult) (db' : ConsentDB) : Prop :=
  exists r, pg_uuid (ri_PaymentID inp) = Some (r_PaymentID r) /\
    find_by_payment (r_PaymentID r) db = Some r /\ rr_ReservationID out = r_ID r /\ db' = db.

Definition within_limits (inp : ReserveInput) (now : Z) (c : ConsentRow) (db : ConsentDB) : Prop :=
  c_Status c = StatusActive /\ ri_AmountPence inp <= c_MaxAmountPence c /\
  int64 (used_sum (c_ID c) now db + held_sum (c_ID c) now db + ri_AmountPence inp) <= c_MaxMonthlyPence c.

(** Some reading of the clock from now on is before [t]. *)
Definition still_before (e : env) (t : Z) : Prop := exists n, (tick e <= n)%nat /\ clock e n < t.

Lemma still_before_bump e t : still_before (bump e) t -> still_before e t.
Proof. intros (n & Hn & Ht). exists n. simpl in *. split; [lia|done]. Qed.

Lemma rolling_ok cid now u db used held s :
  RollingUsage cid now u db = (Ok (used, held), s) ->
  exists id, pg_uuid cid = Some id /\ used = used_sum id now db /\ held = held_sum id now db /\ s = db.
Proof.
  intros (id & Hid & Hq)%uuid_arg_ok. cbv zeta in Hq.
  destruct (fits_int64 _ && fits_int64 _) in Hq; simplify_eq. eauto.
Qed.

Definition made (e : env) (inp : ReserveInput) (now : Z) (db : ConsentDB) (out : ReserveResult) (db' : ConsentDB) : Prop :=
  exists c pid rid, pg_uuid (ri_PaymentID inp) = Some pid /\ find_by_payment pid db = None /\
    pg_uuid (ri_ConsentID inp) = Some (c_ID c) /\ find_consent (c_ID c) db = Some c /\
    within_limits inp now c db /\ still_before e (c_ValidUntil c) /\ rr_ReservationID out = rid /\ (rid ∉ map r_ID (reservations db)) /\
    db' = set_reservations (reservations db ++
            [MkReservationRow rid (c_ID c) pid (ri_AmountPence inp) ResHeld (now + 10 * minute) now]) db.

Lemma wp_check_status c e now db b (Q : option error -> world (tx ConsentDB) -> Prop) :
  (forall err w, Q (Some err) w) ->
  (c_Status c = StatusActive -> cur_clock e < c_ValidUntil c ->
     Q None (MkWorld (bump e) (MkTx now db b))) ->
  wp (check_status c) Q (MkWorld e (MkTx now db b)).
Proof.
  intros Hbad Hok. unfold check_status. wp_step; [by wp_step|]. wp_step; [by wp_step|].
  wp_step. apply wp_time_Now. simpl. wp_step; [by wp_step|]. wp_step; [by wp_step|]. wp_step.
  apply negb_false_iff in Hif1, Hif2. apply bool_decide_eq_true in Hif2. apply Z.ltb_lt in Hif1. auto.
Qed.

Lemma insert_reservation_ok cid pid0 amount now u db row s :
  InsertReservation cid pid0 amount now u db = (Ok (Some row), s) ->
  exists cid' pid, pg_uuid cid = Some cid' /\ pg_uuid pid0 = Some pid /\
    row = MkReservationRow u cid' pid amount ResHeld (now + 10 * minute) now /\
    (u ∉ map r_ID (reservations db)) /\ s = set_reservations (reservations db ++ [row]) db.
Proof.
  unfold InsertReservation. intros (cid' & Hc & (pid & Hp & Hq)%uuid_arg_ok)%uuid_arg_ok.
  destruct (existsb _ (reservations db)) eqn:Hex; [done|]. destruct (negb _); simplify_eq.
  exists cid', pid. split_and!; try done.
  intros (x & Heq & Hx)%list_elem_of_fmap. rewrite <- not_true_iff_false, existsb_exists in Hex.
  apply Hex. exists x. split; [by apply list_elem_of_In|]. rewrite orb_true_iff, !bool_decide_eq_true. auto.
Qed.

Lemma wp_reserve_new inp pid e now db b :
  pg_uuid (ri_PaymentID inp) = Some pid -> (b = false -> find_by_payment pid db = None) ->
  wp (reserve_new inp)
    (fun r w => forall out, r = Ok out -> tx_aborted (w_st w) = false -> made e inp now db out (tx_db (w_st w)))
    (MkWorld e (MkTx now db b)).
Proof.
  intros Hpid Hnone. unfold reserve_new. wp_step. apply wp_tx_row; [by intros; wp_step|by intros; wp_step|].
  intros c s Hb (cid & Hcid & Hq)%uuid_arg_ok. injection Hq as Hc ->.
  pose proof (find_consent_spec _ _ _ Hc) as [_ Hid]. subst cid.
  wp_step. apply wp_check_status; [by intros; wp_step|]. intros Hact Hvalid.
  wp_step; [by wp_step|]. wp_step; [by wp_step|]. wp_step. wp_step. apply wp_tx_exec; [done|].
  simpl. intros [used held] s' _ (cid & Hcid2 & -> & -> & ->)%rolling_ok.
  rewrite (pg_uuid_canonical _ _ Hcid) in Hcid2. injection Hcid2 as <-. wp_step; [by wp_step|].
  wp_step. apply wp_tx_row.
  - intros err. wp_step; [|by wp_step]. wp_step. wp_step. apply wp_tx_row; [done|done|done].
  - intros s'' _ (? & _ & (? & _ & Hq)%uuid_arg_ok)%uuid_arg_ok.
    destruct (existsb _ _); [done|]. by destruct (negb _).
  - intros row s'' _ (cid & pid' & Hcid' & Hpid' & -> & Hrid & ->)%insert_reservation_ok.
    rewrite (pg_uuid_canonical _ _ Hcid) in Hcid'. injection Hcid' as <-.
    rewrite Hpid in Hpid'. injection Hpid' as <-.
    wp_step. intros _ [= <-] _. simpl. exists c, pid, (cur_uuid (bump (bump (bump e)))).
    apply Z.ltb_ge in Hif0, Hif1. rewrite Hb in Hnone. unfold within_limits.
    split_and!; auto. exists (tick (bump e)). simpl. split; [lia|done].
Qed.

Lemma wp_reserve_tx inp e now db :
  wp (reserve_tx inp)
    (fun r w => forall out, r = Ok out -> tx_aborted (w_st w) = false ->
       found inp db out (tx_db (w_st w)) \/ made e inp now db out (tx_db (w_st w)))
    (MkWorld e (MkTx now db false)).
Proof.
  unfold reserve_tx. wp_step. apply wp_tx_row.
  - intros err. wp_step; [by wp_step|]. unfold reserve_new. wp_step.
    apply wp_tx_row; [by intros; wp_step|done|done].
  - intros s _ (pid & Hpid & [= Hn ->])%uuid_arg_ok. simpl.
    eapply wp_mono; [by apply (wp_reserve_new inp pid)|]. intros r w Hr out Ho Ha. right.
    destruct (Hr out Ho Ha) as (c & p & rid & ? & ? & ? & ? & ? & Hv & ? & ? & ?). exists c, p, rid.
    split_and!; try done. by apply still_before_bump.
  - intros ex s _ (pid & Hpid & [= Hf ->])%uuid_arg_ok. unfold reserve_existing.
    wp_step. wp_step. apply wp_tx_row; [done|done|]. simpl. intros c s' _ (? & _ & [= _ ->])%uuid_arg_ok.
    do 2 wp_step. apply wp_tx_exec; [done|]. simpl. intros [used held] s'' _ (? & _ & _ & _ & ->)%rolling_ok.
    wp_step. intros _ [= <-] _. left. exists ex.
    pose proof (find_by_payment_spec _ _ _ Hf) as [_ <-]. auto.
Qed.

Definition is_row (r x : ReservationRow) : bool := bool_decide (r_ID x = r_ID r).

Definition move (to : string) (r : ReservationRow) (db : ConsentDB) : ConsentDB :=
  set_reservations (update_where (is_row r) (with_status to) (reservations db)) db.

Lemma is_row_only db r x :
  consent_inv db -> r ∈ reservations db -> x ∈ reservations db -> is_row r x = true -> x = r.
Proof.
  intros Hinv Hr Hx Hid%bool_decide_eq_true. by eapply (NoDup_map_inj r_ID); [apply Hinv|..].
Qed.

Lemma update_where_ext {A} (p q : A -> bool) f (l : list A) :
  (forall x, x ∈ l -> p x = q x) -> update_where p f l = update_where q f l.
Proof.
  intros Heq. apply map_ext_in. intros x Hx. rewrite Heq; [done|by apply list_elem_of_In].
Qed.

Lemma move_held_ok to id mine now u db r' s :
  consent_inv db -> move_held to id mine now u db = (Ok (Some r'), s) ->
  exists r, r ∈ reservations db /\ r_ID r = id /\ r_Status r = ResHeld /\
    r' = with_status to r /\ s = move to r db.
Proof.
  intros Hinv [= Hf <-]. apply fmap_Some in Hf as (r & Hf & ->).
  apply find_some in Hf as [Hin%list_elem_of_In Hp]. apply andb_true_iff in Hp as [Hp Hm].
  apply andb_true_iff in Hp as [Hid Hst]. apply bool_decide_eq_true in Hid, Hst.
  exists r. split_and!; try done. unfold move. f_equal. apply update_where_ext. intros x Hx.
  destruct (is_row r x) eqn:E.
  - apply (is_row_only db r x Hinv Hin Hx) in E as ->. by rewrite !bool_decide_eq_true_2, Hm.
  - unfold is_row in E. apply bool_decide_eq_false in E. rewrite bool_decide_eq_false_2; [done|congruence].
Qed.

(** The reservation rows of a lookup by id, whatever spelling the id has. *)
Lemma get_reservation_ok rid now u db r s :
  GetReservation rid now u db = (Ok (Some r), s) ->
  s = db /\ r ∈ reservations db /\ pg_uuid rid = Some (r_ID r) /\ find_reservation (r_ID r) db = Some r.
Proof.
  intros (id & Hid & [= Hf ->])%uuid_arg_ok. pose proof (find_reservation_spec _ _ _ Hf) as [? <-]. auto.
Qed.

Lemma insert_usage_ok db r db1 now u s :
  pg_uuid (r_ConsentID r) = Some (r_ConsentID r) -> pg_uuid (r_PaymentID r) = Some (r_PaymentID r) ->
  usages db1 = usages db ->
  InsertUsage (r_ConsentID r) (r_PaymentID r) (r_AmountPence r) now u db1 = (Ok tt, s) ->
  (r_PaymentID r ∈ map u_payment_id (usages db) /\ s = db1) \/
  ((r_PaymentID r ∉ map u_payment_id (usages db)) /\ exists uid, s = set_usages
     (usages db ++ [MkUsageRow uid (r_ConsentID r) (r_PaymentID r) (r_AmountPence r) now]) db1).
Proof.
  intros Hc Hp Hu (cid & Hc' & (pid & Hp' & Hq)%uuid_arg_ok)%uuid_arg_ok.
  rewrite Hc in Hc'. rewrite Hp in Hp'. simplify_eq. rewrite Hu in Hq.
  destruct (existsb (fun u0 => bool_decide (u_payment_id u0 = _)) _) eqn:Hex.
  - simplify_eq. left. split; [by apply existsb_true_in|done].
  - right. split; [by apply existsb_false_notin|].
    repeat (split_match_in Hq; [done|]). injection Hq as <-. by eexists.
Qed.

Definition confirmed_step (rid : string) (now : Z) (db db' : ConsentDB) : Prop :=
  exists r, r ∈ reservations db /\ pg_uuid rid = Some (r_ID r) /\
    ((r_Status r = ResConfirmed /\ db' = db) \/
     (r_Status r = ResHeld /\ exists uid, db' = set_usages
        (usages db ++ [MkUsageRow uid (r_ConsentID r) (r_PaymentID r) (r_AmountPence r) now])
        (move ResConfirmed r db))).

Lemma wp_confirm_tx rid pid e now db : consent_inv db ->
  wp (confirm_tx rid pid)
    (fun r w => r = Ok tt -> tx_aborted (w_st w) = false -> confirmed_step rid now db (tx_db (w_st w)))
    (MkWorld e (MkTx now db false)).
Proof.
  intros Hinv. unfold confirm_tx. wp_step. apply wp_tx_row; [by intros; wp_step|by intros; wp_step|].
  intros r s _ (-> & Hr & Hid & _)%get_reservation_ok.
  pose proof (ci_rows _ Hinv r Hr) as (_ & _ & _ & Hc & Hp).
  wp_step; [by wp_step|]. wp_step.
  - apply bool_decide_eq_true in Hif0. apply wp_tx_exec; [done|]. simpl.
    intros [] s _ Hq _ _. apply (insert_usage_ok db r db) in Hq; [|done..].
    destruct Hq as [[_ ->]|[Hn _]].
    + exists r. auto.
    + destruct Hn. by apply Hinv.
  - wp_step; [by wp_step|]. wp_step; [by wp_step|].
    apply negb_false_iff, bool_decide_eq_true in Hif2. wp_step.
    apply wp_tx_row; [by intros; wp_step|by intros; wp_step|].
    intros r' s _ (rid' & Hrid & Hq)%uuid_arg_ok.
    assert (exists mine, move_held ResConfirmed rid' mine now (cur_uuid (bump e)) db = (Ok (Some r'), s))
      as (mine & Hmv).
    { destruct (is_empty pid); [eauto|]. apply uuid_arg_ok in Hq as (? & _ & Hq). eauto. }
    apply move_held_ok in Hmv as (x & Hx & Hxid & Hxs & -> & ->); [|done].
    assert (x = r) as -> by (eapply (NoDup_map_inj r_ID); [apply Hinv|done|done|congruence]).
    wp_step. apply wp_tx_exec; [done|]. simpl. intros [] s _ Hu _ _.
    apply (insert_usage_ok db r (move ResConfirmed r db)) in Hu; [|done..].
    destruct Hu as [[Hin _]|[_ (uid & ->)]].
    + apply list_elem_of_fmap in Hin as (u & Hpu & Hin).
      destruct (ci_used _ Hinv u Hin) as (x & Hx' & Hs & Hpx & _).
      assert (x = r) as -> by (eapply (NoDup_map_inj r_PaymentID); [apply Hinv|done|done|congruence]).
      rewrite Hif2 in Hs. discriminate.
    + exists r. split_and!; [done..|]. right. eauto.
Qed.

Definition released_step (rid : string) (db db' : ConsentDB) : Prop :=
  exists r, r ∈ reservations db /\ pg_uuid rid = Some (r_ID r) /\
    ((r_Status r = ResReleased /\ db' = db) \/ (r_Status r = ResHeld /\ db' = move ResReleased r db)).

Lemma wp_release_tx rid e now db : consent_inv db ->
  wp (release_tx rid)
    (fun r w => r = Ok tt -> tx_aborted (w_st w) = false -> released_step rid db (tx_db (w_st w)))
    (MkWorld e (MkTx now db false)).
Proof.
  intros Hinv. unfold release_tx. wp_step. apply wp_tx_row; [by intros; wp_step|by intros; wp_step|].
  intros r s _ (-> & Hr & Hid & _)%get_reservation_ok. wp_step.
  { apply bool_decide_eq_true in Hif. wp_step. intros _ _. exists r. auto. }
  wp_step; [by wp_step|]. wp_step; [by wp_step|]. apply negb_false_iff, bool_decide_eq_true in Hif1. wp_step.
  apply wp_tx_row; [by intros; wp_step|by intros; wp_step|].
  intros r' s _ (rid' & Hrid & Hq)%uuid_arg_ok.
  apply move_held_ok in Hq as (x & Hx & Hxid & Hxs & -> & ->); [|done].
  assert (x = r) as -> by (eapply (NoDup_map_inj r_ID); [apply Hinv|done|done|congruence]).
  wp_step. intros _ _. exists r. auto.
Qed.
End Transactions.
