(* ===== verification/ConsentProps.v ===== *)
(** * What the consent service promises.

[cstep] is the abstract state machine of the tables; [service_refines] shows
that every service operation, under every clock, identifier and failure, is one
step of it.  The invariant, the reservation life cycle and the monthly limit
are then proved by induction on steps. *)
From S2P Require Import Prelude GoStrings DomainErr World Uuid Redis Idempotency LedgerStore ConsentRepo ConsentService ConsentTheory.
Local Open Scope Z_scope.
Local Open Scope go_scope.

Definition revoke_row (now : Z) (c : ConsentRow) : ConsentRow :=
  MkConsentRow (c_ID c) (c_MerchantID c) (c_ConsumerID c) (c_BankConsentRef c)
    StatusRevoked (c_MaxAmountPence c) (c_MaxMonthlyPence c) (c_Currency c)
    (c_ValidFrom c) (c_ValidUntil c) (c_CreatedAt c) now.

Section Machine.
Context `{UuidLaws}.

(** One step of the tables at time [now], labelled with the reservation it confirms. *)
Inductive cstep (now : Z) (db : ConsentDB) : option ReservationRow -> ConsentDB -> Prop :=
| st_skip : cstep now db None db
| st_create c :
    c_ID c ∉ map c_ID (consents db) -> 0 < c_MaxAmountPence c <= c_MaxMonthlyPence c ->
    c_Status c = StatusActive ->
    cstep now db None (set_consents (consents db ++ [c]) db)
| st_revoke p t :
    (forall c, p c = true -> c_Status c = StatusActive) ->
    cstep now db None (set_consents (update_where p (revoke_row t) (consents db)) db)
| st_reserve c rid pid amount :
    c ∈ consents db -> c_Status c = StatusActive -> 0 < amount <= c_MaxAmountPence c ->
    int64 (used_sum (c_ID c) now db + held_sum (c_ID c) now db + amount) <= c_MaxMonthlyPence c ->
    rid ∉ map r_ID (reservations db) -> pid ∉ map r_PaymentID (reservations db) ->
    pg_uuid (c_ID c) = Some (c_ID c) -> pg_uuid pid = Some pid ->
    cstep now db None (set_reservations (reservations db ++
      [MkReservationRow rid (c_ID c) pid amount ResHeld (now + 10 * minute) now]) db)
| st_confirm r uid :
    r ∈ reservations db -> r_Status r = ResHeld ->
    cstep now db (Some r) (set_usages
      (usages db ++ [MkUsageRow uid (r_ConsentID r) (r_PaymentID r) (r_AmountPence r) now])
      (move ResConfirmed r db))
| st_release r :
    r ∈ reservations db -> r_Status r = ResHeld -> cstep now db None (move ResReleased r db).

Lemma cstep_inv now db lbl db' : consent_inv db -> cstep now db lbl db' -> consent_inv db'.
Proof.
  intros Hinv Hst. destruct Hst as [|c Hid _ _|p t Hp|c rid pid amount Hc _ Ham _ Hrid Hpid Hu1 Hu2|r uid Hr Hs|r Hr Hs].
  - done.
  - pose proof (ci_rows _ Hinv) as Hrows. destruct Hinv. constructor; simpl; auto using NoDup_map_snoc.
    intros r Hr. destruct (Hrows r Hr) as (? & ? & ? & ?). rewrite map_app. set_solver.
  - destruct Hinv. constructor; simpl; rewrite ?map_update_where; auto.
  - apply inv_new_reservation; simpl; auto; try lia. by apply list_elem_of_fmap_2.
  - apply (inv_confirm db r (is_row r)); auto; [intros; by eapply is_row_only|by apply bool_decide_eq_true].
  - unfold move. rewrite (update_where_ext (is_row r) (fun x => is_row r x && bool_decide (r_Status x = ResHeld))).
    + apply inv_release; [done|]. intros x [_ Hx%bool_decide_eq_true]%andb_true_iff. done.
    + intros x Hx. destruct (is_row r x) eqn:E; [|done].
      apply (is_row_only db r x Hinv Hr Hx) in E as ->. by rewrite bool_decide_eq_true_2.
Qed.

Lemma cstep_evolves now db lbl db' : consent_inv db -> cstep now db lbl db' -> evolves db db'.
Proof.
  assert (Hmv : forall r to, consent_inv db -> r ∈ reservations db -> r_Status r = ResHeld ->
    to = ResConfirmed \/ to = ResReleased ->
    Forall2 res_step (reservations db) (update_where (is_row r) (with_status to) (reservations db))).
  { intros r to Hinv Hr Hs Hto. unfold update_where.
    rewrite <- (list_fmap_id (reservations db)) at 1. apply Forall2_fmap.
    apply Forall_Forall2_diag, Forall_forall. intros x Hx. simpl. destruct (is_row r x) eqn:E; [|done].
    apply (is_row_only db r x Hinv Hr Hx) in E as ->. destruct Hto as [->| ->]; by constructor. }
  intros Hinv Hst. destruct Hst as [|c|p t|c rid pid amount|r uid Hr Hs|r Hr Hs];
    try by (exists (reservations db), [], []; rewrite !app_nil_r; split_and!; [done|reflexivity|done]).
  - eexists (reservations db), _, []. rewrite (app_nil_r (usages db)).
    split_and!; [done|reflexivity|done].
  - eexists (update_where _ _ _), [], _. rewrite app_nil_r. split_and!; [done|by apply Hmv; auto|done].
  - eexists (update_where _ _ _), [], []. rewrite !app_nil_r. split_and!; [done|by apply Hmv; auto|done].
Qed.
End Machine.

(* ------------------------------------------------------------------ *)
(** ** Every operation is a step *)

Section Refinement.
Context {R : Type} `{Redis R} `{UuidLaws}.

Lemma wp_in_tx {A} (body : M (world (tx ConsentDB)) (result error A)) (P : ConsentDB -> Prop) e (s : Service R) :
  P (s_db s) ->
  wp body (fun r w => forall a, r = Ok a -> tx_aborted (w_st w) = false -> P (tx_db (w_st w)))
    (MkWorld (bump e) (MkTx (cur_clock e) (s_db s) false)) ->
  wp (in_tx body) (fun _ w => P (s_db (w_st w))) (MkWorld e s).
Proof.
  intros Hs Hb. unfold in_tx, on_db. apply wp_within. simpl.
  apply wp_begin_func with (R := fun _ _ db => P db); auto.
  eapply wp_mono; [exact Hb|]. intros r w Hr a Ha Hab _. by apply (Hr a).
Qed.

(** A statement on the pool that only reads. *)
Lemma wp_pool_read {A} (q : stmt ConsentDB (option A)) e (s : Service R)
    (Q : result error A -> world (Service R) -> Prop) :
  (forall now u db, snd (q now u db) = db) ->
  (forall r e', (forall a, r = Ok a -> q (cur_clock e) (cur_uuid e) (s_db s) = (Ok (Some a), s_db s)) ->
     Q r (MkWorld e' s)) ->
  wp (pool_row q) Q (MkWorld e s).
Proof.
  intros Hread HQ. unfold pool_row, on_db. apply wp_within. destruct s as [db rdb]. simpl in *.
  assert (Hdb : forall r s', q (cur_clock e) (cur_uuid e) db = (r, s') -> s' = db).
  { intros r s' Hq. rewrite <- (Hread (cur_clock e) (cur_uuid e) db), Hq. done. }
  apply wp_row; simpl.
  - intros err. by apply HQ.
  - intros r s' Hq. rewrite (Hdb _ _ Hq) in Hq |- *. apply HQ. intros a Ha.
    destruct r as [[x|]|]; simplify_eq/=. done.
  - intros r s' err Hq. rewrite (Hdb _ _ Hq). by apply HQ.
Qed.

(** A Redis command leaves the tables alone. *)
Lemma wp_on_rdb {A} (q : stmt R A) e (s : Service R) (Q : option (result error A) -> world (Service R) -> Prop) :
  (forall a e' rdb, Q a (MkWorld e' (MkService (s_db s) rdb))) ->
  wp (on_rdb q) Q (MkWorld e s).
Proof.
  intros HQ. unfold wp, on_rdb. simpl. destruct (s_rdb s) as [r|] eqn:Hr; simpl.
  - destruct (exec q (MkWorld e r)) as [a w']. apply HQ.
  - destruct s as [db rdb]. simpl in *. apply HQ.
Qed.

Lemma wp_cacheSet c e (s : Service R) (Q : unit -> world (Service R) -> Prop) :
  (forall e' rdb, Q tt (MkWorld e' (MkService (s_db s) rdb))) -> wp (cacheSet c) Q (MkWorld e s).
Proof.
  intros HQ. unfold cacheSet. destruct s as [db rdb].
  destruct (json_Marshal c); wp_step; [apply wp_on_rdb; intros; by wp_step|by apply HQ].
Qed.

Lemma wp_cacheDel id e (s : Service R) (Q : unit -> world (Service R) -> Prop) :
  (forall e' rdb, Q tt (MkWorld e' (MkService (s_db s) rdb))) -> wp (cacheDel id) Q (MkWorld e s).
Proof. intros HQ. unfold cacheDel. wp_step. apply wp_on_rdb. intros. by wp_step. Qed.

Lemma find_by_payment_none pid db : find_by_payment pid db = None -> pid ∉ map r_PaymentID (reservations db).
Proof. apply find_bool_decide_none. Qed.

(** The operations of the service. *)
Inductive consent_op : Type :=
| OpCreate (inp : CreateInput)
| OpGet (consentID merchantID : string)
| OpRevoke (consentID merchantID reason : string)
| OpList (consumerID merchantID status : string) (limit offset : Z)
| OpReserve (inp : ReserveInput)
| OpConfirm (reservationID paymentID : string)
| OpRelease (reservationID reason : string)
| OpUsage (consentID : string).

Definition run_op (op : consent_op) : M (world (Service R)) unit :=
  match op with
  | OpCreate inp => _ <- CreateConsent inp ;; gret tt
  | OpGet c m => _ <- GetConsent c m ;; gret tt
  | OpRevoke c m r => _ <- RevokeConsent c m r ;; gret tt
  | OpList c m st l o => _ <- ListConsents c m st l o ;; gret tt
  | OpReserve inp => _ <- ValidateAndReserve inp ;; gret tt
  | OpConfirm r p => _ <- ConfirmReservation r p ;; gret tt
  | OpRelease r re => _ <- ReleaseReservation r re ;; gret tt
  | OpUsage c => _ <- GetRollingUsage c ;; gret tt
  end.

Lemma GetConsent_reads id now u db : snd (ConsentRepo.GetConsent id now u db) = db.
Proof. unfold ConsentRepo.GetConsent, uuid_arg. by destruct (pg_uuid id). Qed.

Lemma insert_consent_step row now0 now u db :
  0 < c_MaxAmountPence row <= c_MaxMonthlyPence row -> c_Status row = StatusActive ->
  cstep now0 db None (snd (InsertConsent row now u db)).
Proof.
  intros Hlim Hst. unfold InsertConsent, uuid_arg. destruct (pg_uuid _); [|constructor].
  destruct (negb _); [constructor|]. destruct (existsb _ _) eqn:Hex; [constructor|]. simpl.
  apply st_create; simpl; auto. intros (x & Heq & Hx)%list_elem_of_fmap.
  rewrite <- not_true_iff_false, existsb_exists in Hex. apply Hex. exists x.
  split; [by apply list_elem_of_In|]. rewrite orb_true_iff, !bool_decide_eq_true. auto.
Qed.

Lemma revoke_step id mid now0 now u db :
  cstep now0 db None (snd (ConsentRepo.RevokeConsent id mid now u db)).
Proof.
  assert (Hrun : forall id mine, let p c := bool_decide (c_ID c = id) && bool_decide (c_Status c = StatusActive) && mine c in
    cstep now0 db None (set_consents (update_where p (revoke_row now) (consents db)) db)).
  { intros i mine p. apply st_revoke. unfold p. intros c [[_ Hs]%andb_true_iff _]%andb_true_iff.
    by apply bool_decide_eq_true in Hs. }
  unfold ConsentRepo.RevokeConsent, uuid_arg. destruct (pg_uuid id) as [i|]; [|constructor].
  destruct (is_empty mid); [apply (Hrun i (fun _ => true))|].
  destruct (pg_uuid mid) as [m|]; [|constructor].
  apply (Hrun i (fun c => bool_decide (c_MerchantID c = m))).
Qed.

Lemma wp_pool_step {A} (q : stmt ConsentDB (option A)) now0 e (s : Service R)
    (Q : result error A -> world (Service R) -> Prop) :
  (forall now u, cstep now0 (s_db s) None (snd (q now u (s_db s)))) ->
  (forall r e' db', cstep now0 (s_db s) None db' -> Q r (MkWorld e' (MkService db' (s_rdb s)))) ->
  wp (pool_row q) Q (MkWorld e s).
Proof.
  intros Hstep HQ. unfold pool_row, on_db. apply wp_within. simpl. apply wp_row; simpl.
  - intros err. apply HQ. constructor.
  - intros r s' Hq. apply HQ. specialize (Hstep (cur_clock e) (cur_uuid e)). by rewrite Hq in Hstep.
  - intros r s' err Hq. apply HQ. specialize (Hstep (cur_clock e) (cur_uuid e)). by rewrite Hq in Hstep.
Qed.

Abbreviation steps e s := (fun _ w => cstep (cur_clock e) (s_db s) None (s_db (w_st w))).

Lemma wp_CreateConsent inp e (s : Service R) : wp (CreateConsent inp) (steps e s) (MkWorld e s).
Proof.
  unfold CreateConsent. repeat (wp_step; [wp_step; constructor|]).
  destruct (ci_ValidUntil inp) as [until|]; [|wp_step; constructor].
  wp_step. apply wp_time_Now. simpl. wp_step; [wp_step; constructor|]. wp_step.
  apply Z.leb_gt in Hif2, Hif3. apply Z.ltb_ge in Hif4.
  apply (wp_pool_step _ (cur_clock e)); simpl; [intros; apply insert_consent_step; simpl; [lia|done]|].
  intros [st|err] e' db' Hst; [|wp_step; done]. wp_step. apply wp_cacheSet. intros. by wp_step.
Qed.

Lemma wp_GetConsent c m e (s : Service R) : wp (GetConsent c m) (steps e s) (MkWorld e s).
Proof.
  unfold GetConsent. wp_step; [wp_step; constructor|]. wp_step. unfold cacheGet. wp_step.
  apply wp_on_rdb. intros a e' rdb.
  assert (Hdb : wp (r <- pool_row (ConsentRepo.GetConsent c) ;;
      match r with
      | Err err => gret (Err (if errors_Is_NoRows err then not_found
                              else DomainErr.Wrap CodeInternal "get consent" err))
      | Ok row => if foreign m row then gret (Err not_found) else cacheSet row ;;; gret (Ok row)
      end) (steps e s) (MkWorld e' (MkService (s_db s) rdb))).
  { wp_step. apply wp_pool_read; [apply GetConsent_reads|]. intros [row|err] e'' _; [|wp_step; constructor].
    wp_step; [wp_step; constructor|]. wp_step. apply wp_cacheSet. intros. wp_step. constructor. }
  destruct a as [[v|err]|]; wp_step; [|exact Hdb|exact Hdb].
  destruct (json_Unmarshal v) as [c0|]; [|exact Hdb]. destruct (foreign m c0); wp_step; constructor.
Qed.

Lemma wp_RevokeConsent c m r e (s : Service R) : wp (RevokeConsent c m r) (steps e s) (MkWorld e s).
Proof.
  unfold RevokeConsent. wp_step; [wp_step; constructor|]. wp_step.
  apply wp_pool_read; [apply GetConsent_reads|]. intros [row|err] e' _; [|wp_step; constructor].
  wp_step; [wp_step; constructor|]. wp_step; [wp_step; apply wp_cacheDel; intros; wp_step; constructor|].
  wp_step; [wp_step; constructor|]. wp_step.
  apply (wp_pool_step _ (cur_clock e)); [intros; apply revoke_step|].
  intros [row'|err] e'' db' Hst; [|by wp_step]. wp_step. apply wp_cacheDel. intros. by wp_step.
Qed.

Lemma wp_ValidateAndReserve inp e (s : Service R) :
  wp (ValidateAndReserve inp) (steps e s) (MkWorld e s).
Proof.
  unfold ValidateAndReserve. repeat (wp_step; [wp_step; constructor|]). apply Z.leb_gt in Hif1.
  apply (wp_in_tx _ (cstep (cur_clock e) (s_db s) None)); [constructor|].
  eapply wp_mono; [apply wp_reserve_tx|]. intros r w Hr out Ho Hab.
  destruct (Hr out Ho Hab) as [(x & _ & _ & _ & ->)|(c & pid & rid & Hpid & Hnone & Hcid & Hc & (Hact & Ham & Hmon) & _ & _ & Hrid & ->)];
    [constructor|].
  pose proof (find_consent_spec _ _ _ Hc) as [Hin _]. apply st_reserve; auto.
  - by apply find_by_payment_none.
  - by eapply pg_uuid_canonical.
  - by eapply pg_uuid_canonical.
Qed.

Lemma wp_ReleaseReservation rid reason e (s : Service R) : consent_inv (s_db s) ->
  wp (ReleaseReservation rid reason) (steps e s) (MkWorld e s).
Proof.
  intros Hinv. unfold ReleaseReservation. wp_step; [wp_step; constructor|].
  apply (wp_in_tx _ (cstep (cur_clock e) (s_db s) None)); [constructor|].
  eapply wp_mono; [by apply wp_release_tx|]. intros r w Hr [] Ho Hab.
  destruct (Hr Ho Hab) as (x & Hx & _ & [[_ ->]|[Hs ->]]); by constructor.
Qed.

Lemma wp_ConfirmReservation rid pid e (s : Service R) : consent_inv (s_db s) ->
  wp (ConfirmReservation rid pid)
    (fun _ w => exists lbl, cstep (cur_clock e) (s_db s) lbl (s_db (w_st w)) /\
       forall r, lbl = Some r -> pg_uuid rid = Some (r_ID r)) (MkWorld e s).
Proof.
  intros Hinv. unfold ConfirmReservation. wp_step; [wp_step; exists None; split; [constructor|done]|].
  apply (wp_in_tx _ (fun db' => exists lbl, cstep (cur_clock e) (s_db s) lbl db' /\
       forall r, lbl = Some r -> pg_uuid rid = Some (r_ID r))); [exists None; split; [constructor|done]|].
  eapply wp_mono; [by apply wp_confirm_tx|]. intros r w Hr [] Ho Hab.
  destruct (Hr Ho Hab) as (x & Hx & Hid & [[_ ->]|[Hs (uid & ->)]]); [exists None; split; [constructor|done]|].
  exists (Some x). split; [by constructor|]. by intros ? [= <-].
Qed.

Lemma wp_pool_exec_read {A} (q : stmt ConsentDB A) e (s : Service R)
    (Q : result error A -> world (Service R) -> Prop) :
  (forall now u db, snd (q now u db) = db) ->
  (forall r e', Q r (MkWorld e' s)) -> wp (pool_exec q) Q (MkWorld e s).
Proof.
  intros Hread HQ. unfold pool_exec, on_db. apply wp_within. destruct s as [db rdb]. simpl in *.
  assert (Hdb : forall r s', q (cur_clock e) (cur_uuid e) db = (r, s') -> s' = db).
  { intros r s' Hq. rewrite <- (Hread (cur_clock e) (cur_uuid e) db), Hq. done. }
  apply wp_exec; simpl; [by intros|intros r s' Hq|intros r s' err Hq]; by rewrite (Hdb _ _ Hq).
Qed.

Lemma ListConsents_reads c m st l o now u db : snd (ConsentRepo.ListConsents c m st l o now u db) = db.
Proof.
  unfold ConsentRepo.ListConsents, uuid_arg. destruct (is_empty m); [done|]. by destruct (pg_uuid m).
Qed.

Lemma RollingUsage_reads c now u db : snd (RollingUsage c now u db) = db.
Proof.
  unfold RollingUsage, uuid_arg. destruct (pg_uuid c); [|done]. by destruct (fits_int64 _ && fits_int64 _).
Qed.

Lemma TxCount_reads c now u db : snd (TxCountThisMonth c now u db) = db.
Proof. unfold TxCountThisMonth, uuid_arg. destruct (pg_uuid c); [|done]. by destruct (_ <? _). Qed.

Lemma wp_GetRollingUsage c e (s : Service R) : wp (GetRollingUsage c) (steps e s) (MkWorld e s).
Proof.
  unfold GetRollingUsage. wp_step; [wp_step; constructor|]. wp_step.
  apply wp_pool_read; [apply GetConsent_reads|]. intros [row|err] e1 _; [|wp_step; constructor].
  do 2 wp_step. apply wp_pool_exec_read; [apply RollingUsage_reads|]. intros [[used held]|err] e2; [|constructor].
  simpl. do 2 wp_step. apply wp_pool_exec_read; [apply TxCount_reads|].
  intros [n|err] e3; [|constructor]. simpl. wp_step. constructor.
Qed.

(** What an operation does to the tables, as a labelled step. *)
Definition op_steps (op : consent_op) (now : Z) (db db' : ConsentDB) : Prop :=
  exists lbl, cstep now db lbl db' /\
    forall r, lbl = Some r -> exists rid pid, op = OpConfirm rid pid /\ pg_uuid rid = Some (r_ID r).

Lemma wp_run_op op e (s : Service R) : consent_inv (s_db s) ->
  wp (run_op op) (fun _ w => op_steps op (cur_clock e) (s_db s) (s_db (w_st w))) (MkWorld e s).
Proof.
  intros Hinv.
  assert (Hsimple : forall {A} (m : M (world (Service R)) A), wp m (steps e s) (MkWorld e s) ->
    wp (_ <- m ;; gret tt) (fun _ w => op_steps op (cur_clock e) (s_db s) (s_db (w_st w))) (MkWorld e s)).
  { intros A m Hm. wp_step. eapply wp_mono; [exact Hm|]. intros a w Hw. wp_step. by exists None. }
  destruct op; cbn [run_op];
    try lazymatch goal with |- wp (gbind (ConfirmReservation _ _) _) _ _ => fail | _ => apply Hsimple end.
  - apply wp_CreateConsent.
  - apply wp_GetConsent.
  - apply wp_RevokeConsent.
  - unfold ListConsents. cbv zeta. wp_step. apply wp_pool_exec_read; [apply ListConsents_reads|constructor].
  - apply wp_ValidateAndReserve.
  - wp_step. eapply wp_mono; [by apply wp_ConfirmReservation|]. intros a w (lbl & Hst & Hl). wp_step.
    exists lbl. split; [done|]. intros r Hr. eauto.
  - by apply wp_ReleaseReservation.
  - apply wp_GetRollingUsage.
Qed.
End Refinement.

(* ------------------------------------------------------------------ *)
(** ** The monthly limit *)

Definition exposure (cid : string) (t : Z) (db : ConsentDB) : Z := used_sum cid t db + held_sum cid t db.

Definition exposure_ok (t : Z) (db : ConsentDB) : Prop :=
  forall c, c ∈ consents db -> exposure (c_ID c) t db <= c_MaxMonthlyPence c.

(** Limits for which the sums of the check stay within 64 bits. *)
Definition limits_small (db : ConsentDB) : Prop :=
  forall c, c ∈ consents db -> c_MaxAmountPence c <= c_MaxMonthlyPence c < 2 ^ 62.

Lemma sumZ_update_one {A K} (id : A -> K) (f : A -> Z) (g : A -> A) (p : A -> bool) l r :
  NoDup (map id l) -> r ∈ l -> (forall x, p x = true <-> id x = id r) ->
  sumZ f (update_where p g l) = sumZ f l - f r + f (g r).
Proof.
  intros Hnd Hr Hp. induction l as [|x l IH]; [by apply elem_of_nil in Hr|].
  simpl in Hnd. apply NoDup_cons in Hnd as [Hx Hnd]. unfold update_where in *. rewrite map_cons, !sumZ_cons.
  assert (Hrest : forall y, y ∈ l -> id y = id r -> x <> r).
  { intros y Hy Hid ->. apply Hx. rewrite <- Hid. by apply list_elem_of_fmap_2. }
  apply elem_of_cons in Hr as [<-|Hr].
  - rewrite (proj2 (Hp r) eq_refl). rewrite sumZ_map, (sumZ_ext _ f l); [lia|].
    intros y Hy. destruct (p y) eqn:E; [|done]. apply Hp in E. by destruct (Hrest y Hy E).
  - assert (p x = false) as ->; [|rewrite IH by done; lia].
    destruct (p x) eqn:E; [|done]. apply Hp in E. destruct Hx. rewrite E. by apply list_elem_of_fmap_2.
Qed.

Section Limits.
Context `{UuidLaws}.

Definition held_amount (cid : string) (t : Z) (r : ReservationRow) : Z :=
  if bool_decide (r_ConsentID r = cid) && bool_decide (r_Status r = ResHeld) && (t <? r_ExpiresAt r)
  then r_AmountPence r else 0.
Definition used_amount (cid : string) (t : Z) (u : UsageRow) : Z :=
  if bool_decide (u_consent_id u = cid) && (t - days30 <? u_settled_at u) then u_amount_pence u else 0.

Lemma exposure_eq cid t db :
  exposure cid t db = sumZ (used_amount cid t) (usages db) + sumZ (held_amount cid t) (reservations db).
Proof. unfold exposure, used_sum, held_sum. by rewrite !sumZ_where. Qed.

Lemma used_positive db u : consent_inv db -> u ∈ usages db -> 0 < u_amount_pence u.
Proof.
  intros Hinv Hu. destruct (ci_used _ Hinv u Hu) as (r & Hr & _ & _ & _ & <-). apply (ci_rows _ Hinv r Hr).
Qed.

(** Time alone only frees the limit. *)
Lemma exposure_mono db t t' : consent_inv db -> t <= t' -> exposure_ok t db -> exposure_ok t' db.
Proof.
  intros Hinv Ht Hok c Hc. etrans; [|by apply Hok]. rewrite !exposure_eq. apply Z.add_le_mono; apply sumZ_le.
  - intros u Hu. pose proof (used_positive db u Hinv Hu). unfold used_amount.
    destruct (bool_decide _); simpl; [|done].
    destruct (Z.ltb_spec (t' - days30) (u_settled_at u)), (Z.ltb_spec (t - days30) (u_settled_at u)); lia.
  - intros r Hr. pose proof (ci_rows _ Hinv r Hr) as (_ & Ham & _). unfold held_amount.
    destruct (bool_decide _ && bool_decide _); simpl; [|done].
    destruct (Z.ltb_spec t' (r_ExpiresAt r)), (Z.ltb_spec t (r_ExpiresAt r)); lia.
Qed.

Lemma exposure_nonneg cid t db : consent_inv db -> 0 <= exposure cid t db.
Proof.
  intros Hinv. rewrite exposure_eq. apply Z.add_nonneg_nonneg; apply sumZ_nonneg.
  - intros u Hu. pose proof (used_positive db u Hinv Hu). unfold used_amount. destruct (_ && _); lia.
  - intros r Hr. pose proof (ci_rows _ Hinv r Hr) as (_ & Ham & _). unfold held_amount. destruct (_ && _); lia.
Qed.

Lemma exposure_new cid t db : consent_inv db -> cid ∉ map c_ID (consents db) -> exposure cid t db = 0.
Proof.
  intros Hinv Hn. rewrite exposure_eq, !sumZ_zero; [done|..].
  - intros r Hr. unfold held_amount. rewrite bool_decide_eq_false_2; [done|]. intros <-.
    apply Hn, (ci_rows _ Hinv r Hr).
  - intros u Hu. unfold used_amount. rewrite bool_decide_eq_false_2; [done|]. intros <-.
    destruct (ci_used _ Hinv u Hu) as (r & Hr & _ & _ & Hcid & _).
    apply Hn. rewrite <- Hcid. apply (ci_rows _ Hinv r Hr).
Qed.

Lemma is_row_iff r x : is_row r x = true <-> r_ID x = r_ID r.
Proof. apply bool_decide_eq_true. Qed.

Lemma move_exposure cid t db r to : consent_inv db -> r ∈ reservations db -> to <> ResHeld ->
  exposure cid t (move to r db) = exposure cid t db - held_amount cid t r.
Proof.
  intros Hinv Hr Hto. rewrite !exposure_eq. simpl.
  rewrite (sumZ_update_one r_ID _ _ _ _ r (ci_res_ids _ Hinv) Hr (is_row_iff r)).
  assert (held_amount cid t (with_status to r) = 0) as ->; [|lia].
  unfold held_amount. simpl. by rewrite (bool_decide_eq_false_2 _ Hto), andb_false_r.
Qed.

(** A step keeps every consent within its monthly limit, unless it confirms a
reservation whose hold has expired. *)
Lemma cstep_exposure now db lbl db' :
  consent_inv db -> limits_small db -> exposure_ok now db -> cstep now db lbl db' ->
  (forall r, lbl = Some r -> now < r_ExpiresAt r) -> exposure_ok now db'.
Proof.
  intros Hinv Hsmall Hok Hst Htimely.
  destruct Hst as [|c0 Hid Hlim _|p t Hp|c0 rid pid amount Hc0 _ Ham Hmon _ _ _ _|r uid Hr Hs|r Hr Hs]; intros c Hc.
  - by apply Hok.
  - simpl in Hc. apply elem_of_app in Hc as [Hc|[->|[]%elem_of_nil]%elem_of_cons]; [by apply Hok|].
    change (exposure (c_ID c0) now db <= c_MaxMonthlyPence c0). rewrite exposure_new; [lia|done..].
  - simpl in Hc. apply elem_of_update_where in Hc as (c1 & Hc1 & ->).
    destruct (p c1); apply (Hok c1 Hc1).
  - change (c ∈ consents db) in Hc. specialize (Hok c Hc). rewrite exposure_eq in Hok |- *. simpl.
    rewrite sumZ_app, sumZ_cons, sumZ_nil. unfold held_amount at 2. simpl.
    case_bool_decide as Hcid; simpl; [|lia].
    assert (c = c0) as -> by (eapply (NoDup_map_inj c_ID); [apply Hinv|done|done|by symmetry]).
    destruct (Z.ltb_spec now (now + 10 * minute)); [|lia].
    fold (exposure (c_ID c0) now db) in Hmon. pose proof (exposure_nonneg (c_ID c0) now db Hinv) as Hnn.
    rewrite exposure_eq in Hmon, Hnn. destruct (Hsmall c0 Hc) as [? ?].
    rewrite int64_id in Hmon; [lia|]. unfold in_int64, min_int64, max_int64. lia.
  - change (c ∈ consents db) in Hc. specialize (Hok c Hc). specialize (Htimely r eq_refl).
    pose proof (move_exposure (c_ID c) now db r ResConfirmed Hinv Hr ltac:(done)) as Hmv.
    rewrite exposure_eq in Hmv |- *. simpl in *. rewrite sumZ_app, sumZ_cons, sumZ_nil.
    assert (used_amount (c_ID c) now (MkUsageRow uid (r_ConsentID r) (r_PaymentID r) (r_AmountPence r) now)
            = held_amount (c_ID c) now r) as ->; [|lia].
    unfold used_amount, held_amount. simpl. rewrite (bool_decide_eq_true_2 _ Hs), andb_true_r.
    assert (0 < days30) as Hd by done. destruct (Z.ltb_spec (now - days30) now); [|lia].
    destruct (Z.ltb_spec now (r_ExpiresAt r)); [done|lia].
  - change (c ∈ consents db) in Hc. specialize (Hok c Hc). rewrite move_exposure by done.
    pose proof (ci_rows _ Hinv r Hr) as (_ & Ham & _). unfold held_amount. destruct (_ && _); lia.
Qed.
End Limits.

(* ------------------------------------------------------------------ *)
(** ** Calls that answer *)

Section Answers.
Context {R : Type} `{Redis R} `{UuidLaws}.

Lemma wp_in_tx_answer {A} (body : M (world (tx ConsentDB)) (result error A)) (P : A -> ConsentDB -> Prop) e (s : Service R) :
  wp body (fun r w => forall a, r = Ok a -> tx_aborted (w_st w) = false -> P a (tx_db (w_st w)))
    (MkWorld (bump e) (MkTx (cur_clock e) (s_db s) false)) ->
  wp (in_tx body) (fun r w => forall a, r = Ok a -> P a (s_db (w_st w))) (MkWorld e s).
Proof.
  intros Hb. unfold in_tx, on_db. apply wp_within. simpl.
  apply wp_begin_func with (R := fun a _ db => P a db); simpl; [done| |by intros a e' s' HP ? [= <-]|done].
  eapply wp_mono; [exact Hb|]. intros r w Hr a Ha Hab _. by apply (Hr a).
Qed.

Lemma run_in_tx {A} (body : M (world (tx ConsentDB)) (result error A)) e (s : Service R)
    (Q : result error A -> world (Service R) -> Prop) :
  calm e ->
  wp body (fun r w => match r with
      | Ok a => calm (w_env w) /\ tx_aborted (w_st w) = false /\
                forall e', Q (Ok a) (MkWorld e' (MkService (tx_db (w_st w)) (s_rdb s)))
      | Err err => forall e', Q (Err err) (MkWorld e' s)
      end) (MkWorld (bump e) (MkTx (cur_clock e) (s_db s) false)) ->
  wp (in_tx body) Q (MkWorld e s).
Proof.
  intros Hc Hb. unfold in_tx, on_db. apply wp_within. simpl.
  unfold wp, begin_func, cur_fault in *. simpl. rewrite (calm_now e Hc).
  destruct (body _) as [r [e1 t1]]. simpl in *. destruct r as [a|err]; simpl.
  - destruct Hb as (Hc1 & Ha & HQ). rewrite Ha. simpl. rewrite (calm_now e1 Hc1). apply HQ.
  - destruct s. apply Hb.
Qed.

Lemma run_tx_row {A} (q : stmt ConsentDB (option A)) (Q : result error A -> world (tx ConsentDB) -> Prop) e now db a :
  calm e -> q now (cur_uuid e) db = (Ok a, db) ->
  Q (scan_row (Ok a)) (MkWorld (bump e) (MkTx now db false)) ->
  wp (tx_row q) Q (MkWorld e (MkTx now db false)).
Proof. intros Hc Hq HQ. unfold tx_row. wp_step. eapply wp_tx_exec_calm; [done|done|]. by wp_step. Qed.

Lemma run_pool_row {A} (q : stmt ConsentDB (option A)) e (s : Service R) a db'
    (Q : result error A -> world (Service R) -> Prop) :
  calm e -> q (cur_clock e) (cur_uuid e) (s_db s) = (Ok a, db') ->
  Q (scan_row (Ok a)) (MkWorld (bump e) (MkService db' (s_rdb s))) -> wp (pool_row q) Q (MkWorld e s).
Proof.
  intros Hc Hq HQ. unfold pool_row, on_db. apply wp_within. unfold row. wp_step.
  eapply wp_exec_calm; [done|exact Hq|]. by wp_step.
Qed.

Lemma run_on_rdb {A} (q : stmt R A) e db r a r' (Q : option (result error A) -> world (Service R) -> Prop) :
  calm e -> q (cur_clock e) (cur_uuid e) r = (a, r') ->
  Q (Some a) (MkWorld (bump e) (MkService db (Some r'))) ->
  wp (on_rdb q) Q (MkWorld e (MkService db (Some r))).
Proof.
  intros Hc Hq HQ. unfold wp, on_rdb. simpl. unfold exec, cur_fault. simpl. by rewrite (calm_now e Hc), Hq.
Qed.

Lemma uuid_arg_run {S A} s id (k : string -> stmt S A) now u db :
  pg_uuid s = Some id -> uuid_arg s k now u db = k id now u db.
Proof. unfold uuid_arg. by intros ->. Qed.

(** A history: each operation in an environment of its own. *)
Fixpoint run_hist (h : list (env * consent_op)) (s : Service R) : Service R :=
  match h with
  | [] => s
  | (e, op) :: h' => run_hist h' (w_st (snd (run_op op (MkWorld e s))))
  end.

Lemma run_hist_app h1 h2 s : run_hist (h1 ++ h2) s = run_hist h2 (run_hist h1 s).
Proof. revert s. induction h1 as [|[e op] h1 IH]; intros s; simpl; [done|apply IH]. Qed.

Lemma run_hist_inv h : forall s, consent_inv (s_db s) ->
  consent_inv (s_db (run_hist h s)) /\ evolves (s_db s) (s_db (run_hist h s)).
Proof.
  induction h as [|[e op] h IH]; intros s Hinv; simpl; [by split|].
  destruct (wp_run_op op e s Hinv) as (lbl & Hst & _). simpl in Hst.
  pose proof (cstep_inv _ _ _ _ Hinv Hst) as Hinv'. destruct (IH _ Hinv') as [? Hev].
  split; [done|]. etrans; [by eapply cstep_evolves|done].
Qed.

(** Confirmations come before the hold of their reservation expires. *)
Definition timely (e : env) (op : consent_op) (db : ConsentDB) : Prop :=
  forall rid pid r, op = OpConfirm rid pid -> r ∈ reservations db -> pg_uuid rid = Some (r_ID r) ->
    r_Status r = ResHeld -> cur_clock e < r_ExpiresAt r.

(** The clock does not run backwards from call to call, limits are below 2^62
pence, and confirmations are timely. *)
Fixpoint fair (t : Z) (h : list (env * consent_op)) (s : Service R) : Prop :=
  match h with
  | [] => True
  | (e, op) :: h' => t <= cur_clock e /\ timely e op (s_db s) /\ limits_small (s_db s) /\
                     fair (cur_clock e) h' (w_st (snd (run_op op (MkWorld e s))))
  end.

Fixpoint end_time (t : Z) (h : list (env * consent_op)) : Z :=
  match h with [] => t | (e, _) :: h' => end_time (cur_clock e) h' end.

Lemma fair_exposure h : forall t s, consent_inv (s_db s) -> exposure_ok t (s_db s) -> fair t h s ->
  exposure_ok (end_time t h) (s_db (run_hist h s)).
Proof.
  induction h as [|[e op] h IH]; intros t s Hinv Hok; simpl; [done|]. intros (Ht & Htim & Hsm & Hfair).
  destruct (wp_run_op op e s Hinv) as (lbl & Hst & Hlbl). simpl in Hst.
  apply IH; [by eapply cstep_inv| |done]. eapply cstep_exposure; [done|done|by eapply exposure_mono|exact Hst|].
  intros r ->. destruct (Hlbl r eq_refl) as (rid & pid & -> & Hid).
  inversion Hst; subst. by eapply (Htim rid pid r).
Qed.
End Answers.

(* ------------------------------------------------------------------ *)
(** ** The properties *)

Section Claims.
Context {R : Type} `{Redis R} `{UuidLaws}.

(** C8.  Every operation of the consent service is one step of the abstract
machine [cstep] on the tables (create, revoke an active consent, reserve within
the limits of an active consent, confirm or release a held reservation, or
nothing), whatever the clock, the identifiers and the failures; only
[ConfirmReservation] of that very reservation confirms. *)
Theorem service_refines op e (s : Service R) :
  consent_inv (s_db s) ->
  op_steps op (cur_clock e) (s_db s) (s_db (w_st (snd (run_op op (MkWorld e s))))).
Proof. intros Hinv. by apply wp_run_op. Qed.

(** C16.  After every history of calls from empty tables, a usage row exists
for exactly the confirmed reservations, with their consent and amount, and keys
are unique; and from any point on, a reservation only ever moves from HELD to
CONFIRMED or to RELEASED, with nothing else of it changed, and usage rows stay. *)
Theorem consent_history (h1 h2 : list (env * consent_op)) (cache : option R) :
  let s1 := run_hist h1 (MkService empty_consents cache) in
  consent_inv (s_db s1) /\
  evolves (s_db s1) (s_db (run_hist (h1 ++ h2) (MkService empty_consents cache))).
Proof.
  intros s1. destruct (run_hist_inv h1 (MkService empty_consents cache) empty_consents_inv) as [Hinv _].
  rewrite run_hist_app. split; [done|]. by apply run_hist_inv.
Qed.

(** C5.  The monthly limit holds: over every history with a monotone clock,
limits below 2^62 pence and confirmations before the hold expires, the usage of
the last 30 days plus the live holds of a consent never exceed its monthly
limit. *)
Theorem monthly_limit_respected t h (cache : option R) :
  fair t h (MkService empty_consents cache) ->
  exposure_ok (end_time t h) (s_db (run_hist h (MkService empty_consents cache))).
Proof.
  intros Hfair. apply fair_exposure; [apply empty_consents_inv|intros c Hc; by apply elem_of_nil in Hc|done].
Qed.

(** C17.  A successful [ValidateAndReserve] either answers the reservation the
payment already has and changes nothing, or adds exactly one HELD reservation
for the amount, on an ACTIVE consent that had not expired at a clock reading of
the call, with the per-transaction and (as the code computes it) the monthly
limit checked against the usage at the start of the transaction. *)
Theorem ValidateAndReserve_outcome inp e (s : Service R) out :
  fst (ValidateAndReserve inp (MkWorld e s)) = Ok out ->
  let db' := s_db (w_st (snd (ValidateAndReserve inp (MkWorld e s)))) in
  found inp (s_db s) out db' \/ made (bump e) inp (cur_clock e) (s_db s) out db'.
Proof.
  assert (wp (ValidateAndReserve inp) (fun r w => forall out, r = Ok out ->
    found inp (s_db s) out (s_db (w_st w)) \/ made (bump e) inp (cur_clock e) (s_db s) out (s_db (w_st w)))
    (MkWorld e s)) as Hwp; [|by apply Hwp].
  unfold ValidateAndReserve. repeat (wp_step; [by wp_step|]).
  apply (wp_in_tx_answer _ (fun out db' => found inp (s_db s) out db' \/
    made (bump e) inp (cur_clock e) (s_db s) out db')). apply wp_reserve_tx.
Qed.

(** For a payment that has a reservation, [ValidateAndReserve] succeeds
whatever the status of that reservation (RELEASED included) and of its consent
(REVOKED or past its validity included) and whatever is left of the limits: the
early return skips every check. *)
Theorem reserve_existing_skips_checks inp e (s : Service R) pid r c :
  calm e -> is_empty (ri_ConsentID inp) = false -> is_empty (ri_PaymentID inp) = false ->
  0 < ri_AmountPence inp -> pg_uuid (ri_PaymentID inp) = Some pid ->
  find_by_payment pid (s_db s) = Some r -> pg_uuid (r_ConsentID r) = Some (r_ConsentID r) ->
  find_consent (r_ConsentID r) (s_db s) = Some c ->
  fits_int64 (used_sum (c_ID c) (cur_clock e) (s_db s)) = true ->
  fits_int64 (held_sum (c_ID c) (cur_clock e) (s_db s)) = true ->
  let p := ValidateAndReserve inp (MkWorld e s) in
  exists rem, fst p = Ok (reserve_result c (r_ID r) rem) /\ w_st (snd p) = s.
Proof.
  intros Hc Hn1 Hn2 Ham Hpid Hr Hcid Hcons Hu Hh.
  change (wp (ValidateAndReserve inp) (fun a w => exists rem, a = Ok (reserve_result c (r_ID r) rem) /\
    w_st w = s) (MkWorld e s)).
  unfold ValidateAndReserve. rewrite Hn1, Hn2. destruct (Z.leb_spec (ri_AmountPence inp) 0); [lia|].
  apply run_in_tx; [done|]. unfold reserve_tx. wp_step.
  eapply run_tx_row; [done|unfold GetReservationByPaymentID; by rewrite (uuid_arg_run _ _ _ _ _ _ Hpid)|].
  rewrite Hr. simpl. unfold reserve_existing. do 2 wp_step.
  eapply run_tx_row; [done|unfold LockConsent, ConsentRepo.GetConsent; by rewrite (uuid_arg_run _ _ _ _ _ _ Hcid)|].
  rewrite Hcons. simpl. do 2 wp_step. pose proof (find_consent_spec _ _ _ Hcons) as [_ Hid].
  eapply wp_tx_exec_calm; [done|unfold RollingUsage; rewrite Hid, (uuid_arg_run _ _ _ _ _ _ Hcid); cbv zeta;
    rewrite <- Hid, Hu, Hh; done|].
  simpl. wp_step. split_and!; [done|done|]. intros e'. eexists. split; [reflexivity|by destruct s].
Qed.

(** Final states stay final: confirming a RELEASED reservation and
releasing a CONFIRMED one both fail with CONFLICT and change nothing. *)
Theorem final_reservations rid e (s : Service R) r :
  calm e -> is_empty rid = false -> pg_uuid rid = Some (r_ID r) ->
  find_reservation (r_ID r) (s_db s) = Some r ->
  (r_Status r = ResReleased ->
     ConfirmReservation rid "" (MkWorld e s) =
       (Err (DomainErr.New CodeConflict "reservation already released"),
        snd (ConfirmReservation rid "" (MkWorld e s))) /\
     w_st (snd (ConfirmReservation rid "" (MkWorld e s))) = s) /\
  (r_Status r = ResConfirmed ->
     ReleaseReservation rid "" (MkWorld e s) =
       (Err (DomainErr.New CodeConflict "reservation already confirmed"),
        snd (ReleaseReservation rid "" (MkWorld e s))) /\
     w_st (snd (ReleaseReservation rid "" (MkWorld e s))) = s).
Proof.
  intros Hc Hn Hid Hf.
  assert (Hget : forall now u, GetReservation rid now u (s_db s) = (Ok (Some r), s_db s)).
  { intros. unfold GetReservation. rewrite (uuid_arg_run _ _ _ _ _ _ Hid). unfold query. by rewrite Hf. }
  assert (Hsplit : forall (m : M (world (Service R)) (result error unit)) err,
    wp m (fun a w => a = Err err /\ w_st w = s) (MkWorld e s) ->
    m (MkWorld e s) = (Err err, snd (m (MkWorld e s))) /\ w_st (snd (m (MkWorld e s))) = s).
  { unfold wp. intros m err. destruct (m (MkWorld e s)). simpl. by intros [-> ->]. }
  split; intros Hs; apply Hsplit.
  - unfold ConfirmReservation. rewrite Hn. apply run_in_tx; [done|]. unfold confirm_tx. wp_step.
    eapply run_tx_row; [done|apply Hget|]. simpl. rewrite Hs.
    rewrite (bool_decide_eq_false_2 (ResReleased = ResConfirmed)) by done.
    rewrite (bool_decide_eq_true_2 (ResReleased = ResReleased)) by done. by wp_step.
  - unfold ReleaseReservation. rewrite Hn. apply run_in_tx; [done|]. unfold release_tx. wp_step.
    eapply run_tx_row; [done|apply Hget|]. simpl. rewrite Hs.
    rewrite (bool_decide_eq_false_2 (ResConfirmed = ResReleased)) by done.
    rewrite (bool_decide_eq_true_2 (ResConfirmed = ResConfirmed)) by done. by wp_step.
Qed.
End Claims.

(* ------------------------------------------------------------------ *)
(** ** Revocation and the cache *)

Section Cache.
Context {R : Type} `{RedisLaws R} `{UuidLaws}.

Lemma find_update_where (l : list ConsentRow) id p t c :
  List.find (fun x => bool_decide (c_ID x = id)) l = Some c -> p c = true ->
  List.find (fun x => bool_decide (c_ID x = id)) (update_where p (revoke_row t) l) = Some (revoke_row t c).
Proof.
  induction l as [|x l IH]; simpl; [done|]. case_bool_decide as Hx.
  - intros [= ->] ->. simpl. by rewrite bool_decide_eq_true_2.
  - intros Hf Hp. destruct (p x); simpl; (rewrite bool_decide_eq_false_2; [|done]); by apply IH.
Qed.

(** A consent row as the cache and the tables show it after a revocation. *)
Definition seen_revoked (cid mid : string) (s : Service R) : Prop :=
  exists c r, pg_uuid cid = Some (c_ID c) /\ find_consent (c_ID c) (s_db s) = Some c /\
    c_Status c = StatusRevoked /\ foreign mid c = false /\
    s_rdb s = Some r /\ forall t, live r t (cacheKey cid) = None.

Lemma run_cacheDel id e db r (Q : unit -> world (Service R) -> Prop) :
  calm e ->
  (forall r', (forall t, live r' t (cacheKey id) = None) -> Q tt (MkWorld (bump e) (MkService db (Some r')))) ->
  wp (cacheDel id) Q (MkWorld e (MkService db (Some r))).
Proof.
  intros Hc HQ. unfold cacheDel. wp_step.
  pose proof (Del_law (cacheKey id) (cur_clock e) (cur_uuid e) r) as Hlaw.
  destruct (r_Del _ _ _ r) as [a r'] eqn:Hq. destruct Hlaw as (-> & Hl & _).
  eapply run_on_rdb; [done|exact Hq|]. wp_step. by apply HQ.
Qed.

Lemma run_pool_any {A} (q : stmt ConsentDB (option A)) e (s : Service R) a db'
    (Q : result error A -> world (Service R) -> Prop) :
  calm e -> q (cur_clock e) (cur_uuid e) (s_db s) = (a, db') ->
  Q (scan_row a) (MkWorld (bump e) (MkService db' (s_rdb s))) -> wp (pool_row q) Q (MkWorld e s).
Proof.
  intros Hc Hq HQ. unfold pool_row, on_db. apply wp_within. unfold row. wp_step.
  eapply wp_exec_calm; [done|exact Hq|]. by wp_step.
Qed.

Lemma get_consent_cases cid now u db :
  (exists id, pg_uuid cid = Some id /\ ConsentRepo.GetConsent cid now u db = (Ok (find_consent id db), db)) \/
  (exists err, ConsentRepo.GetConsent cid now u db = (Err err, db)).
Proof. unfold ConsentRepo.GetConsent, uuid_arg. destruct (pg_uuid cid) as [id|]; eauto. Qed.

Lemma revoke_stmt_ok cid mid now u db row db' c :
  consent_inv db -> pg_uuid cid = Some (c_ID c) -> find_consent (c_ID c) db = Some c ->
  ConsentRepo.RevokeConsent cid mid now u db = (Ok (Some row), db') ->
  find_consent (c_ID c) db' = Some (revoke_row now c).
Proof.
  intros Hinv Hid Hf Hq. unfold ConsentRepo.RevokeConsent in Hq. rewrite (uuid_arg_run _ _ _ _ _ _ Hid) in Hq.
  assert (Hrun : forall mine, let p x := bool_decide (c_ID x = c_ID c) && bool_decide (c_Status x = StatusActive) && mine x in
    revoke_row now <$> List.find p (consents db) = Some row ->
    find_consent (c_ID c) (set_consents (update_where p (revoke_row now) (consents db)) db) = Some (revoke_row now c)).
  { intros mine p (x & Hx & _)%fmap_Some. apply find_update_where; [done|].
    apply find_some in Hx as [Hin%list_elem_of_In Hp].
    assert (x = c) as ->; [|done]. pose proof (find_consent_spec _ _ _ Hf) as [Hc _].
    eapply (NoDup_map_inj c_ID); [apply Hinv|done|done|].
    unfold p in Hp. apply andb_true_iff in Hp as [[Hp _]%andb_true_iff _]. by apply bool_decide_eq_true in Hp. }
  destruct (is_empty mid).
  - injection Hq as Hfind <-. by apply (Hrun (fun _ => true)).
  - apply uuid_arg_ok in Hq as (m & _ & [= Hfind <-]).
    by apply (Hrun (fun x => bool_decide (c_MerchantID x = m))).
Qed.

Lemma run_RevokeConsent cid mid reason e db r :
  calm e -> consent_inv db ->
  wp (RevokeConsent cid mid reason) (fun a w => is_ok a = true -> seen_revoked cid mid (w_st w))
    (MkWorld e (MkService db (Some r))).
Proof.
  intros Hc Hinv. unfold RevokeConsent. wp_step; [by wp_step|]. wp_step.
  destruct (get_consent_cases cid (cur_clock e) (cur_uuid e) db) as [(id & Hid & Hq)|(err & Hq)];
    (eapply run_pool_any; [done|exact Hq|]); [|by wp_step].
  destruct (find_consent id db) as [c|] eqn:Hf; simpl; [|by wp_step].
  pose proof (find_consent_spec _ _ _ Hf) as [Hin <-].
  wp_step; [by wp_step|]. wp_step.
  { wp_step. apply run_cacheDel; [done|]. intros r' Hl. wp_step. intros _. exists c, r'.
    apply bool_decide_eq_true in Hif1. split_and!; done. }
  wp_step; [by wp_step|]. wp_step.
  destruct (ConsentRepo.RevokeConsent cid mid (cur_clock (bump e)) (cur_uuid (bump e)) db) as [[[row|]|err] db'] eqn:Hr;
    (eapply run_pool_any; [done|exact Hr|]); simpl; [|by wp_step..].
  wp_step. apply run_cacheDel; [done|]. intros r' Hl. wp_step. intros _.
  exists (revoke_row (cur_clock (bump e)) c), r'. simpl.
  split_and!; try done. by eapply revoke_stmt_ok.
Qed.

(** A revocation is visible at once: after a [RevokeConsent] that
succeeded (Redis and the database answering), [GetConsent] with the same id and
merchant answers the consent as REVOKED, because the cached copy is gone. *)
Theorem revocation_is_visible cid mid reason e e' db r :
  calm e -> calm e' -> consent_inv db -> is_empty cid = false ->
  let p := RevokeConsent cid mid reason (MkWorld e (MkService db (Some r))) in
  is_ok (fst p) = true ->
  exists row, fst (GetConsent cid mid (MkWorld e' (w_st (snd p)))) = Ok row /\ c_Status row = StatusRevoked.
Proof.
  intros Hc Hc' Hinv Hne p Hp.
  destruct (run_RevokeConsent cid mid reason e db r Hc Hinv Hp) as (c & r' & Hid & Hf & Hs & Hfor & Hr & Hl).
  fold p in Hf, Hr. destruct (w_st (snd p)) as [db' rdb']. simpl in *. subst rdb'.
  change (wp (GetConsent cid mid) (fun a _ => exists row, a = Ok row /\ c_Status row = StatusRevoked)
    (MkWorld e' (MkService db' (Some r')))).
  unfold GetConsent. rewrite Hne. wp_step. unfold cacheGet. wp_step.
  eapply run_on_rdb; [done|apply Get_law|]. rewrite Hl. do 2 wp_step.
  eapply run_pool_any; [done|unfold ConsentRepo.GetConsent; by rewrite (uuid_arg_run _ _ _ _ _ _ Hid)|].
  simpl. rewrite Hf. simpl. rewrite Hfor. wp_step. apply wp_cacheSet. intros. wp_step. eauto.
Qed.
End Cache.

(* ------------------------------------------------------------------ *)
(** ** Witnesses *)

#[local] Existing Instance text_uuids.
#[local] Existing Instance text_uuid_laws.

Definition consent_env (n : nat) : env :=
  MkEnv n (fun n => Z.of_nat n * second) (fun n => "id" +:+ pretty (N.of_nat n)) (fun _ => NoFault).

Definition demo_create : CreateInput :=
  MkCreateInput "shop" "alice" "bank-ref" 5000 8000 "GBP" (Some (100 * hour)).

(** A consent of 80 pounds a month with one reservation of 50, created at 1 s. *)
Definition demo_history : list (env * consent_op) :=
  [ (consent_env 1, OpCreate demo_create);
    (consent_env 10, OpReserve (MkReserveInput "id2" "pay1" 5000 "GBP"));
    (consent_env 20, OpConfirm "id15" "pay1");
    (consent_env 30, OpReserve (MkReserveInput "id2" "pay2" 3000 "GBP")) ].

Definition demo_service : Service Memory := run_hist demo_history (MkService empty_consents (Some empty_memory)).

Example demo_rows : length (reservations (s_db demo_service)) = 2%nat /\ length (usages (s_db demo_service)) = 1%nat.
Proof. vm_compute. auto. Qed.

Lemma demo_service_inv : consent_inv (s_db demo_service).
Proof. apply run_hist_inv, empty_consents_inv. Qed.

Lemma consent_history_witness :
  let start := MkService empty_consents (Some empty_memory) in
  consent_inv (s_db (run_hist (take 2 demo_history) start)) /\
  evolves (s_db (run_hist (take 2 demo_history) start))
    (s_db (run_hist (take 2 demo_history ++ drop 2 demo_history) start)).
Proof. apply (consent_history (take 2 demo_history) (drop 2 demo_history) (Some empty_memory)). Defined.

Lemma service_refines_witness :
  op_steps (OpRelease "id35" "") (cur_clock (consent_env 40)) (s_db demo_service)
    (s_db (w_st (snd (run_op (OpRelease "id35" "") (MkWorld (consent_env 40) demo_service))))).
Proof. apply (service_refines (OpRelease "id35" "") (consent_env 40) demo_service). apply demo_service_inv. Defined.

(** The side conditions of a history, as checks on the rows. *)
Lemma fair_cons t e op h (s : Service Memory) :
  t <= cur_clock e -> Forall (fun r => cur_clock e < r_ExpiresAt r) (reservations (s_db s)) ->
  Forall (fun c => c_MaxAmountPence c <= c_MaxMonthlyPence c < 2 ^ 62) (consents (s_db s)) ->
  fair (cur_clock e) h (w_st (snd (run_op op (MkWorld e s)))) -> fair t ((e, op) :: h) s.
Proof.
  rewrite !Forall_forall. intros Ht Hr Hc Hf. split_and!; [done| |done|done].
  intros rid pid r _ Hin _ _. by apply Hr.
Qed.

Lemma monthly_limit_witness :
  exposure_ok (end_time 0 demo_history) (s_db demo_service) /\
  exposure "id2" (end_time 0 demo_history) (s_db demo_service) = 8000.
Proof.
  split; [|vm_compute; reflexivity].
  apply (monthly_limit_respected 0 demo_history (Some empty_memory)).
  repeat (apply fair_cons; [vm_compute; discriminate|vm_compute; repeat constructor|
    apply Forall_forall; intros c Hc; vm_compute in Hc;
    repeat (apply elem_of_cons in Hc as [->|Hc]; [vm_compute; split; [discriminate|reflexivity]|]);
    by apply elem_of_nil in Hc|]).
  exact I.
Defined.

Lemma ValidateAndReserve_outcome_witness :
  let inp := MkReserveInput "id2" "pay1" 5000 "GBP" in
  let s := run_hist (take 1 demo_history) (MkService empty_consents (Some empty_memory)) in
  exists out, fst (ValidateAndReserve inp (MkWorld (consent_env 10) s)) = Ok out /\
  let db' := s_db (w_st (snd (ValidateAndReserve inp (MkWorld (consent_env 10) s)))) in
  (found inp (s_db s) out db' \/ made (bump (consent_env 10)) inp (cur_clock (consent_env 10)) (s_db s) out db').
Proof.
  intros inp s. exists (MkReserveResult "id15" 3000 "GBP" "alice" "bank-ref").
  split; [vm_compute; reflexivity|].
  apply (ValidateAndReserve_outcome inp (consent_env 10) s). vm_compute. reflexivity.
Defined.

(** A payment whose reservation was released, on a consent that was revoked since. *)
Definition released_service : Service Memory :=
  run_hist [ (consent_env 50, OpRelease "id35" "timeout"); (consent_env 60, OpRevoke "id2" "shop" "") ] demo_service.

Definition retry_input : ReserveInput := MkReserveInput "id2" "pay2" 3000 "GBP".

Lemma reserve_existing_witness :
  map c_Status (consents (s_db released_service)) = [StatusRevoked] /\
  map r_Status (reservations (s_db released_service)) = [ResConfirmed; ResReleased] /\
  exists out, fst (ValidateAndReserve retry_input (MkWorld (consent_env 70) released_service)) = Ok out /\
    rr_ReservationID out = "id35" /\
    w_st (snd (ValidateAndReserve retry_input (MkWorld (consent_env 70) released_service))) = released_service.
Proof.
  split; [vm_compute; reflexivity|]. split; [vm_compute; reflexivity|].
  destruct (find_by_payment "pay2" (s_db released_service)) as [r1|] eqn:Hr; [|vm_compute in Hr; discriminate].
  destruct (find_consent "id2" (s_db released_service)) as [c1|] eqn:Hc; [|vm_compute in Hc; discriminate].
  assert (r_ID r1 = "id35" /\ r_ConsentID r1 = "id2") as [Hid Hcid].
  { vm_compute in Hr. injection Hr as <-. split; reflexivity. }
  assert (Hgo : exists rem, fst (ValidateAndReserve retry_input (MkWorld (consent_env 70) released_service)) =
      Ok (reserve_result c1 (r_ID r1) rem) /\
    w_st (snd (ValidateAndReserve retry_input (MkWorld (consent_env 70) released_service))) = released_service);
    [apply (reserve_existing_skips_checks retry_input (consent_env 70) released_service "pay2" r1 c1)
    |destruct Hgo as (rem & Ho & Hs); eexists; split; [exact Ho|by split]].
  - intros n. reflexivity.
  - reflexivity.
  - reflexivity.
  - reflexivity.
  - reflexivity.
  - exact Hr.
  - rewrite Hcid. reflexivity.
  - rewrite Hcid. exact Hc.
  - vm_compute in Hc. injection Hc as <-. vm_compute. reflexivity.
  - vm_compute in Hc. injection Hc as <-. vm_compute. reflexivity.
Defined.

Lemma final_reservations_witness :
  ConfirmReservation "id35" "" (MkWorld (consent_env 80) released_service) =
    (Err (DomainErr.New CodeConflict "reservation already released"),
     snd (ConfirmReservation "id35" "" (MkWorld (consent_env 80) released_service))) /\
  w_st (snd (ConfirmReservation "id35" "" (MkWorld (consent_env 80) released_service))) = released_service.
Proof.
  destruct (find_reservation "id35" (s_db released_service)) as [r1|] eqn:Hr; [|vm_compute in Hr; discriminate].
  assert (r_ID r1 = "id35" /\ r_Status r1 = ResReleased) as [Hid Hst].
  { vm_compute in Hr. injection Hr as <-. split; reflexivity. }
  refine (proj1 (final_reservations "id35" (consent_env 80) released_service r1 _ _ _ _) _).
  - intros n. reflexivity.
  - reflexivity.
  - rewrite Hid. reflexivity.
  - rewrite Hid. exact Hr.
  - exact Hst.
Defined.

Lemma revocation_witness :
  exists row, fst (GetConsent "id2" "shop" (MkWorld (consent_env 50)
    (w_st (snd (RevokeConsent "id2" "shop" "" (MkWorld (consent_env 40)
       (MkService (s_db demo_service) (Some empty_memory)))))))) = Ok row /\ c_Status row = StatusRevoked.
Proof.
  apply (revocation_is_visible "id2" "shop" "" (consent_env 40) (consent_env 50) (s_db demo_service) empty_memory).
  - intros n. reflexivity.
  - intros n. reflexivity.
  - apply demo_service_inv.
  - reflexivity.
  - vm_compute. reflexivity.
Defined.

(** A confirmation after the hold expired takes a consent over its limit: 80
pounds a month, 100 pounds used. *)
Definition late_history : list (env * consent_op) :=
  [ (consent_env 1, OpCreate demo_create);
    (consent_env 10, OpReserve (MkReserveInput "id2" "pay1" 5000 "GBP"));
    (consent_env 1000, OpReserve (MkReserveInput "id2" "pay2" 5000 "GBP"));
    (consent_env 1010, OpConfirm "id15" "pay1");
    (consent_env 1020, OpConfirm "id1005" "pay2") ].

(** Without timely confirmations the limit is broken: a confirmation
after the ten-minute hold is accepted ([ConfirmReservation] does not look at
[expires_at]), so the usage of a month exceeds the consent's monthly limit. *)
Theorem late_confirmation_exceeds_limit :
  let db := s_db (run_hist late_history (MkService empty_consents (Some empty_memory))) in
  map c_MaxMonthlyPence (consents db) = [8000] /\
  used_sum "id2" (end_time 0 late_history) db = 10000.
Proof. vm_compute. auto. Qed.
