(* ===== verification/ConsentCache.v ===== *)
(** * The cache of the consent service: what it answers, and for how long. *)
From S2P Require Import Prelude GoStrings Utf8 DomainErr World Uuid Redis Idempotency GoTime GoJson JsonParse JsonStruct ConsentRepo ConsentService ConsentTheory ConsentProps.
Local Open Scope Z_scope.
Local Open Scope go_scope.

(** A row as the database holds it: valid text, 64-bit amounts, and times whose
year has four digits. *)
Record row_ok (c : ConsentRow) : Prop := {
  row_text : Forall valid_utf8 [c_ID c; c_MerchantID c; c_ConsumerID c; c_BankConsentRef c; c_Status c; c_Currency c];
  row_amounts : in_int64 (c_MaxAmountPence c) /\ in_int64 (c_MaxMonthlyPence c);
  row_times : Forall (fun t => 0 <= year_of t <= 9999) [c_ValidFrom c; c_ValidUntil c; c_CreatedAt c; c_UpdatedAt c];
}.

Lemma plain_row c : plain_value maxNestingDepth (row_json c) = true.
Proof. apply (plain_value_mono 1); [unfold maxNestingDepth; lia|done]. Qed.

(** What is cached of a row is read as the row. *)
Lemma cached_row_reads c : row_ok c -> exists text, json_Marshal c = Some text /\ json_Unmarshal text = Some c.
Proof.
  intros [Ht [Ha Hm] Hy]. exists (json_text (row_json c)). split.
  { unfold json_Marshal. replace (forallb _ _) with true; [done|]. symmetry. apply forallb_forall. intros t Hin%list_elem_of_In.
    rewrite Forall_forall in Hy. apply Hy in Hin. apply andb_true_iff. rewrite !Z.leb_le. lia. }
  unfold json_Unmarshal, Unmarshal. destruct (parse_json_text (row_json c) (plain_row c)) as [-> _].
  rewrite !Forall_cons in Ht. rewrite !Forall_cons in Hy. destruct Ht as (T1 & T2 & T3 & T4 & T5 & T6 & _), Hy as (Y1 & Y2 & Y3 & Y4 & _).
  pose proof (dec_time_format _ zero_time Y1) as D1. pose proof (dec_time_format _ zero_time Y2) as D2.
  pose proof (dec_time_format _ zero_time Y3) as D3. pose proof (dec_time_format _ zero_time Y4) as D4.
  assert (forall n, in_int64 n -> dec_int 64 (JvNum (itoa n)) 0 = (n, false)) as Hint.
  { intros n Hn. apply dec_int_itoa; [lia|]. unfold in_int64, min_int64, max_int64 in Hn. lia. }
  pose proof (Hint _ Ha) as I1. pose proof (Hint _ Hm) as I2. clear Hint.
  destruct c as [f1 f2 f3 f4 f5 f6 f7 f8 f9 f10 f11 f12].
  cbn [c_ID c_MerchantID c_ConsumerID c_BankConsentRef c_Status c_MaxAmountPence c_MaxMonthlyPence c_Currency c_ValidFrom
    c_ValidUntil c_CreatedAt c_UpdatedAt row_json reads_as map fst snd] in *. unfold valid_utf8 in *.
  rewrite T1, T2, T3, T4, T5, T6.
  generalize dependent (itoa f6). intros s6 I1. generalize dependent (itoa f7). intros s7 I2.
  generalize dependent (to_valid (Format_RFC3339Nano f9)). intros s9 D1.
  generalize dependent (to_valid (Format_RFC3339Nano f10)). intros s10 D2.
  generalize dependent (to_valid (Format_RFC3339Nano f11)). intros s11 D3.
  generalize dependent (to_valid (Format_RFC3339Nano f12)). intros s12 D4.
  clear -D1 D2 D3 D4 I1 I2.
  lazy -[dec_int dec_time zero_time]. rewrite I1. lazy -[dec_int dec_time zero_time]. rewrite I2. lazy -[dec_time zero_time].
  rewrite D1. lazy -[dec_time zero_time]. rewrite D2. lazy -[dec_time zero_time]. rewrite D3. lazy -[dec_time zero_time]. by rewrite D4.
Qed.

Section Cached.
Context {R : Type} `{RedisLaws R} `{UuidLaws}.

(** The cache answers [c] under [id] until [until]. *)
Definition cached (id : string) (c : ConsentRow) (from until : Z) (r : R) : Prop :=
  forall t, from <= t < until -> exists text, live r t (cacheKey id) = Some text /\ json_Unmarshal text = Some c.

Lemma run_cacheSet c e db r (Q : unit -> world (Service R) -> Prop) :
  calm e -> row_ok c ->
  (forall r', cached (c_ID c) c (cur_clock e) (cur_clock e + cacheTTL) r' -> Q tt (MkWorld (bump e) (MkService db (Some r')))) ->
  wp (cacheSet c) Q (MkWorld e (MkService db (Some r))).
Proof.
  intros Hc Hrow HQ. unfold cacheSet. destruct (cached_row_reads c Hrow) as (text & -> & Hread). wp_step.
  pose proof (Set_law (cacheKey (c_ID c)) text cacheTTL (cur_clock e) (cur_uuid e) r) as Hlaw.
  destruct (r_Set _ _ _ _ _ r) as [a r'] eqn:Hq. destruct Hlaw as (-> & Hl & _).
  eapply run_on_rdb; [done|exact Hq|]. wp_step. apply HQ. intros t Ht. exists text. split; [|done].
  rewrite Hl by lia. by destruct (Z.ltb_spec t (cur_clock e + cacheTTL)); [|lia].
Qed.

(** A cached consent is answered from the cache alone, whatever the tables hold. *)
Lemma run_cached id mid c e db r from until : calm e -> is_empty id = false -> foreign mid c = false ->
  cached id c from until r -> from <= cur_clock e < until ->
  GetConsent id mid (MkWorld e (MkService db (Some r))) = (Ok c, MkWorld (bump e) (MkService db (Some r))).
Proof.
  intros Hc Hne Hf Hca Ht. destruct (Hca _ Ht) as (text & Hl & Hread).
  assert (Hwp : wp (GetConsent id mid) (fun a w => a = Ok c /\ w = MkWorld (bump e) (MkService db (Some r))) (MkWorld e (MkService db (Some r)))).
  { unfold GetConsent. rewrite Hne. wp_step. unfold cacheGet. wp_step. eapply run_on_rdb; [done|apply Get_law|].
    rewrite Hl. wp_step. rewrite Hread, Hf. by wp_step. }
  unfold wp in Hwp. destruct (GetConsent _ _ _) as [a w]. simpl in Hwp. destruct Hwp as [-> ->]. done.
Qed.

(** A consent that was read is answered from the cache for five minutes: when
GetConsent found the row in the tables, every later GetConsent of it within that
time answers the same row and calls the database not at all, whatever happened
to the tables meanwhile. *)
Theorem cached_consent_is_answered c mid e db r :
  calm e -> row_ok c -> pg_uuid (c_ID c) = Some (c_ID c) -> is_empty (c_ID c) = false -> foreign mid c = false ->
  find_consent (c_ID c) db = Some c -> (forall t, live r t (cacheKey (c_ID c)) = None) ->
  let a := GetConsent (c_ID c) mid (MkWorld e (MkService db (Some r))) in
  fst a = Ok c /\ exists r', s_rdb (w_st (snd a)) = Some r' /\
    forall e' db', calm e' -> cur_clock (bump (bump e)) <= cur_clock e' < cur_clock (bump (bump e)) + cacheTTL ->
      GetConsent (c_ID c) mid (MkWorld e' (MkService db' (Some r'))) = (Ok c, MkWorld (bump e') (MkService db' (Some r'))).
Proof.
  intros Hc Hrow Hid Hne Hf Hfind Hmiss.
  change (wp (GetConsent (c_ID c) mid) (fun a w => a = Ok c /\ exists r', s_rdb (w_st w) = Some r' /\
    forall e' db', calm e' -> cur_clock (bump (bump e)) <= cur_clock e' < cur_clock (bump (bump e)) + cacheTTL ->
      GetConsent (c_ID c) mid (MkWorld e' (MkService db' (Some r'))) = (Ok c, MkWorld (bump e') (MkService db' (Some r'))))
    (MkWorld e (MkService db (Some r)))).
  unfold GetConsent at 1. rewrite Hne. wp_step. unfold cacheGet. wp_step. eapply run_on_rdb; [done|apply Get_law|].
  rewrite Hmiss. do 2 wp_step.
  eapply run_pool_any; [done|unfold ConsentRepo.GetConsent; by rewrite (uuid_arg_run _ _ _ _ _ _ Hid)|].
  simpl. rewrite Hfind. simpl. rewrite Hf. wp_step. apply run_cacheSet; [done|done|]. intros r' Hca. wp_step.
  split; [done|]. exists r'. split; [done|]. intros e' db' Hc' Ht. by eapply run_cached.
Qed.

(** A GetConsent that misses the cache ends with caching the row it read. *)
Lemma reader_caches_last c mid e db r :
  calm e -> pg_uuid (c_ID c) = Some (c_ID c) -> is_empty (c_ID c) = false -> foreign mid c = false ->
  find_consent (c_ID c) db = Some c -> live r (cur_clock e) (cacheKey (c_ID c)) = None ->
  GetConsent (c_ID c) mid (MkWorld e (MkService db (Some r))) =
  (Ok c, snd (cacheSet c (MkWorld (bump (bump e)) (MkService db (Some r))))).
Proof.
  intros Hc Hid Hne Hf Hfind Hmiss.
  assert (Hwp : wp (GetConsent (c_ID c) mid)
    (fun a w => a = Ok c /\ w = snd (cacheSet c (MkWorld (bump (bump e)) (MkService db (Some r))))) (MkWorld e (MkService db (Some r)))).
  { unfold GetConsent. rewrite Hne. wp_step. unfold cacheGet. wp_step. eapply run_on_rdb; [done|apply Get_law|].
    rewrite Hmiss. do 2 wp_step.
    eapply run_pool_any; [done|unfold ConsentRepo.GetConsent; by rewrite (uuid_arg_run _ _ _ _ _ _ Hid)|].
    simpl. rewrite Hfind. simpl. rewrite Hf. wp_step. apply run_wp. intros [] w Hw. wp_step. by rewrite Hw. }
  unfold wp in Hwp. destruct (GetConsent _ _ _) as [a w]. simpl in Hwp. by destruct Hwp as [-> ->].
Qed.

(** C40.  A revocation can be hidden by a reader.  A GetConsent that misses the cache
reads the ACTIVE row and ends with caching it; when a RevokeConsent runs between
these two steps, it clears the cache before the reader fills it, and every
GetConsent of the next five minutes answers ACTIVE, although RevokeConsent has
answered and the tables say REVOKED. *)
Theorem revocation_hidden_by_reader c mid reason e0 e1 e2 e3 db r :
  calm e0 -> calm e1 -> calm e2 -> calm e3 -> consent_inv db -> row_ok c -> c_Status c = StatusActive ->
  pg_uuid (c_ID c) = Some (c_ID c) -> is_empty (c_ID c) = false -> foreign mid c = false ->
  find_consent (c_ID c) db = Some c -> live r (cur_clock e0) (cacheKey (c_ID c)) = None ->
  let reader_ends w := snd (cacheSet c w) in
  let revoked := RevokeConsent (c_ID c) mid reason (MkWorld e1 (MkService db (Some r))) in
  is_ok (fst revoked) = true -> cur_clock e2 <= cur_clock e3 < cur_clock e2 + cacheTTL ->
  GetConsent (c_ID c) mid (MkWorld e0 (MkService db (Some r))) =
    (Ok c, reader_ends (MkWorld (bump (bump e0)) (MkService db (Some r)))) /\
  let s := w_st (reader_ends (MkWorld e2 (w_st (snd revoked)))) in
  c_Status <$> find_consent (c_ID c) (s_db s) = Some StatusRevoked /\
  exists row, fst (GetConsent (c_ID c) mid (MkWorld e3 s)) = Ok row /\ c_Status row = StatusActive.
Proof.
  intros Hc0 Hc1 Hc2 Hc3 Hinv Hrow Hst Hid Hne Hf Hfind Hmiss reader_ends p Hp Ht.
  split; [by apply reader_caches_last|]. intros s.
  destruct (run_RevokeConsent (c_ID c) mid reason e1 db r Hc1 Hinv Hp) as (c1 & r1 & Hid1 & Hf1 & Hs1 & _ & Hr1 & _).
  fold p in Hf1, Hr1. rewrite Hid in Hid1. injection Hid1 as Hid1. rewrite <- Hid1 in Hf1.
  destruct (w_st (snd p)) as [db1 rdb1]. simpl in Hf1, Hr1. subst rdb1.
  assert (Hset : wp (cacheSet c) (fun _ w => exists r2, cached (c_ID c) c (cur_clock e2) (cur_clock e2 + cacheTTL) r2 /\
    w_st w = MkService db1 (Some r2)) (MkWorld e2 (MkService db1 (Some r1)))) by (apply run_cacheSet; [done|done|eauto]).
  destruct Hset as (r2 & Hca & Hs2). unfold s, reader_ends. rewrite Hs2. split.
  - cbn [s_db]. rewrite Hf1. simpl. by rewrite Hs1.
  - exists c. split; [|done]. by erewrite run_cached.
Qed.
End Cached.

(* ------------------------------------------------------------------ *)
(** ** Example *)

#[local] Existing Instance text_uuids.
#[local] Existing Instance text_uuid_laws.

Lemma hidden_revocation_witness :
  let revoked := RevokeConsent "id2" "shop" "" (MkWorld (consent_env 40) (MkService (s_db demo_service) (Some empty_memory))) in
  exists c row, find_consent "id2" (s_db demo_service) = Some c /\
    let s := w_st (snd (cacheSet c (MkWorld (consent_env 50) (w_st (snd revoked))))) in
    c_Status <$> find_consent "id2" (s_db s) = Some StatusRevoked /\
    fst (GetConsent "id2" "shop" (MkWorld (consent_env 60) s)) = Ok row /\ c_Status row = StatusActive.
Proof.
  intros revoked. destruct (find_consent "id2" (s_db demo_service)) as [c|] eqn:Hc; [|vm_compute in Hc; discriminate].
  assert (Hid : c_ID c = "id2") by (vm_compute in Hc; injection Hc as <-; reflexivity).
  destruct (revocation_hidden_by_reader c "shop" "" (consent_env 30) (consent_env 40) (consent_env 50) (consent_env 60)
    (s_db demo_service) empty_memory) as (_ & Hrev & row & Hrow & Hst).
  - intros n. reflexivity.
  - intros n. reflexivity.
  - intros n. reflexivity.
  - intros n. reflexivity.
  - apply demo_service_inv.
  - vm_compute in Hc. injection Hc as <-. split.
    + repeat constructor.
    + split; split; vm_compute; discriminate.
    + repeat constructor; vm_compute; discriminate.
  - vm_compute in Hc. injection Hc as <-. reflexivity.
  - rewrite Hid. reflexivity.
  - rewrite Hid. reflexivity.
  - vm_compute in Hc. injection Hc as <-. vm_compute. reflexivity.
  - rewrite Hid. exact Hc.
  - reflexivity.
  - rewrite Hid. vm_compute. reflexivity.
  - split; vm_compute; [discriminate|reflexivity].
  - rewrite Hid in Hrev, Hrow. exists c, row. split; [reflexivity|]. split; [exact Hrev|]. split; [exact Hrow|exact Hst].
Defined.
