(* ===== verification/ConsentHandler.v ===== *)
(** * The gRPC handler of the consent service
([services/consent-svc/internal/handler.go]). *)
From S2P Require Import Prelude GoStrings DomainErr World Proto Uuid Redis Idempotency LedgerStore ConsentRepo ConsentService ConsentTheory ConsentProps.
Local Open Scope Z_scope.
Local Open Scope go_scope.

Section Handler.
Context {R : Type} `{Redis R} `{UuidLib} `{Unicode} `{GrpcLib}.
Abbreviation St := (world (Service R)).

Definition moneyFromProto (m : option PMoney) : result error (Z * string) :=
  match m with
  | None => Err (DomainErr.New CodeValidation "money is required")
  | Some m =>
      let cur := ToUpper (TrimSpace (pm_currency m)) in
      let cur := if is_empty cur then defaultCurrency else cur in
      if negb (str_len cur =? 3) then Err (DomainErr.New CodeValidation "currency must be 3-letter ISO code")
      else if pm_amount_pence m <=? 0 then Err (DomainErr.New CodeValidation "amount must be positive")
      else Ok (pm_amount_pence m, cur)
  end.

Definition mapStatus (s : string) : ConsentStatus :=
  if bool_decide (s = StatusPending) then ConsentStatus_PENDING
  else if bool_decide (s = StatusActive) then ConsentStatus_ACTIVE
  else if bool_decide (s = StatusRevoked) then ConsentStatus_REVOKED
  else if bool_decide (s = StatusExpired) then ConsentStatus_EXPIRED
  else CONSENT_STATUS_UNSPECIFIED.

Definition consent_message (c : ConsentRow) (status : ConsentStatus) : Consent :=
  MkConsent (c_ID c) (c_MerchantID c) (c_ConsumerID c) (c_BankConsentRef c) status
    (MkPMoney (c_MaxAmountPence c) (c_Currency c)) (MkPMoney (c_MaxMonthlyPence c) (c_Currency c))
    (c_ValidFrom c) (c_ValidUntil c) (c_CreatedAt c) (c_UpdatedAt c).

(** An ACTIVE consent past its validity is shown as EXPIRED. *)
Definition toProtoConsent (c : ConsentRow) : M St Consent :=
  if bool_decide (c_Status c = StatusActive) then
    now <- time_Now ;;
    gret (consent_message c (if negb (now <? c_ValidUntil c) then ConsentStatus_EXPIRED
                             else mapStatus (c_Status c)))
  else gret (consent_message c (mapStatus (c_Status c))).

(** Answer a row, or the error as a status. *)
Definition answer (r : result error ConsentRow) : M St (result error Consent) :=
  match r with
  | Err e => gret (Err (ToGRPC e))
  | Ok row => c <- toProtoConsent row ;; gret (Ok c)
  end.

Definition CreateConsent (req : CreateConsentRequest) : M St (result error Consent) :=
  match moneyFromProto (ccr_max_per_transaction req) with
  | Err e => gret (Err (ToGRPC e))
  | Ok (maxTx, cur) =>
      match moneyFromProto (ccr_max_per_month req) with
      | Err e => gret (Err (ToGRPC e))
      | Ok (maxMo, cur2) =>
          let cur := if is_empty cur then cur2 else cur in
          r <- ConsentService.CreateConsent
                 (MkCreateInput (ccr_merchant_id req) (ccr_consumer_id req) (ccr_bank_consent_ref req)
                    maxTx maxMo cur (ccr_valid_until req)) ;;
          answer r
      end
  end.

Definition GetConsent (consentID merchantID : string) : M St (result error Consent) :=
  r <- ConsentService.GetConsent consentID merchantID ;; answer r.

Definition RevokeConsent (consentID merchantID reason : string) : M St (result error Consent) :=
  r <- ConsentService.RevokeConsent consentID merchantID reason ;; answer r.

Fixpoint toProtoConsents (rows : list ConsentRow) : M St (list Consent) :=
  match rows with
  | [] => gret []
  | c :: rows' => p <- toProtoConsent c ;; ps <- toProtoConsents rows' ;; gret (p :: ps)
  end.

(** Page size and offset of a request. *)
Definition page_args (p : option PageRequest) : result error (Z * Z) :=
  match p with
  | None => Ok (20, 0)
  | Some p =>
      let limit := if 0 <? pg_page_size p then pg_page_size p else 20 in
      let tok := TrimSpace (pg_page_token p) in
      if is_empty tok then Ok (limit, 0)
      else match Atoi tok with
           | Some n => if n <? 0
                       then Err (DomainErr.New CodeValidation "page_token must be an integer offset")
                       else Ok (limit, n)
           | None => Err (DomainErr.New CodeValidation "page_token must be an integer offset")
           end
  end.

Definition status_filter (s : ConsentStatus) : string :=
  match s with
  | ConsentStatus_PENDING => StatusPending
  | ConsentStatus_ACTIVE => StatusActive
  | ConsentStatus_REVOKED => StatusRevoked
  | ConsentStatus_EXPIRED => StatusExpired
  | _ => ""
  end.

Definition ListConsents (req : ListConsentsRequest) : M St (result error ListConsentsResponse) :=
  match page_args (lcr_page req) with
  | Err e => gret (Err (ToGRPC e))
  | Ok (limit, offset) =>
      r <- ConsentService.ListConsents (lcr_consumer_id req) (lcr_merchant_id req)
             (status_filter (lcr_status req)) limit offset ;;
      match r with
      | Err e => gret (Err (ToGRPC e))
      | Ok (rows, total) =>
          out <- toProtoConsents rows ;;
          let last := int64 (offset + Z.of_nat (length rows)) in
          gret (Ok (MkListConsentsResponse out (if last <? total then itoa last else "") (int32 total)))
      end
  end.

Definition ValidateAndReserve (req : ReserveRequest) : M St (result error ReserveResponse) :=
  match moneyFromProto (rr_amount req) with
  | Err e => gret (Err (ToGRPC e))
  | Ok (amt, cur) =>
      r <- ConsentService.ValidateAndReserve
             (MkReserveInput (rr_consent_id req) (rr_payment_id req) amt cur) ;;
      match r with
      | Err e => gret (Err (ToGRPC e))
      | Ok res => gret (Ok (MkReserveResponse (rr_ReservationID res)
                              (MkPMoney (rr_RemainingMonthly res) (rr_Currency res))
                              (rr_ConsumerID res) (rr_BankConsentRef res)))
      end
  end.

Definition ConfirmReservation (req : ConfirmRequest) : M St (result error unit) :=
  gmap_err ToGRPC (ConsentService.ConfirmReservation (cf_reservation_id req) (cf_payment_id req)).

Definition ReleaseReservation (req : ReleaseRequest) : M St (result error unit) :=
  gmap_err ToGRPC (ConsentService.ReleaseReservation (rl_reservation_id req) (rl_reason req)).

Definition GetRollingUsage (consentID : string) : M St (result error UsageResponse) :=
  r <- ConsentService.GetRollingUsage consentID ;;
  match r with
  | Err e => gret (Err (ToGRPC e))
  | Ok res => gret (Ok (MkUsageResponse (MkPMoney (ur_UsedPence res) (ur_Currency res))
                          (MkPMoney (ur_RemainingPence res) (ur_Currency res)) (ur_TxCount res)))
  end.

(* ------------------------------------------------------------------ *)
(** ** What clients see *)

(** The API never shows an ACTIVE consent that is past its validity: the
status of an answered consent is ACTIVE only if its row is ACTIVE and the clock
read for the answer is before valid_until. *)
Theorem active_is_valid c e (s : Service R) :
  cn_status (fst (toProtoConsent c (MkWorld e s))) = ConsentStatus_ACTIVE ->
  c_Status c = StatusActive /\ cur_clock e < c_ValidUntil c.
Proof.
  unfold toProtoConsent. case_bool_decide as Hs; simpl.
  - destruct (Z.ltb_spec (cur_clock e) (c_ValidUntil c)); simpl; done.
  - unfold mapStatus. repeat case_bool_decide; done.
Qed.

(** Stored amounts are positive and currencies three bytes, as checked here. *)
Lemma moneyFromProto_ok m amt cur :
  moneyFromProto m = Ok (amt, cur) -> 0 < amt /\ str_len cur = 3.
Proof.
  destruct m as [m|]; simpl; [|done]. destruct (Z.eqb_spec (str_len
    (if is_empty (ToUpper (TrimSpace (pm_currency m))) then defaultCurrency
     else ToUpper (TrimSpace (pm_currency m)))) 3); simpl; [|done].
  destruct (Z.leb_spec (pm_amount_pence m) 0); [done|]. intros [= <- <-]. auto.
Qed.
End Handler.

#[local] Existing Instance text_uuids.

Lemma active_is_valid_witness :
  let c := MkConsentRow "c1" "shop" "alice" "ref" StatusActive 100 200 "GBP" 0 10 0 0 in
  c_Status c = StatusActive /\ cur_clock (idem_env 0) < c_ValidUntil c.
Proof.
  apply (active_is_valid (R := Memory) (MkConsentRow "c1" "shop" "alice" "ref" StatusActive 100 200 "GBP" 0 10 0 0)
    (idem_env 0) (MkService empty_consents None)). reflexivity.
Defined.
