(* ===== verification/RiskRules.v ===== *)
(** * The risk engine ([services/risk-svc/internal/rules.go]).

A rule is a function of the request that may talk to Redis; the engine runs the
blocklist, the high-value rule and any extra rules, merges their outcomes, and
counts the payment for velocity only when it is not declined. *)
From S2P Require Import Prelude GoStrings DomainErr World Proto Redis Idempotency.
Local Open Scope Z_scope.
Local Open Scope go_scope.

(** [%q] of package [fmt]. *)
Class GoFmt := { fmt_q : string -> string }.

Definition Decision : Type := string.
Definition DecisionAllow : Decision := "ALLOW".
Definition DecisionReview : Decision := "REVIEW".
Definition DecisionDecline : Decision := "DECLINE".

Definition maxScore : Z := 100.
Definition velocityWindow : Z := 60 * second.
Definition velocityThreshold : Z := 5.
Definition velocityScoreDelta : Z := 40.
Definition highValuePence : Z := 50000.
Definition highValueScoreDelta : Z := 30.
Definition blocklistScoreDelta : Z := 100.

Record ScoreInput := MkScoreInput {
  si_MerchantID : string; si_ConsumerID : string; si_ConsentID : string; si_PaymentID : string;
  si_Amount : option PMoney; si_IPAddress : string; si_UserAgent : string }.

Definition scoreInputFromProto (req : option ScoreRequest) : ScoreInput :=
  match req with
  | None => MkScoreInput "" "" "" "" None "" ""
  | Some req => MkScoreInput (sr_merchant_id req) (sr_consumer_id req) (sr_consent_id req)
                  (sr_payment_id req) (sr_amount req) (sr_ip_address req) (sr_user_agent req)
  end.

Record RuleResult := MkRuleResult {
  ScoreDelta : Z; rule_Decision : Decision; RuleName : string; rule_Reason : string }.

Record ScoreResult := MkScoreResult {
  Score_ : Z; sc_Decision : Decision; sc_Reason : string; RulesTriggered : list string }.

Definition no_signal : RuleResult := MkRuleResult 0 DecisionAllow "" "".

Definition severity (d : Decision) : Z :=
  if bool_decide (d = DecisionDecline) then 3
  else if bool_decide (d = DecisionReview) then 2
  else if bool_decide (d = DecisionAllow) then 1
  else 0.

(** One iteration of the merge: score, decision, names and reasons so far. *)
Definition merge_step (acc : Z * Decision * list string * list string) (r : RuleResult)
  : Z * Decision * list string * list string :=
  let '(score, dec, names, reasons) := acc in
  if bool_decide (rule_Decision r = DecisionAllow) && (ScoreDelta r =? 0) && is_empty (RuleName r)
  then acc
  else (int64 (score + ScoreDelta r),
        if severity dec <? severity (rule_Decision r) then rule_Decision r else dec,
        if is_empty (RuleName r) then names else names ++ [RuleName r],
        if is_empty (rule_Reason r) then reasons else reasons ++ [rule_Reason r]).

Definition mergeResults (results : list RuleResult) : ScoreResult :=
  let '(score, dec, names, reasons) := fold_left merge_step results (0, DecisionAllow, [], []) in
  let score := if maxScore <? score then maxScore else score in
  let score := if score <? 0 then 0 else score in
  MkScoreResult score dec
    (match reasons with [] => "all rules passed" | _ => strings_Join "; " reasons end) names.

Section Rules.
Context {R : Type} `{Redis R} `{Unicode} `{GoFmt}.

(** The interface [Rule]. *)
Definition Rule : Type := ScoreInput -> M (world R) (result error RuleResult).

Definition blocklistKey (typ value : string) : string :=
  "risk:blocklist:" +:+ ToLower typ +:+ ":" +:+ value.

Definition velocityKey (consumerID : string) : string := "risk:velocity:" +:+ consumerID.

Fixpoint blocklist_checks (checks : list (string * string)) : M (world R) (result error RuleResult) :=
  match checks with
  | [] => gret (Ok no_signal)
  | (typ, value) :: checks' =>
      if is_empty value then blocklist_checks checks'
      else
        let key := blocklistKey typ value in
        ok <-? gmap_err (WrapError ("blocklist sismember " +:+ key)) (exec (r_SIsMember key value)) ;;
        if ok : bool
        then gret (Ok (MkRuleResult blocklistScoreDelta DecisionDecline "BLOCKLIST"
                         (typ +:+ " " +:+ fmt_q value +:+ " is blocklisted")))
        else blocklist_checks checks'
  end.

Definition BlocklistRule : Rule := fun req =>
  blocklist_checks [("consumer", si_ConsumerID req); ("merchant", si_MerchantID req);
                    ("ip", si_IPAddress req)].

Definition VelocityRule : Rule := fun req =>
  if is_empty (si_ConsumerID req) then gret (Ok no_signal)
  else
    let key := velocityKey (si_ConsumerID req) in
    n <-? gmap_err (WrapError "velocity incr") (exec (r_Incr key)) ;;
    ex <- (if n =? 1 then gmap_err (WrapError "velocity expire") (exec (r_Expire key velocityWindow))
           else gret (Ok tt)) ;;
    match ex with
    | Err e => gret (Err e)
    | Ok _ =>
        if velocityThreshold <? n
        then gret (Ok (MkRuleResult velocityScoreDelta DecisionReview "VELOCITY_EXCEEDED"
               ("consumer exceeded " +:+ itoa velocityThreshold +:+ " payments in 1m0s (count="
                +:+ itoa n +:+ ")")))
        else gret (Ok no_signal)
    end.

Definition HighValueRule : Rule := fun req =>
  let pence := match si_Amount req with Some m => pm_amount_pence m | None => 0 end in
  if highValuePence <? pence
  then gret (Ok (MkRuleResult highValueScoreDelta DecisionReview "HIGH_VALUE"
         ("amount " +:+ itoa pence +:+ " pence exceeds " +:+ itoa highValuePence +:+ " pence")))
  else gret (Ok no_signal).

(** The engine: whether it counts velocity, and its extra rules (a nil one is skipped). *)
Record Engine := MkEngine { eng_Velocity : bool; eng_Rules : list (option Rule) }.
Definition NewEngine : Engine := MkEngine true [].

(** [name != "" || dec != ALLOW || delta != 0] *)
Definition signals (r : RuleResult) : bool :=
  negb (is_empty (RuleName r)) || negb (bool_decide (rule_Decision r = DecisionAllow))
  || negb (ScoreDelta r =? 0).

Fixpoint run_rules (rules : list (option Rule)) (req : ScoreInput)
  : M (world R) (result error (list RuleResult)) :=
  match rules with
  | [] => gret (Ok [])
  | None :: rules' => run_rules rules' req
  | Some rule :: rules' =>
      r <-? rule req ;;
      rest <-? run_rules rules' req ;;
      gret (Ok (if signals r then r :: rest else rest))
  end.

Definition Score (eng : Engine) (req : ScoreInput) : M (world R) (result error ScoreResult) :=
  results <-? run_rules ([Some BlocklistRule; Some HighValueRule] ++ eng_Rules eng) req ;;
  let merged := mergeResults results in
  let finish (m : ScoreResult) : M (world R) (result error ScoreResult) :=
    gret (Ok (if is_empty (sc_Decision m)
              then MkScoreResult (Score_ m) DecisionAllow (sc_Reason m) (RulesTriggered m) else m)) in
  if negb (bool_decide (sc_Decision merged = DecisionDecline)) && eng_Velocity eng
  then
    v <-? VelocityRule req ;;
    finish (if signals v then mergeResults (results ++ [v]) else merged)
  else finish merged.

Definition NormalizeBlocklistType (typ : string) : result error string :=
  let t := ToUpper (TrimSpace typ) in
  if bool_decide (t = "CONSUMER") || bool_decide (t = "MERCHANT") || bool_decide (t = "IP")
  then Ok (ToLower (TrimSpace typ))
  else Err (PlainError "type must be CONSUMER, MERCHANT, or IP").

Definition AddToBlocklist (typ value : string) : M (world R) (result error unit) :=
  match NormalizeBlocklistType typ with
  | Err e => gret (Err e)
  | Ok t => if is_empty (TrimSpace value) then gret (Err (PlainError "value is required"))
            else exec (r_SAdd (blocklistKey t value) value)
  end.

Definition RemoveFromBlocklist (typ value : string) : M (world R) (result error unit) :=
  match NormalizeBlocklistType typ with
  | Err e => gret (Err e)
  | Ok t => if is_empty (TrimSpace value) then gret (Err (PlainError "value is required"))
            else exec (r_SRem (blocklistKey t value) value)
  end.

Definition DecisionToProto (d : Decision) : RiskDecision :=
  if bool_decide (d = DecisionReview) then RiskDecision_REVIEW
  else if bool_decide (d = DecisionDecline) then RiskDecision_DECLINE
  else RiskDecision_ALLOW.
End Rules.
Arguments Rule R : clear implicits.
Arguments Engine R : clear implicits.

(* ------------------------------------------------------------------ *)
(** ** Merging *)

Lemma severity_range d : 0 <= severity d <= 3.
Proof. unfold severity. repeat case_bool_decide; lia. Qed.

Lemma severity_decline d : severity d = 3 -> d = DecisionDecline.
Proof. unfold severity. repeat case_bool_decide; done. Qed.

(** What the fold has seen: the decision is the most severe so far. *)
Lemma merge_fold rs : forall score dec names reasons score' dec' names' reasons',
  fold_left merge_step rs (score, dec, names, reasons) = (score', dec', names', reasons') ->
  severity dec <= severity dec' /\ (forall r, r ∈ rs -> severity (rule_Decision r) <= Z.max (severity dec') 1) /\
  (dec' = dec \/ exists r, r ∈ rs /\ dec' = rule_Decision r).
Proof.
  induction rs as [|r rs IH]; intros score dec names reasons score' dec' names' reasons'; simpl.
  - intros [= <- <- <- <-]. split_and!; [lia|set_solver|auto].
  - destruct (_ && _ && _) eqn:Hskip.
    + intros Hf. destruct (IH _ _ _ _ _ _ _ _ Hf) as (H1 & H2 & H3). split_and!; [done| |set_solver].
      intros r' [->|Hr']%elem_of_cons; [|by apply H2].
      apply andb_true_iff in Hskip as [[Hd _]%andb_true_iff _]. apply bool_decide_eq_true in Hd. rewrite Hd. change (severity DecisionAllow) with 1. lia.
    + intros Hf. destruct (IH _ _ _ _ _ _ _ _ Hf) as (H1 & H2 & H3).
      destruct (Z.ltb_spec (severity dec) (severity (rule_Decision r))).
      * split_and!; [lia| |destruct H3 as [->|(x & Hx & ->)]; right; set_solver].
        intros r' [->|Hr']%elem_of_cons; [lia|by apply H2].
      * split_and!; [lia| |set_solver]. intros r' [->|Hr']%elem_of_cons; [lia|by apply H2].
Qed.

Lemma merge_severity rs r : r ∈ rs -> severity (rule_Decision r) <= Z.max (severity (sc_Decision (mergeResults rs))) 1.
Proof.
  unfold mergeResults. destruct (fold_left _ _ _) as [[[score dec] names] reasons] eqn:Hf. intros Hr.
  destruct (merge_fold _ _ _ _ _ _ _ _ _ Hf) as (_ & H2 & _). by apply H2.
Qed.

Lemma merge_range rs : 0 <= Score_ (mergeResults rs) <= 100.
Proof.
  unfold mergeResults. destruct (fold_left _ _ _) as [[[score dec] names] reasons]. simpl. unfold maxScore.
  destruct (Z.ltb_spec 100 score); simpl; [lia|]. destruct (Z.ltb_spec score 0); lia.
Qed.
