(* ===== verification/RiskHandler.v ===== *)
(** * The gRPC handler of the risk service
([services/risk-svc/internal/handler.go]) and what scoring guarantees. *)
From S2P Require Import Prelude GoStrings DomainErr World Proto Redis Idempotency RiskRules.
Local Open Scope Z_scope.
Local Open Scope go_scope.

Section Handler.
Context {R : Type} `{Redis R} `{Unicode} `{GoFmt} `{GrpcLib}.

Definition invalid (msg : string) : error := ToGRPC (DomainErr.New CodeValidation msg).

Definition Score (eng : Engine R) (req : option ScoreRequest) : M (world R) (result error ScoreResponse) :=
  match req with
  | None => gret (Err (invalid "request is required"))
  | Some r =>
      if is_empty (TrimSpace (sr_consumer_id r)) then gret (Err (invalid "consumer_id is required"))
      else if is_empty (TrimSpace (sr_merchant_id r)) then gret (Err (invalid "merchant_id is required"))
      else
        res <- RiskRules.Score eng (scoreInputFromProto req) ;;
        match res with
        | Err e => gret (Err (ToGRPC (DomainErr.Wrap CodeInternal "score failed" e)))
        | Ok x => gret (Ok (MkScoreResponse (int32 (Score_ x)) (DecisionToProto (sc_Decision x))
                              (sc_Reason x) (RulesTriggered x)))
        end
  end.

(** The two blocklist calls differ in the command they send. *)
Definition blocklist_call (op : string -> string -> M (world R) (result error unit)) (what : string)
    (req : option BlocklistRequest) : M (world R) (result error BlocklistEntry) :=
  match req with
  | None => gret (Err (invalid "request is required"))
  | Some req =>
      match NormalizeBlocklistType (bl_type req) with
      | Err e => gret (Err (invalid (Error_ e)))
      | Ok typ =>
          let value := TrimSpace (bl_value req) in
          if is_empty value then gret (Err (invalid "value is required"))
          else
            r <- op typ value ;;
            match r with
            | Err e => gret (Err (ToGRPC (DomainErr.Wrap CodeInternal what e)))
            | Ok _ =>
                now <- time_Now ;;
                id <- uuid_New ;;
                gret (Ok (MkBlocklistEntry id (ToUpper typ) value (bl_reason req) now))
            end
      end
  end.

Definition AddToBlocklist (req : option BlocklistRequest) : M (world R) (result error BlocklistEntry) :=
  blocklist_call RiskRules.AddToBlocklist "add to blocklist" req.

Definition RemoveFromBlocklist (req : option BlocklistRequest) : M (world R) (result error BlocklistEntry) :=
  blocklist_call RiskRules.RemoveFromBlocklist "remove from blocklist" req.
End Handler.

(* ------------------------------------------------------------------ *)
(** ** What scoring guarantees *)

Section Guarantees.
Context {R : Type} `{RedisLaws R} `{Unicode} `{GoFmt}.

(** Somebody of the request is on the blocklist. *)
Definition blocked (r : R) (req : ScoreInput) : Prop :=
  exists typ value, (typ, value) ∈ [("consumer", si_ConsumerID req); ("merchant", si_MerchantID req);
                                    ("ip", si_IPAddress req)] /\
    is_empty value = false /\ member r (blocklistKey typ value) value = true.

Lemma run_blocklist checks : forall e r, calm e ->
  wp (blocklist_checks checks) (fun a w => w_st w = r /\ calm (w_env w) /\ exists x, a = Ok x /\
    ((x = no_signal /\ forall typ value, (typ, value) ∈ checks -> is_empty value = false ->
        member r (blocklistKey typ value) value = false) \/
     (rule_Decision x = DecisionDecline /\ ScoreDelta x = 100 /\ RuleName x = "BLOCKLIST" /\
      exists typ value, (typ, value) ∈ checks /\ is_empty value = false /\
        member r (blocklistKey typ value) value = true))) (MkWorld e r).
Proof.
  induction checks as [|[typ value] checks IH]; intros e r Hc; simpl.
  - wp_step. split_and!; [done..|]. exists no_signal. split; [done|]. left. split; [done|]. set_solver.
  - destruct (is_empty value) eqn:He.
    + eapply wp_mono; [by apply IH|]. intros a w (Hs & Hcw & x & -> & Hx). split_and!; [done..|].
      exists x. split; [done|]. destruct Hx as [[-> Hn]|(? & ? & ? & t & v & ? & ? & ?)]; [left|right].
      * split; [done|]. intros t v [[= -> ->]|Hin]%elem_of_cons Hv; [congruence|by apply Hn].
      * split_and!; [done..|]. exists t, v. set_solver.
    + do 2 wp_step. eapply wp_exec_calm; [done|apply SIsMember_law|]. simpl.
      destruct (member r _ value) eqn:Hm.
      * wp_step. split_and!; [done..|]. eexists. split; [done|]. right. split_and!; [done..|].
        exists typ, value. set_solver.
      * eapply wp_mono; [by apply IH|]. intros a w (Hs & Hcw & x & -> & Hx). split_and!; [done..|].
        exists x. split; [done|]. destruct Hx as [[-> Hn]|(? & ? & ? & t & v & ? & ? & ?)]; [left|right].
        -- split; [done|]. intros t v [[= -> ->]|Hin]%elem_of_cons Hv; [done|by apply Hn].
        -- split_and!; [done..|]. exists t, v. set_solver.
Qed.

Lemma run_high_value req e (r : R) (Q : result error RuleResult -> world R -> Prop) :
  (forall x, ScoreDelta x = 0 /\ x = no_signal \/ ScoreDelta x = 30 /\ rule_Decision x = DecisionReview ->
     Q (Ok x) (MkWorld e r)) ->
  wp (HighValueRule req) Q (MkWorld e r).
Proof. intros HQ. unfold HighValueRule. cbv zeta. wp_step; wp_step; apply HQ; auto. Qed.

Lemma merge_decline rs r : r ∈ rs -> rule_Decision r = DecisionDecline -> sc_Decision (mergeResults rs) = DecisionDecline.
Proof.
  intros Hr Hd. pose proof (merge_severity rs r Hr) as Hs. rewrite Hd in Hs. apply severity_decline.
  pose proof (severity_range (sc_Decision (mergeResults rs))).
  change (severity DecisionDecline) with 3 in Hs. lia.
Qed.

Lemma blocked_score x y rs :
  rule_Decision x = DecisionDecline -> ScoreDelta x = 100 -> RuleName x = "BLOCKLIST" ->
  ScoreDelta y = 0 /\ y = no_signal \/ ScoreDelta y = 30 /\ rule_Decision y = DecisionReview ->
  rs = x :: (if signals y then [y] else []) -> Score_ (mergeResults rs) = 100.
Proof.
  intros Hd Hdelta Hname Hy ->. destruct x as [dx decx nx rx], y as [dy decy ny ry]. simpl in *. subst.
  destruct Hy as [[_ [= -> -> -> ->]]|[-> ->]]; [reflexivity|]. simpl.
  destruct (signals _); reflexivity.
Qed.

Lemma run_Score_blocked req e r :
  calm e -> blocked r req ->
  wp (RiskRules.Score NewEngine req) (fun a w => exists out, a = Ok out /\
    sc_Decision out = DecisionDecline /\ Score_ out = 100 /\ w_st w = r) (MkWorld e r).
Proof.
  intros Hc (typ & value & Hin & Hv & Hm).
  unfold RiskRules.Score. wp_step. simpl. wp_step. eapply wp_mono; [by apply run_blocklist|].
  intros a [e1 r1] (Hs & Hc1 & x & -> & Hx). simpl in *. subst r1.
  destruct Hx as [[-> Hn]|(Hd & Hdelta & Hname & _)]; [by rewrite (Hn typ value Hin Hv) in Hm|].
  do 2 wp_step. apply run_high_value. intros y Hy. do 4 wp_step.
  assert (signals x = true) as -> by (unfold signals; by rewrite Hname).
  set (rs := x :: _). assert (Hdec : sc_Decision (mergeResults rs) = DecisionDecline)
    by (apply (merge_decline rs x); [set_solver|done]).
  rewrite Hdec, bool_decide_eq_true_2 by done. simpl. wp_step.
  exists (mergeResults rs). split_and!; [done|done| |done]. by eapply blocked_score.
Qed.

(** C25.  Blocklisted parties are declined: when Redis answers, a request whose
consumer, merchant or IP address is on the blocklist scores DECLINE with the
maximal score 100, and the velocity counter of the consumer is not touched. *)
Theorem blocklisted_is_declined req e r :
  calm e -> blocked r req ->
  let p := RiskRules.Score NewEngine req (MkWorld e r) in
  exists out, fst p = Ok out /\ sc_Decision out = DecisionDecline /\ Score_ out = 100 /\ w_st (snd p) = r.
Proof. intros Hc Hb. apply (run_Score_blocked req e r Hc Hb). Qed.

(** Whatever the rules answer and whatever extra rules an engine has, a
score is between 0 and 100, its decision is at least as severe as that of every
rule that fired, and it is one of theirs (or ALLOW). *)
Theorem merge_is_most_severe rs :
  let out := mergeResults rs in
  0 <= Score_ out <= 100 /\
  (forall r, r ∈ rs -> severity (rule_Decision r) <= severity (sc_Decision out)) /\
  (sc_Decision out = DecisionAllow \/ exists r, r ∈ rs /\ sc_Decision out = rule_Decision r).
Proof.
  split; [apply merge_range|]. unfold mergeResults.
  destruct (fold_left _ _ _) as [[[score dec] names] reasons] eqn:Hf. simpl.
  destruct (merge_fold _ _ _ _ _ _ _ _ _ Hf) as (Hge & Hall & Hone). split; [|done].
  intros r Hr. specialize (Hall r Hr). change (severity DecisionAllow) with 1 in Hge. lia.
Qed.

(** Blocklist round trip: after [AddToBlocklist] of a consumer every
score of that consumer is DECLINE, and after [RemoveFromBlocklist] the consumer
is not a member any more. *)
Theorem blocklist_roundtrip value req e e' e'' r :
  calm e -> calm e' -> calm e'' -> TrimSpace value = value -> is_empty value = false ->
  si_ConsumerID req = value ->
  let r1 := w_st (snd (RiskRules.AddToBlocklist "CONSUMER" value (MkWorld e r))) in
  let r2 := w_st (snd (RiskRules.RemoveFromBlocklist "CONSUMER" value (MkWorld e'' r1))) in
  (exists out, fst (RiskRules.Score NewEngine req (MkWorld e' r1)) = Ok out /\ sc_Decision out = DecisionDecline) /\
  member r2 (blocklistKey "consumer" value) value = false.
Proof.
  intros Hc Hc' Hc'' Htrim Hne Hreq r1 r2.
  assert (Hadd : member r1 (blocklistKey "consumer" value) value = true).
  { change (wp (RiskRules.AddToBlocklist "CONSUMER" value)
      (fun _ w => member (w_st w) (blocklistKey "consumer" value) value = true) (MkWorld e r)).
    unfold RiskRules.AddToBlocklist. change (NormalizeBlocklistType "CONSUMER") with (Ok (E := error) "consumer").
    rewrite Htrim, Hne.
    pose proof (SAdd_law (blocklistKey "consumer" value) value (cur_clock e) (cur_uuid e) r) as Hl.
    destruct (r_SAdd _ _ _ _ r) as [a s] eqn:Hq. eapply wp_exec_calm; [done|exact Hq|]. by destruct Hl as (_ & ? & _). }
  split.
  - destruct (run_Score_blocked req e' r1 Hc') as (out & Hq & Hd & _); [|by exists out].
    exists "consumer", value. rewrite Hreq. split_and!; [set_solver|done|done].
  - change (wp (RiskRules.RemoveFromBlocklist "CONSUMER" value)
      (fun _ w => member (w_st w) (blocklistKey "consumer" value) value = false) (MkWorld e'' r1)).
    unfold RiskRules.RemoveFromBlocklist. change (NormalizeBlocklistType "CONSUMER") with (Ok (E := error) "consumer").
    rewrite Htrim, Hne.
    pose proof (SRem_law (blocklistKey "consumer" value) value (cur_clock e'') (cur_uuid e'') r1) as Hl.
    destruct (r_SRem _ _ _ _ r1) as [a s] eqn:Hq. eapply wp_exec_calm; [done|exact Hq|]. by destruct Hl as (_ & ? & _).
Qed.
End Guarantees.

(* ------------------------------------------------------------------ *)
(** ** Witnesses *)

#[local] Existing Instance ascii_tables.
#[local] Instance plain_quotes : GoFmt := {| fmt_q s := s |}.

Definition demo_request : ScoreInput := MkScoreInput "shop" "mallory" "c1" "p1" (Some (MkPMoney 60000 "GBP")) "" "".

Definition demo_blocklist : Memory :=
  w_st (snd (RiskRules.AddToBlocklist "CONSUMER" "mallory" (MkWorld (idem_env 0) empty_memory))).

Lemma blocklisted_witness :
  let p := RiskRules.Score NewEngine demo_request (MkWorld (idem_env 5) demo_blocklist) in
  exists out, fst p = Ok out /\ sc_Decision out = DecisionDecline /\ Score_ out = 100 /\ w_st (snd p) = demo_blocklist.
Proof.
  apply (blocklisted_is_declined demo_request (idem_env 5) demo_blocklist).
  - intros n. reflexivity.
  - exists "consumer", "mallory". split; [set_solver|]. split; vm_compute; reflexivity.
Defined.

Lemma blocklist_roundtrip_witness :
  let r1 := w_st (snd (RiskRules.AddToBlocklist "CONSUMER" "mallory" (MkWorld (idem_env 0) empty_memory))) in
  (exists out, fst (RiskRules.Score NewEngine demo_request (MkWorld (idem_env 5) r1)) = Ok out /\
     sc_Decision out = DecisionDecline) /\
  member (w_st (snd (RiskRules.RemoveFromBlocklist "CONSUMER" "mallory" (MkWorld (idem_env 9) r1))))
    (blocklistKey "consumer" "mallory") "mallory" = false.
Proof.
  apply (blocklist_roundtrip "mallory" demo_request (idem_env 0) (idem_env 5) (idem_env 9) empty_memory);
    try (intros n; reflexivity); vm_compute; reflexivity.
Defined.
