(* ===== verification/Auth.v ===== *)
(** * Bearer tokens ([pkg/shared/auth/jwt.go]).

[golang-jwt] is the class [JwtLib]: signing claims with HS256 under a secret, and
parsing a token with a key function that is asked for the key of the token's
algorithm.  [JwtLaws] states its documented behaviour for claims of plain text
and whole seconds: they can be signed, and the token parses, under a key function
that gives the key it was signed with for HS256, to the claims it was made of
until its expiry, and not from then on; a token is visible text. *)
From S2P Require Import Prelude GoStrings DomainErr World Idempotency.
From Stdlib Require Import Ascii.
Local Open Scope Z_scope.
Local Open Scope go_scope.

Record Claims := MkClaims {
  cl_MerchantID : string;
  cl_ID : string;
  cl_Subject : string;
  cl_ExpiresAt : Z;
  cl_IssuedAt : Z;
}.

Record TokenService := MkTokenService { ts_secret : string; ts_ttl : Z }.

Definition NewTokenService (secret : string) (ttl : Z) : TokenService :=
  MkTokenService secret (if ttl =? 0 then hour else ttl).

(** [jwt.NewNumericDate], as an instant. *)
Definition NewNumericDate (t : Z) : Z := t / second * second.

Class JwtLib := {
  jwt_SignHS256 : Claims -> string -> result error string;
  jwt_ParseWithClaims : string -> (string -> option string) -> Z -> result error Claims;
}.

(** Visible ASCII, and a time JSON numbers carry exactly. *)
Definition plain_text (s : string) : Prop := Forall (fun c => visible c = true) (String.list_ascii_of_string s).
Definition whole_second (t : Z) : Prop := NewNumericDate t = t /\ 0 <= t / second < 2 ^ 53.
Definition plain_claims (c : Claims) : Prop :=
  plain_text (cl_MerchantID c) /\ plain_text (cl_ID c) /\ plain_text (cl_Subject c) /\
  whole_second (cl_ExpiresAt c) /\ whole_second (cl_IssuedAt c).

Class JwtLaws `{JwtLib} := {
  jwt_sign_parse : forall c secret t key now, plain_claims c -> jwt_SignHS256 c secret = Ok t -> key "HS256" = Some secret ->
    now < cl_ExpiresAt c -> jwt_ParseWithClaims t key now = Ok c;
  jwt_sign_expired : forall c secret t key now, plain_claims c -> jwt_SignHS256 c secret = Ok t -> key "HS256" = Some secret ->
    cl_ExpiresAt c <= now -> is_ok (jwt_ParseWithClaims t key now) = false;
  jwt_token_text : forall c secret t, jwt_SignHS256 c secret = Ok t -> plain_text t /\ t <> "";
  jwt_sign_total : forall c secret, plain_claims c -> is_ok (jwt_SignHS256 c secret) = true;
}.

Section Tokens.
Context `{JwtLib} {S : Type}.

(** [Issue]: the token and the instant it expires. *)
Definition Issue (s : TokenService) (merchantID : string) : M (world S) (result error (string * Z)) :=
  now <- time_Now ;;
  let expiresAt := now + ts_ttl s in
  id <- uuid_New ;;
  iat <- time_Now ;;
  let claims := MkClaims merchantID id merchantID (NewNumericDate expiresAt) (NewNumericDate iat) in
  gret (match jwt_SignHS256 claims (ts_secret s) with
        | Ok token => Ok (token, expiresAt)
        | Err e => Err e
        end).

(** The key function: the secret for HS256, an error for any other algorithm. *)
Definition keyfunc (s : TokenService) (alg : string) : option string :=
  if bool_decide (alg = "HS256") then Some (ts_secret s) else None.

Definition Parse (s : TokenService) (token : string) : M (world S) (result error Claims) :=
  now <- time_Now ;;
  gret (jwt_ParseWithClaims token (keyfunc s) now).

Context `{!JwtLaws}.

(** What [Issue] returns, and what [Parse] makes of it at any time. *)
Lemma issue_spec s mid e (st : S) :
  plain_text mid -> (forall n, plain_text (uuid_at e n)) ->
  0 <= (cur_clock e + ts_ttl s) / second < 2 ^ 53 -> 0 <= cur_clock (bump (bump e)) / second < 2 ^ 53 ->
  exists token w1, Issue s mid (MkWorld e st) = (Ok (token, cur_clock e + ts_ttl s), w1) /\ w_st w1 = st /\
    plain_text token /\ token <> "" /\
  forall e2 (st2 : S),
    if cur_clock e2 <? NewNumericDate (cur_clock e + ts_ttl s)
    then exists c, fst (Parse s token (MkWorld e2 st2)) = Ok c /\ cl_MerchantID c = mid
    else is_ok (fst (Parse s token (MkWorld e2 st2))) = false.
Proof.
  intros Hmid Hids Hexp Hiat.
  set (claims := MkClaims mid (cur_uuid (bump e)) mid (NewNumericDate (cur_clock e + ts_ttl s))
                   (NewNumericDate (cur_clock (bump (bump e))))).
  assert (Hwhole : forall t, 0 <= t / second < 2 ^ 53 -> whole_second (NewNumericDate t)).
  { intros t Ht. unfold whole_second, NewNumericDate. by rewrite Z.div_mul. }
  assert (Hplain : plain_claims claims) by (split_and!; [done|apply Hids|done|by apply Hwhole..]).
  pose proof (jwt_sign_total claims (ts_secret s) Hplain) as Htot.
  destruct (jwt_SignHS256 claims (ts_secret s)) as [token|err] eqn:Hsign; [|done].
  exists token, (MkWorld (bump (bump (bump e))) st). split; [|split; [done|]; split; [by eapply jwt_token_text|split; [by eapply jwt_token_text|]]].
  - unfold Issue, gbind, time_Now, uuid_New, gret. cbn [w_env w_st].
    change (jwt_SignHS256 (MkClaims mid (cur_uuid (bump e)) mid _ _) (ts_secret s)) with (jwt_SignHS256 claims (ts_secret s)).
    by rewrite Hsign.
  - intros e2 st2. unfold Parse, gbind, time_Now, gret. cbn [w_env w_st fst].
    assert (Hkey : keyfunc s "HS256" = Some (ts_secret s)) by done.
    destruct (Z.ltb_spec (cur_clock e2) (NewNumericDate (cur_clock e + ts_ttl s))).
    + exists claims. split; [|done]. by apply (jwt_sign_parse claims (ts_secret s)).
    + by apply (jwt_sign_expired claims (ts_secret s)).
Qed.

(** A token is good for exactly its time to live, to the second: [Issue]
succeeds, and [Parse] of the token gives the merchant it was issued to as long as
the clock is before the second of the expiry, and fails from then on. *)
Theorem issue_parse s mid e (st : S) :
  plain_text mid -> (forall n, plain_text (uuid_at e n)) ->
  0 <= (cur_clock e + ts_ttl s) / second < 2 ^ 53 -> 0 <= cur_clock (bump (bump e)) / second < 2 ^ 53 ->
  exists token w1, Issue s mid (MkWorld e st) = (Ok (token, cur_clock e + ts_ttl s), w1) /\ w_st w1 = st /\
    plain_text token /\ token <> "" /\
  forall e2 (st2 : S),
    if cur_clock e2 <? NewNumericDate (cur_clock e + ts_ttl s)
    then exists c, fst (Parse s token (MkWorld e2 st2)) = Ok c /\ cl_MerchantID c = mid
    else is_ok (fst (Parse s token (MkWorld e2 st2))) = false.
Proof. apply issue_spec. Qed.
End Tokens.

(* ------------------------------------------------------------------ *)
(** ** Examples *)

(** Numbers as texts of bits, and back. *)
Fixpoint bits (p : positive) : string :=
  match p with xH => "" | xO p' => String "0"%char (bits p') | xI p' => String "1"%char (bits p') end.
Fixpoint unbits (s : string) : positive :=
  match s with
  | "" => xH
  | String c s' => if bool_decide (c = "1"%char) then xI (unbits s') else xO (unbits s')
  end.
Lemma unbits_bits p : unbits (bits p) = p.
Proof. induction p as [p IH|p IH|]; simpl; by rewrite ?IH. Qed.

Lemma bits_visible p : plain_text (bits p).
Proof. induction p; simpl; constructor; done. Qed.

(** A library in which a token is its claims and the secret, written in bits. *)
Definition bit_jwt : JwtLib := {|
  jwt_SignHS256 c secret := Ok (String "t"%char (bits (encode
    (secret, (cl_MerchantID c, (cl_ID c, (cl_Subject c, (cl_ExpiresAt c, cl_IssuedAt c))))))));
  jwt_ParseWithClaims t key now :=
    match t, key "HS256" with
    | String _ body, Some secret =>
        match decode (A := string * (string * (string * (string * (Z * Z))))) (unbits body) with
        | Some (s, (m, (i, (u, (x, a))))) =>
            if bool_decide (s = secret) && (now <? x) then Ok (MkClaims m i u x a) else Err (PlainError "invalid token")
        | None => Err (PlainError "token is malformed")
        end
    | _, _ => Err (PlainError "token is malformed")
    end;
|}.

Lemma bit_jwt_laws : @JwtLaws bit_jwt.
Proof.
  constructor; cbn [jwt_SignHS256 jwt_ParseWithClaims bit_jwt].
  - intros c secret t key now _ [= <-] -> Hexp. cbv iota. rewrite unbits_bits, decode_encode.
    rewrite bool_decide_eq_true_2 by done. apply Z.ltb_lt in Hexp. rewrite Hexp. by destruct c.
  - intros c secret t key now _ [= <-] -> Hexp. cbv iota. rewrite unbits_bits, decode_encode.
    apply Z.ltb_ge in Hexp. by rewrite Hexp, andb_false_r.
  - intros c secret t [= <-]. split; [|done]. constructor; [done|apply bits_visible].
  - done.
Qed.

Definition token_env (n : nat) : env := MkEnv n (fun n => Z.of_nat n * minute) (fun _ => "jti") (fun _ => NoFault).
Definition demo_tokens : TokenService := NewTokenService "s3cret" 0.

Lemma issue_parse_witness : exists token w1,
  @Issue bit_jwt unit demo_tokens "m1" (MkWorld (token_env 0) tt) = (Ok (token, hour), w1) /\
  (exists c, fst (@Parse bit_jwt unit demo_tokens token (MkWorld (token_env 59) tt)) = Ok c /\ cl_MerchantID c = "m1") /\
  is_ok (fst (@Parse bit_jwt unit demo_tokens token (MkWorld (token_env 60) tt))) = false.
Proof.
  destruct (@issue_parse bit_jwt unit bit_jwt_laws demo_tokens "m1" (token_env 0) tt) as (token & w1 & Hrun & _ & _ & _ & Hp).
  - by repeat constructor.
  - intros n. by repeat constructor.
  - vm_compute. split; [discriminate|reflexivity].
  - vm_compute. split; [discriminate|reflexivity].
  - exists token, w1. split; [exact Hrun|]. split.
    + exact (Hp (token_env 59) tt).
    + exact (Hp (token_env 60) tt).
Defined.
