(* ===== verification/Config.v ===== *)
(** * Settings from the environment ([pkg/shared/config/env.go],
[pkg/shared/db/pgx.go], the helpers of the [cmd/main.go] files).

The environment of a process is a function from names to texts; [os.Getenv] does
not tell an unset variable from an empty one.  [time.ParseDuration] is written out
with its overflow checks; a fraction is cut at the nanosecond, which is what the
code's floating-point product gives as long as the product is a whole number of
nanoseconds.  [strconv.ParseFloat] is the class [FloatText]. *)
From S2P Require Import Prelude GoStrings DomainErr Idempotency.
From Stdlib Require Import Ascii QArith.
Local Open Scope Z_scope.

Definition environ : Type := string -> string.

Class FloatText := { ParseFloat : string -> option Q }.

(* ------------------------------------------------------------------ *)
(** ** Texts *)

(** [strings.Split] by one character. *)
Fixpoint split_on (sep : ascii) (s : string) : list string :=
  match s with
  | EmptyString => [EmptyString]
  | String c s' =>
      if bool_decide (c = sep) then EmptyString :: split_on sep s'
      else match split_on sep s' with
           | part :: parts => String c part :: parts
           | [] => [String c EmptyString]
           end
  end.

(** [strings.Cut] at one character. *)
Fixpoint cut_on (sep : ascii) (s : string) : option (string * string) :=
  match s with
  | EmptyString => None
  | String c s' => if bool_decide (c = sep) then Some (EmptyString, s')
                   else '(a, b) ← cut_on sep s'; Some (String c a, b)
  end.

(* ------------------------------------------------------------------ *)
(** ** [time.ParseDuration] *)

Definition two63 : Z := 2 ^ 63.

(** [leadingInt]: the value of the digits, unless it leaves 2^63. *)
Fixpoint leadingInt (l : list ascii) (x : Z) : option Z :=
  match l with
  | [] => Some x
  | c :: l' =>
      if two63 / 10 <? x then None
      else let x := x * 10 + (byte_of c - 48) in if two63 <? x then None else leadingInt l' x
  end.

(** [leadingFraction]: digits and scale, up to the digits that fit. *)
Fixpoint leadingFraction (l : list ascii) (x scale : Z) : Z * Z :=
  match l with
  | [] => (x, scale)
  | c :: l' =>
      if (two63 - 1) / 10 <? x then (x, scale)
      else let y := x * 10 + (byte_of c - 48) in
           if two63 <? y then (x, scale) else leadingFraction l' y (scale * 10)
  end.

(** [unitMap]. *)
Definition unitMap (u : string) : option Z :=
  if bool_decide (u = "ns") then Some 1
  else if bool_decide (u = "us") then Some 1000
  else if bool_decide (u = String (ascii_of 0xC2) (String (ascii_of 0xB5) "s")) then Some 1000
  else if bool_decide (u = String (ascii_of 0xCE) (String (ascii_of 0xBC) "s")) then Some 1000
  else if bool_decide (u = "ms") then Some millisecond
  else if bool_decide (u = "s") then Some second
  else if bool_decide (u = "m") then Some minute
  else if bool_decide (u = "h") then Some hour
  else None.

(** One number with its unit: its nanoseconds and the rest. *)
Definition parse_term (l : list ascii) : option (Z * list ascii) :=
  let '(digits, l1) := span is_digit l in
  v ← leadingInt digits 0;
  let '(frac, l2) := match l1 with
                     | "."%char :: l1' => span is_digit l1'
                     | _ => ([], l1)
                     end in
  let '(f, scale) := leadingFraction frac 0 1 in
  if (length digits =? 0)%nat && (length frac =? 0)%nat then None
  else
    let '(u, l3) := span (fun c => negb (is_digit c || bool_decide (c = "."%char))) l2 in
    unit ← unitMap (String.string_of_list_ascii u);
    if two63 / unit <? v then None
    else let d := v * unit + (f * unit) / scale in
         if two63 <? d then None else Some (d, l3).

(** Every round takes a character at least, so the length of the text is enough fuel. *)
Fixpoint parse_terms (fuel : nat) (l : list ascii) (d : Z) : option Z :=
  match l, fuel with
  | [], _ => Some d
  | _, O => None
  | _, S fuel' =>
      '(v, rest) ← parse_term l;
      let d := (d + v) mod 2 ^ 64 in
      if two63 <? d then None else parse_terms fuel' rest d
  end.

Definition ParseDuration (s : string) : option Z :=
  let '(neg, l) := match String.list_ascii_of_string s with
                   | "-"%char :: l => (true, l)
                   | "+"%char :: l => (false, l)
                   | l => (false, l)
                   end in
  match l with
  | [] => None
  | ["0"%char] => Some 0
  | _ =>
      d ← parse_terms (length l) l 0;
      if neg : bool then Some (- d) else if two63 - 1 <? d then None else Some d
  end.

(* ------------------------------------------------------------------ *)
(** ** Package [config] *)

Section Env.
Context `{FloatText} (env : environ).

Definition Get (key def : string) : string := if is_empty (env key) then def else env key.

Definition GetInt (key : string) (def : Z) : Z :=
  if is_empty (env key) then def else match Atoi (env key) with Some n => n | None => def end.

Definition GetDuration (key : string) (def : Z) : Z :=
  if is_empty (env key) then def else match ParseDuration (env key) with Some d => d | None => def end.

Definition GetFloat (key : string) (def : Q) : Q :=
  if is_empty (env key) then def else match ParseFloat (env key) with Some f => f | None => def end.
End Env.

(* ------------------------------------------------------------------ *)
(** ** The pool ([db.NewPool]) *)

Record PoolConfig := MkPoolConfig {
  MaxConns : Z; MinConns : Z; MaxConnLifetime : Z; MaxConnIdleTime : Z; HealthCheckPeriod : Z }.

(** The limits on top of what pgxpool read from the URL. *)
Definition pool_limits (env : environ) (cfg : PoolConfig) : PoolConfig :=
  let maxConns := int32 (GetInt env "DB_MAX_CONNS" 20) in
  let minConns := int32 (GetInt env "DB_MIN_CONNS" 2) in
  let idleTime := GetDuration env "DB_MAX_IDLE_TIME" (30 * minute) in
  let lifeTime := GetDuration env "DB_MAX_LIFETIME" hour in
  MkPoolConfig (if 0 <? maxConns then maxConns else MaxConns cfg)
    (if 0 <=? minConns then minConns else MinConns cfg) lifeTime idleTime minute.

(** pgxpool: reading a URL, opening a pool, a ping. *)
Class PgxPool := {
  ParseConfig : string -> result error PoolConfig;
  NewWithConfig : string -> PoolConfig -> result error unit;
  pool_Ping : string -> result error unit;
}.

Definition NewPool `{PgxPool} (env : environ) (databaseURL : string) : result error PoolConfig :=
  res_bind (map_err (WrapError "parse db url") (ParseConfig databaseURL)) (fun cfg =>
  let cfg := pool_limits env cfg in
  res_bind (map_err (WrapError "connect db") (NewWithConfig databaseURL cfg)) (fun _ =>
  res_bind (map_err (WrapError "ping db") (pool_Ping databaseURL)) (fun _ => Ok cfg))).

(* ------------------------------------------------------------------ *)
(** ** Helpers of the [main] packages *)

Section Helpers.
Context `{Unicode}.

Definition splitCSV (s : string) : list string :=
  where_ (fun p => negb (is_empty p)) (map TrimSpace (split_on ","%char s)).

Inductive Level := LevelDebug | LevelInfo | LevelWarn | LevelError.

Definition level_of (s : string) : Level :=
  if bool_decide (s = "debug") then LevelDebug
  else if bool_decide (s = "warn") || bool_decide (s = "warning") then LevelWarn
  else if bool_decide (s = "error") then LevelError
  else LevelInfo.
Definition parseLogLevel (s : string) : Level := level_of (ToLower (TrimSpace s)).
End Helpers.

(* ------------------------------------------------------------------ *)
(** ** What the settings are *)

Example duration_examples :
  (ParseDuration "30s", ParseDuration "1h30m", ParseDuration "1.5s", ParseDuration "-2ms", ParseDuration "0",
   ParseDuration "30", ParseDuration "", ParseDuration "1d", ParseDuration "9223372036854775807ns", ParseDuration "2562048h") =
  (Some (30 * second), Some (90 * minute), Some (1500 * millisecond), Some (-2 * millisecond), Some 0,
   None, None, None, Some max_int64, None).
Proof. vm_compute. reflexivity. Qed.

Lemma parse_digits_leading l : forall acc n, Forall (fun c => is_digit c = true) l -> 0 <= acc ->
  parse_digits l acc = Some n -> acc <= n /\ (n < two63 -> leadingInt l acc = Some n).
Proof.
  induction l as [|c l IH]; simpl; intros acc n Hl Hacc; [by intros [= <-]|].
  inversion Hl as [|? ? Hc Hl']; subst. unfold is_digit in Hc. rewrite Hc. intros Hp.
  unfold between in Hc. apply andb_true_iff in Hc as [Hc1 Hc2]. apply Z.leb_le in Hc1, Hc2.
  destruct (IH (acc * 10 + (byte_of c - 48)) n Hl' ltac:(lia) Hp) as [Hle Hli]. split; [lia|]. intros Hn. unfold two63 in *.
  destruct (Z.ltb_spec (2 ^ 63 / 10) acc) as [Hgt|_].
  - pose proof (Z.mul_succ_div_gt (2 ^ 63) 10). lia.
  - destruct (Z.ltb_spec (2 ^ 63) (acc * 10 + (byte_of c - 48))); [lia|auto].
Qed.

(** Reading a whole number of seconds; the same goes for the other units. *)
Lemma ParseDuration_seconds n : 0 <= n -> n * second < two63 -> ParseDuration (itoa n +:+ "s") = Some (n * second).
Proof.
  intros Hn Hmax. assert (itoa n = pretty (Z.to_N n)) as -> by (by destruct n).
  destruct (pretty_N_digits (Z.to_N n)) as (c & l & Hl & Hc & Hp). rewrite Z2N.id in Hp by done.
  pose proof (parse_digits_all _ _ _ Hp) as Hall.
  assert (Hlt : n < two63) by (unfold second, millisecond in Hmax; lia).
  pose proof (proj2 (parse_digits_leading _ 0 n Hall ltac:(lia) Hp) Hlt) as Hli.
  assert (Hterm : parse_term ((c :: l) ++ ["s"%char]) = Some (n * second, [])).
  { unfold parse_term. rewrite (span_app is_digit _ "s"%char []) by done. rewrite Hli. simpl.
    change (unitMap _) with (Some second). simpl.
    destruct (Z.ltb_spec (two63 / second) n).
    { pose proof (Z.mul_succ_div_gt two63 second ltac:(done)). unfold second, millisecond in *. lia. }
    change (0 * second / 1) with 0. rewrite Z.add_0_r. destruct (Z.ltb_spec two63 (n * second)); [lia|done]. }
  assert (Hpos : 0 <= n * second) by (unfold second, millisecond; lia).
  assert (Hterms : forall fuel, parse_terms (S fuel) ((c :: l) ++ ["s"%char]) 0 = Some (n * second)).
  { intros fuel. cbn [parse_terms app]. change (c :: l ++ ["s"%char]) with ((c :: l) ++ ["s"%char]). rewrite Hterm. simpl.
    rewrite Z.mod_small by (unfold two63 in *; lia). rewrite Z.add_0_l. destruct (Z.ltb_spec two63 (n * second)); [lia|]. by destruct fuel. }
  unfold ParseDuration. rewrite list_ascii_app, Hl. change (String.list_ascii_of_string "s") with ["s"%char].
  transitivity (d ← parse_terms (length ((c :: l) ++ ["s"%char])) ((c :: l) ++ ["s"%char]) 0;
                if two63 - 1 <? d then None else Some d : option Z).
  - destruct l as [|c2 l2]; destruct c as [[] [] [] [] [] [] [] []]; first [done|reflexivity].
  - cbn [length app]. change (c :: l ++ ["s"%char]) with ((c :: l) ++ ["s"%char]). rewrite Hterms. simpl.
    destruct (Z.ltb_spec (two63 - 1) (n * second)); [lia|done].
Qed.

Lemma split_on_plain sep s : sep ∉ String.list_ascii_of_string s -> split_on sep s = [s].
Proof.
  induction s as [|c s IH]; [done|]. cbn [String.list_ascii_of_string split_on]. intros [Hc Hs]%not_elem_of_cons.
  rewrite bool_decide_eq_false_2 by congruence. by rewrite IH.
Qed.

Lemma split_on_app sep s t : sep ∉ String.list_ascii_of_string s ->
  split_on sep (s +:+ String sep t) = s :: split_on sep t.
Proof.
  induction s as [|c s IH]; simpl.
  - intros _. simpl. by rewrite bool_decide_eq_true_2.
  - intros [Hc Hs]%not_elem_of_cons. rewrite bool_decide_eq_false_2 by congruence. by rewrite IH.
Qed.

Section Lists.
Context `{Unicode}.

(** A name as it stands in a comma-separated list. *)
Definition list_item (s : string) : Prop :=
  s <> "" /\ ","%char ∉ String.list_ascii_of_string s /\ Forall (fun c => visible c = true) (String.list_ascii_of_string s).

(** The brokers come out as they were joined. *)
Lemma splitCSV_join l : Forall list_item l -> splitCSV (strings_Join "," l) = l.
Proof.
  intros Hl. assert (Hkeep : where_ (fun p => negb (is_empty p)) (map TrimSpace l) = l).
  { induction Hl as [|s l (Hne & _ & Hv) _ IH]; [done|]. cbn [map]. rewrite where_cons, IH, (TrimSpace_visible s Hv).
    by rewrite (proj2 (is_empty_false s) Hne). }
  unfold splitCSV, strings_Join. destruct l as [|s l]; [done|]. f_equal.
  assert (split_on ","%char (String.concat "," (s :: l)) = s :: l) as ->; [|done].
  clear Hkeep. revert s Hl. induction l as [|t l IH]; intros s Hl; inversion Hl as [|? ? (_ & Hs & _) Hl']; subst.
  - by apply split_on_plain.
  - change (String.concat "," (s :: t :: l)) with (s +:+ String ","%char (String.concat "," (t :: l))).
    by rewrite split_on_app, IH.
Qed.

Lemma splitCSV_names s : Forall (fun p => p <> "") (splitCSV s).
Proof. apply List.Forall_forall. intros p [_ Hp%negb_true_iff]%filter_In. by apply is_empty_false. Qed.
End Lists.

(** Whatever DB_MAX_CONNS and DB_MIN_CONNS are (they wrap at 32 bits), the pool
has room for a connection if the URL's settings had. *)
Lemma pool_has_room env cfg : 0 < MaxConns cfg <= 2 ^ 31 - 1 -> 0 <= MinConns cfg <= 2 ^ 31 - 1 ->
  0 < MaxConns (pool_limits env cfg) <= 2 ^ 31 - 1 /\ 0 <= MinConns (pool_limits env cfg) <= 2 ^ 31 - 1.
Proof.
  intros Hmax Hmin. assert (Hr : forall z, - 2 ^ 31 <= int32 z <= 2 ^ 31 - 1).
  { intros z. unfold int32. pose proof (Z.mod_pos_bound (z + 2 ^ 31) (2 ^ 32) ltac:(lia)). lia. }
  unfold pool_limits. cbn [MaxConns MinConns].
  pose proof (Hr (GetInt env "DB_MAX_CONNS" 20)). pose proof (Hr (GetInt env "DB_MIN_CONNS" 2)).
  destruct (Z.ltb_spec 0 (int32 (GetInt env "DB_MAX_CONNS" 20))), (Z.leb_spec 0 (int32 (GetInt env "DB_MIN_CONNS" 2))); lia.
Qed.
