(* ===== verification/GrpcServer.v ===== *)
(** * The frame around every gRPC handler ([pkg/shared/grpcutil/server.go],
[pkg/shared/logutil/trace.go]).

A handler may panic, so a call ends as an [outcome].  The values of a Go context
that the platform reads are the record [trace_ctx]; what the default [slog]
handler writes is a list of lines beside the state of the service.  The text of
the duration is kept as the duration.  The health server of grpc-go is the class
[HealthLib]. *)
From S2P Require Import Prelude GoStrings DomainErr World Idempotency Config.
From Stdlib Require Import Ascii.
Local Open Scope Z_scope.
Local Open Scope go_scope.

(* ------------------------------------------------------------------ *)
(** ** Package [logutil] *)

Record trace_ctx := MkTraceCtx {
  RequestIDKey : option string; TraceIDKey : option string; SpanIDKey : option string }.
Definition Background : trace_ctx := MkTraceCtx None None None.

Definition WithTraceContext (ctx : trace_ctx) (traceID spanID : string) : trace_ctx :=
  let ctx := if is_empty traceID then ctx else MkTraceCtx (RequestIDKey ctx) (Some traceID) (SpanIDKey ctx) in
  if is_empty spanID then ctx else MkTraceCtx (RequestIDKey ctx) (TraceIDKey ctx) (Some spanID).

Definition WithRequestID (ctx : trace_ctx) (requestID : string) : trace_ctx :=
  if is_empty requestID then ctx else MkTraceCtx (Some requestID) (TraceIDKey ctx) (SpanIDKey ctx).

Inductive attr := AStr (s : string) | AInt (n : Z) | ADuration (d : Z) | AErr (e : error).
Record LogRecord := MkLogRecord { lr_Level : Level; lr_Message : string; lr_Attrs : list (string * attr) }.
Definition AddAttrs (r : LogRecord) (attrs : list (string * attr)) : LogRecord :=
  MkLogRecord (lr_Level r) (lr_Message r) (lr_Attrs r ++ attrs).

(** A [slog.Handler]: the line it writes for a record. *)
Definition LogHandler : Type := trace_ctx -> LogRecord -> LogRecord.
Definition JSONHandler : LogHandler := fun _ r => r.

(** [ctx.Value(key).(string)], when it is there and not empty, as an attribute. *)
Definition ctx_attr (name : string) (v : option string) : list (string * attr) :=
  match v with Some s => if is_empty s then [] else [(name, AStr s)] | None => [] end.
Definition NewTraceHandler (h : LogHandler) : LogHandler := fun ctx r =>
  let r := AddAttrs r (ctx_attr "request_id" (RequestIDKey ctx)) in
  let r := AddAttrs r (ctx_attr "trace_id" (TraceIDKey ctx)) in
  let r := AddAttrs r (ctx_attr "span_id" (SpanIDKey ctx)) in
  h ctx r.

(* ------------------------------------------------------------------ *)
(** ** Interceptors *)

(** How a handler ends: it returns, or it panics with a value. *)
Inductive outcome (A : Type) := Returned (a : A) | Panicked (v : string).
Arguments Returned {A} a.
Arguments Panicked {A} v.

(** The metadata of an incoming call, as [md.Get] reads it. *)
Definition metadata : Type := string -> list string.

Record Logged (S : Type) := MkLogged { lg_state : S; lg_lines : list LogRecord }.
Arguments MkLogged {S}.
Arguments lg_state {S}.
Arguments lg_lines {S}.

Section Interceptors.
Context {S Req Resp : Type} (log : LogHandler) (FullMethod : string).
Local Abbreviation St := (world (Logged S)).
Local Abbreviation UnaryHandler := (trace_ctx -> Req -> M St (outcome (result error Resp))).

Definition slog_Log (ctx : trace_ctx) (level : Level) (msg : string) (attrs : list (string * attr)) : M St unit := fun w =>
  (tt, MkWorld (w_env w)
         (MkLogged (lg_state (w_st w)) (lg_lines (w_st w) ++ [log ctx (MkLogRecord level msg attrs)]))).

(** The context of a call with the metadata of the caller. *)
Definition incoming_ctx (ctx : trace_ctx) (md : option metadata) : trace_ctx :=
  match md with
  | None => ctx
  | Some md =>
      let ctx := match md "x-request-id" with
                 | id :: _ => if is_empty id then ctx else WithRequestID ctx id
                 | [] => ctx
                 end in
      match md "traceparent" with
      | tp :: _ =>
          if is_empty tp then ctx
          else match split_on "-"%char tp with
               | _ :: traceID :: spanID :: _ => WithTraceContext ctx traceID spanID
               | _ => ctx
               end
      | [] => ctx
      end
  end.

(** A panic of the handler goes through: nothing is logged then. *)
Definition LoggingUnary (md : option metadata) (handler : UnaryHandler) : UnaryHandler := fun ctx req =>
  start <- time_Now ;;
  let ctx := incoming_ctx ctx md in
  o <- handler ctx req ;;
  match o with
  | Panicked v => gret (Panicked v)
  | Returned r =>
      now <- time_Now ;;
      let attrs := [("method", AStr FullMethod); ("duration", ADuration (now - start))] in
      slog_Log ctx (if is_ok r then LevelInfo else LevelWarn) "grpc"
        (attrs ++ match r with Ok _ => [] | Err err => [("err", AErr err)] end) ;;;
      gret (Returned r)
  end.

Definition internal_server_error : error := StatusError (MkStatus Internal "internal server error" []).

(** [slog.Error] has no context: the line carries none. *)
Definition RecoveryUnary (handler : UnaryHandler) : UnaryHandler := fun ctx req =>
  o <- handler ctx req ;;
  match o with
  | Returned r => gret (Returned r)
  | Panicked v =>
      slog_Log Background LevelError "panic recovered" [("method", AStr FullMethod); ("panic", AStr v)] ;;;
      gret (Returned (Err internal_server_error))
  end.

(** [grpc.ChainUnaryInterceptor(LoggingUnary(), RecoveryUnary())]: the first is the outermost. *)
Definition serve_unary (md : option metadata) (handler : UnaryHandler) : UnaryHandler :=
  LoggingUnary md (RecoveryUnary handler).
End Interceptors.

(** A method of a service as a handler: it does not log. *)
Definition service_method {S Req Resp} (m : Req -> M (world S) (outcome (result error Resp))) :
    trace_ctx -> Req -> M (world (Logged S)) (outcome (result error Resp)) :=
  fun _ req => within lg_state (fun s l => MkLogged s (lg_lines l)) (m req).

(* ------------------------------------------------------------------ *)
(** ** The server *)

Inductive ServingStatus := SERVING | NOT_SERVING.

Class HealthLib := {
  Health : Type;
  health_NewServer : Health;
  SetServingStatus : string -> ServingStatus -> Health -> Health;
}.

Record Server `{HealthLib} := MkServer { sv_Health : Health; sv_addr : string }.

Section Server.
Context `{HealthLib}.

Definition NewServer (addr : string) : Server := MkServer _ health_NewServer addr.

Definition SetServing (service : string) (serving : bool) (s : Server) : Server :=
  MkServer _ (SetServingStatus service (if serving then SERVING else NOT_SERVING) (sv_Health s)) (sv_addr s).

(** What ends a server: its context, or the listener. *)
Inductive serve_end := CtxDone (drain : Z) | ServeStopped (r : result error unit).
Inductive serve_action := Listening (addr : string) | GracefulStop | Stop.

Definition drain_timeout : Z := 15 * second.

(** [lis] is what [net.Listen] answers; [drain] how long the calls under way take
to end. A drain as long as the timeout may go either way: it is counted as ended. *)
Definition Serve (lis : result error unit) (e : serve_end) (s : Server) : list serve_action * result error unit * Server :=
  match lis with
  | Err err => ([], Err (WrapError ("listen " +:+ sv_addr s) err), s)
  | Ok _ =>
      match e with
      | ServeStopped r => ([Listening (sv_addr s)], r, s)
      | CtxDone drain =>
          let s := SetServing "" false s in
          (Listening (sv_addr s) :: GracefulStop :: (if drain <=? drain_timeout then [] else [Stop]), Ok tt, s)
      end
  end.
End Server.

(* ------------------------------------------------------------------ *)
(** ** What the frame does *)

(** The lines of one call: a panic is logged first, then the call itself. *)
Definition call_lines {Resp} (log : LogHandler) (method : string) (ctx : trace_ctx) (d : Z)
    (o : outcome (result error Resp)) : list LogRecord :=
  let line level more := log ctx (MkLogRecord level "grpc"
        ([("method", AStr method); ("duration", ADuration d)] ++ more)) in
  match o with
  | Returned (Ok _) => [line LevelInfo []]
  | Returned (Err err) => [line LevelWarn [("err", AErr err)]]
  | Panicked v =>
      [log Background (MkLogRecord LevelError "panic recovered" [("method", AStr method); ("panic", AStr v)]);
       line LevelWarn [("err", AErr internal_server_error)]]
  end.

Definition recovered {Resp} (o : outcome (result error Resp)) : result error Resp :=
  match o with Returned r => r | Panicked _ => Err internal_server_error end.

Section Frame.
Context {S Req Resp : Type} (log : LogHandler).

(** The frame around a method keeps what the method did and answered, turns a
panic into the status Internal whose text says nothing of it, and writes one line
for the call (after one for the panic) with the method, the time it took, the
error if there was one, and the context of the caller's metadata. *)
Theorem frame_recovers_and_logs FullMethod md (m : Req -> M (world S) (outcome (result error Resp))) ctx req (w : world (Logged S)) :
  let inner := m req (MkWorld (bump (w_env w)) (lg_state (w_st w))) in
  let '(o, w1) := inner in
  serve_unary log FullMethod md (service_method m) ctx req w =
    (Returned (recovered o),
     MkWorld (bump (w_env w1))
       (MkLogged (w_st w1)
          (lg_lines (w_st w) ++
           call_lines log FullMethod (incoming_ctx ctx md) (cur_clock (w_env w1) - cur_clock (w_env w)) o))).
Proof.
  cbv zeta. destruct (m req _) as [o w1] eqn:Hm.
  unfold serve_unary, LoggingUnary, RecoveryUnary, service_method, within, zoom, gbind, time_Now, gret, slog_Log. simpl.
  rewrite Hm. destruct o as [[a|err]|v]; simpl; try done. by rewrite <- app_assoc.
Qed.
End Frame.

(** A trace identifier as W3C writes it has no dash. *)
Definition no_dash (s : string) : Prop := "-"%char ∉ String.list_ascii_of_string s.

Definition traceparent (version traceID spanID flags : string) : string :=
  version +:+ String "-" (traceID +:+ String "-" (spanID +:+ String "-" flags)).

(** A caller's identifiers reach the context of the handler. *)
Lemma incoming_ctx_reads ctx md id version traceID spanID flags :
  id <> "" -> traceID <> "" -> spanID <> "" -> no_dash version -> no_dash traceID -> no_dash spanID ->
  md "x-request-id" = [id] -> md "traceparent" = [traceparent version traceID spanID flags] ->
  incoming_ctx ctx (Some md) = MkTraceCtx (Some id) (Some traceID) (Some spanID).
Proof.
  intros Hid Ht Hs Hv Hdt Hds Hmid Hmtp. unfold incoming_ctx. rewrite Hmid, Hmtp.
  rewrite !(proj2 (is_empty_false _)) by (try done; unfold traceparent; by destruct version).
  unfold traceparent. rewrite split_on_app by done. rewrite split_on_app by done. rewrite split_on_app by done.
  unfold WithTraceContext, WithRequestID. by rewrite !(proj2 (is_empty_false _)).
Qed.

(** The trace handler adds the identifiers of the context to a line, in that order. *)
Lemma trace_handler_line h id traceID spanID r : id <> "" -> traceID <> "" -> spanID <> "" ->
  let ctx := MkTraceCtx (Some id) (Some traceID) (Some spanID) in
  NewTraceHandler h ctx r =
  h ctx (AddAttrs r [("request_id", AStr id); ("trace_id", AStr traceID); ("span_id", AStr spanID)]).
Proof.
  intros H1 H2 H3. unfold NewTraceHandler, ctx_attr, AddAttrs. simpl.
  rewrite !(proj2 (is_empty_false _)) by done. simpl. by rewrite <- !app_assoc.
Qed.

(** Under the handler that every service installs, the lines of a call are the same
for every caller: no trace identifier and no request identifier is ever logged. *)
Lemma services_log_no_trace {Resp} method ctx1 ctx2 d (o : outcome (result error Resp)) :
  call_lines JSONHandler method ctx1 d o = call_lines JSONHandler method ctx2 d o.
Proof. done. Qed.

(** A server that is told to end drains its calls, and ends without an error. *)
Lemma Serve_drains `{HealthLib} drain s :
  exists actions s', Serve (Ok tt) (CtxDone drain) s = (Listening (sv_addr s) :: GracefulStop :: actions, Ok tt, s')
    /\ (In Stop actions <-> drain_timeout < drain) /\ sv_Health s' = SetServingStatus "" NOT_SERVING (sv_Health s).
Proof.
  eexists _, _. split; [reflexivity|]. split; [|reflexivity].
  destruct (Z.leb_spec drain drain_timeout); simpl; intuition (lia || congruence).
Qed.
