(* ===== verification/RateLimit.v ===== *)
(** * The rate limiter of the gateway
([services/gateway/internal/httpapi/middleware.go], lines 110-157).

The Lua script runs atomically on the Redis server: one [stmt] made of INCR and,
on the first hit, EXPIRE.  [RateLimitMiddleware] is the middleware up to the choice between
passing the request on and answering 429. *)
From S2P Require Import Prelude GoStrings DomainErr World Redis Idempotency Webhook.
From Stdlib Require Import Ascii.
Local Open Scope Z_scope.
Local Open Scope go_scope.

Section Limiter.
Context {R : Type} `{Redis R}.

Definition rateLimitLua (key : string) : stmt R Z := fun now u r =>
  match r_Incr key now u r with
  | (Err e, r1) => (Err e, r1)
  | (Ok current, r1) =>
      if current =? 1 then
        match r_Expire key (2 * second) now u r1 with
        | (Err e, r2) => (Err e, r2)
        | (Ok _, r2) => (Ok current, r2)
        end
      else (Ok current, r1)
  end.

Definition limit_of (limitPerSec : Z) : Z := if limitPerSec <=? 0 then 100 else limitPerSec.

Definition ratelimit_key (merchantID : string) (window : Z) : string :=
  "ratelimit:" +:+ merchantID +:+ ":" +:+ itoa window.

(** Whether the request goes on to the next handler; [limit] is [limit_of] of the
configured number, and [None] a nil client. *)
Definition RateLimitMiddleware (limit : Z) (merchantID : string) : M (world (option R)) bool := fun w =>
  match w_st w with
  | None => (true, w)
  | Some r =>
      if is_empty merchantID then (true, w)
      else
        let '(now, w1) := @time_Now R (MkWorld (w_env w) r) in
        let '(n, w2) := exec (rateLimitLua (ratelimit_key merchantID (Unix now))) w1 in
        (match n with Err _ => true | Ok n => negb (limit <? n) end, MkWorld (w_env w2) (Some (w_st w2)))
  end.
End Limiter.

(* ------------------------------------------------------------------ *)
(** ** Keys *)

Lemma last_colon a : forall b x y, no_colon x = true -> no_colon y = true ->
  a +:+ ":" +:+ x = b +:+ ":" +:+ y -> a = b /\ x = y.
Proof.
  assert (Hno : forall b y, no_colon (b +:+ ":" +:+ y) = false).
  { intros b y. induction b as [|c b IH]; simpl; [done|]. by rewrite IH, andb_false_r. }
  induction a as [|c a IH]; intros [|c' b] x y Hx Hy Heq; simpl in Heq.
  - injection Heq as Heq. change (x = y) in Heq. by subst.
  - injection Heq as <- Heq. change (x = b +:+ ":" +:+ y) in Heq. by rewrite Heq, Hno in Hx.
  - injection Heq as -> Heq. change (a +:+ ":" +:+ x = y) in Heq. by rewrite <- Heq, Hno in Hy.
  - injection Heq as -> Heq. by destruct (IH b x y Hx Hy Heq) as [-> ->].
Qed.

Lemma no_colon_digits x : forall s, no_colon s = true -> no_colon (pretty.pretty_N_go x s) = true.
Proof.
  induction (N.lt_wf_0 x) as [x _ IH]; intros s Hs.
  destruct (decide (x = 0)%N) as [->|Hx]; [by rewrite pretty.pretty_N_go_0|].
  rewrite pretty.pretty_N_go_step by lia. apply IH; [apply N.div_lt; lia|].
  simpl. rewrite Hs, andb_true_r. unfold pretty.pretty_N_char. by repeat case_match.
Qed.

Lemma no_colon_itoa z : no_colon (itoa z) = true.
Proof.
  assert (Hn : forall n : N, no_colon (pretty n) = true).
  { intros n. unfold pretty, pretty.pretty_N. case_decide; [done|]. by apply no_colon_digits. }
  unfold itoa, pretty, pretty.pretty_Z. destruct z; [done|apply Hn|]. simpl. apply Hn.
Qed.

Lemma ratelimit_key_inj m w m' w' : ratelimit_key m w = ratelimit_key m' w' -> m = m' /\ w = w'.
Proof.
  unfold ratelimit_key. intros Heq. apply (inj (String.append "ratelimit:")) in Heq.
  destruct (last_colon _ _ _ _ (no_colon_itoa w) (no_colon_itoa w') Heq) as [-> Hw]. split; [done|]. by apply (inj pretty) in Hw.
Qed.

(* ------------------------------------------------------------------ *)
(** ** A fixed-window counter *)

Section Window.
Context {R : Type} `{RedisLaws R}.

(** The specification: at most [limit] requests of a merchant in each second. *)
Definition seen_before (x : string * Z) (seen : list (string * Z)) : Z :=
  Z.of_nat (length (where_ (fun y => bool_decide (y = x)) seen)).
Fixpoint fixed_window (limit : Z) (seen reqs : list (string * Z)) : list bool :=
  match reqs with
  | [] => []
  | x :: rest => (seen_before x seen <? limit) :: fixed_window limit (x :: seen) rest
  end.

(** The requests as they come in, each in its own environment. *)
Fixpoint decide_all (limit : Z) (reqs : list (env * string)) (r : option R) : list bool :=
  match reqs with
  | [] => []
  | (e, mid) :: rest =>
      let '(ok, w) := RateLimitMiddleware limit mid (MkWorld e r) in ok :: decide_all limit rest (w_st w)
  end.

(** When the gateway reads its clock, and when the script runs. *)
Definition read_at (e : env) : Z := cur_clock e.
Definition run_at (e : env) : Z := cur_clock (bump e).
Definition window_of (p : env * string) : string * Z := (p.2, Unix (read_at p.1)).

(** Redis answers every request within a second, in the order of the requests. *)
Fixpoint prompt (t : Z) (reqs : list (env * string)) : Prop :=
  match reqs with
  | [] => True
  | (e, mid) :: rest =>
      calm e /\ mid <> "" /\ 0 <= read_at e < max_int64 /\
      read_at e <= run_at e < read_at e + second /\ t <= run_at e /\ prompt (run_at e) rest
  end.

(** The counters at time [t] count the requests seen, until two seconds after the
first one of their window. *)
Definition counted (t : Z) (seen : list (string * Z)) (r : R) : Prop :=
  forall m w, let c := seen_before (m, w) seen in
    (c = 0 -> forall t', count r t' (ratelimit_key m w) = 0) /\
    (0 < c -> exists t0, w * second <= t0 <= t /\
       forall t', t <= t' < t0 + 2 * second -> count r t' (ratelimit_key m w) = c).

Lemma seen_cons x y seen : seen_before x (y :: seen) = seen_before x seen + (if bool_decide (y = x) then 1 else 0).
Proof. unfold seen_before. rewrite where_cons. case_bool_decide; simpl; lia. Qed.

Lemma seen_nonneg x seen : 0 <= seen_before x seen.
Proof. unfold seen_before. lia. Qed.

Lemma lua_counts t seen m w u now r r' n :
  counted t seen r -> t <= now -> w * second <= now < (w + 2) * second ->
  rateLimitLua (ratelimit_key m w) now u r = (n, r') ->
  n = Ok (seen_before (m, w) seen + 1) /\ counted now ((m, w) :: seen) r'.
Proof.
  intros Hcnt Ht Hwin Hrun. set (key := ratelimit_key m w) in *. unfold rateLimitLua in Hrun.
  pose proof (Incr_law key now u r) as Hincr. pose proof (Incr_later key now u r) as Hlater.
  destruct (r_Incr key now u r) as [a r1]. destruct Hincr as (-> & Hnow & Hother). simpl in Hlater.
  destruct (Hcnt m w) as [Hzero Hpos]. pose proof (seen_nonneg (m, w) seen) as Hnn.
  set (c := seen_before (m, w) seen) in *.
  assert (Hval : count r now key = c).
  { destruct (decide (c = 0)) as [E|E]; [rewrite E; by apply Hzero|]. destruct Hpos as (t0 & Ht0 & Hc0); [lia|].
    apply Hc0. lia. }
  rewrite Hval in *.
  assert (Hframe : forall r2, (forall t' k', k' <> key -> count r2 t' k' = count r t' k') ->
    (exists t0, w * second <= t0 <= now /\ forall t', now <= t' < t0 + 2 * second -> count r2 t' key = c + 1) ->
    counted now ((m, w) :: seen) r2).
  { intros r2 Hfr (t0 & Ht0 & Hc0) m' w'. cbv zeta. rewrite seen_cons. case_bool_decide as Heq.
    - injection Heq as <- <-. fold c. split; [lia|]. intros _. exists t0. split; [done|exact Hc0].
    - rewrite Z.add_0_r. destruct (Hcnt m' w') as [Hz Hp].
      assert (ratelimit_key m' w' <> key) as Hne by (intros [-> ->]%ratelimit_key_inj; done).
      split; [intros E t'; rewrite Hfr by done; by apply Hz|]. intros E. destruct (Hp E) as (t1 & Ht1 & Hc1).
      exists t1. split; [lia|]. intros t' Ht'. rewrite Hfr by done. apply Hc1. lia. }
  destruct (Z.eqb_spec (c + 1) 1) as [E1|E1].
  - pose proof (Expire_law key (2 * second) now u r1) as Hexp. destruct (r_Expire _ _ _ _ _) as [b r2].
    destruct Hexp as (-> & Hlive & Hother2). injection Hrun as <- <-. split; [done|]. apply Hframe.
    + intros t' k' Hne. by rewrite Hother2, Hother.
    + exists now. split; [lia|]. intros t' Ht'. rewrite Hlive by lia. done.
  - injection Hrun as <- <-. split; [done|]. apply Hframe; [exact Hother|].
    destruct Hpos as (t0 & Ht0 & Hc0); [lia|]. exists t0. split; [lia|]. intros t' Ht'.
    rewrite Hlater, Hc0 by (rewrite ?Hc0; lia). done.
Qed.

(** C19.  The limiter is a fixed-window counter: as long as Redis answers every
request within a second, the middleware passes exactly the requests the
specification passes, the first [limit] of each merchant in each second of the
gateway's clock, whatever other merchants send in between. *)
Theorem limiter_is_fixed_window limit t reqs r :
  prompt t reqs -> (forall t' m w, count r t' (ratelimit_key m w) = 0) ->
  decide_all limit reqs (Some r) = fixed_window limit [] (map window_of reqs).
Proof.
  intros Hprompt Hinit.
  assert (Hc : counted t [] r) by (intros m w; split; [intros _ t'; apply Hinit|unfold seen_before; simpl; lia]).
  revert Hc Hprompt. generalize (@nil (string * Z)) as seen. clear Hinit. revert t r.
  induction reqs as [|[e mid] rest IH]; intros t r seen Hc Hprompt; [done|].
  destruct Hprompt as (Hcalm & Hmid & Hpos & Hdelay & Ht & Hrest).
  cbn [decide_all map fixed_window]. unfold RateLimitMiddleware. cbn [w_st w_env time_Now].
  rewrite (proj2 (is_empty_false mid) Hmid). unfold exec. cbn [w_env w_st].
  unfold cur_fault. rewrite (calm_now (bump e)) by done. fold (read_at e).
  assert (Hu : Unix (read_at e) = read_at e / second).
  { apply int64_id. unfold in_int64, min_int64, max_int64, second, millisecond in *.
    Z.to_euclidean_division_equations; lia. }
  destruct (rateLimitLua _ _ _ _) as [n r'] eqn:Hrun.
  apply (lua_counts t seen) in Hrun as [-> Hc']; [|done|exact Ht|].
  - cbn [w_env w_st]. rewrite (IH (run_at e) r' ((mid, Unix (read_at e)) :: seen) Hc' Hrest). f_equal.
    unfold window_of. cbn [fst snd]. destruct (Z.ltb_spec limit (seen_before (mid, Unix (read_at e)) seen + 1)),
      (Z.ltb_spec (seen_before (mid, Unix (read_at e)) seen) limit); simpl; try done; lia.
  - rewrite Hu. fold (run_at e). unfold second, millisecond in *. Z.to_euclidean_division_equations; lia.
Qed.
End Window.

(** The specification keeps its promise: of the requests with one merchant and
window at most [limit] pass, counting those seen before. *)
Definition passed (x : string * Z) (l : list ((string * Z) * bool)) : Z :=
  Z.of_nat (length (where_ (fun p => bool_decide (p.1 = x) && p.2) l)).

Lemma fixed_window_bound limit x reqs : forall seen, 0 <= limit ->
  passed x (zip reqs (fixed_window limit seen reqs)) <= Z.max 0 (limit - seen_before x seen).
Proof.
  induction reqs as [|y reqs IH]; intros seen Hl; [unfold passed; simpl; lia|].
  cbn [fixed_window zip zip_with]. specialize (IH (y :: seen) Hl). rewrite seen_cons in IH.
  unfold passed in *. rewrite where_cons. cbn [fst snd].
  destruct (bool_decide_reflect (y = x)) as [->|]; cbn [andb]; [|lia].
  destruct (Z.ltb_spec (seen_before x seen) limit); cbn [length]; lia.
Qed.

Lemma seen_replicate (x : string * Z) n : seen_before x (replicate n x) = Z.of_nat n.
Proof.
  unfold seen_before. f_equal. induction n as [|n IH]; [done|]. simpl replicate.
  rewrite where_cons, bool_decide_eq_true_2 by done. simpl. by rewrite IH.
Qed.

(** The limiter is not a token bucket: [n] requests at the end of one second
and [n] at the start of the next all pass under a limit of [n], so twice the
limit goes through in an arbitrarily short time. *)
Theorem edge_burst_passes n m w :
  fixed_window (Z.of_nat n) [] (replicate n (m, w) ++ replicate n (m, w + 1)) = replicate (2 * n) true.
Proof.
  assert (Hstep : forall x limit k seen rest, seen_before x seen + Z.of_nat k <= limit ->
    fixed_window limit seen (replicate k x ++ rest) = replicate k true ++ fixed_window limit (replicate k x ++ seen) rest).
  { intros x limit k. induction k as [|k IH]; intros seen rest Hk; [done|]. cbn [replicate app fixed_window].
    replace (seen_before x seen <? limit) with true by lia. f_equal.
    rewrite IH by (rewrite seen_cons, bool_decide_eq_true_2 by done; lia).
    assert (replicate k x ++ x :: seen = replicate (S k) x ++ seen) as -> by (by rewrite replicate_S_end, <- app_assoc).
    done. }
  rewrite Hstep by (unfold seen_before; simpl; lia). rewrite app_nil_r.
  rewrite <- (app_nil_r (replicate n (m, w + 1))), Hstep; cbn [fixed_window].
  - rewrite app_nil_r, <- replicate_add. f_equal. lia.
  - assert (seen_before (m, w + 1) (replicate n (m, w)) = 0) as ->; [|lia].
    unfold seen_before. induction n as [|n IH]; [done|]. simpl replicate. rewrite where_cons.
    rewrite bool_decide_eq_false_2 by (intros [=]; lia). exact IH.
Qed.

(* ------------------------------------------------------------------ *)
(** ** Example *)

Definition rl_env (n : nat) (ms : Z) : env := MkEnv n (fun _ => ms * millisecond) (fun _ => "") (fun _ => NoFault).
Definition rl_requests : list (env * string) :=
  [ (rl_env 0 1100, "m1"); (rl_env 2 1200, "m1"); (rl_env 4 1300, "m2"); (rl_env 6 1900, "m1"); (rl_env 8 2000, "m1") ].

Lemma limiter_is_fixed_window_witness :
  decide_all 2 rl_requests (Some empty_memory) = [true; true; true; false; true].
Proof.
  rewrite (limiter_is_fixed_window 2 0 rl_requests empty_memory); [vm_compute; reflexivity|..].
  - repeat (split; [done|]). repeat (split; [vm_compute; repeat split; discriminate || reflexivity|]).
    vm_compute. repeat split; try discriminate; try reflexivity.
  - intros t m w. unfold count, memory_laws, m_count. simpl. by rewrite lookup_empty.
Defined.
