(* ===== verification/MerchantRepo.v ===== *)
(** * The tables of the merchant service and their statements
([services/merchant-svc/internal/repo.go], [domain.go],
[migrations/merchant/000001_init.up.sql]), and its sources of randomness.

[crypto/rand] and [golang.org/x/crypto/bcrypt] are parameters: [Entropy] gives
the bytes drawn at a call number, [Bcrypt] the hash made of a password with the
salt of a call number and whether a hash accepts a password.  Drawing either can
fail like every other call of the environment.  [BcryptLaws] states what the
package documents: a hash accepts the password it was made of, and hashing fails
only for a password of more than 72 bytes or a cost out of range. *)
From S2P Require Import Prelude GoStrings DomainErr World Proto LedgerStore Uuid.
Local Open Scope Z_scope.
Local Open Scope go_scope.

Definition StatusActive : string := "ACTIVE".
Definition StatusSuspended : string := "SUSPENDED".
Definition KYBActive : string := "ACTIVE".
Definition APIKeyStatusActive : string := "ACTIVE".

Record MerchantRow := MkMerchantRow {
  m_ID : string;
  m_Name : string;
  m_WebhookURL : string;
  m_ContactEmail : string;
  m_KYBStatus : string;
  m_Status : string;
  m_HMACSecret : string;
  m_CreatedAt : Z;
  m_UpdatedAt : Z;
}.

Record APIKey := MkAPIKey {
  k_ID : string;
  k_MerchantID : string;
  k_KeyHash : string;
  k_KeyPrefix : string;
  k_Status : string;
  k_CreatedAt : Z;
  k_ExpiresAt : option Z;
}.

Record HookConfig := MkHookConfig { h_MerchantID : string; h_WebhookURL : string; h_HMACSecret : string }.
Record RegisterInput := MkRegisterInput { ri_Name : string; ri_WebhookURL : string; ri_ContactEmail : string }.
Record APIKeyCandidate := MkAPIKeyCandidate { ac_Merchant : MerchantRow; ac_KeyHash : string }.
Record RegisterResult := MkRegisterResult { rr_Merchant : MerchantRow; rr_APIKey : string }.

(** The tables; [COALESCE(contact_email, '')] is the stored text, which the only
INSERT of the table never leaves NULL. *)
Record MerchantDB := MkMerchantDB { merchants : list MerchantRow; api_keys : list APIKey }.

Class Entropy := { rand_at : nat -> nat -> list Z }.
Class EntropyLaws `{Entropy} := {
  rand_length : forall t n, length (rand_at t n) = n;
  rand_byte : forall t n, Forall (fun b => 0 <= b < 256) (rand_at t n);
}.

Class Bcrypt := {
  bcrypt_hash : nat -> string -> Z -> result error string;
  bcrypt_accepts : string -> string -> bool;
}.
Class BcryptLaws `{Bcrypt} := {
  bcrypt_correct : forall t pw cost h, bcrypt_hash t pw cost = Ok h -> bcrypt_accepts h pw = true;
  bcrypt_total : forall t pw cost, str_len pw <= 72 -> 4 <= cost <= 31 -> is_ok (bcrypt_hash t pw cost) = true;
}.

Section Repo.
Context `{UuidLib}.

Definition find_merchant (id : string) (db : MerchantDB) : option MerchantRow :=
  List.find (fun m => bool_decide (m_ID m = id)) (merchants db).

(** [INSERT INTO merchant ... RETURNING id, created_at, updated_at]. *)
Definition InsertMerchant (m : MerchantRow) : stmt MerchantDB (option (string * Z * Z)) :=
  fun now id db =>
    if existsb (fun x => bool_decide (m_ID x = id)) (merchants db) then (Err unique_violation, db)
    else (Ok (Some (id, now, now)),
          MkMerchantDB (merchants db ++ [MkMerchantRow id (m_Name m) (m_WebhookURL m) (m_ContactEmail m)
                          (m_KYBStatus m) (m_Status m) (m_HMACSecret m) now now]) (api_keys db)).

Definition InsertAPIKey (merchantID keyHash keyPrefix : string) : stmt MerchantDB unit :=
  uuid_arg merchantID (fun mid now id db =>
    if existsb (fun k => bool_decide (k_ID k = id) || bool_decide (k_KeyHash k = keyHash)) (api_keys db)
    then (Err unique_violation, db)
    else if negb (existsb (fun x => bool_decide (m_ID x = mid)) (merchants db)) then (Err fk_violation, db)
    else (Ok tt, MkMerchantDB (merchants db)
                   (api_keys db ++ [MkAPIKey id mid keyHash keyPrefix APIKeyStatusActive now None]))).

(** The merchant struct, with the identifiers the INSERT scanned into it. *)
Definition CreateMerchantAndAPIKey (m : MerchantRow) (keyHash keyPrefix : string)
  : M (world MerchantDB) (result error MerchantRow) :=
  manual_tx (Wrap CodeInternal "begin tx") (Wrap CodeInternal "commit tx")
    (ids <-? gmap_err (Wrap CodeInternal "insert merchant") (tx_row (InsertMerchant m)) ;;
     let '(id, created, updated) := ids in
     gmap_err (Wrap CodeInternal "insert api_key") (tx_exec (InsertAPIKey id keyHash keyPrefix)) ?;;
     gret (Ok (MkMerchantRow id (m_Name m) (m_WebhookURL m) (m_ContactEmail m) (m_KYBStatus m)
                 (m_Status m) (m_HMACSecret m) created updated))).

(** [pgx.ErrNoRows] is NOT_FOUND, any other error is INTERNAL_ERROR. *)
Definition not_found_or (msg : string) (e : error) : error :=
  if errors_Is_NoRows e then DomainErr.New CodeNotFound "merchant not found" else Wrap CodeInternal msg e.

Definition GetByID (id : string) : M (world MerchantDB) (result error MerchantRow) :=
  gmap_err (not_found_or "get merchant") (row (uuid_arg id (fun id => query (fun _ db => find_merchant id db)))).

(** [JOIN merchant m ON m.id = ak.merchant_id WHERE ak.key_prefix = $1 AND ak.status = $2]. *)
Definition candidates_of (prefix : string) (db : MerchantDB) : list APIKeyCandidate :=
  concat (map (fun k => map (fun m => MkAPIKeyCandidate m (k_KeyHash k))
                          (where_ (fun m => bool_decide (m_ID m = k_MerchantID k)) (merchants db)))
            (where_ (fun k => bool_decide (k_KeyPrefix k = prefix)
                              && bool_decide (k_Status k = APIKeyStatusActive)) (api_keys db))).

(** The query, then reading its rows, which can fail too. *)
Definition GetCandidatesByPrefix (prefix : string) : M (world MerchantDB) (result error (list APIKeyCandidate)) :=
  rows <-? gmap_err (Wrap CodeInternal "query api_key by prefix")
             (exec (query (fun _ db => candidates_of prefix db))) ;;
  gmap_err (Wrap CodeInternal "iterate api_key rows") (draw (fun _ => Ok tt)) ?;;
  gret (Ok rows).

Definition suspended_row (now : Z) (m : MerchantRow) : MerchantRow :=
  MkMerchantRow (m_ID m) (m_Name m) (m_WebhookURL m) (m_ContactEmail m) (m_KYBStatus m)
    StatusSuspended (m_HMACSecret m) (m_CreatedAt m) now.

Definition Suspend (id : string) : M (world MerchantDB) (result error MerchantRow) :=
  gmap_err (not_found_or "suspend merchant") (row (uuid_arg id (fun id now _ db =>
    let p m := bool_decide (m_ID m = id) in
    (Ok (suspended_row now <$> List.find p (merchants db)),
     MkMerchantDB (update_where p (suspended_row now) (merchants db)) (api_keys db))))).

Definition GetWebhookConfig (merchantID : string) : M (world MerchantDB) (result error HookConfig) :=
  gmap_err (not_found_or "get webhook config") (row (uuid_arg merchantID (fun id => query (fun _ db =>
    (fun m => MkHookConfig (m_ID m) (m_WebhookURL m) (m_HMACSecret m)) <$> find_merchant id db)))).
End Repo.
