(* ===== verification/MerchantService.v ===== *)
(** * The merchant service ([services/merchant-svc/internal/service.go]). *)
From S2P Require Import Prelude GoStrings DomainErr World Sha256 Uuid MerchantRepo.
Local Open Scope Z_scope.
Local Open Scope go_scope.

Definition apiKeyPrefix : string := "vrp_".

Section Service.
Context `{UuidLib} `{Unicode} `{Entropy} `{Bcrypt}.
Abbreviation St := (world MerchantDB).

Definition randomHex (nBytes : nat) : M St (result error string) :=
  draw (fun t => Ok (hex_Encode (rand_at t nBytes))).

Definition generateAPIKey : M St (result error string) :=
  hexPart <-? randomHex 32 ;; gret (Ok (apiKeyPrefix +:+ hexPart)).

Definition GenerateFromPassword (pw : string) (cost : Z) : M St (result error string) :=
  draw (fun t => bcrypt_hash t pw cost).

Definition RegisterMerchant (inp : RegisterInput) : M St (result error RegisterResult) :=
  let name := TrimSpace (ri_Name inp) in
  let webhookURL := TrimSpace (ri_WebhookURL inp) in
  let contactEmail := TrimSpace (ri_ContactEmail inp) in
  if is_empty name then gret (Err (DomainErr.New CodeValidation "name is required"))
  else if is_empty webhookURL then gret (Err (DomainErr.New CodeValidation "webhook_url is required"))
  else
    plaintextKey <-? gmap_err (Wrap CodeInternal "generate api key") generateAPIKey ;;
    keyHash <-? gmap_err (Wrap CodeInternal "hash api key") (GenerateFromPassword plaintextKey 10) ;;
    hmacSecret <-? gmap_err (Wrap CodeInternal "generate hmac secret") (randomHex 32) ;;
    let m := MkMerchantRow "" name webhookURL contactEmail KYBActive StatusActive hmacSecret 0 0 in
    m <-? CreateMerchantAndAPIKey m keyHash (str_take 8 plaintextKey) ;;
    gret (Ok (MkRegisterResult m plaintextKey)).

Definition GetMerchant (id : string) : M St (result error MerchantRow) :=
  let id := TrimSpace id in
  if is_empty id then gret (Err (DomainErr.New CodeValidation "merchant_id is required"))
  else GetByID id.

Definition SuspendMerchant (id : string) : M St (result error MerchantRow) :=
  let id := TrimSpace id in
  if is_empty id then gret (Err (DomainErr.New CodeValidation "merchant_id is required"))
  else Suspend id.

(** The loop over the candidates: the first whose hash accepts the key. *)
Fixpoint match_candidate (apiKey : string) (candidates : list APIKeyCandidate) : result error MerchantRow :=
  match candidates with
  | [] => Err (DomainErr.New CodeNotFound "merchant not found")
  | c :: rest => if bcrypt_accepts (ac_KeyHash c) apiKey then Ok (ac_Merchant c)
                 else match_candidate apiKey rest
  end.

Definition GetMerchantByAPIKey (apiKey : string) : M St (result error MerchantRow) :=
  let apiKey := TrimSpace apiKey in
  if is_empty apiKey then gret (Err (DomainErr.New CodeValidation "api_key is required"))
  else if str_len apiKey <? 8 then gret (Err (DomainErr.New CodeNotFound "merchant not found"))
  else
    candidates <-? GetCandidatesByPrefix (str_take 8 apiKey) ;;
    gret (match_candidate apiKey candidates).

Definition GetWebhookConfig (merchantID : string) : M St (result error HookConfig) :=
  let merchantID := TrimSpace merchantID in
  if is_empty merchantID then gret (Err (DomainErr.New CodeValidation "merchant_id is required"))
  else MerchantRepo.GetWebhookConfig merchantID.
End Service.
