(* ===== verification/MerchantHandler.v ===== *)
(** * The gRPC handler of the merchant service
([services/merchant-svc/internal/handler.go]). *)
From S2P Require Import Prelude GoStrings DomainErr World Proto Uuid MerchantRepo MerchantService.
Local Open Scope go_scope.

Section Handler.
Context `{UuidLib} `{Unicode} `{Entropy} `{Bcrypt} `{GrpcLib}.
Abbreviation St := (world MerchantDB).

Definition toProtoMerchant (m : MerchantRow) : Merchant :=
  MkMerchant (m_ID m) (m_Name m) (m_KYBStatus m) (m_Status m) (m_WebhookURL m) (m_CreatedAt m) (m_UpdatedAt m).

(** Answer a value, or the error as a status. *)
Definition answer {A B} (f : A -> B) (m : M St (result error A)) : M St (result error B) :=
  r <- m ;; gret (match r with Ok a => Ok (f a) | Err e => Err (ToGRPC e) end).

Definition RegisterMerchant (req : RegisterMerchantRequest) : M St (result error RegisterMerchantResponse) :=
  answer (fun res => MkRegisterMerchantResponse (toProtoMerchant (rr_Merchant res)) (rr_APIKey res))
    (MerchantService.RegisterMerchant (MkRegisterInput (rmr_name req) (rmr_webhook_url req) (rmr_contact_email req))).

Definition GetMerchant (merchantId : string) : M St (result error Merchant) :=
  answer toProtoMerchant (MerchantService.GetMerchant merchantId).

(** The reason is only logged. *)
Definition SuspendMerchant (merchantId reason : string) : M St (result error Merchant) :=
  answer toProtoMerchant (MerchantService.SuspendMerchant merchantId).

Definition GetMerchantByApiKey (apiKey : string) : M St (result error Merchant) :=
  answer toProtoMerchant (MerchantService.GetMerchantByAPIKey apiKey).

Definition GetWebhookConfig (merchantId : string) : M St (result error WebhookConfig) :=
  answer (fun cfg => MkWebhookConfig (h_MerchantID cfg) (h_WebhookURL cfg) (h_HMACSecret cfg))
    (MerchantService.GetWebhookConfig merchantId).
End Handler.
