(* ===== verification/MerchantProps.v ===== *)
(** * Properties of the merchant service.

[change] lists what one request can do to the tables; every request makes one
such change under every failure ([serve_change]), and the invariant of the
tables and the theorems on histories follow from it. *)
From S2P Require Import Prelude GoStrings DomainErr World Proto LedgerStore Sha256 Uuid MerchantRepo MerchantService MerchantHandler.
From Stdlib Require Import Ascii.
Local Open Scope Z_scope.
Local Open Scope go_scope.

Section Props.
Context `{UuidLib} `{Unicode} `{Entropy} `{Bcrypt}.

(** The identifiers the database generates are canonical texts. *)
Definition canonical_ids (e : env) : Prop := forall n, pg_uuid (uuid_at e n) = Some (uuid_at e n).

(** What a registration stores: the merchant as asked for and active, and a key
row with a hash of the key, for the merchant. *)
Record registration (inp : RegisterInput) (key : string) (m : MerchantRow) (k : APIKey) : Prop := {
  reg_name : m_Name m = TrimSpace (ri_Name inp) /\ m_Name m <> "";
  reg_url : m_WebhookURL m = TrimSpace (ri_WebhookURL inp) /\ m_WebhookURL m <> "";
  reg_email : m_ContactEmail m = TrimSpace (ri_ContactEmail inp);
  reg_status : m_Status m = StatusActive /\ m_KYBStatus m = KYBActive;
  reg_key : exists t, key = apiKeyPrefix +:+ hex_Encode (rand_at t 32);
  reg_hash : exists t, bcrypt_hash t key 10 = Ok (k_KeyHash k);
  reg_prefix : k_KeyPrefix k = str_take 8 key;
  reg_owner : k_MerchantID k = m_ID m /\ k_Status k = APIKeyStatusActive;
}.

Record added (db : MerchantDB) (m : MerchantRow) (k : APIKey) (db' : MerchantDB) : Prop := {
  add_id : m_ID m ∉ map m_ID (merchants db);
  add_key : k_ID k ∉ map k_ID (api_keys db);
  add_hash : k_KeyHash k ∉ map k_KeyHash (api_keys db);
  add_rows : db' = MkMerchantDB (merchants db ++ [m]) (api_keys db ++ [k]);
}.

Lemma existsb_or_notin {A B C} `{EqDecision B, EqDecision C} (f : A -> B) (g : A -> C) b c l :
  existsb (fun x => bool_decide (f x = b) || bool_decide (g x = c)) l = false ->
  b ∉ map f l /\ c ∉ map g l.
Proof.
  intros Hf. assert (forall x, x ∈ l -> f x <> b /\ g x <> c) as Hall.
  { intros x Hx. rewrite <- not_true_iff_false, existsb_exists in Hf. split; intros Heq; apply Hf; exists x;
      (split; [by apply list_elem_of_In|]); rewrite orb_true_iff, !bool_decide_eq_true; auto. }
  split; intros (x & -> & Hx)%list_elem_of_fmap; by destruct (Hall x Hx).
Qed.

Lemma wp_create m hash prefix e db : canonical_ids e ->
  wp (CreateMerchantAndAPIKey m hash prefix) (fun r w' =>
    let ok m' := exists k, added db m' k (w_st w') /\ k_KeyHash k = hash /\ k_KeyPrefix k = prefix /\
      k_MerchantID k = m_ID m' /\ k_Status k = APIKeyStatusActive /\
      exists id now, m' = MkMerchantRow id (m_Name m) (m_WebhookURL m) (m_ContactEmail m) (m_KYBStatus m)
                        (m_Status m) (m_HMACSecret m) now now in
    match r with Ok m' => ok m' | Err _ => w_st w' = db \/ exists m', ok m' end) (MkWorld e db).
Proof.
  intros Hc. unfold CreateMerchantAndAPIKey.
  eapply wp_manual_tx with (P := fun m' s => exists k, added db m' k s /\ k_KeyHash k = hash /\
    k_KeyPrefix k = prefix /\ k_MerchantID k = m_ID m' /\ k_Status k = APIKeyStatusActive /\
    exists id now, m' = MkMerchantRow id (m_Name m) (m_WebhookURL m) (m_ContactEmail m) (m_KYBStatus m)
                      (m_Status m) (m_HMACSecret m) now now); [by left| |done|by right; eexists].
  do 2 wp_step. apply wp_tx_row; [done|..].
  - intros s _ Hq. unfold InsertMerchant in Hq. by destruct (existsb _ _).
  - intros [[id c] u] s _ Hq. unfold InsertMerchant in Hq. destruct (existsb _ _) eqn:Hid; [done|].
    injection Hq as <- <- <- <-. simpl. do 2 wp_step. apply wp_tx_exec; [done|].
    simpl. intros [] s' _ (mid & Hmid & Hk)%uuid_arg_ok. simpl in Hk.
    unfold cur_uuid in Hmid. simpl in Hmid. rewrite Hc in Hmid. injection Hmid as <-.
    destruct (existsb _ (api_keys db)) eqn:Hdup; [done|]. destruct (negb _); [done|]. injection Hk as <-.
    wp_step. intros m' [= <-] _. simpl. apply existsb_or_notin in Hdup as [Hk1 Hk2].
    eexists. split_and!; [constructor; simpl; [by apply existsb_false_notin|..|done]|..]; simpl; try done. eauto.
Qed.

Lemma wp_register inp e db : canonical_ids e ->
  wp (MerchantService.RegisterMerchant inp) (fun r w' =>
    match r with
    | Ok res => exists k, registration inp (rr_APIKey res) (rr_Merchant res) k /\
                          added db (rr_Merchant res) k (w_st w')
    | Err _ => w_st w' = db \/
               exists key m k, registration inp key m k /\ added db m k (w_st w')
    end) (MkWorld e db).
Proof.
  intros Hc. unfold MerchantService.RegisterMerchant. cbv zeta. wp_step; [by wp_step; left|]. wp_step; [by wp_step; left|].
  do 2 wp_step. unfold generateAPIKey, randomHex. wp_step. apply wp_draw; [by left|]. simpl.
  wp_step. simpl. do 2 wp_step. unfold GenerateFromPassword. apply wp_draw; [by left|]. simpl.
  destruct (bcrypt_hash _ _ _) as [hash|err] eqn:Hhash; simpl; [|by left].
  do 2 wp_step. apply wp_draw; [by left|]. simpl. wp_step.
  eapply wp_mono; [by apply wp_create|]. cbv zeta.
  apply is_empty_false in Hif, Hif0.
  assert (Hreg : forall m' k, k_KeyHash k = hash ->
    k_KeyPrefix k = str_take 8 (apiKeyPrefix +:+ hex_Encode (rand_at (tick e) 32)) ->
    k_MerchantID k = m_ID m' -> k_Status k = APIKeyStatusActive ->
    (exists id now, m' = MkMerchantRow id (TrimSpace (ri_Name inp)) (TrimSpace (ri_WebhookURL inp))
       (TrimSpace (ri_ContactEmail inp)) KYBActive StatusActive
       (hex_Encode (rand_at (tick (bump (bump e))) 32)) now now) ->
    registration inp (apiKeyPrefix +:+ hex_Encode (rand_at (tick e) 32)) m' k).
  { intros m' k Hh Hp Ho Hs (id & now & ->). constructor; simpl; rewrite ?Hh; eauto. }
  intros [m'|err] w'; simpl.
  - intros (k & ? & ? & ? & ? & ? & ?). wp_step. simpl. eauto.
  - intros [?|(m' & k & ? & ? & ? & ? & ? & ?)]; [by left|]. right. eauto 6.
Qed.

(** What one request does to the tables. *)
Inductive change (db : MerchantDB) : MerchantDB -> Prop :=
| change_none : change db db
| change_register inp key m k db' : registration inp key m k -> added db m k db' -> change db db'
| change_suspend id now : change db (MkMerchantDB
    (update_where (fun m => bool_decide (m_ID m = id)) (suspended_row now) (merchants db)) (api_keys db)).

Lemma wp_suspend id e db :
  wp (Suspend id) (fun r w' =>
    change db (w_st w') /\
    forall m, r = Ok m -> exists i now, pg_uuid id = Some i /\ m_ID m = i /\ i ∈ map m_ID (merchants db) /\
      w_st w' = MkMerchantDB (update_where (fun m => bool_decide (m_ID m = i)) (suspended_row now) (merchants db))
                  (api_keys db)) (MkWorld e db).
Proof.
  unfold Suspend. wp_step. apply wp_row; simpl; [by split; [constructor|]|..]; intros r s.
  - unfold uuid_arg. destruct (pg_uuid id) as [i|]; intros [= <- <-]; simpl; [|by split; [constructor|]].
    split; [constructor|]. intros m Hm. exists i, (cur_clock e).
    destruct (List.find _ _) as [m0|] eqn:Hf; simpl in Hm; [|done]. injection Hm as <-.
    apply find_bool_decide_spec in Hf as [Hin <-]. split_and!; try done. by apply list_elem_of_fmap_2.
  - intros err. unfold uuid_arg. destruct (pg_uuid id) as [i|]; intros [= <- <-]; split; try done; constructor.
Qed.

(** Reads leave the tables alone. *)
Lemma wp_read_merchant {A} id (f : string -> Z -> MerchantDB -> option A) (g : error -> error) e db
    (Q : result error A -> world MerchantDB -> Prop) :
  (forall r, Q r (MkWorld (bump e) db)) ->
  wp (gmap_err g (row (uuid_arg id (fun id => query (f id))))) Q (MkWorld e db).
Proof.
  intros HQ. wp_step. apply wp_row; [by intros; apply HQ|..]; intros r s; unfold uuid_arg, query;
    destruct (pg_uuid id); intros; simplify_eq; apply HQ.
Qed.

Lemma wp_lookup_key key e db :
  wp (MerchantService.GetMerchantByAPIKey key) (fun r w' => w_st w' = db /\
    forall m, r = Ok m -> match_candidate (TrimSpace key) (candidates_of (str_take 8 (TrimSpace key)) db) = Ok m)
    (MkWorld e db).
Proof.
  unfold MerchantService.GetMerchantByAPIKey. cbv zeta. do 2 (wp_step; [by wp_step|]).
  wp_step. unfold GetCandidatesByPrefix. do 2 wp_step. apply wp_exec; [done| |by intros r s err [= _ <-]].
  intros r s [= <- <-]. simpl. do 2 wp_step. apply wp_draw; [done|]. simpl. wp_step. by wp_step.
Qed.

Lemma wp_get_merchant id e db :
  wp (MerchantService.GetMerchant id) (fun r w' => w_st w' = db /\ forall m, r = Ok m -> m ∈ merchants db)
    (MkWorld e db).
Proof.
  unfold MerchantService.GetMerchant, GetByID. cbv zeta. wp_step; [by wp_step|]. wp_step.
  apply wp_row; [done|..]; intros r s; unfold uuid_arg, query; destruct (pg_uuid _) as [i|];
    [intros [= <- <-]|by intros [= <- <-]|by intros err [= <- <-]..]. split; [done|]. intros m Hm.
  destruct (find_merchant i db) as [m'|] eqn:Hf; simpl in Hm; [|done].
  injection Hm as ->. by apply find_bool_decide_spec in Hf as [? _].
Qed.

(* ------------------------------------------------------------------ *)
(** ** The invariant and the histories of requests *)

Record merchant_inv (db : MerchantDB) : Prop := {
  inv_ids : NoDup (map m_ID (merchants db));
  inv_hashes : NoDup (map k_KeyHash (api_keys db));
  inv_owners : map k_MerchantID (api_keys db) = map m_ID (merchants db);
  inv_keys : Forall (fun k => k_Status k = APIKeyStatusActive /\
    exists key t, bcrypt_hash t key 10 = Ok (k_KeyHash k) /\ k_KeyPrefix k = str_take 8 key) (api_keys db);
  inv_rows : Forall (fun m => m_Name m <> "" /\ m_WebhookURL m <> "" /\
    (m_Status m = StatusActive \/ m_Status m = StatusSuspended)) (merchants db);
}.

Definition empty_merchants : MerchantDB := MkMerchantDB [] [].
Lemma empty_merchants_inv : merchant_inv empty_merchants.
Proof. constructor; try done; constructor. Qed.

Lemma change_inv db db' : merchant_inv db -> change db db' -> merchant_inv db'.
Proof.
  intros [Hi Hh Ho Hk Hr] [|inp key m k db2 Hreg [Ha _ Hb ->]|id now]; [done| |].
  - destruct Hreg as [Hn Hu _ [Hs _] _ Ht Hp [Hm Hks]].
    constructor; simpl; [by apply NoDup_map_snoc|by apply NoDup_map_snoc|
      by rewrite !map_app, Ho; simpl; rewrite Hm| |]; apply Forall_app; (split; [done|]); apply Forall_singleton.
    + destruct Ht as [t Ht]. eauto.
    + destruct Hn, Hu. auto.
  - constructor; simpl; try done; rewrite ?map_update_where by done; [done..|].
    apply Forall_forall. intros m (x & Hx & ->)%elem_of_update_where.
    eapply Forall_forall in Hr as (? & ? & ?); [|exact Hx]. case_bool_decide; simpl; auto.
Qed.

(** A merchant later on: the same data, possibly suspended since. *)
Definition follows (m m' : MerchantRow) : Prop :=
  m_ID m' = m_ID m /\ m_Name m' = m_Name m /\ m_WebhookURL m' = m_WebhookURL m /\
  m_HMACSecret m' = m_HMACSecret m /\ m_CreatedAt m' = m_CreatedAt m /\
  (m_Status m' = m_Status m \/ m_Status m' = StatusSuspended).

Lemma follows_refl m : follows m m.
Proof. unfold follows. auto 10. Qed.
Lemma follows_trans m1 m2 m3 : follows m1 m2 -> follows m2 m3 -> follows m1 m3.
Proof.
  unfold follows. intros (?&?&?&?&?&[]) (?&?&?&?&?&[]); split_and!; try congruence; first [by left; congruence|by right; congruence].
Qed.

Lemma change_keeps db db' : change db db' ->
  (forall k, k ∈ api_keys db -> k ∈ api_keys db') /\
  (forall m, m ∈ merchants db -> exists m', m' ∈ merchants db' /\ follows m m').
Proof.
  intros [|inp key m k db2 Hreg [_ _ _ ->]|id now]; simpl.
  - split; [done|]. intros m Hm. eauto using follows_refl.
  - split; intros x Hx; [|exists x]; rewrite ?elem_of_app; eauto using follows_refl.
  - split; [done|]. intros m Hm. eexists. split; [apply elem_of_update_where; eauto|].
    case_bool_decide; [|apply follows_refl]. unfold follows. simpl. auto 10.
Qed.

Context `{GrpcLib}.

Inductive merchant_req : Type :=
| ReqRegister (req : RegisterMerchantRequest)
| ReqGet (id : string)
| ReqSuspend (id reason : string)
| ReqByKey (apiKey : string)
| ReqWebhook (id : string).

(** A request of the gRPC service, its answer dropped. *)
Definition serve (req : merchant_req) : M (world MerchantDB) unit :=
  match req with
  | ReqRegister r => MerchantHandler.RegisterMerchant r ;;; gret tt
  | ReqGet id => MerchantHandler.GetMerchant id ;;; gret tt
  | ReqSuspend id reason => MerchantHandler.SuspendMerchant id reason ;;; gret tt
  | ReqByKey key => MerchantHandler.GetMerchantByApiKey key ;;; gret tt
  | ReqWebhook id => MerchantHandler.GetWebhookConfig id ;;; gret tt
  end.

Lemma wp_answer_change {A B} (f : A -> B) m e db :
  wp m (fun _ w' => change db (w_st w')) (MkWorld e db) ->
  wp (answer f m ;;; gret tt) (fun _ w' => change db (w_st w')) (MkWorld e db).
Proof. intros Hm. wp_step. unfold answer. wp_step. eapply wp_mono; [exact Hm|]. intros r w' Hch. by repeat wp_step. Qed.

Lemma serve_change req e db : canonical_ids e -> wp (serve req) (fun _ w' => change db (w_st w')) (MkWorld e db).
Proof.
  intros Hc. destruct req; simpl; apply wp_answer_change.
  - eapply wp_mono; [by apply wp_register|]. intros [res|err] w'; simpl.
    + intros (k & ? & ?). by eapply change_register.
    + intros [->|(? & ? & ? & ? & ?)]; [constructor|by eapply change_register].
  - eapply wp_mono; [apply wp_get_merchant|]. intros r w' [-> _]. constructor.
  - unfold MerchantService.SuspendMerchant. cbv zeta. wp_step; [wp_step; constructor|].
    eapply wp_mono; [apply wp_suspend|]. intros r w' [Hch _]. exact Hch.
  - eapply wp_mono; [apply wp_lookup_key|]. intros r w' [-> _]. constructor.
  - unfold MerchantService.GetWebhookConfig. cbv zeta. wp_step; [wp_step; constructor|].
    unfold MerchantRepo.GetWebhookConfig. apply wp_read_merchant. intros r. constructor.
Qed.

Fixpoint serve_all (h : list (env * merchant_req)) (db : MerchantDB) : MerchantDB :=
  match h with
  | [] => db
  | (e, req) :: h' => serve_all h' (w_st (snd (serve req (MkWorld e db))))
  end.

Lemma serve_all_ind (P : MerchantDB -> Prop) h : Forall (fun p => canonical_ids p.1) h ->
  forall db, (forall d d', P d -> change d d' -> P d') -> P db -> P (serve_all h db).
Proof.
  induction 1 as [|[e req] h Hc Hh IH]; intros db Hstep Hdb; simpl; [done|].
  apply IH; [done|]. eapply Hstep; [done|]. by apply (serve_change req e db).
Qed.

(* ------------------------------------------------------------------ *)
(** ** Looking a key up *)

Lemma elem_of_candidates p db c : c ∈ candidates_of p db <->
  exists k m, k ∈ api_keys db /\ m ∈ merchants db /\ m_ID m = k_MerchantID k /\ k_KeyPrefix k = p /\
    k_Status k = APIKeyStatusActive /\ c = MkAPIKeyCandidate m (k_KeyHash k).
Proof.
  unfold candidates_of. rewrite list_elem_of_In, in_concat. split.
  - intros (l & (k & <- & Hk)%in_map_iff & (m & <- & Hm)%in_map_iff).
    apply list_elem_of_In, elem_of_where in Hk as [Hk [Hp Ha]%andb_true_iff].
    apply list_elem_of_In, elem_of_where in Hm as [Hm Hi].
    apply bool_decide_eq_true in Hp, Ha, Hi. eauto 10.
  - intros (k & m & Hk & Hm & Hi & Hp & Ha & ->). eexists. split.
    + apply in_map_iff. exists k. split; [reflexivity|]. apply list_elem_of_In, elem_of_where.
      split; [done|]. by rewrite !bool_decide_eq_true_2.
    + apply in_map_iff. exists m. split; [done|]. apply list_elem_of_In, elem_of_where.
      split; [done|]. by apply bool_decide_eq_true.
Qed.

Lemma match_candidate_ok key l m : match_candidate key l = Ok m ->
  exists c, c ∈ l /\ bcrypt_accepts (ac_KeyHash c) key = true /\ ac_Merchant c = m.
Proof.
  induction l as [|c l IH]; simpl; [done|]. destruct (bcrypt_accepts _ _) eqn:Ha.
  - intros [= <-]. exists c. split; [by left|done].
  - intros (c' & Hc & ?)%IH. exists c'. split; [by right|done].
Qed.

Lemma match_candidate_some key l c : c ∈ l -> bcrypt_accepts (ac_KeyHash c) key = true ->
  exists m, match_candidate key l = Ok m.
Proof.
  intros Hc Ha. induction Hc as [c l|c c' l Hc IH]; simpl; [rewrite Ha; eauto|].
  destruct (bcrypt_accepts (ac_KeyHash c') key); eauto.
Qed.

Context `{!EntropyLaws} `{!BcryptLaws}.

Lemma issued_key_trim t : TrimSpace (apiKeyPrefix +:+ hex_Encode (rand_at t 32)) = apiKeyPrefix +:+ hex_Encode (rand_at t 32).
Proof. apply TrimSpace_visible. do 4 (constructor; [reflexivity|]). apply hex_Encode_visible, rand_byte. Qed.

Lemma issued_key_length t : str_len (apiKeyPrefix +:+ hex_Encode (rand_at t 32)) = 68.
Proof. unfold str_len. rewrite string_length_app, hex_Encode_length, rand_length. reflexivity. Qed.

(** A lookup that reads its rows answers the loop over the candidates. *)
Lemma lookup_calm key e db : calm e -> TrimSpace key = key -> 8 <= str_len key ->
  fst (MerchantService.GetMerchantByAPIKey key (MkWorld e db)) = match_candidate key (candidates_of (str_take 8 key) db).
Proof.
  intros Hc Ht Hl. pattern (MerchantService.GetMerchantByAPIKey key (MkWorld e db)).
  change (wp (MerchantService.GetMerchantByAPIKey key) (fun r _ => r = match_candidate key (candidates_of (str_take 8 key) db)) (MkWorld e db)).
  unfold MerchantService.GetMerchantByAPIKey. rewrite Ht. cbv zeta.
  destruct (is_empty key) eqn:He; [apply is_empty_true in He as ->; by compute in Hl|].
  replace (str_len key <? 8) with false by lia. wp_step. unfold GetCandidatesByPrefix. do 2 wp_step.
  eapply wp_exec_calm; [done|reflexivity|]. simpl. do 2 wp_step. apply wp_draw_calm; [done|]. simpl. by repeat wp_step.
Qed.

Lemma wp_create_calm m hash prefix e db :
  calm e -> canonical_ids e -> fresh e (map m_ID (merchants db) ++ map k_ID (api_keys db)) ->
  hash ∉ map k_KeyHash (api_keys db) ->
  wp (CreateMerchantAndAPIKey m hash prefix) (fun r _ => is_ok r = true) (MkWorld e db).
Proof.
  intros Hc Hcan [Hf _] Hh. unfold CreateMerchantAndAPIKey. apply wp_manual_tx_calm; [done|].
  do 2 wp_step. unfold tx_row. wp_step. eapply wp_tx_exec_calm; [done|..].
  { unfold InsertMerchant. destruct (existsb _ _) eqn:Hid; [|reflexivity].
    apply (existsb_true_in m_ID) in Hid. destruct (Hf (tick (bump e))); [simpl; lia|]. apply elem_of_app. by left. }
  simpl. wp_step. simpl. do 2 wp_step. eapply wp_tx_exec_calm; [done|..].
  { unfold InsertAPIKey, uuid_arg, cur_uuid. simpl. rewrite Hcan. simpl.
    destruct (existsb _ (api_keys db)) eqn:Hdup.
    { apply existsb_exists in Hdup as (k & Hk%list_elem_of_In & [Hd|Hd]%orb_true_iff); apply bool_decide_eq_true in Hd.
      - destruct (Hf (S (S (tick e)))); [lia|]. apply elem_of_app. right. rewrite <- Hd. by apply list_elem_of_fmap_2.
      - destruct Hh. rewrite <- Hd. by apply list_elem_of_fmap_2. }
    rewrite existsb_app. simpl. rewrite bool_decide_eq_true_2 by done. rewrite orb_true_r. reflexivity. }
  simpl. wp_step. eexists. split_and!; [done|done|done|]. done.
Qed.

(** Registering a valid merchant succeeds when nothing fails and what is drawn is
new; a key of 68 bytes is within what bcrypt hashes. *)
Lemma register_succeeds inp e db :
  calm e -> canonical_ids e -> fresh e (map m_ID (merchants db) ++ map k_ID (api_keys db)) ->
  (forall t h, bcrypt_hash t (apiKeyPrefix +:+ hex_Encode (rand_at (tick e) 32)) 10 = Ok h ->
     h ∉ map k_KeyHash (api_keys db)) ->
  TrimSpace (ri_Name inp) <> "" -> TrimSpace (ri_WebhookURL inp) <> "" ->
  wp (MerchantService.RegisterMerchant inp) (fun r _ => is_ok r = true) (MkWorld e db).
Proof.
  intros Hc Hcan Hf Hh Hn Hu. unfold MerchantService.RegisterMerchant. cbv zeta.
  apply is_empty_false in Hn, Hu. rewrite Hn, Hu.
  do 2 wp_step. unfold generateAPIKey, randomHex. wp_step. apply wp_draw_calm; [done|]. simpl. wp_step. simpl.
  do 2 wp_step. unfold GenerateFromPassword. apply wp_draw_calm; [done|]. simpl.
  pose proof (bcrypt_total (S (tick e)) (apiKeyPrefix +:+ hex_Encode (rand_at (tick e) 32)) 10) as Hb.
  rewrite issued_key_length in Hb. simpl in Hb.
  destruct (bcrypt_hash _ _ _) as [hash|err] eqn:Hhash; simpl; [|by destruct Hb].
  do 2 wp_step. apply wp_draw_calm; [done|]. simpl. wp_step.
  eapply wp_mono; [apply wp_create_calm; try done; [|by eapply Hh]|].
  - do 3 (eapply fresh_bump; [|by left]). done.
  - intros [m|err] w' Hok; [by wp_step|done].
Qed.

(** A suspended merchant stays suspended through a change. *)
Lemma suspended_stays i db db' :
  i ∈ map m_ID (merchants db) /\ (forall x, x ∈ merchants db -> m_ID x = i -> m_Status x = StatusSuspended) ->
  change db db' ->
  i ∈ map m_ID (merchants db') /\ (forall x, x ∈ merchants db' -> m_ID x = i -> m_Status x = StatusSuspended).
Proof.
  intros [Hin Hall] [|inp key m k db2 _ [Hid _ _ ->]|id now]; simpl; [done|..].
  - rewrite map_app, elem_of_app. split; [by left|]. intros x [Hx|Hx%list_elem_of_singleton]%elem_of_app Hi; [by apply Hall|].
    by subst.
  - rewrite map_update_where by done. split; [done|]. intros x (y & Hy & ->)%elem_of_update_where.
    case_bool_decide; [done|]. by apply Hall.
Qed.

(* ------------------------------------------------------------------ *)
(** ** Theorems *)

(** C20.  After every history of requests of the merchant service, under every
failure: merchants and key hashes are unique, the keys belong one to one to the
merchants in the order of registration (a merchant without a key, or a key
without a merchant, is never stored), every stored hash is a bcrypt hash of a key
with the stored prefix, and every merchant has a name and a webhook URL. *)
Theorem merchant_invariant h :
  Forall (fun p => canonical_ids p.1) h -> merchant_inv (serve_all h empty_merchants).
Proof.
  intros Hh. apply serve_all_ind; [done|intros d d'; apply change_inv|apply empty_merchants_inv].
Qed.

(** C24.  The key handed out by a registration is the merchant's credential from
then on: in an environment without failures the registration of a valid merchant
succeeds, and after every further history
of requests, as long as no other merchant's hash accepts the key, the key
resolves to that merchant, with the name, URL and secret it registered. *)
Theorem registered_key_resolves inp e db :
  merchant_inv db -> calm e -> canonical_ids e ->
  fresh e (map m_ID (merchants db) ++ map k_ID (api_keys db)) ->
  (forall t h, bcrypt_hash t (apiKeyPrefix +:+ hex_Encode (rand_at (tick e) 32)) 10 = Ok h ->
     h ∉ map k_KeyHash (api_keys db)) ->
  TrimSpace (ri_Name inp) <> "" -> TrimSpace (ri_WebhookURL inp) <> "" ->
  exists res w1, MerchantService.RegisterMerchant inp (MkWorld e db) = (Ok res, w1) /\
    m_Name (rr_Merchant res) = TrimSpace (ri_Name inp) /\ m_Status (rr_Merchant res) = StatusActive /\
    forall h e2, Forall (fun p => canonical_ids p.1) h -> calm e2 ->
      (forall k, k ∈ api_keys (serve_all h (w_st w1)) -> bcrypt_accepts (k_KeyHash k) (rr_APIKey res) = true ->
         k_MerchantID k = m_ID (rr_Merchant res)) ->
      exists m, fst (MerchantService.GetMerchantByAPIKey (rr_APIKey res) (MkWorld e2 (serve_all h (w_st w1)))) = Ok m /\
        follows (rr_Merchant res) m.
Proof.
  intros Hinv Hc Hcan Hf Hh Hn Hu.
  pose proof (wp_conj _ _ _ _ (register_succeeds inp e db Hc Hcan Hf Hh Hn Hu) (wp_register inp e db Hcan)) as Hw.
  unfold wp in Hw. destruct (MerchantService.RegisterMerchant inp (MkWorld e db)) as [[res|err] w1]; [|by destruct Hw].
  destruct Hw as [_ (k & Hreg & Hadd)]. simpl in Hreg, Hadd. exists res, w1.
  split_and!; [done|apply Hreg|apply Hreg|]. intros h e2 Hcans Hc2 Honly.
  pose proof Hreg as [_ _ _ _ [t Hkey] [t' Hhash] Hpre [Hown Hact]].
  pose proof (change_inv db (w_st w1) Hinv ltac:(by eapply change_register)) as Hinv1.
  set (P := fun d => merchant_inv d /\ k ∈ api_keys d /\ exists m', m' ∈ merchants d /\ follows (rr_Merchant res) m').
  assert (P (serve_all h (w_st w1))) as (Hinv2 & Hk & m' & Hm' & Hfol).
  { apply serve_all_ind; [done|..].
    - intros d d' (Hi & Hk & m' & Hm' & Hfm) Hch. destruct (change_keeps _ _ Hch) as [Hkk Hkm].
      destruct (Hkm m' Hm') as (m2 & Hm2 & Hf2). split_and!; [by eapply change_inv|by apply Hkk|].
      exists m2. split; [done|by eapply follows_trans].
    - split_and!; [done|..]; rewrite (add_rows _ _ _ _ Hadd); simpl.
      + apply elem_of_app. right. by left.
      + exists (rr_Merchant res). split; [apply elem_of_app; right; by left|apply follows_refl]. }
  assert (Htrim : TrimSpace (rr_APIKey res) = rr_APIKey res) by (rewrite Hkey; apply issued_key_trim).
  assert (Hlen : 8 <= str_len (rr_APIKey res)) by (rewrite Hkey, issued_key_length; lia).
  rewrite (lookup_calm _ _ _ Hc2 Htrim Hlen).
  edestruct match_candidate_some as [m Hm].
  { apply elem_of_candidates. exists k, m'. split_and!; [done|done| |done|done|reflexivity].
    destruct Hfol as [-> _]. by rewrite Hown. }
  { simpl. by eapply bcrypt_correct. }
  exists m. split; [done|]. apply match_candidate_ok in Hm as (c & Hc' & Hacc & <-).
  apply elem_of_candidates in Hc' as (k2 & m2 & Hk2 & Hm2 & Hid & _ & _ & ->). simpl in *.
  replace m2 with m'; [done|]. apply (NoDup_map_inj m_ID (merchants (serve_all h (w_st w1)))); [apply Hinv2|done|done|].
  rewrite Hid, (Honly k2 Hk2 Hacc). apply Hfol.
Qed.

(** The merchant [m] has an active key whose hash accepts [text]. *)
Definition owns_key (db : MerchantDB) (text : string) (m : MerchantRow) : Prop :=
  m ∈ merchants db /\
  exists k, k ∈ api_keys db /\ k_MerchantID k = m_ID m /\ k_Status k = APIKeyStatusActive /\
    k_KeyPrefix k = str_take 8 text /\ bcrypt_accepts (k_KeyHash k) text = true.

Lemma wp_lookup_owner key e db :
  wp (MerchantService.GetMerchantByAPIKey key) (fun r w' => w_st w' = db /\
    forall m, r = Ok m -> owns_key db (TrimSpace key) m) (MkWorld e db).
Proof.
  eapply wp_mono; [apply wp_lookup_key|]. intros r w' [Hdb Hm]. split; [done|]. intros m Hr.
  specialize (Hm m Hr). apply match_candidate_ok in Hm as (c & Hc & Hacc & <-).
  apply elem_of_candidates in Hc as (k & m & ? & ? & ? & ? & ? & ->). simpl in *. split; [done|]. exists k. auto.
Qed.

(** A key only ever resolves to the merchant that owns it: whatever fails,
an answer of [GetMerchantByApiKey] is a stored merchant with an active key whose
hash accepts the (trimmed) text that was presented, and nothing is changed. *)
Theorem lookup_needs_accepted_key key e db m w' :
  MerchantService.GetMerchantByAPIKey key (MkWorld e db) = (Ok m, w') ->
  w_st w' = db /\ owns_key db (TrimSpace key) m.
Proof.
  intros Hrun. destruct (wp_run _ _ _ _ _ Hrun (wp_lookup_owner key e db)) as [-> Hm]. auto.
Qed.

(** After a suspension, every later row of the merchant is SUSPENDED. *)
Lemma suspended_forever id e db m w1 h :
  Suspend id (MkWorld e db) = (Ok m, w1) ->
  Forall (fun p => canonical_ids p.1) h ->
  forall x, x ∈ merchants (serve_all h (w_st w1)) -> m_ID x = m_ID m -> m_Status x = StatusSuspended.
Proof.
  intros Hrun Hcans x Hx Hid.
  destruct (wp_run _ _ _ _ _ Hrun (wp_suspend id e db)) as [_ Hsus].
  destruct (Hsus m eq_refl) as (i & now & _ & Hi & Hin & Hw1).
  set (P := fun d => i ∈ map m_ID (merchants d) /\ forall x, x ∈ merchants d -> m_ID x = i -> m_Status x = StatusSuspended).
  assert (P (serve_all h (w_st w1))) as [_ Hall]; [|apply Hall; [done|congruence]].
  apply serve_all_ind; [done|apply suspended_stays|]. rewrite Hw1. split; simpl; [by rewrite map_update_where|].
  intros y (z & _ & ->)%elem_of_update_where. by case_bool_decide.
Qed.

(** Suspension is final: once [SuspendMerchant] answered, every later answer
of [GetMerchant] or [GetMerchantByApiKey] that shows this merchant shows it
SUSPENDED, whatever requests come in between and whatever fails. *)
Theorem suspension_is_final id e db m w1 h e2 :
  Suspend id (MkWorld e db) = (Ok m, w1) ->
  Forall (fun p => canonical_ids p.1) h ->
  forall m2, m_ID m2 = m_ID m ->
  (exists arg, fst (MerchantService.GetMerchant arg (MkWorld e2 (serve_all h (w_st w1)))) = Ok m2) \/
  (exists key, fst (MerchantService.GetMerchantByAPIKey key (MkWorld e2 (serve_all h (w_st w1)))) = Ok m2) ->
  m_Status m2 = StatusSuspended.
Proof.
  intros Hrun Hcans m2 Hid Hans. eapply (suspended_forever id e db m w1 h); [done|done| |done].
  destruct Hans as [[arg Ha]|[key Ha]].
  - pose proof (wp_get_merchant arg e2 (serve_all h (w_st w1))) as [_ Hm]. by apply Hm.
  - pose proof (wp_lookup_owner key e2 (serve_all h (w_st w1))) as [_ Hm]. by apply Hm.
Qed.
End Props.

(* ------------------------------------------------------------------ *)
(** ** Examples *)

(** Bytes that repeat the call number, and a hash that is the password with a
salt behind it. *)
Definition demo_entropy : Entropy := {| rand_at t n := replicate n (Z.of_nat t mod 256) |}.
Lemma demo_entropy_laws : @EntropyLaws demo_entropy.
Proof.
  constructor; simpl; intros t n; [apply length_replicate|]. apply Forall_replicate, Z.mod_pos_bound. lia.
Qed.

Definition demo_bcrypt : Bcrypt := {|
  bcrypt_hash t pw cost :=
    if (str_len pw <=? 72) && (4 <=? cost) && (cost <=? 31) then Ok (pw +:+ "$" +:+ pretty (N.of_nat t))
    else Err (PlainError "bcrypt: password length exceeds 72 bytes");
  bcrypt_accepts h pw := String.prefix (pw +:+ "$") h;
|}.
Lemma prefix_app s t u : String.prefix (s +:+ t) (s +:+ (t +:+ u)) = true.
Proof.
  induction s as [|a s IH]; simpl; [|by destruct (Ascii.ascii_dec a a)].
  induction t as [|b t IHt]; simpl; [by destruct u|by destruct (Ascii.ascii_dec b b)].
Qed.

Lemma demo_bcrypt_laws : @BcryptLaws demo_bcrypt.
Proof.
  constructor; simpl.
  - intros t pw cost h. destruct (_ && _); intros [= <-]. apply prefix_app.
  - intros t pw cost Hl Hc. replace (str_len pw <=? 72) with true by lia.
    by replace (4 <=? cost) with true by lia; replace (cost <=? 31) with true by lia.
Qed.

#[local] Existing Instances text_uuids ascii_tables simple_grpc demo_entropy demo_entropy_laws demo_bcrypt demo_bcrypt_laws.

Definition shop_env (n : nat) : env :=
  MkEnv n Z.of_nat (fun n => "m" +:+ pretty (N.of_nat n)) (fun _ => NoFault).

Lemma shop_canonical n : canonical_ids (shop_env n).
Proof. intros m. simpl. by rewrite (numbered_canonical "m"). Qed.

Lemma shop_fresh n ids : (forall m, (n <= m)%nat -> "m" +:+ pretty (N.of_nat m) ∉ ids) -> fresh (shop_env n) ids.
Proof.
  intros Hids. split; simpl; [exact Hids|]. intros i j Hij [= Heq].
  apply pretty_N_inj in Heq. lia.
Qed.

Definition shop_input : RegisterInput := MkRegisterInput " Shop" "https://shop.example/hook " "".
Definition shop_history : list (env * merchant_req) :=
  [ (shop_env 10, ReqRegister (MkRegisterMerchantRequest "Other" "https://other.example" "x@other.example"));
    (shop_env 20, ReqSuspend "m4" "chargebacks") ].
Lemma shop_history_canonical : Forall (fun p => canonical_ids p.1) shop_history.
Proof. repeat constructor; apply shop_canonical. Qed.

Definition shop_db : MerchantDB := serve_all [(shop_env 0, ReqRegister (MkRegisterMerchantRequest "Shop" "https://shop.example/hook" ""))] empty_merchants.

Example shop_rows : map m_ID (merchants (serve_all shop_history shop_db)) = ["m4"; "m14"] /\
  map m_Status (merchants (serve_all shop_history shop_db)) = ["SUSPENDED"; "ACTIVE"].
Proof. vm_compute. auto. Qed.

Lemma merchant_invariant_witness : merchant_inv (serve_all shop_history empty_merchants).
Proof. apply (merchant_invariant shop_history). apply shop_history_canonical. Defined.

Lemma registered_key_resolves_witness :
  exists res w1, MerchantService.RegisterMerchant shop_input (MkWorld (shop_env 0) empty_merchants) = (Ok res, w1) /\
    m_Name (rr_Merchant res) = "Shop" /\
    exists m, fst (MerchantService.GetMerchantByAPIKey (rr_APIKey res)
                     (MkWorld (shop_env 30) (serve_all shop_history (w_st w1)))) = Ok m /\ follows (rr_Merchant res) m.
Proof.
  destruct (registered_key_resolves shop_input (shop_env 0) empty_merchants) as (res & w1 & Hrun & Hn & _ & Hlook).
  - apply empty_merchants_inv.
  - done.
  - apply shop_canonical.
  - apply shop_fresh. intros m _ Hin. by apply elem_of_nil in Hin.
  - intros t h _ Hin. by apply elem_of_nil in Hin.
  - by vm_compute.
  - by vm_compute.
  - exists res, w1. split_and!; [done|exact Hn|]. apply Hlook; [apply shop_history_canonical|done|].
    vm_compute in Hrun. injection Hrun as <- <-. refine (proj1 (Forall_forall (fun k => _ = _ -> _ = _) _) _). vm_compute.
    repeat (constructor; [intros; try done|]). constructor.
Defined.

Lemma lookup_needs_accepted_key_witness :
  exists m w', MerchantService.GetMerchantByAPIKey (apiKeyPrefix +:+ hex_Encode (rand_at 0 32)) (MkWorld (shop_env 30) shop_db) = (Ok m, w') /\
  m ∈ merchants shop_db.
Proof.
  eexists _, _. split; [vm_compute; reflexivity|].
  refine (proj1 (proj2 (lookup_needs_accepted_key (apiKeyPrefix +:+ hex_Encode (rand_at 0 32)) (shop_env 30) shop_db _ _ _))).
  vm_compute. reflexivity.
Defined.

Lemma suspension_is_final_witness :
  exists m w1, Suspend "m4" (MkWorld (shop_env 40) shop_db) = (Ok m, w1) /\
  exists m2, fst (MerchantService.GetMerchant "m4" (MkWorld (shop_env 60) (serve_all shop_history (w_st w1)))) = Ok m2 /\
    m_Status m2 = StatusSuspended.
Proof.
  eexists _, _. split; [vm_compute; reflexivity|]. eexists. split; [vm_compute; reflexivity|].
  eapply (suspension_is_final "m4" (shop_env 40) shop_db _ _ shop_history (shop_env 60)).
  - vm_compute. reflexivity.
  - apply shop_history_canonical.
  - reflexivity.
  - left. exists "m4". vm_compute. reflexivity.
Defined.
