(* ===== verification/BankAdapter.v ===== *)
(** * The bank adapter ([services/bank-adapter/internal/adapter.go]).

Three RPCs in front of an HTTP API, each behind a circuit breaker and a retry
loop.  [net/http] is the class [Wire]: what a request comes back with.  Bodies
are text: requests as Marshal writes them, answers as Unmarshal reads them into
the structs, of which at most a mebibyte is read; the text of a decoding error is
the class [JsonErrors].  [gobreaker]
is the class [Breaker] (admit a call or refuse it, and be told the outcome), and
[retry-go] the class [RetryLib], whose law is its documented behaviour: the
function runs at most [n] times, again only after an error that [RetryIf]
accepts, and possibly fewer times when the context ends. *)
From S2P Require Import Prelude GoStrings Utf8 DomainErr World Proto Idempotency GoTime GoJson JsonParse JsonStruct RiskRules.
Local Open Scope Z_scope.
Local Open Scope go_scope.

Record httpInitiateReq := MkHttpInitiateReq {
  hi_PaymentID : string; hi_BankConsentRef : string; hi_ConsumerID : string;
  hi_AmountPence : Z; hi_Currency : string; hi_Description : string }.
Record httpInitiateResp := MkHttpInitiateResp {
  hr_BankPaymentRef : string; hr_Status : string; hr_FailureReason : string }.
Record httpStatusResp := MkHttpStatusResp {
  hs_BankPaymentRef : string; hs_Status : string; hs_UpdatedAt : string;
  hs_FailureReason : string; hs_ReversalRef : string }.
Record httpReverseReq := MkHttpReverseReq { hv_Reason : string }.
Record httpReverseResp := MkHttpReverseResp {
  hq_BankPaymentRef : string; hq_ReversalRef : string; hq_Status : string }.

(** The [body any] argument. *)
Inductive http_body := NoBody | InitiateBody (b : httpInitiateReq) | ReverseBody (b : httpReverseReq).

Definition marshal_initiate (b : httpInitiateReq) : value :=
  VObj [("payment_id", VStr (hi_PaymentID b)); ("bank_consent_ref", VStr (hi_BankConsentRef b));
        ("consumer_id", VStr (hi_ConsumerID b)); ("amount_pence", VInt (hi_AmountPence b));
        ("currency", VStr (hi_Currency b)); ("description", VStr (hi_Description b))].

(** [json.Marshal(body)]; no reader is made of nil. *)
Definition marshal_body (b : http_body) : option string :=
  match b with
  | NoBody => None
  | InitiateBody b => Some (json_text (marshal_initiate b))
  | ReverseBody b => Some (json_text (VObj [("reason", VStr (hv_Reason b))]))
  end.

(** The structs an answer is decoded into. *)
Definition httpInitiateResp_fields : list (field httpInitiateResp) := [
  field_at "bank_payment_ref" hr_BankPaymentRef (fun a r => MkHttpInitiateResp a (hr_Status r) (hr_FailureReason r)) dec_string;
  field_at "status" hr_Status (fun a r => MkHttpInitiateResp (hr_BankPaymentRef r) a (hr_FailureReason r)) dec_string;
  field_at "failure_reason" hr_FailureReason (fun a r => MkHttpInitiateResp (hr_BankPaymentRef r) (hr_Status r) a) dec_string].
Definition httpStatusResp_fields : list (field httpStatusResp) := [
  field_at "bank_payment_ref" hs_BankPaymentRef
    (fun a r => MkHttpStatusResp a (hs_Status r) (hs_UpdatedAt r) (hs_FailureReason r) (hs_ReversalRef r)) dec_string;
  field_at "status" hs_Status
    (fun a r => MkHttpStatusResp (hs_BankPaymentRef r) a (hs_UpdatedAt r) (hs_FailureReason r) (hs_ReversalRef r)) dec_string;
  field_at "updated_at" hs_UpdatedAt
    (fun a r => MkHttpStatusResp (hs_BankPaymentRef r) (hs_Status r) a (hs_FailureReason r) (hs_ReversalRef r)) dec_string;
  field_at "failure_reason" hs_FailureReason
    (fun a r => MkHttpStatusResp (hs_BankPaymentRef r) (hs_Status r) (hs_UpdatedAt r) a (hs_ReversalRef r)) dec_string;
  field_at "reversal_ref" hs_ReversalRef
    (fun a r => MkHttpStatusResp (hs_BankPaymentRef r) (hs_Status r) (hs_UpdatedAt r) (hs_FailureReason r) a) dec_string].
Definition httpReverseResp_fields : list (field httpReverseResp) := [
  field_at "bank_payment_ref" hq_BankPaymentRef (fun a r => MkHttpReverseResp a (hq_ReversalRef r) (hq_Status r)) dec_string;
  field_at "reversal_ref" hq_ReversalRef (fun a r => MkHttpReverseResp (hq_BankPaymentRef r) a (hq_Status r)) dec_string;
  field_at "status" hq_Status (fun a r => MkHttpReverseResp (hq_BankPaymentRef r) (hq_ReversalRef r) a) dec_string].

(** The error of [json.Unmarshal] of a text into a struct of that name. *)
Class JsonErrors := { Unmarshal_error : string -> string -> error }.

(** [json.Unmarshal(raw, out)], with [zero] what [out] starts with. *)
Definition unmarshal_reply `{JsonErrors} {Out} (name : string) (fields : list (field Out)) (zero : Out) (raw : string)
  : result error Out :=
  let '(out, failed) := Unmarshal (dec_struct false fields) raw zero in
  if failed then Err (Unmarshal_error name raw) else Ok out.

Definition no_initiate : httpInitiateResp := MkHttpInitiateResp "" "" "".
Definition no_status : httpStatusResp := MkHttpStatusResp "" "" "" "" "".
Definition no_reverse : httpReverseResp := MkHttpReverseResp "" "" "".
Definition dec_initiate `{JsonErrors} := unmarshal_reply "httpInitiateResp" httpInitiateResp_fields no_initiate.
Definition dec_status `{JsonErrors} := unmarshal_reply "httpStatusResp" httpStatusResp_fields no_status.
Definition dec_reverse `{JsonErrors} := unmarshal_reply "httpReverseResp" httpReverseResp_fields no_reverse.

(** What [http.NewRequest], [Do] and reading the body come to. *)
Inductive http_outcome :=
| BadRequestURL (e : error)
| CallFailed (e : error)
| ReadFailed (e : error)
| Reply (code : Z) (body : string).

(** A request: its method, its path and the text of its body. *)
Class Wire (W : Type) := wire_Do : string -> string -> option string -> M W http_outcome.

(** [io.LimitReader(resp.Body, 1<<20)]. *)
Fixpoint limit_read (n : N) (s : string) : string :=
  match s with
  | EmptyString => EmptyString
  | String c s' => if (n =? 0)%N then EmptyString else String c (limit_read (n - 1) s')
  end.
Definition body_limit : N := 1024 * 1024.

(** [cb.Execute]: refuse with [ErrOpenState] or [ErrTooManyRequests], or run and
count a nil error as a success. *)
Class Breaker (W : Type) := { cb_admits : M W bool; cb_reports : bool -> M W unit }.

(** [ReadyToTrip] of the settings, of the number of consecutive failures. *)
Definition ReadyToTrip (consecutiveFailures : Z) : bool := 10 <? consecutiveFailures.
Definition retryAttempts : nat := 3.

(** [last] is the error of the last run, if the function ran at all. *)
Inductive retried (A : Type) := Succeeded (a : A) | GaveUp (last : option error) (rerr : error).
Arguments Succeeded {A}.
Arguments GaveUp {A}.

Section Attempts.
Context {W A : Type} (retryIf : error -> bool) (fn : M W (result error A)).

(** [k] runs of the function, from one world to another. *)
Inductive attempted : nat -> W -> retried A -> W -> Prop :=
| att_none rerr w : attempted 0 w (GaveUp None rerr) w
| att_ok a w w' : fn w = (Ok a, w') -> attempted 1 w (Succeeded a) w'
| att_stop e rerr w w' : fn w = (Err e, w') -> attempted 1 w (GaveUp (Some e) rerr) w'
| att_more e k o w w1 w' : fn w = (Err e, w1) -> retryIf e = true -> (1 <= k)%nat ->
    attempted k w1 o w' -> attempted (S k) w o w'.
End Attempts.

Class RetryLib (W : Type) :=
  retry_Do : forall A, nat -> (error -> bool) -> M W (result error A) -> M W (retried A).
Arguments retry_Do {W _} {A} _ _ _.

Class RetryLaw (W : Type) `{RetryLib W} :=
  retry_law : forall A n p (fn : M W (result error A)) w, (0 < n)%nat ->
    exists k, (k <= n)%nat /\ attempted p fn k w (fst (retry_Do n p fn w)) (snd (retry_Do n p fn w)).

(** [errors.As(err, &te)] for the adapter's own error type. *)
Fixpoint errors_As_transient (err : error) : option string :=
  match err with
  | TransientError m => Some m
  | DomainError _ _ (Some i) => errors_As_transient i
  | WrapError _ i | WrapTail _ i _ => errors_As_transient i
  | _ => None
  end.

Definition normalizeErr (err : error) : error :=
  match errors_As_transient err with
  | Some m => DomainErr.New CodeBankUnavailable m
  | None => err
  end.

Definition isTransient (err : error) : bool :=
  match errors_As_transient err with
  | Some _ => true
  | None => Is err CodeBankUnavailable
  end.

Section Adapter.
Context `{Unicode} `{GrpcLib} `{GoFmt} `{JsonErrors} {W : Type} `{Wire W} `{Breaker W} `{RetryLib W}.
Context (time_now : M W Z).

Definition mapStatus (s : string) : result error BankPaymentStatus :=
  let u := ToUpper (TrimSpace s) in
  if bool_decide (u = "PENDING") then Ok Bank_PENDING
  else if bool_decide (u ∈ ["AUTHORISED"; "AUTHORIZED"]) then Ok Bank_AUTHORISED
  else if bool_decide (u = "SETTLED") then Ok Bank_SETTLED
  else if bool_decide (u = "REJECTED") then Ok Bank_REJECTED
  else if bool_decide (u = "REVERSED") then Ok Bank_REVERSED
  else if bool_decide (u ∈ [""; "UNSPECIFIED"]) then Ok BANK_PAYMENT_STATUS_UNSPECIFIED
  else Err (PlainError ("unmapped status " +:+ fmt_q s)).

(** The trimmed body, or a text of its own when that is empty. *)
Definition body_or (raw text : string) : string :=
  let msg := TrimSpace raw in if is_empty msg then text else msg.

(** What a status code and the part of the body that was read mean; [zero] is the
value [out] starts with. *)
Definition read_reply {Out} (zero : Out) (decode : string -> result error Out) (code : Z) (body : string)
  : result error Out :=
  if code =? 404 then Err (DomainErr.New CodeNotFound "bank payment not found")
  else if code =? 400 then Err (DomainErr.New CodeValidation (body_or body "invalid bank request"))
  else if code =? 409 then Err (DomainErr.New CodeConflict (body_or body "bank payment conflict"))
  else if 500 <=? code
       then Err (TransientError ("bank returned " +:+ itoa code +:+ ": " +:+ TrimSpace body))
  else if (code <? 200) || (300 <=? code)
       then Err (DomainErr.New CodeBankUnavailable ("bank returned " +:+ itoa code))
  else if is_empty body then Ok zero
  else map_err (DomainErr.Wrap CodeInternal "decode bank response") (decode body).

(** What one HTTP call comes to. *)
Definition outcome_result {Out} (zero : Out) (decode : string -> result error Out) (o : http_outcome)
  : result error Out :=
  match o with
  | BadRequestURL e => Err (DomainErr.Wrap CodeInternal "build request" e)
  | CallFailed e => Err (DomainErr.Wrap CodeBankUnavailable "bank http call failed" e)
  | ReadFailed e => Err (DomainErr.Wrap CodeBankUnavailable "read bank response" e)
  | Reply code body => read_reply zero decode code (limit_read body_limit body)
  end.

Definition doHTTP {Out} (zero : Out) (decode : string -> result error Out)
    (method path : string) (body : http_body) : M W (result error Out) :=
  o <- wire_Do method path (marshal_body body) ;;
  gret (outcome_result zero decode o).

Definition doWithResilience {Out} (zero : Out) (decode : string -> result error Out)
    (method path : string) (body : http_body) : M W (result error Out) :=
  ok <- cb_admits ;;
  if negb (ok : bool) then gret (Err (DomainErr.New CodeBankUnavailable "bank circuit breaker open"))
  else
    r <- retry_Do retryAttempts isTransient (doHTTP zero decode method path body) ;;
    let res := match r with
               | Succeeded out => Ok out
               | GaveUp (Some last) _ => Err (normalizeErr last)
               | GaveUp None rerr => Err (normalizeErr rerr)
               end in
    _ <- cb_reports (is_ok res) ;;
    gret res.

Definition invalid (msg : string) : error := ToGRPC (DomainErr.New CodeValidation msg).

(** [mapStatus] of an answer, as each RPC wraps it. *)
Definition status_of (s : string) : result error BankPaymentStatus :=
  map_err (fun e => ToGRPC (DomainErr.Wrap CodeInternal "unknown bank status" e)) (mapStatus s).

Definition initiate_body (req : InitiateRequest) (amount : PMoney) : http_body :=
  InitiateBody (MkHttpInitiateReq (ir_payment_id req) (ir_bank_consent_ref req) (ir_consumer_id req)
    (pm_amount_pence amount) (if is_empty (pm_currency amount) then "GBP" else pm_currency amount)
    (ir_description req)).

(** A nil request reads as one with empty fields. *)
Definition InitiatePayment (req : option InitiateRequest) : M W (result error InitiateResponse) :=
  match req with
  | None => gret (Err (invalid "payment_id is required"))
  | Some req =>
      if is_empty (ir_payment_id req) then gret (Err (invalid "payment_id is required"))
      else if is_empty (ir_bank_consent_ref req) then gret (Err (invalid "bank_consent_ref is required"))
      else match ir_amount req with
      | None => gret (Err (invalid "amount must be positive"))
      | Some amount =>
          if pm_amount_pence amount <=? 0 then gret (Err (invalid "amount must be positive"))
          else
            out <-? gmap_err ToGRPC (doWithResilience no_initiate dec_initiate
                      "POST" "/bank/payments" (initiate_body req amount)) ;;
            match status_of (hr_Status out) with
            | Err e => gret (Err e)
            | Ok status =>
                now <- time_now ;;
                gret (Ok (MkInitiateResponse (hr_BankPaymentRef out) status
                  (if bool_decide (status = Bank_REJECTED) && is_empty (hr_FailureReason out)
                   then "bank rejected payment" else hr_FailureReason out) now))
            end
      end
  end.

(** Both layouts of [time.Parse] read the same texts. *)
Definition GetPaymentStatus (ref : string) : M W (result error StatusResponse) :=
  if is_empty ref then gret (Err (invalid "bank_payment_ref is required"))
  else
    out <-? gmap_err ToGRPC (doWithResilience no_status dec_status
              "GET" ("/bank/payments/" +:+ ref) NoBody) ;;
    match status_of (hs_Status out) with
    | Err e => gret (Err e)
    | Ok status =>
        now <- time_now ;;
        let updated :=
          if is_empty (hs_UpdatedAt out) then now
          else match Parse_RFC3339 (hs_UpdatedAt out) with
               | Some t => t
               | None => now
               end in
        gret (Ok (MkStatusResponse (hs_BankPaymentRef out) status updated))
    end.

Definition ReversePayment (ref reason : string) : M W (result error ReverseResponse) :=
  if is_empty ref then gret (Err (invalid "bank_payment_ref is required"))
  else
    out <-? gmap_err ToGRPC (doWithResilience no_reverse dec_reverse
              "POST" ("/bank/payments/" +:+ ref +:+ "/reverse") (ReverseBody (MkHttpReverseReq reason))) ;;
    match status_of (hq_Status out) with
    | Err e => gret (Err e)
    | Ok status => gret (Ok (MkReverseResponse (hq_BankPaymentRef out) (hq_ReversalRef out) status))
    end.
End Adapter.
