(* ===== verification/MockBank.v ===== *)
(** * The mock bank ([services/bank-adapter/internal/mockbank/server.go]) behind
the adapter.

The handlers are functions of the stored payments, the text of the request's body,
the clock, a fresh UUID and the random numbers they draw; they answer a code and
the text of a body.  [mock_wire] connects the adapter to the handler of POST
/bank/payments: a call can be refused, or served with its reply lost; the other
routes go to [other]. *)
From S2P Require Import Prelude GoStrings Utf8 DomainErr World Proto Idempotency GoTime GoJson JsonParse JsonStruct RiskRules BankAdapter.
From Stdlib Require Import Ascii QArith.
Local Open Scope Z_scope.
Local Open Scope go_scope.

Record paymentRecord := MkRecord {
  pr_PaymentID : string; pr_BankConsentRef : string; pr_ConsumerID : string; pr_AmountPence : Z;
  pr_Currency : string; pr_Description : string; pr_BankPaymentRef : string; pr_Status : string;
  pr_FailureReason : string; pr_ReversalRef : string; pr_CreatedAt : Z; pr_UpdatedAt : Z }.

Abbreviation Bank := (gmap string paymentRecord).

Fixpoint strip_dashes (s : string) : string :=
  match s with
  | EmptyString => EmptyString
  | String c s' => if bool_decide (c = "-"%char) then strip_dashes s' else String c (strip_dashes s')
  end.

(** The numbers [rand.Float64] gives one request. *)
Record Draws := MkDraws { dr_fail : Q; dr_half : Q }.

Definition shouldFail (failRate : Q) (d : Draws) : bool :=
  if Qle_bool failRate 0 then false
  else if Qle_bool 1 failRate then true
  else negb (Qle_bool failRate (dr_fail d)).

Record initiateRequest := MkInitiateReq {
  iq_PaymentID : string; iq_BankConsentRef : string; iq_ConsumerID : string;
  iq_AmountPence : Z; iq_Currency : string; iq_Description : string }.

Definition initiateRequest_fields : list (field initiateRequest) := [
  field_at "payment_id" iq_PaymentID
    (fun a r => MkInitiateReq a (iq_BankConsentRef r) (iq_ConsumerID r) (iq_AmountPence r) (iq_Currency r) (iq_Description r)) dec_string;
  field_at "bank_consent_ref" iq_BankConsentRef
    (fun a r => MkInitiateReq (iq_PaymentID r) a (iq_ConsumerID r) (iq_AmountPence r) (iq_Currency r) (iq_Description r)) dec_string;
  field_at "consumer_id" iq_ConsumerID
    (fun a r => MkInitiateReq (iq_PaymentID r) (iq_BankConsentRef r) a (iq_AmountPence r) (iq_Currency r) (iq_Description r)) dec_string;
  field_at "amount_pence" iq_AmountPence
    (fun a r => MkInitiateReq (iq_PaymentID r) (iq_BankConsentRef r) (iq_ConsumerID r) a (iq_Currency r) (iq_Description r)) (dec_int 64);
  field_at "currency" iq_Currency
    (fun a r => MkInitiateReq (iq_PaymentID r) (iq_BankConsentRef r) (iq_ConsumerID r) (iq_AmountPence r) a (iq_Description r)) dec_string;
  field_at "description" iq_Description
    (fun a r => MkInitiateReq (iq_PaymentID r) (iq_BankConsentRef r) (iq_ConsumerID r) (iq_AmountPence r) (iq_Currency r) a) dec_string].

(** [json.NewDecoder(r.Body).Decode(&req)]: the request, unless there was an error. *)
Definition read_initiate (body : string) : option initiateRequest :=
  let '(req, failed) := Decode (dec_struct false initiateRequest_fields) body (MkInitiateReq "" "" "" 0 "" "") in
  if failed then None else Some req.

(** The same of a [reverseRequest], whose error is ignored: the reason. *)
Definition read_reason (body : string) : string :=
  fst (Decode (dec_struct false [field_at "reason" (fun r => r) (fun a _ => a) dec_string]) body "").

Definition newline : string := String (ascii_of 10) EmptyString.

(** [json.NewEncoder(w).Encode(v)]. *)
Definition writeJSON (code : Z) (v : value) : Z * string := (code, json_text v +:+ newline).

(** [http.Error]. *)
Definition http_Error (text : string) (code : Z) : Z * string := (code, text +:+ newline).

(** The bodies of the answers; a map's members are written in the order of their names. *)
Definition accepted_json (ref status : string) : value := VObj [("bank_payment_ref", VStr ref); ("status", VStr status)].
Definition rejected_json (ref reason : string) : value :=
  VObj [("bank_payment_ref", VStr ref); ("failure_reason", VStr reason); ("status", VStr "REJECTED")].
Definition status_json (rec : paymentRecord) : value :=
  VObj [("bank_payment_ref", VStr (pr_BankPaymentRef rec)); ("failure_reason", VStr (pr_FailureReason rec));
        ("reversal_ref", VStr (pr_ReversalRef rec)); ("status", VStr (pr_Status rec));
        ("updated_at", VStr (Format_RFC3339Nano (pr_UpdatedAt rec)))].
Definition reversed_json (rec : paymentRecord) : value :=
  VObj [("bank_payment_ref", VStr (pr_BankPaymentRef rec)); ("reversal_ref", VStr (pr_ReversalRef rec)); ("status", VStr (pr_Status rec))].

Section Handlers.
Context `{Unicode}.

(** [strings.ToUpper(strings.ReplaceAll(id, "-", "")[:n])] with its prefix. *)
Definition new_ref (prefix : string) (n : nat) (uuid : string) : string :=
  prefix +:+ ToUpper (str_take n (strip_dashes uuid)).

Definition handler : Type := Z -> string -> Bank -> (Z * string) * Bank.

Definition writeFailure (d : Draws) : handler :=
  fun now uuid bank =>
    if negb (Qle_bool (1 # 2) (dr_half d)) then
      let ref := new_ref "FPS-" 16 uuid in
      let rec := MkRecord "" "" "" 0 "" "" ref "REJECTED" "mock bank simulated rejection" "" now now in
      (writeJSON 200 (rejected_json ref (pr_FailureReason rec)), <[ref := rec]> bank)
    else (http_Error "mock bank unavailable" 503, bank).

Definition handleInitiate (failRate : Q) (d : Draws) (body : string) : handler :=
  fun now uuid bank =>
    if shouldFail failRate d then writeFailure d now uuid bank
    else match read_initiate body with
    | None => (http_Error "invalid json" 400, bank)
    | Some req =>
        if is_empty (iq_PaymentID req) || is_empty (iq_BankConsentRef req) || (iq_AmountPence req <=? 0)
        then (http_Error "payment_id, bank_consent_ref and positive amount_pence required" 400, bank)
        else
          let rec := MkRecord (iq_PaymentID req) (iq_BankConsentRef req) (iq_ConsumerID req)
                       (iq_AmountPence req) (if is_empty (iq_Currency req) then "GBP" else iq_Currency req)
                       (iq_Description req) (new_ref "FPS-" 16 uuid) "SETTLED" "" "" now now in
          (writeJSON 200 (accepted_json (pr_BankPaymentRef rec) (pr_Status rec)),
           <[pr_BankPaymentRef rec := rec]> bank)
    end.

Definition handleStatus (failRate : Q) (d : Draws) (ref : string) : handler :=
  fun now uuid bank =>
    if shouldFail failRate d then writeFailure d now uuid bank
    else match bank !! ref with
    | None => (http_Error "payment not found" 404, bank)
    | Some rec => (writeJSON 200 (status_json rec), bank)
    end.

(** The record after a reversal. *)
Definition reversed_record (reason : string) (now : Z) (uuid : string) (r : paymentRecord) : paymentRecord :=
  MkRecord (pr_PaymentID r) (pr_BankConsentRef r) (pr_ConsumerID r) (pr_AmountPence r) (pr_Currency r)
    (pr_Description r) (pr_BankPaymentRef r) "REVERSED"
    (if is_empty reason then pr_FailureReason r else reason) (new_ref "REV-" 12 uuid) (pr_CreatedAt r) now.

Definition handleReverse (failRate : Q) (d : Draws) (ref body : string) : handler :=
  fun now uuid bank =>
    if shouldFail failRate d then writeFailure d now uuid bank
    else
      let reason := read_reason body in
      let answer rec := writeJSON 200 (reversed_json rec) in
      match bank !! ref with
      | None => (http_Error "payment not found" 404, bank)
      | Some rec =>
          if bool_decide (pr_Status rec = "REVERSED") then (answer rec, bank)
          else if negb (bool_decide (pr_Status rec ∈ ["SETTLED"; "AUTHORISED"]))
               then (http_Error ("payment not reversible in status " +:+ pr_Status rec) 409, bank)
          else let rec' := reversed_record reason now uuid rec in (answer rec', <[ref := rec']> bank)
      end.

(** The adapter's HTTP client on this bank. *)
Definition serve (h : handler) : M (world Bank) http_outcome :=
  r <- exec (fun now uuid bank => let '(a, bank') := h now uuid bank in (Ok a, bank')) ;;
  gret (match r with Ok (code, body) => Reply code body | Err e => CallFailed e end).

(** A request without a body has an empty one. *)
Definition mock_wire (failRate : Q) (draws : nat -> Draws)
    (other : string -> string -> option string -> M (world Bank) http_outcome) : Wire (world Bank) :=
  fun method path body w =>
    if bool_decide (method = "POST") && bool_decide (path = "/bank/payments")
    then serve (handleInitiate failRate (draws (tick (w_env w))) (default "" body)) w
    else other method path body w.
End Handlers.
