(* ===== verification/BankBodies.v ===== *)
(** * What the adapter and the mock bank read of each other's bodies. *)
From S2P Require Import Prelude GoStrings Utf8 DomainErr World Proto Idempotency Sha256 GoTime GoJson JsonParse JsonStruct RiskRules BankAdapter MockBank.
From Stdlib Require Import Ascii QArith.
Local Open Scope Z_scope.
Local Open Scope go_scope.

(* ------------------------------------------------------------------ *)
(** ** The length of a text *)

Lemma limit_read_all s : forall n, (N.of_nat (String.length s) <= n)%N -> limit_read n s = s.
Proof.
  induction s as [|c s IH]; intros n Hn; [done|]. cbn [limit_read String.length] in *.
  destruct (N.eqb_spec n 0); [lia|]. rewrite IH by lia. done.
Qed.

Lemma escape_length r bs : (1 <= length bs)%nat -> (length (escape_rune (r, bs)) <= 6 * length bs)%nat.
Proof. intros Hbs. unfold escape_rune. repeat case_match; simpl; lia. Qed.

Lemma escaped_upper k : forall l, (length l < k)%nat ->
  (length (concat (map escape_rune (runes_from 0 l))) <= 6 * length l)%nat.
Proof.
  induction k as [|k IH]; intros [|b l] Hk; [simpl in *; lia..|simpl; lia|]. rewrite runes_from_cons.
  pose proof (decode_rune_shape b l) as Hd. destruct (decode_rune b l) as [r n]. cbn [map concat]. rewrite length_app.
  assert (1 <= n <= S (length l))%nat as Hn by (destruct Hd as [(? & _)|[(? & _)|(? & ? & _)]]; lia).
  pose proof (escape_length r (take n (b :: l))) as He. rewrite length_take in He. simpl in He, Hk |- *.
  specialize (IH (drop (n - 1) l)). rewrite length_drop in IH. lia.
Qed.

Lemma quoted_length s : (length (quoted s) <= 6 * String.length s + 2)%nat.
Proof.
  unfold quoted. simpl. rewrite length_app. simpl. unfold runes.
  pose proof (escaped_upper _ (String.list_ascii_of_string s) (Nat.lt_succ_diag_r _)) as Hl.
  rewrite list_of_string_length in Hl. lia.
Qed.

(** The length of an object of strings. *)
Definition text_size (ms : list (string * string)) : nat :=
  foldr (fun m n => (6 * String.length m.1 + 6 * String.length m.2 + 6 + n)%nat) 2%nat ms.

Lemma object_length ms :
  (String.length (json_text (VObj (map (fun m => (m.1, VStr m.2)) ms))) <= text_size ms)%nat.
Proof.
  unfold json_text. rewrite string_of_list_length. cbn [json_chars length]. rewrite map_map, length_app. cbn [length fst snd].
  enough (length (commas (map (fun m : string * string => quoted m.1 ++ ":"%char :: json_chars (VStr m.2)) ms)) + 2 <= text_size ms)%nat by lia.
  induction ms as [|[k s] ms IH]; [simpl; lia|]. cbn [map text_size foldr fst snd json_chars] in *. fold (text_size ms).
  pose proof (quoted_length k). pose proof (quoted_length s).
  destruct ms as [|m ms]; cbn [map commas] in *; rewrite !length_app; cbn [length] in *; lia.
Qed.

Lemma rune_bytes_length r : (length (rune_bytes r) <= 4)%nat.
Proof. unfold rune_bytes. repeat case_match; simpl; lia. Qed.

Lemma mapped_length (f : Z -> Z) k : forall l, (length l < k)%nat ->
  (length (concat (map (fun p => encode_rune (f p.1)) (runes_from 0 l))) <= 4 * length l)%nat.
Proof.
  induction k as [|k IH]; intros [|b l] Hk; [simpl in *; lia..|simpl; lia|]. rewrite runes_from_cons.
  destruct (decode_rune b l) as [r n]. cbn [map concat fst length]. rewrite length_app.
  pose proof (rune_bytes_length (if ValidRune (f r) then f r else RuneError)) as Hr. fold (encode_rune (f r)) in Hr.
  specialize (IH (drop (n - 1) l)). rewrite length_drop in IH. simpl in Hk. lia.
Qed.

Lemma Map_length f s : (String.length (strings_Map f s) <= 4 * String.length s)%nat.
Proof.
  unfold strings_Map, runes. rewrite string_of_list_length, <- (list_of_string_length s). apply (mapped_length f _ _ (Nat.lt_succ_diag_r _)).
Qed.

(** A reference of the bank is valid and short. *)
Lemma new_ref_valid `{Unicode} pre n uuid : valid_utf8 pre -> valid_utf8 (new_ref pre n uuid).
Proof.
  intros Hp. unfold valid_utf8, new_ref, ToUpper. rewrite valid_app by done. f_equal.
  rewrite <- (string_app_nil_r (strings_Map _ _)) at 1. by rewrite map_valid, string_app_nil_r.
Qed.

Lemma new_ref_length `{Unicode} pre n uuid : (String.length (new_ref pre n uuid) <= String.length pre + 4 * n)%nat.
Proof.
  unfold new_ref, ToUpper. rewrite string_app_length.
  pose proof (Map_length unicode_ToUpper (str_take n (strip_dashes uuid))) as Hm.
  pose proof (str_take_length n (strip_dashes uuid)). lia.
Qed.

(* ------------------------------------------------------------------ *)
(** ** What is read *)

Lemma newline_ends : number_ends (String.list_ascii_of_string newline).
Proof. by vm_compute. Qed.

(** The text of an encoder ends its value with a newline. *)
Lemma parse_encoded v : plain_value maxNestingDepth v = true -> json_parse (json_text v +:+ newline) = Some (reads_as v).
Proof.
  intros Hv. unfold json_parse, json_text. rewrite list_ascii_app, String.list_ascii_of_string_of_list_ascii.
  by rewrite (plain_reads_back _ v Hv (String.list_ascii_of_string newline) newline_ends).
Qed.

Lemma plain_strings ms : plain_value maxNestingDepth (VObj (map (fun m => (m.1, VStr m.2)) ms)) = true.
Proof.
  apply (plain_value_mono 1); [unfold maxNestingDepth; lia|]. simpl. rewrite forallb_forall.
  by intros m (x & <- & _)%List.in_map_iff.
Qed.

(** An object of strings that fits into the limit. *)
Lemma reply_read (ms : list (string * string)) : (text_size ms <= 1000 * 1000)%nat ->
  let body := limit_read body_limit (json_text (VObj (map (fun m => (m.1, VStr m.2)) ms)) +:+ newline) in
  is_empty body = false /\ json_parse body = Some (JvObj (map (fun m => (to_valid m.1, JvStr (to_valid m.2))) ms)).
Proof.
  intros Hms body. unfold body. pose proof (object_length ms) as Hl. rewrite limit_read_all.
  - split; [done|]. rewrite parse_encoded by apply plain_strings. cbn [reads_as]. by rewrite map_map.
  - rewrite string_app_length. cbn [String.length newline]. unfold body_limit. lia.
Qed.

(** A field that may go into an answer. *)
Definition short (s : string) : Prop := (String.length s <= 30 * 1000)%nat.

Lemma short_text s : (String.length s <= 100)%nat -> short s.
Proof. unfold short. lia. Qed.

Lemma new_ref_short `{Unicode} pre n uuid : (String.length pre <= 10)%nat -> (n <= 20)%nat -> short (new_ref pre n uuid).
Proof. intros Hp Hn. pose proof (new_ref_length pre n uuid). unfold short. lia. Qed.

Section Replies.
Context `{JsonErrors}.

Definition reads {Out} (decode : string -> result error Out) (reply : Z * string) (out : Out) : Prop :=
  reply.1 = 200 /\ is_empty (limit_read body_limit reply.2) = false /\ decode (limit_read body_limit reply.2) = Ok out.

(** An answer of strings, decoded. *)
Lemma reply_decodes {Out} name fields (zero out : Out) ms : (text_size ms <= 1000 * 1000)%nat ->
  dec_struct false fields (JvObj (map (fun m => (to_valid m.1, JvStr (to_valid m.2))) ms)) zero = (out, false) ->
  reads (unmarshal_reply name fields zero) (writeJSON 200 (VObj (map (fun m => (m.1, VStr m.2)) ms))) out.
Proof.
  intros Hms Hd. destruct (reply_read ms Hms) as [Hne Hp]. split; [done|]. split; [exact Hne|].
  unfold unmarshal_reply, Unmarshal. cbn [writeJSON snd]. by rewrite Hp, Hd.
Qed.

Lemma accepted_read ref status : short ref -> short status ->
  reads dec_initiate (writeJSON 200 (accepted_json ref status)) (MkHttpInitiateResp (to_valid ref) (to_valid status) "").
Proof.
  unfold short. intros Hr Hs. apply (reply_decodes _ _ _ _ [("bank_payment_ref", ref); ("status", status)]).
  - cbn [text_size foldr fst snd String.length]. lia.
  - reflexivity.
Qed.

Lemma rejected_read ref reason : short ref -> short reason ->
  reads dec_initiate (writeJSON 200 (rejected_json ref reason)) (MkHttpInitiateResp (to_valid ref) "REJECTED" (to_valid reason)).
Proof.
  unfold short. intros Hr Hs.
  apply (reply_decodes _ _ _ _ [("bank_payment_ref", ref); ("failure_reason", reason); ("status", "REJECTED")]).
  - cbn [text_size foldr fst snd String.length]. lia.
  - reflexivity.
Qed.

(** The texts of a record are short. *)
Record brief (rec : paymentRecord) : Prop := {
  brief_ref : short (pr_BankPaymentRef rec);
  brief_reason : short (pr_FailureReason rec);
  brief_reversal : short (pr_ReversalRef rec);
  brief_status : short (pr_Status rec);
  brief_updated : 0 <= year_of (pr_UpdatedAt rec) <= 9999;
}.

Lemma status_read rec : brief rec ->
  reads dec_status (writeJSON 200 (status_json rec))
    (MkHttpStatusResp (to_valid (pr_BankPaymentRef rec)) (to_valid (pr_Status rec)) (Format_RFC3339Nano (pr_UpdatedAt rec))
       (to_valid (pr_FailureReason rec)) (to_valid (pr_ReversalRef rec))).
Proof.
  intros [Hr Hf Hv Hs Hu]. unfold short in *. pose proof (format_length true _ Hu).
  apply (reply_decodes _ _ _ _ [("bank_payment_ref", pr_BankPaymentRef rec); ("failure_reason", pr_FailureReason rec);
    ("reversal_ref", pr_ReversalRef rec); ("status", pr_Status rec); ("updated_at", Format_RFC3339Nano (pr_UpdatedAt rec))]).
  - cbn [text_size foldr fst snd String.length]. unfold Format_RFC3339Nano. lia.
  - assert (to_valid (Format_RFC3339Nano (pr_UpdatedAt rec)) = Format_RFC3339Nano (pr_UpdatedAt rec)) as Ht
      by apply visible_valid, format_visible. rewrite <- Ht at 2. reflexivity.
Qed.

Lemma reversed_read rec : brief rec ->
  reads dec_reverse (writeJSON 200 (reversed_json rec))
    (MkHttpReverseResp (to_valid (pr_BankPaymentRef rec)) (to_valid (pr_ReversalRef rec)) (to_valid (pr_Status rec))).
Proof.
  intros [Hr Hf Hv Hs Hu]. unfold short in *.
  apply (reply_decodes _ _ _ _ [("bank_payment_ref", pr_BankPaymentRef rec); ("reversal_ref", pr_ReversalRef rec); ("status", pr_Status rec)]).
  - cbn [text_size foldr fst snd String.length]. lia.
  - reflexivity.
Qed.
End Replies.

(** The bank reads of an order what the adapter wrote, as valid text. *)
Lemma order_read hb : 0 < hi_AmountPence hb <= max_int64 ->
  read_initiate (json_text (marshal_initiate hb)) =
  Some (MkInitiateReq (to_valid (hi_PaymentID hb)) (to_valid (hi_BankConsentRef hb)) (to_valid (hi_ConsumerID hb))
          (hi_AmountPence hb) (to_valid (hi_Currency hb)) (to_valid (hi_Description hb))).
Proof.
  intros Ha. unfold read_initiate, Decode. destruct (parse_json_text (marshal_initiate hb)) as [_ ->].
  { apply (plain_value_mono 1); [unfold maxNestingDepth; lia|done]. }
  assert (Hint : dec_int 64 (JvNum (itoa (hi_AmountPence hb))) 0 = (hi_AmountPence hb, false)) by (apply dec_int_itoa; unfold max_int64 in Ha; lia).
  cbn [marshal_initiate reads_as map fst snd]. generalize dependent (itoa (hi_AmountPence hb)). intros text Hint.
  rewrite !(lower_valid (String _ _)) by reflexivity. lazy -[dec_int to_valid].
  by rewrite Hint.
Qed.

Lemma reason_read reason : read_reason (json_text (VObj [("reason", VStr reason)])) = to_valid reason.
Proof.
  unfold read_reason, Decode. destruct (parse_json_text (VObj [("reason", VStr reason)])) as [_ ->]; [|reflexivity].
  by apply (plain_value_mono 1); [unfold maxNestingDepth; lia|].
Qed.
