(* ===== verification/BankProps.v ===== *)
(** * What the bank adapter does to the bank. *)
From S2P Require Import Prelude GoStrings Utf8 DomainErr World Proto Idempotency RiskRules BankAdapter MockBank BankBodies.
From Stdlib Require Import QArith.
Local Open Scope Z_scope.
Local Open Scope go_scope.

(* ------------------------------------------------------------------ *)
(** ** The HTTP calls of an RPC, recorded *)

Section Recorded.
Context {W : Type}.

(** A call: method, path and body of the request, and its outcome. *)
Definition http_call : Type := string * string * option string * http_outcome.

#[export] Instance traced_wire `{!Wire W} : Wire (W * list http_call) :=
  fun m p b wl => let '(o, w') := wire_Do m p b (fst wl) in (o, (w', snd wl ++ [(m, p, b, o)])).

#[export] Instance traced_breaker `{!Breaker W} : Breaker (W * list http_call) := {|
  cb_admits wl := let '(a, w') := cb_admits (fst wl) in (a, (w', snd wl));
  cb_reports ok wl := let '(a, w') := cb_reports ok (fst wl) in (a, (w', snd wl));
|}.

Lemma admits_log `{!Breaker W} (wl : W * list http_call) a wl' : cb_admits wl = (a, wl') -> snd wl' = snd wl.
Proof.
  change (cb_admits wl) with (let '(a, w') := cb_admits (fst wl) in (a, (w', snd wl))).
  destruct (cb_admits (fst wl)). by intros [= _ <-].
Qed.

Lemma reports_log `{!Breaker W} ok (wl : W * list http_call) a wl' : cb_reports ok wl = (a, wl') -> snd wl' = snd wl.
Proof.
  change (cb_reports ok wl) with (let '(a, w') := cb_reports ok (fst wl) in (a, (w', snd wl))).
  destruct (cb_reports ok (fst wl)). by intros [= _ <-].
Qed.
End Recorded.

Section Calls.
Context `{Unicode} `{GrpcLib} `{GoFmt} `{JsonErrors} {W : Type} `{!Wire W} `{!Breaker W}.
Context `{RetryLaw (W * list http_call)} (time_now : M W Z).
Abbreviation T := (W * list http_call)%type.

Definition lift_now : M T Z := fun wl => let '(a, w') := time_now (fst wl) in (a, (w', snd wl)).

(** The calls of one request: the same request every time, and a further one
only after an outcome that is transient. *)
Definition repeats {Out} (zero : Out) (decode : string -> result error Out) (m p : string) (b : http_body)
    (log : list http_call) : Prop :=
  exists outs, log = map (fun o => (m, p, marshal_body b, o)) outs /\ (length outs <= retryAttempts)%nat /\
    forall pre o o' post, outs = pre ++ o :: o' :: post ->
      exists err, outcome_result zero decode o = Err err /\ isTransient err = true.

Lemma attempted_calls {Out} (zero : Out) decode m p b k (wl wl' : T) r :
  attempted isTransient (doHTTP zero decode m p b) k wl r wl' ->
  exists outs, snd wl' = snd wl ++ map (fun o => (m, p, marshal_body b, o)) outs /\ length outs = k /\
    (forall pre o o' post, outs = pre ++ o :: o' :: post ->
       exists err, outcome_result zero decode o = Err err /\ isTransient err = true) /\
    (forall a, r = Succeeded a -> exists pre o, outs = pre ++ [o] /\ outcome_result zero decode o = Ok a).
Proof.
  assert (Hone : forall (w w' : T) res, doHTTP zero decode m p b w = (res, w') ->
    exists o, snd w' = snd w ++ [(m, p, marshal_body b, o)] /\ outcome_result zero decode o = res).
  { intros [w l] w' res. unfold doHTTP, gbind, gret. unfold wire_Do at 1. simpl. unfold traced_wire.
    simpl. destruct (wire_Do m p (marshal_body b) w) as [o w1]. intros [= <- <-]. eauto. }
  induction 1 as [rerr w|a w w' Hf|e rerr w w' Hf|e k o w w1 w' Hf Hp Hk _ IH].
  - exists []. rewrite app_nil_r. split_and!; try done. by intros [].
  - apply Hone in Hf as (o & Hl & Ho). exists [o]. split_and!; [done|done|by intros [|? []]|].
    intros ? [= <-]. by exists [], o.
  - apply Hone in Hf as (o & Hl & Ho). exists [o]. split_and!; [done|done|by intros [|? []]|done].
  - apply Hone in Hf as (x & Hl & Ho). destruct IH as (outs & Hl' & Hlen & Htr & Hok).
    exists (x :: outs). split_and!.
    + rewrite Hl', Hl, <- (assoc_L (++)). done.
    + simpl. lia.
    + intros [|y pre] o1 o2 post Heq; simplify_eq/=; [eauto|]. by eapply Htr.
    + intros a ->. destruct (Hok a eq_refl) as (pre & o1 & -> & Ho1). by exists (x :: pre), o1.
Qed.

Lemma wp_doWithResilience {Out} (zero : Out) decode m p b (w : W) :
  wp (doWithResilience zero decode m p b) (fun r (wl : T) =>
    repeats zero decode m p b (snd wl) /\
    forall a, r = Ok a -> exists pre o, snd wl = pre ++ [(m, p, marshal_body b, o)] /\ outcome_result zero decode o = Ok a) (w, []).
Proof.
  unfold doWithResilience. wp_step. apply run_wp. intros ok wl Hcb.
  apply admits_log in Hcb as Hl. simpl in Hl.
  destruct ok; simpl; [|wp_step; rewrite Hl; split; [exists []; split_and!; [done|simpl; lia|by intros []]|done]].
  wp_step. apply run_wp. intros r wl1 Hr.
  destruct (retry_law _ retryAttempts isTransient (doHTTP zero decode m p b) wl ltac:(unfold retryAttempts; lia)) as (k & Hk & Hat).
  rewrite Hr in Hat. simpl in Hat. apply attempted_calls in Hat as (outs & Hl1 & Hlen & Htr & Hok).
  rewrite Hl in Hl1. simpl in Hl1. cbv zeta. wp_step. apply run_wp. intros [] wl2 Hrep.
  apply reports_log in Hrep as Hl2.
  wp_step. rewrite Hl2, Hl1. split.
  - exists outs. split_and!; [done|lia|done].
  - intros a Ha. destruct r as [a'|[last|] rerr]; simplify_eq/=.
    destruct (Hok a eq_refl) as (pre & o & -> & Ho). rewrite map_app. eauto.
Qed.

(** The orders that may reach the bank. *)
Definition valid_order (req : option InitiateRequest) (q : InitiateRequest) (amount : PMoney) : Prop :=
  req = Some q /\ ir_payment_id q <> "" /\ ir_bank_consent_ref q <> "" /\ ir_amount q = Some amount /\ 0 < pm_amount_pence amount.

(** What one InitiatePayment does to the bank: nothing for an order that may not
reach it; any other is repeated. *)
Definition initiated (req : option InitiateRequest) (r : result error InitiateResponse) (log : list http_call) : Prop :=
  ((forall q amount, ~ valid_order req q amount) -> log = [] /\ exists msg, r = Err (invalid msg)) /\
  forall q amount, valid_order req q amount ->
    repeats no_initiate dec_initiate "POST" "/bank/payments" (initiate_body q amount) log /\
    forall resp, r = Ok resp -> exists pre o out,
      log = pre ++ [("POST", "/bank/payments", marshal_body (initiate_body q amount), o)] /\
      outcome_result no_initiate dec_initiate o = Ok out /\
      is_bank_payment_ref resp = hr_BankPaymentRef out /\ mapStatus (hr_Status out) = Ok (is_status resp).

Lemma initiated_invalid req msg : (forall q amount, ~ valid_order req q amount) -> initiated req (Err (invalid msg)) [].
Proof. intros Hno. split; [by eauto|]. intros q amount Hv. by destruct (Hno q amount). Qed.

(** C29.  What the adapter's InitiatePayment does to the bank: a request that does
not validate (no payment id, no consent reference, no positive amount) reaches it
not at all and is an invalid argument; any other is posted at most three times,
unchanged, and again only after a transient outcome; and a successful answer
carries the reference and the status of the last reply. *)
Theorem InitiatePayment_calls req (w : W) :
  let a := InitiatePayment lift_now req (w, []) in initiated req (fst a) (snd (snd a)).
Proof.
  change (wp (InitiatePayment lift_now req) (fun r (wl : T) => initiated req r (snd wl)) (w, [])).
  unfold InitiatePayment. destruct req as [q|]; [|wp_step; by apply initiated_invalid; intros ?? (? & _)].
  destruct (is_empty (ir_payment_id q)) eqn:Hpid.
  { wp_step. apply initiated_invalid. intros q' am ([= <-] & Hne & _). by apply is_empty_true in Hpid. }
  destruct (is_empty (ir_bank_consent_ref q)) eqn:Href.
  { wp_step. apply initiated_invalid. intros q' am ([= <-] & _ & Hne & _). by apply is_empty_true in Href. }
  destruct (ir_amount q) as [amount|] eqn:Ha.
  2: { wp_step. apply initiated_invalid. intros q' am ([= <-] & _ & _ & Ha' & _). congruence. }
  destruct (Z.leb_spec (pm_amount_pence amount) 0) as [Hz|Hz].
  { wp_step. apply initiated_invalid. intros q' am ([= <-] & _ & _ & Ha' & Hpos). rewrite Ha in Ha'. injection Ha' as <-. lia. }
  assert (Hvalid : valid_order (Some q) q amount) by (apply is_empty_false in Hpid, Href; by split_and!).
  assert (Hgoal : forall r log,
    repeats no_initiate dec_initiate "POST" "/bank/payments" (initiate_body q amount) log ->
    (forall resp, r = Ok resp -> exists pre o out,
      log = pre ++ [("POST", "/bank/payments", marshal_body (initiate_body q amount), o)] /\
      outcome_result no_initiate dec_initiate o = Ok out /\
      is_bank_payment_ref resp = hr_BankPaymentRef out /\ mapStatus (hr_Status out) = Ok (is_status resp)) ->
    initiated (Some q) r log).
  { intros r log Hrep Hok. split; [intros Hno; by destruct (Hno q amount)|].
    intros q' am ([= <-] & _ & _ & Ha' & _). rewrite Ha in Ha'. by injection Ha' as <-. }
  do 2 wp_step. eapply wp_mono; [apply wp_doWithResilience|]. intros r [w1 l1] [Hrep Hok]. simpl in Hrep, Hok.
  destruct r as [out|err]; simpl; [|by apply Hgoal].
  destruct (Hok out eq_refl) as (pre & o & Hl & Ho). unfold status_of.
  destruct (mapStatus (hr_Status out)) as [st|e] eqn:Hst; simpl; [|wp_step; by apply Hgoal].
  wp_step. unfold lift_now. apply run_wp. intros now wl Hn. simpl in Hn. destruct (time_now w1) as [t w2].
  simplify_eq. wp_step. apply Hgoal; [done|]. intros resp [= <-]. simpl.
  exists pre, o, out. by split_and!.
Qed.
End Calls.

(* ------------------------------------------------------------------ *)
(** ** A lost reply *)

(** [retry.Do] with a context that does not end. *)
Fixpoint loop_Do {W A} (n : nat) (p : error -> bool) (fn : M W (result error A)) : M W (retried A) :=
  match n with
  | O => gret (GaveUp None (PlainError "no attempts"))
  | S n' =>
      r <- fn ;;
      match r with
      | Ok a => gret (Succeeded a)
      | Err e => if p e && (0 <? n')%nat then loop_Do n' p fn else gret (GaveUp (Some e) e)
      end
  end.

Definition loop_retry (W : Type) : RetryLib W := fun A n p fn => loop_Do n p fn.

Lemma loop_Do_attempted {W A} p (fn : M W (result error A)) n : forall w, (0 < n)%nat ->
  exists k, (1 <= k <= n)%nat /\ attempted p fn k w (fst (loop_Do n p fn w)) (snd (loop_Do n p fn w)).
Proof.
  induction n as [|n IH]; intros w Hn; [lia|]. simpl. unfold gbind. destruct (fn w) as [[a|e] w1] eqn:Hf; simpl.
  - exists 1%nat. split; [lia|by apply att_ok].
  - destruct (p e) eqn:Hp; simpl; [|exists 1%nat; split; [lia|by apply att_stop]].
    destruct (Nat.ltb_spec 0 n); simpl; [|exists 1%nat; split; [lia|by apply att_stop]].
    destruct (IH w1 ltac:(done)) as (k & Hk & Hat). exists (S k). split; [lia|].
    apply (att_more p fn e k) with w1; [done|done|lia|done].
Qed.

Lemma loop_retry_law W : @RetryLaw W (loop_retry W).
Proof.
  intros A n p fn w Hn. destruct (loop_Do_attempted p fn n w Hn) as (k & Hk & Hat). exists k. split; [lia|exact Hat].
Qed.

Definition closed_breaker (W : Type) : Breaker W := {| cb_admits := gret true; cb_reports _ := gret tt |}.

Section Twice.
Context `{Unicode} `{GrpcLib} `{GoFmt} `{JsonErrors}.
Context (draws : nat -> Draws) (other : string -> string -> option string -> M (world Bank) http_outcome).

#[local] Instance bank_wire : Wire (world Bank) := mock_wire 0 draws other.
#[local] Instance bank_breaker : Breaker (world Bank) := closed_breaker (world Bank).
#[local] Instance bank_retry : RetryLib (world Bank) := loop_retry (world Bank).

Definition ordered (req : InitiateRequest) (amount : PMoney) : Prop :=
  is_empty (ir_payment_id req) = false /\ is_empty (ir_bank_consent_ref req) = false /\
  ir_amount req = Some amount /\ 0 < pm_amount_pence amount <= max_int64.

(** The record of an accepted payment: what the order says, as valid text. *)
Definition taken (req : InitiateRequest) (amount : PMoney) (uuid : string) (now : Z) : paymentRecord :=
  MkRecord (to_valid (ir_payment_id req)) (to_valid (ir_bank_consent_ref req)) (to_valid (ir_consumer_id req))
    (pm_amount_pence amount) (to_valid (if is_empty (pm_currency amount) then "GBP" else pm_currency amount))
    (to_valid (ir_description req)) (new_ref "FPS-" 16 uuid) "SETTLED" "" "" now now.

Lemma serve_initiate req amount now uuid bank d :
  ordered req amount ->
  handleInitiate 0 d (default "" (marshal_body (initiate_body req amount))) now uuid bank =
  (writeJSON 200 (accepted_json (new_ref "FPS-" 16 uuid) "SETTLED"),
   <[new_ref "FPS-" 16 uuid := taken req amount uuid now]> bank).
Proof.
  intros (Hp & Hc & Ha & Hpos). unfold handleInitiate. change (shouldFail 0 d) with false. cbv iota.
  cbn [marshal_body initiate_body default from_option]. unfold id at 1. rewrite order_read by done. cbn [iq_PaymentID iq_BankConsentRef iq_AmountPence iq_ConsumerID
    iq_Currency iq_Description hi_PaymentID hi_BankConsentRef hi_AmountPence hi_ConsumerID hi_Currency hi_Description].
  rewrite !to_valid_empty, Hp, Hc. destruct (Z.leb_spec (pm_amount_pence amount) 0); [lia|]. cbn [orb]. unfold taken.
  destruct (is_empty (pm_currency amount)) eqn:E; [done|by rewrite E].
Qed.

(** The answer to an order, as the adapter reads it. *)
Lemma order_answered uuid :
  reads dec_initiate (writeJSON 200 (accepted_json (new_ref "FPS-" 16 uuid) "SETTLED"))
    (MkHttpInitiateResp (new_ref "FPS-" 16 uuid) "SETTLED" "").
Proof.
  assert (Hv : to_valid (new_ref "FPS-" 16 uuid) = new_ref "FPS-" 16 uuid) by by apply new_ref_valid.
  rewrite <- Hv at 2. apply accepted_read; [apply new_ref_short; simpl; lia|unfold short; cbn [String.length]; lia].
Qed.

(** What a reply that [reads] comes to. *)
Lemma outcome_reads {Out} (zero out : Out) decode reply : reads decode reply out ->
  outcome_result zero decode (Reply reply.1 reply.2) = Ok out.
Proof.
  intros (Hcode & Hne & Hd). cbn [outcome_result]. rewrite Hcode. unfold read_reply. simpl (_ =? _). simpl (_ <=? _).
  cbn [orb Z.ltb Z.compare]. by rewrite Hne, Hd.
Qed.

Lemma settled_status : mapStatus "SETTLED" = Ok Bank_SETTLED.
Proof. reflexivity. Qed.

Lemma http_failed_transient e : isTransient (DomainErr.Wrap CodeBankUnavailable "bank http call failed" e) = true.
Proof. unfold isTransient. by destruct (errors_As_transient _). Qed.

Abbreviation post req amount := (doHTTP (W := world Bank) no_initiate dec_initiate
  "POST" "/bank/payments" (initiate_body req amount)).

(** The bank serves the order, and its reply arrives or is lost. *)
Lemma post_served req amount e bank : ordered req amount ->
  let ref := new_ref "FPS-" 16 (cur_uuid e) in
  let after := MkWorld (bump e) (<[ref := taken req amount (cur_uuid e) (cur_clock e)]> bank) in
  (cur_fault e = NoFault -> post req amount (MkWorld e bank) = (Ok (MkHttpInitiateResp ref "SETTLED" ""), after)) /\
  (forall err, cur_fault e = LostReply err -> post req amount (MkWorld e bank) =
     (Err (DomainErr.Wrap CodeBankUnavailable "bank http call failed" err), after)).
Proof.
  intros Ho ref after. pose proof (serve_initiate req amount (cur_clock e) (cur_uuid e) bank (draws (tick e)) Ho) as Hs.
  unfold doHTTP, gbind, wire_Do, bank_wire, mock_wire. rewrite !bool_decide_eq_true_2 by done. cbn [andb w_env].
  unfold serve, gbind, exec. cbn [w_env w_st].
  split; [intros ->|intros err ->]; rewrite Hs; [|done]. unfold gret. f_equal.
  apply (outcome_reads _ _ _ _ (order_answered (cur_uuid e))).
Qed.

#[local] Opaque mapStatus new_ref.

(** C36.  The adapter can pay twice: when the bank takes a payment and its first
reply is lost, the adapter posts the same order again, the bank takes it as
another payment, and the caller learns the second reference only; the first
payment stays SETTLED at the bank.  (The bank does not look at [payment_id], and
the saga knows one reference to reverse.) *)
Theorem lost_reply_pays_twice req amount e bank err :
  ordered req amount ->
  fault_at e (tick e) = LostReply err -> fault_at e (S (tick e)) = NoFault ->
  let ref1 := new_ref "FPS-" 16 (cur_uuid e) in
  let ref2 := new_ref "FPS-" 16 (cur_uuid (bump e)) in
  ref1 <> ref2 ->
  let a := InitiatePayment time_Now (Some req) (MkWorld e bank) in
  exists resp r1 r2, fst a = Ok resp /\ is_bank_payment_ref resp = ref2 /\
    w_st (snd a) !! ref1 = Some r1 /\ w_st (snd a) !! ref2 = Some r2 /\
    pr_PaymentID r1 = pr_PaymentID r2 /\ pr_AmountPence r1 = pr_AmountPence r2 /\
    pr_Status r1 = "SETTLED" /\ pr_Status r2 = "SETTLED".
Proof.
  intros Ho Hlost Hok ref1 ref2 Hne.
  destruct (post_served req amount e bank Ho) as [_ Hfst]. specialize (Hfst err Hlost).
  set (bank1 := <[new_ref "FPS-" 16 (cur_uuid e) := taken req amount (cur_uuid e) (cur_clock e)]> bank) in *.
  destruct (post_served req amount (bump e) bank1 Ho) as [Hsnd _]. specialize (Hsnd Hok).
  pose proof Ho as (Hp & Hc & Ha & Hpos). unfold InitiatePayment. rewrite Hp, Hc, Ha.
  destruct (Z.leb_spec (pm_amount_pence amount) 0); [lia|].
  unfold gtry, gmap_err, doWithResilience, gbind, retry_Do, bank_retry, loop_retry, retryAttempts. simpl.
  unfold gbind. rewrite Hfst. rewrite http_failed_transient. simpl. unfold gbind. rewrite Hsnd. simpl.
  unfold status_of. rewrite settled_status. simpl. eexists _, _, _. split_and!; [reflexivity|reflexivity| | | | | |]; simpl.
  - rewrite lookup_insert_ne by done. apply lookup_insert_eq.
  - apply lookup_insert_eq.
  - done.
  - done.
  - done.
  - done.
Qed.

(** Reversals at the bank: a payment that is SETTLED or AUTHORISED becomes
REVERSED under a reversal reference and nothing else is touched; reversing it
again answers the same reference and changes nothing; an unknown reference is
404 and a payment in another status 409, both without an effect. *)
Theorem handleReverse_spec d d' ref req req' now now' u u' bank :
  let '(code, body, bank1) := handleReverse 0 d ref req now u bank in
  match bank !! ref with
  | None => code = 404 /\ bank1 = bank
  | Some rec =>
      if bool_decide (pr_Status rec ∈ ["SETTLED"; "AUTHORISED"])
      then code = 200 /\ bank1 = <[ref := reversed_record (read_reason req) now u rec]> bank /\
           handleReverse 0 d' ref req' now' u' bank1 = (code, body, bank1)
      else bank1 = bank /\ (code = 200 <-> pr_Status rec = "REVERSED") /\ (code = 200 \/ code = 409)
  end.
Proof.
  unfold handleReverse, writeJSON, http_Error. change (shouldFail 0 d) with false. change (shouldFail 0 d') with false. cbv iota.
  destruct (bank !! ref) as [rec|] eqn:Hrec; [|done].
  destruct (decide (pr_Status rec = "REVERSED")) as [Hr|Hr].
  - rewrite bool_decide_eq_true_2 by done. rewrite bool_decide_eq_false_2; [split_and!; [done|by split|by left]|].
    rewrite Hr. intros Hin. repeat (apply elem_of_cons in Hin as [?|Hin]; [done|]). by apply elem_of_nil in Hin.
  - rewrite (bool_decide_eq_false_2 (pr_Status rec = "REVERSED")) by done.
    case_bool_decide as Hs; simpl.
    + split_and!; [done|done|]. by rewrite lookup_insert_eq.
    + split_and!; [done|split; [done|by intros]|by right].
Qed.
End Twice.

(* ------------------------------------------------------------------ *)
(** ** An order and a lost reply *)

#[local] Existing Instance ascii_tables.
#[local] Existing Instance simple_grpc.
#[local] Instance no_quotes : GoFmt := {| fmt_q s := s |}.

#[local] Instance no_json_errors : JsonErrors := {| Unmarshal_error _ _ := PlainError "invalid character" |}.

Definition demo_order : InitiateRequest := MkInitiateRequest "p1" "bc1" "alice" (Some (MkPMoney 2500 "GBP")) "book".
Definition no_draws (_ : nat) : Draws := MkDraws 0 0.
Definition no_route (_ _ : string) (_ : option string) : M (world Bank) http_outcome :=
  gret (Reply 404 "").

#[local] Instance demo_wire : Wire (world Bank) := mock_wire 0 no_draws no_route.
#[local] Instance demo_breaker : Breaker (world Bank) := closed_breaker (world Bank).
#[local] Instance demo_retry : RetryLib (world Bank) := loop_retry (world Bank).
#[local] Instance demo_traced_retry : RetryLib (world Bank * list http_call) := loop_retry _.
#[local] Instance demo_traced_law : RetryLaw (world Bank * list http_call) := loop_retry_law _.

(** The first reply is lost. *)
Definition lossy_env : env :=
  MkEnv 0 Z.of_nat (fun n => pretty n +:+ "0000000-0000-4000-8000-000000000000")
    (fun n => if Nat.eqb n 0 then LostReply (PlainError "timeout") else NoFault).

Lemma InitiatePayment_calls_witness :
  let a := InitiatePayment (lift_now time_Now) (Some demo_order) (MkWorld lossy_env ∅, []) in
  initiated (Some demo_order) (fst a) (snd (snd a)) /\ length (snd (snd a)) = 2%nat.
Proof.
  split; [|vm_compute; reflexivity].
  apply (InitiatePayment_calls time_Now (Some demo_order) (MkWorld lossy_env ∅)).
Defined.

Lemma lost_reply_witness :
  let a := InitiatePayment time_Now (Some demo_order) (MkWorld lossy_env ∅) in
  (exists resp r1 r2, fst a = Ok resp /\ is_bank_payment_ref resp = "FPS-1000000000004000" /\
    w_st (snd a) !! "FPS-0000000000004000" = Some r1 /\ w_st (snd a) !! "FPS-1000000000004000" = Some r2 /\
    pr_PaymentID r1 = pr_PaymentID r2 /\ pr_AmountPence r1 = pr_AmountPence r2 /\
    pr_Status r1 = "SETTLED" /\ pr_Status r2 = "SETTLED").
Proof.
  apply (lost_reply_pays_twice no_draws no_route demo_order (MkPMoney 2500 "GBP") lossy_env ∅ (PlainError "timeout")).
  - split_and!; [reflexivity..|vm_compute; discriminate].
  - reflexivity.
  - reflexivity.
  - vm_compute. discriminate.
Defined.
