(* ===== verification/BankRoutes.v ===== *)
(** * The routes of the mock bank
([services/bank-adapter/internal/mockbank/server.go], [Handler]) and the life of
a bank payment through the adapter.

[bank_routes] completes [mock_wire]: it takes the status and the reversal routes
of the mux to their handlers.  A reference is one path segment of letters, digits
and dashes, as the bank hands them out; every other path goes to [fallback]. *)
From S2P Require Import Prelude GoStrings Utf8 DomainErr World Proto Idempotency GoTime RiskRules Advance BankAdapter MockBank BankBodies BankProps.
From Stdlib Require Import Ascii QArith.
Local Open Scope Z_scope.
Local Open Scope go_scope.

(** [strings.CutPrefix] and [strings.Cut(s, "/")]. *)
Fixpoint cut_prefix (pre s : string) : option string :=
  match pre, s with
  | EmptyString, _ => Some s
  | String a pre', String b s' => if bool_decide (a = b) then cut_prefix pre' s' else None
  | _, _ => None
  end.
Fixpoint cut_slash (s : string) : string * option string :=
  match s with
  | EmptyString => (EmptyString, None)
  | String c s' => if bool_decide (c = "/"%char) then (EmptyString, Some s')
                   else let '(a, rest) := cut_slash s' in (String c a, rest)
  end.

Definition ref_char (c : ascii) : bool :=
  between 48 57 c || between 65 90 c || between 97 122 c || bool_decide (c = "-"%char).
Definition plain_ref (s : string) : bool :=
  negb (is_empty s) && forallb ref_char (String.list_ascii_of_string s).

Inductive bank_path := PathPayments | PathStatus (ref : string) | PathReverse (ref : string) | PathOther.

Definition match_path (path : string) : bank_path :=
  match cut_prefix "/bank/payments" path with
  | Some "" => PathPayments
  | Some tail =>
      match cut_prefix "/" tail with
      | Some seg =>
          match cut_slash seg with
          | (ref, None) => if plain_ref ref then PathStatus ref else PathOther
          | (ref, Some "reverse") => if plain_ref ref then PathReverse ref else PathOther
          | _ => PathOther
          end
      | None => PathOther
      end
  | None => PathOther
  end.

Section Routes.
Context `{Unicode}.

Definition bank_routes (failRate : Q) (draws : nat -> Draws)
    (fallback : string -> string -> option string -> M (world Bank) http_outcome)
    (method path : string) (body : option string) : M (world Bank) http_outcome := fun w =>
  let d := draws (tick (w_env w)) in
  match match_path path with
  | PathStatus ref =>
      if bool_decide (method = "GET") then serve (handleStatus failRate d ref) w else fallback method path body w
  | PathReverse ref =>
      if bool_decide (method = "POST") then serve (handleReverse failRate d ref (default "" body)) w
      else fallback method path body w
  | _ => fallback method path body w
  end.
End Routes.

Lemma cut_prefix_app pre s : cut_prefix pre (pre +:+ s) = Some s.
Proof. induction pre as [|c pre IH]; simpl; [by destruct s|]. by rewrite bool_decide_eq_true_2. Qed.

Lemma ref_char_slash c : ref_char c = true -> c <> "/"%char.
Proof. intros Hc ->. by vm_compute in Hc. Qed.

Lemma cut_slash_plain s tail : forallb ref_char (String.list_ascii_of_string s) = true ->
  cut_slash s = (s, None) /\ cut_slash (s +:+ String "/"%char tail) = (s, Some tail).
Proof.
  induction s as [|c s IH]; simpl; [done|]. intros [Hc Hs]%andb_true_iff. apply ref_char_slash in Hc.
  rewrite bool_decide_eq_false_2 by done. destruct (IH Hs) as [-> ->]. done.
Qed.

Lemma match_status ref : plain_ref ref = true -> match_path ("/bank/payments/" +:+ ref) = PathStatus ref.
Proof.
  intros Hr. pose proof Hr as [_ Hc]%andb_true_iff. unfold match_path.
  change ("/bank/payments/" +:+ ref) with ("/bank/payments" +:+ String "/"%char ref).
  rewrite cut_prefix_app. change (String "/"%char ref) with ("/" +:+ ref). cbn [String.append].
  change (String "/"%char ref) with ("/" +:+ ref). rewrite cut_prefix_app, (proj1 (cut_slash_plain ref "" Hc)).
  by rewrite Hr.
Qed.

Lemma match_reverse ref : plain_ref ref = true ->
  match_path ("/bank/payments/" +:+ ref +:+ "/reverse") = PathReverse ref.
Proof.
  intros Hr. pose proof Hr as [_ Hc]%andb_true_iff. unfold match_path.
  change ("/bank/payments/" +:+ ref +:+ "/reverse") with ("/bank/payments" +:+ String "/"%char (ref +:+ "/reverse")).
  rewrite cut_prefix_app. change (String "/"%char (ref +:+ "/reverse")) with ("/" +:+ (ref +:+ "/reverse")). cbn [String.append].
  change (String "/"%char (ref +:+ "/reverse")) with ("/" +:+ (ref +:+ "/reverse")).
  rewrite cut_prefix_app, (proj2 (cut_slash_plain ref "reverse" Hc)). by rewrite Hr.
Qed.

Section Life.
Context `{Unicode} `{GrpcLib} `{GoFmt} `{JsonErrors}.
Context (draws : nat -> Draws) (fallback : string -> string -> option string -> M (world Bank) http_outcome).

#[local] Instance routed_wire : Wire (world Bank) := mock_wire 0 draws (bank_routes 0 draws fallback).
#[local] Instance routed_breaker : Breaker (world Bank) := closed_breaker (world Bank).
#[local] Instance routed_retry : RetryLib (world Bank) := loop_retry (world Bank).

(** A call that is served with an answer that decodes. *)
Lemma run_served {Out} (zero out : Out) decode m p b (h : handler) reply e bank bank' :
  calm e -> wire_Do m p (marshal_body b) (MkWorld e bank) = serve h (MkWorld e bank) ->
  h (cur_clock e) (cur_uuid e) bank = (reply, bank') -> reads decode reply out ->
  doWithResilience zero decode m p b (MkWorld e bank) = (Ok out, MkWorld (bump e) bank').
Proof.
  intros Hc Hw Hh Hr.
  assert (Hcall : doHTTP zero decode m p b (MkWorld e bank) = (Ok out, MkWorld (bump e) bank')).
  { unfold doHTTP, gbind. rewrite Hw. unfold serve, gbind, exec, cur_fault. cbn [w_env w_st]. rewrite (calm_now e Hc), Hh.
    destruct reply as [code body]. cbn [fst snd]. unfold gret. by rewrite (outcome_reads zero out decode (code, body)). }
  unfold doWithResilience, gbind, retry_Do, routed_retry, loop_retry, retryAttempts. simpl. unfold gbind. by rewrite Hcall.
Qed.

Lemma run_initiate req amount e bank : calm e -> ordered req amount ->
  let ref := new_ref "FPS-" 16 (cur_uuid e) in
  InitiatePayment time_Now (Some req) (MkWorld e bank) =
  (Ok (MkInitiateResponse ref Bank_SETTLED "" (cur_clock (bump e))),
   MkWorld (bump (bump e)) (<[ref := taken req amount (cur_uuid e) (cur_clock e)]> bank)).
Proof.
  intros Hc Ho ref. pose proof (serve_initiate req amount (cur_clock e) (cur_uuid e) bank (draws (tick e)) Ho) as Hs.
  pose proof Ho as (Hp & Hcon & Ha & Hpos). unfold InitiatePayment. rewrite Hp, Hcon, Ha.
  destruct (Z.leb_spec (pm_amount_pence amount) 0); [lia|].
  unfold gtry, gmap_err, gbind. erewrite run_served; [|done| |exact Hs|apply order_answered]; reflexivity.
Qed.

(** What the status route answers of a stored payment. *)
Lemma run_status ref rec e bank st : calm e -> plain_ref ref = true -> bank !! ref = Some rec -> brief rec ->
  mapStatus (to_valid (pr_Status rec)) = Ok st ->
  exists r, GetPaymentStatus time_Now ref (MkWorld e bank) = (Ok r, MkWorld (bump (bump e)) bank) /\
    sp_bank_payment_ref r = to_valid (pr_BankPaymentRef rec) /\ sp_status r = st /\ sp_updated_at r = pr_UpdatedAt rec.
Proof.
  intros Hc Hr Hrec Hb Hst. pose proof Hr as [Hne _]%andb_true_iff. apply negb_true_iff in Hne.
  unfold GetPaymentStatus. rewrite Hne. unfold gtry, gmap_err, gbind.
  erewrite (run_served _ _ _ _ _ _ (handleStatus 0 (draws (tick e)) ref) _ e bank bank); [|done| | |by apply status_read].
  - unfold map_err, gret. cbv beta iota. unfold status_of. cbn [hs_Status]. rewrite Hst. eexists. split; [reflexivity|].
    cbn [sp_bank_payment_ref sp_status sp_updated_at hs_BankPaymentRef hs_UpdatedAt]. split_and!; [done|done|].
    pose proof (format_parse true (pr_UpdatedAt rec) (brief_updated _ Hb)) as Hp. fold (Format_RFC3339Nano (pr_UpdatedAt rec)) in Hp.
    destruct (is_empty (Format_RFC3339Nano (pr_UpdatedAt rec))) eqn:Hemp; [|by rewrite Hp].
    apply bool_decide_eq_true in Hemp. by rewrite Hemp in Hp.
  - unfold wire_Do, routed_wire, mock_wire, bank_routes. cbn [w_env]. rewrite match_status by done. reflexivity.
  - unfold handleStatus. change (shouldFail 0 _) with false. cbv iota. by rewrite Hrec.
Qed.

(** What the reversal route answers of a payment that can be reversed, and of one that was. *)
Lemma run_reverse ref reason rec e bank : calm e -> plain_ref ref = true -> bank !! ref = Some rec ->
  pr_Status rec ∈ ["SETTLED"; "AUTHORISED"; "REVERSED"] ->
  let rec' := if bool_decide (pr_Status rec = "REVERSED") then rec
              else reversed_record (to_valid reason) (cur_clock e) (cur_uuid e) rec in
  brief rec' ->
  ReversePayment ref reason (MkWorld e bank) =
    (Ok (MkReverseResponse (to_valid (pr_BankPaymentRef rec)) (to_valid (pr_ReversalRef rec')) Bank_REVERSED),
     MkWorld (bump e) (<[ref := rec']> bank)).
Proof.
  intros Hc Hr Hrec Hst rec' Hb. pose proof Hr as [Hne _]%andb_true_iff. apply negb_true_iff in Hne.
  unfold ReversePayment. rewrite Hne. unfold gtry, gmap_err, gbind.
  erewrite (run_served _ _ _ _ _ _ (handleReverse 0 (draws (tick e)) ref (default "" (marshal_body (ReverseBody (MkHttpReverseReq reason)))))
              _ e bank (<[ref := rec']> bank)); [|done| | |by apply (reversed_read rec')].
  - assert (pr_Status rec' = "REVERSED") as Hs by (unfold rec'; by case_bool_decide).
    assert (pr_BankPaymentRef rec' = pr_BankPaymentRef rec) as Href by (unfold rec'; by case_bool_decide).
    unfold map_err, gret. cbv beta iota. unfold status_of. cbn [hq_Status]. rewrite Hs, <- Href. reflexivity.
  - unfold wire_Do, routed_wire, mock_wire, bank_routes. cbn [w_env]. rewrite match_reverse by done. reflexivity.
  - unfold handleReverse. change (shouldFail 0 _) with false. cbv iota. cbn [marshal_body default from_option]. unfold id.
    cbn [hv_Reason]. rewrite !reason_read, Hrec. unfold rec'. case_bool_decide as Hd.
    + by rewrite insert_id.
    + rewrite bool_decide_eq_true_2; [done|]. set_solver.
Qed.

(** Times that RFC 3339 writes with four digits of a year. *)
Definition four_digit_year (t : Z) : Prop := 0 <= year_of t <= 9999.

Lemma taken_brief req amount uuid now : four_digit_year now -> brief (taken req amount uuid now).
Proof.
  intros Hy. constructor; cbn [pr_BankPaymentRef pr_FailureReason pr_ReversalRef pr_Status pr_UpdatedAt taken]; [|apply short_text..|exact Hy];
    [|lazy; lia..]. apply new_ref_short; cbn [String.length]; lia.
Qed.

Lemma reversed_brief reason now uuid rec : brief rec -> short reason -> four_digit_year now ->
  brief (reversed_record reason now uuid rec).
Proof.
  intros [Hr Hf _ _ _] Hs Hy. constructor; cbn [pr_BankPaymentRef pr_FailureReason pr_ReversalRef pr_Status pr_UpdatedAt reversed_record].
  - done.
  - by destruct (is_empty reason).
  - apply new_ref_short; cbn [String.length]; lia.
  - apply short_text. lazy. lia.
  - exact Hy.
Qed.

(** C30.  The life of a payment at the bank, seen through the adapter: a valid
order is SETTLED under a reference; the reference is answered SETTLED, with the
time it was, until it is reversed; a reversal (whose reason is not so long that
the answer exceeds what the adapter reads) is REVERSED under a reversal
reference, every later status of the payment is REVERSED with the time of the
reversal, and reversing again answers the same reversal reference and leaves the
bank as it is. *)
Theorem bank_payment_lifecycle req amount e bank :
  calm e -> ordered req amount -> plain_ref (new_ref "FPS-" 16 (cur_uuid e)) = true -> four_digit_year (cur_clock e) ->
  exists resp bank1 w1, InitiatePayment time_Now (Some req) (MkWorld e bank) = (Ok resp, MkWorld w1 bank1) /\
    is_status resp = Bank_SETTLED /\
    let ref := is_bank_payment_ref resp in
    let answers b st t := forall e', calm e' -> exists r, fst (GetPaymentStatus time_Now ref (MkWorld e' b)) = Ok r /\
                            sp_bank_payment_ref r = ref /\ sp_status r = st /\ sp_updated_at r = t in
    answers bank1 Bank_SETTLED (cur_clock e) /\
    forall reason e2, calm e2 -> four_digit_year (cur_clock e2) -> short (to_valid reason) -> exists rev bank2 w2,
      ReversePayment ref reason (MkWorld e2 bank1) = (Ok rev, MkWorld w2 bank2) /\
      rv_bank_payment_ref rev = ref /\ rv_status rev = Bank_REVERSED /\ answers bank2 Bank_REVERSED (cur_clock e2) /\
      forall reason' e3, calm e3 -> exists w3,
        ReversePayment ref reason' (MkWorld e3 bank2) = (Ok rev, MkWorld w3 bank2).
Proof.
  intros Hc Ho Hr Hy. rewrite (run_initiate req amount e bank Hc Ho). do 3 eexists. split; [reflexivity|].
  set (ref := new_ref "FPS-" 16 (cur_uuid e)) in *. set (rec := taken req amount (cur_uuid e) (cur_clock e)).
  set (bank1 := <[ref := rec]> bank). cbn [is_status is_bank_payment_ref].
  assert (Hvalid : to_valid ref = ref) by by apply new_ref_valid.
  assert (Hb : brief rec) by by apply taken_brief.
  split; [done|]. split.
  - intros e' He'. destruct (run_status ref rec e' bank1 Bank_SETTLED) as (r & -> & Href & Hs & Ht); [done|done|apply lookup_insert_eq|done|done|].
    exists r. split_and!; [done| |done|done]. rewrite Href. exact Hvalid.
  - intros reason e2 He2 Hy2 Hshort.
    set (rec2 := reversed_record (to_valid reason) (cur_clock e2) (cur_uuid e2) rec).
    assert (Hb2 : brief rec2) by by apply reversed_brief.
    unshelve epose proof (run_reverse ref reason rec e2 bank1 _ _ _ _ _) as Hrev; [done|done|apply lookup_insert_eq|set_solver|done|].
    rewrite bool_decide_eq_false_2 in Hrev by done. fold rec2 in Hrev.
    do 3 eexists. split; [exact Hrev|]. split_and!; [exact Hvalid|done| |].
    + intros e' He'. destruct (run_status ref rec2 e' (<[ref := rec2]> bank1) Bank_REVERSED) as (r & -> & Href & Hs & Ht);
        [done|done|apply lookup_insert_eq|done|done|]. exists r. split_and!; [done| |done|done]. rewrite Href. exact Hvalid.
    + intros reason' e3 He3. unshelve epose proof (run_reverse ref reason' rec2 e3 (<[ref := rec2]> bank1) _ _ _ _ _) as Hrev2;
        [done|done|apply lookup_insert_eq|set_solver|done|].
      rewrite bool_decide_eq_true_2 in Hrev2 by done. exists (bump e3). rewrite Hrev2. by rewrite insert_insert_eq.
Qed.
End Life.

(* ------------------------------------------------------------------ *)
(** ** Example *)

#[local] Existing Instance ascii_tables.
#[local] Existing Instance simple_grpc.
#[local] Existing Instance no_quotes.
#[local] Existing Instance no_json_errors.

#[local] Instance demo_routed_wire : Wire (world Bank) := routed_wire no_draws no_route.
#[local] Existing Instance routed_breaker.
#[local] Existing Instance routed_retry.

Definition bank_env (n : nat) : env :=
  MkEnv n Z.of_nat (fun n => pretty (N.of_nat n) +:+ "0000000-0000-4000-8000-000000000000") (fun _ => NoFault).

Lemma bank_lifecycle_witness :
  exists resp bank1 w1 rev bank2 w2,
    InitiatePayment time_Now (Some demo_order) (MkWorld (bank_env 0) ∅) = (Ok resp, MkWorld w1 bank1) /\
    ReversePayment (is_bank_payment_ref resp) "why" (MkWorld (bank_env 9) bank1) = (Ok rev, MkWorld w2 bank2) /\
    rv_status rev = Bank_REVERSED.
Proof.
  destruct (bank_payment_lifecycle no_draws no_route demo_order (MkPMoney 2500 "GBP") (bank_env 0) ∅)
    as (resp & bank1 & w1 & Hrun & _ & _ & Hrev).
  - intros n. reflexivity.
  - split_and!; [reflexivity..|vm_compute; discriminate].
  - vm_compute. reflexivity.
  - split; vm_compute; discriminate.
  - destruct (Hrev "why" (bank_env 9) (fun _ _ => eq_refl)) as (rev & bank2 & w2 & Hr & _ & Hst & _).
    + split; vm_compute; discriminate.
    + apply short_text. vm_compute. lia.
    + exists resp, bank1, w1, rev, bank2, w2. split; [exact Hrun|]. split; [exact Hr|exact Hst].
Defined.
