(* ===== verification/PaymentRepo.v ===== *)
(** * The payment tables ([services/payment-svc/internal/repo.go],
[migrations/payment/000001_init.up.sql]).

A [*Payment] that a method mutates is passed in and returned.  The nullable text
columns are read with [COALESCE(..., '')], so NULL and the empty text are one
value.  A JSON column is the value it encodes ([json.Marshal] cannot fail on
the maps built here). *)
From S2P Require Import Prelude GoStrings DomainErr World Idempotency LedgerStore.
Local Open Scope Z_scope.
Local Open Scope go_scope.

Definition StatusInitiated : string := "INITIATED".
Definition StatusConsentReserved : string := "CONSENT_RESERVED".
Definition StatusRiskPassed : string := "RISK_PASSED".
Definition StatusAuthorising : string := "AUTHORISING".
Definition StatusSettled : string := "SETTLED".
Definition StatusFailed : string := "FAILED".
Definition StatusManualReview : string := "MANUAL_REVIEW".
Definition TopicPaymentEvents : string := "payment.events".
Definition EventPaymentSettled : string := "payment.settled".
Definition uuid_Nil : string := "00000000-0000-0000-0000-000000000000".

Record Payment := MkPayment {
  p_ID : string;
  p_IdempotencyKey : string;
  p_MerchantID : string;
  p_ConsentID : string;
  p_ConsumerID : string;
  p_AmountPence : Z;
  p_Currency : string;
  p_Status : string;
  p_BankPaymentRef : string;
  p_ReservationID : option string;
  p_RiskScore : option Z;
  p_RiskDecision : string;
  p_FailureReason : string;
  p_Description : string;
  p_InitiatedAt : Z;
  p_SettledAt : option Z;
  p_UpdatedAt : Z;
}.

Inductive json := JStr (s : string) | JInt (z : Z) | JTime (t : Z) | JNull.

Record EventRow := MkEvent {
  ev_id : string; ev_payment_id : string; ev_from : string; ev_to : string; ev_reason : string;
  ev_metadata : list (string * json); ev_created_at : Z }.

Record OutboxRow := MkOutbox {
  ob_ID : string; ob_Topic : string; ob_Key : string; ob_Payload : list (string * json); ob_CreatedAt : Z }.

Record PaymentDB := MkPaymentDB {
  payments : list Payment; events : list EventRow; outbox : list OutboxRow }.

Definition set_payments (l : list Payment) (db : PaymentDB) : PaymentDB :=
  MkPaymentDB l (events db) (outbox db).

(** A field update of the struct. *)
Definition with_status (st : string) (updated : Z) (p : Payment) : Payment :=
  MkPayment (p_ID p) (p_IdempotencyKey p) (p_MerchantID p) (p_ConsentID p) (p_ConsumerID p)
    (p_AmountPence p) (p_Currency p) st (p_BankPaymentRef p) (p_ReservationID p) (p_RiskScore p)
    (p_RiskDecision p) (p_FailureReason p) (p_Description p) (p_InitiatedAt p) (p_SettledAt p) updated.
Definition with_consent (rid : option string) (consumer : string) (p : Payment) : Payment :=
  MkPayment (p_ID p) (p_IdempotencyKey p) (p_MerchantID p) (p_ConsentID p) consumer
    (p_AmountPence p) (p_Currency p) (p_Status p) (p_BankPaymentRef p) rid (p_RiskScore p)
    (p_RiskDecision p) (p_FailureReason p) (p_Description p) (p_InitiatedAt p) (p_SettledAt p) (p_UpdatedAt p).
Definition with_risk (score : option Z) (decision : string) (p : Payment) : Payment :=
  MkPayment (p_ID p) (p_IdempotencyKey p) (p_MerchantID p) (p_ConsentID p) (p_ConsumerID p)
    (p_AmountPence p) (p_Currency p) (p_Status p) (p_BankPaymentRef p) (p_ReservationID p) score
    decision (p_FailureReason p) (p_Description p) (p_InitiatedAt p) (p_SettledAt p) (p_UpdatedAt p).
Definition with_bank (ref : string) (p : Payment) : Payment :=
  MkPayment (p_ID p) (p_IdempotencyKey p) (p_MerchantID p) (p_ConsentID p) (p_ConsumerID p)
    (p_AmountPence p) (p_Currency p) (p_Status p) ref (p_ReservationID p) (p_RiskScore p)
    (p_RiskDecision p) (p_FailureReason p) (p_Description p) (p_InitiatedAt p) (p_SettledAt p) (p_UpdatedAt p).
Definition with_outcome (reason : string) (settled : option Z) (p : Payment) : Payment :=
  MkPayment (p_ID p) (p_IdempotencyKey p) (p_MerchantID p) (p_ConsentID p) (p_ConsumerID p)
    (p_AmountPence p) (p_Currency p) (p_Status p) (p_BankPaymentRef p) (p_ReservationID p) (p_RiskScore p)
    (p_RiskDecision p) reason (p_Description p) (p_InitiatedAt p) settled (p_UpdatedAt p).

(* ------------------------------------------------------------------ *)
(** ** Statements *)

Definition is_payment (id : string) (p : Payment) : bool := bool_decide (p_ID p = id).

Definition insert_payment (p : Payment) : stmt PaymentDB unit :=
  fun _ _ db =>
    if existsb (fun x => bool_decide (p_ID x = p_ID p)
                         || bool_decide (p_IdempotencyKey x = p_IdempotencyKey p)) (payments db)
    then (Err unique_violation, db)
    else (Ok tt, set_payments (payments db ++ [p]) db).

Definition insert_event (ev : EventRow) : stmt PaymentDB unit :=
  fun _ _ db =>
    if existsb (fun x => bool_decide (ev_id x = ev_id ev)) (events db) then (Err unique_violation, db)
    else if negb (existsb (is_payment (ev_payment_id ev)) (payments db)) then (Err fk_violation, db)
    else (Ok tt, MkPaymentDB (payments db) (events db ++ [ev]) (outbox db)).

(** [UPDATE payment SET f WHERE id = $1 AND p]; the number of rows. *)
Definition update_payment (id : string) (p : Payment -> bool) (f : Payment -> Payment) : stmt PaymentDB Z :=
  fun _ _ db =>
    let hit x := is_payment id x && p x in
    (Ok (Z.of_nat (length (where_ hit (payments db)))),
     set_payments (update_where hit f (payments db)) db).

Definition insert_outbox (row : OutboxRow) : stmt PaymentDB unit :=
  fun _ _ db =>
    if existsb (fun x => bool_decide (ob_ID x = ob_ID row)) (outbox db) then (Err unique_violation, db)
    else (Ok tt, MkPaymentDB (payments db) (events db) (outbox db ++ [row])).

Definition any_row (_ : Payment) : bool := true.

Section Repo.
Context `{GrpcLib}.

(** The repository of the payment service: the SQLSTATE, or the text of the error. *)
Definition isUniqueViolation (err : error) : bool :=
  match errors_As_Pg err with
  | Some s => bool_decide (s = "23505")
  | None => strings_Contains (Error_ err) "duplicate key"
  end.

(** The pool or a transaction. *)
Class Conn (W : Type) := conn_exec : forall A, stmt PaymentDB A -> M W (result error A).
Arguments conn_exec {W _} {A} _.
#[export] Instance conn_pool : Conn (world PaymentDB) := fun A q => exec q.
#[export] Instance conn_tx : Conn (world (tx PaymentDB)) := fun A q => tx_exec q.

Definition insertEvent {S} `{Conn (world S)} (paymentID from to reason : string)
    (meta : list (string * json)) : M (world S) (result error unit) :=
  id <- uuid_New ;;
  now <- time_Now ;;
  gmap_err (DomainErr.Wrap CodeInternal "insert payment event")
    (conn_exec (insert_event (MkEvent id paymentID from to reason meta now))).

(** The payment after a method, with its error if any. *)
Definition outcome : Type := result error unit * Payment.

Definition CreatePayment (p : Payment) : M (world PaymentDB) outcome :=
  now <- time_Now ;;
  id <- (if bool_decide (p_ID p = uuid_Nil) then uuid_New else gret (p_ID p)) ;;
  let p := MkPayment id (p_IdempotencyKey p) (p_MerchantID p) (p_ConsentID p) (p_ConsumerID p)
             (p_AmountPence p) (p_Currency p)
             (if is_empty (p_Status p) then StatusInitiated else p_Status p)
             (p_BankPaymentRef p) (p_ReservationID p) (p_RiskScore p) (p_RiskDecision p)
             (p_FailureReason p) (p_Description p) now (p_SettledAt p) now in
  (* the columns that the statement does not name start out NULL *)
  let stored := with_outcome "" None (with_bank "" (with_risk None "" (with_consent None (p_ConsumerID p) p))) in
  r <- exec (insert_payment stored) ;;
  match r with
  | Err err =>
      gret (Err (if isUniqueViolation err
                 then DomainErr.New CodeDuplicateIdempotency "idempotency key already used"
                 else DomainErr.Wrap CodeInternal "insert payment" err), p)
  | Ok _ =>
      r <- insertEvent (p_ID p) "" (p_Status p) "payment created" [] ;;
      gret (r, p)
  end.

Definition scanOne (q : stmt PaymentDB (option Payment)) : M (world PaymentDB) (result error Payment) :=
  r <- row q ;;
  match r with
  | Err err => gret (Err (if errors_Is_NoRows err then DomainErr.New CodeNotFound "payment not found"
                          else DomainErr.Wrap CodeInternal "get payment" err))
  | Ok p => gret (Ok p)
  end.

Definition GetByID (id : string) : M (world PaymentDB) (result error Payment) :=
  scanOne (query (fun _ db => List.find (is_payment id) (payments db))).

Definition GetByIDAndMerchant (id merchantID : string) : M (world PaymentDB) (result error Payment) :=
  p <-? GetByID id ;;
  if negb (bool_decide (p_MerchantID p = merchantID))
  then gret (Err (DomainErr.New CodeNotFound "payment not found"))
  else gret (Ok p).

Definition GetByIdempotencyKey (key : string) : M (world PaymentDB) (result error Payment) :=
  scanOne (query (fun _ db => List.find (fun p => bool_decide (p_IdempotencyKey p = key)) (payments db))).

Definition in_flight (p : Payment) : bool :=
  bool_decide (p_Status p ∈ [StatusInitiated; StatusConsentReserved; StatusRiskPassed; StatusAuthorising]).

Definition older (p1 p2 : Payment) : Prop := p_UpdatedAt p1 <= p_UpdatedAt p2.
#[export] Instance older_dec : RelDecision older.
Proof. intros p1 p2. unfold older. apply _. Defined.

Definition ListStaleInFlightPayments (staleAfter : Z) : M (world PaymentDB) (result error (list Payment)) :=
  now <- time_Now ;;
  let threshold := now - staleAfter in
  gmap_err (DomainErr.Wrap CodeInternal "list stale payments")
    (exec (query (fun _ db => take 50 (merge_sort older
       (where_ (fun p => in_flight p && (p_UpdatedAt p <? threshold)) (payments db)))))).

(** [if _, err := exec(q); err != nil { return Wrap(msg, err) }; insertEvent ...; assign]:
the shape the update methods share. *)
Definition update_with_event (p : Payment) (msg to reason : string) (meta : list (string * json))
    (f : Z -> Payment -> Payment) : M (world PaymentDB) outcome :=
  let from := p_Status p in
  now <- time_Now ;;
  r <- exec (update_payment (p_ID p) any_row (f now)) ;;
  match r with
  | Err err => gret (Err (DomainErr.Wrap CodeInternal msg err), p)
  | Ok _ =>
      r <- insertEvent (p_ID p) from to reason meta ;;
      match r with
      | Err err => gret (Err err, p)
      | Ok _ => gret (Ok tt, f now p)
      end
  end.

Definition UpdateAfterConsent (p : Payment) (reservationID consumerID : string) : M (world PaymentDB) outcome :=
  update_with_event p "update after consent" StatusConsentReserved "consent reserved"
    [("reservation_id", JStr reservationID); ("consumer_id", JStr consumerID)]
    (fun now x => with_status StatusConsentReserved now (with_consent (Some reservationID) consumerID x)).

Definition UpdateAfterRisk (p : Payment) (score : Z) (decision : string) : M (world PaymentDB) outcome :=
  update_with_event p "update after risk" StatusRiskPassed "risk scored"
    [("score", JInt score); ("decision", JStr decision)]
    (fun now x => with_status StatusRiskPassed now (with_risk (Some score) decision x)).

Definition UpdateAfterBank (p : Payment) (bankRef : string) : M (world PaymentDB) outcome :=
  update_with_event p "update after bank" StatusAuthorising "bank authorising"
    [("bank_payment_ref", JStr bankRef)]
    (fun now x => with_status StatusAuthorising now (with_bank bankRef x)).

Definition MarkFailed (p : Payment) (reason : string) : M (world PaymentDB) outcome :=
  update_with_event p "mark failed" StatusFailed reason []
    (fun now x => with_status StatusFailed now (with_outcome reason (p_SettledAt x) x)).

Definition MarkManualReview (p : Payment) (reason : string) : M (world PaymentDB) outcome :=
  update_with_event p "mark manual review" StatusManualReview reason []
    (fun now x => with_status StatusManualReview now (with_outcome reason (p_SettledAt x) x)).

(** The body of the [payment.settled] event. *)
Definition buildSettledPayload (p : Payment) (settledAt : Z) : list (string * json) :=
  [ ("event_type", JStr EventPaymentSettled);
    ("payment_id", JStr (p_ID p));
    ("idempotency_key", JStr (p_IdempotencyKey p));
    ("merchant_id", JStr (p_MerchantID p));
    ("consent_id", JStr (p_ConsentID p));
    ("consumer_id", JStr (p_ConsumerID p));
    ("amount_pence", JInt (p_AmountPence p));
    ("currency", JStr (p_Currency p));
    ("status", JStr StatusSettled);
    ("bank_payment_ref", JStr (p_BankPaymentRef p));
    ("risk_score", match p_RiskScore p with Some n => JInt n | None => JNull end);
    ("risk_decision", JStr (p_RiskDecision p));
    ("description", JStr (p_Description p));
    ("initiated_at", JTime (p_InitiatedAt p));
    ("settled_at", JTime settledAt) ].

Definition settle_row (now : Z) (p : Payment) : Payment :=
  with_status StatusSettled now (with_outcome "" (Some now) p).

(** The transaction of [SettleWithOutbox]; its value is the instant it read. *)
Definition settle_tx (p : Payment) : M (world (tx PaymentDB)) (result error Z) :=
  let from := p_Status p in
  now <- time_Now ;;
  _ <-? gmap_err (DomainErr.Wrap CodeInternal "settle payment")
          (tx_exec (update_payment (p_ID p) any_row (settle_row now))) ;;
  _ <-? insertEvent (p_ID p) from StatusSettled "payment settled" [] ;;
  let payload := buildSettledPayload p now in
  id <- uuid_New ;;
  _ <-? gmap_err (DomainErr.Wrap CodeInternal "insert outbox")
          (tx_exec (insert_outbox (MkOutbox id TopicPaymentEvents (p_ID p) payload now))) ;;
  gret (Ok now).

Definition SettleWithOutbox (p : Payment) : M (world PaymentDB) outcome :=
  r <- manual_tx (DomainErr.Wrap CodeInternal "begin settle tx")
         (DomainErr.Wrap CodeInternal "commit settle tx") (settle_tx p) ;;
  match r with
  | Err err => gret (Err err, p)
  | Ok now => gret (Ok tt, settle_row now p)
  end.

Definition reset_row (now : Z) (p : Payment) : Payment :=
  with_status StatusInitiated now
    (with_outcome "" None (with_bank "" (with_risk None "" (with_consent None (p_ConsumerID p) p)))).

Definition ResetForRetry (p : Payment) : M (world PaymentDB) outcome :=
  if negb (bool_decide (p_Status p = StatusFailed))
  then gret (Err (DomainErr.New CodeConflict "only FAILED payments can be retried"), p)
  else
    let from := p_Status p in
    now <- time_Now ;;
    ct <- exec (update_payment (p_ID p) (fun x => bool_decide (p_Status x = StatusFailed)) (reset_row now)) ;;
    match ct with
    | Err err => gret (Err (DomainErr.Wrap CodeInternal "reset for retry" err), p)
    | Ok n =>
        if n =? 0 then gret (Err (DomainErr.New CodeConflict "payment is not in FAILED state"), p)
        else
          r <- insertEvent (p_ID p) from StatusInitiated "retry initiated" [] ;;
          match r with
          | Err err => gret (Err err, p)
          | Ok _ => gret (Ok tt, reset_row now p)
          end
    end.

Definition earlier (r1 r2 : OutboxRow) : Prop := ob_CreatedAt r1 <= ob_CreatedAt r2.
#[export] Instance earlier_dec : RelDecision earlier.
Proof. intros r1 r2. unfold earlier. apply _. Defined.

(** [FOR UPDATE SKIP LOCKED] outside a transaction releases its locks at once;
[skipped] are the rows other sessions hold locks on at that moment. *)
Definition ListOutbox (skipped : OutboxRow -> bool) (limit : Z) : M (world PaymentDB) (result error (list OutboxRow)) :=
  let limit := if limit <=? 0 then 50 else limit in
  gmap_err (WrapError "list outbox")
    (exec (query (fun _ db => take (Z.to_nat limit)
       (merge_sort earlier (where_ (fun r => negb (skipped r)) (outbox db)))))).

Definition delete_outbox (id : string) : stmt PaymentDB unit :=
  fun _ _ db => (Ok tt, MkPaymentDB (payments db) (events db)
                          (where_ (fun r => negb (bool_decide (ob_ID r = id))) (outbox db))).

Definition DeleteOutbox (id : string) : M (world PaymentDB) (result error unit) :=
  gmap_err (WrapError "delete outbox") (exec (delete_outbox id)).
End Repo.
