(* ===== verification/Saga.v ===== *)
(** * The payment saga ([services/payment-svc/internal/saga.go]).

The orchestrator talks to its repository, the idempotency store and four gRPC
clients.  They are the classes [paymentRepo] (the Go interface of that name),
[IdemStore] and [Clients]; nothing is assumed of the clients, so what is proved
of the orchestrator holds whatever the other services answer.  Calls of
[time.Now] whose result is only logged are left out.  A nil [error] is [None]. *)
From S2P Require Import Prelude GoStrings DomainErr World Proto Uuid Idempotency PaymentRepo.
Local Open Scope Z_scope.
Local Open Scope go_scope.

Definition platformOwnerRef : string := "platform".
Definition idempotencyWait : Z := 5 * second.
Definition minPlatformFeePence : Z := 1.
Definition platformFeeRateBPS : Z := 100.

Class paymentRepo (W : Type) := {
  repo_CreatePayment : Payment -> M W outcome;
  repo_GetByID : string -> M W (result error Payment);
  repo_GetByIdempotencyKey : string -> M W (result error Payment);
  repo_UpdateAfterConsent : Payment -> string -> string -> M W outcome;
  repo_UpdateAfterRisk : Payment -> Z -> string -> M W outcome;
  repo_UpdateAfterBank : Payment -> string -> M W outcome;
  repo_SettleWithOutbox : Payment -> M W outcome;
  repo_MarkFailed : Payment -> string -> M W outcome;
  repo_MarkManualReview : Payment -> string -> M W outcome;
  repo_ResetForRetry : Payment -> M W outcome;
}.

(** [*Repo] implements it. *)
#[export] Instance sql_repo `{GrpcLib} : paymentRepo (world PaymentDB) := {|
  repo_CreatePayment := CreatePayment;
  repo_GetByID := GetByID;
  repo_GetByIdempotencyKey := GetByIdempotencyKey;
  repo_UpdateAfterConsent := UpdateAfterConsent;
  repo_UpdateAfterRisk := UpdateAfterRisk;
  repo_UpdateAfterBank := UpdateAfterBank;
  repo_SettleWithOutbox := SettleWithOutbox;
  repo_MarkFailed := MarkFailed;
  repo_MarkManualReview := MarkManualReview;
  repo_ResetForRetry := ResetForRetry;
|}.

Class IdemStore (W : Type) := {
  idem_Begin : string -> M W (result error (bool * string));
  idem_Complete : string -> string -> M W (result error unit);
  idem_Release : string -> M W (result error unit);
  idem_WaitForCompletion : string -> Z -> M W (result error (string * bool));
}.

Class Clients (W : Type) := {
  consent_ValidateAndReserve : ReserveRequest -> M W (result error ReserveResponse);
  consent_ConfirmReservation : ConfirmRequest -> M W (result error unit);
  consent_ReleaseReservation : ReleaseRequest -> M W (result error unit);
  risk_Score : ScoreRequest -> M W (result error ScoreResponse);
  bank_InitiatePayment : InitiateRequest -> M W (result error InitiateResponse);
  bank_GetPaymentStatus : string -> M W (result error StatusResponse);
  bank_ReversePayment : BankReverseRequest -> M W (result error ReverseResponse);
  ledger_PostDoubleEntry : PostEntryRequest -> M W (result error JournalEntry);
  ledger_ReverseEntry : LedgerReverseRequest -> M W (result error unit);
}.

Definition platformFee (amountPence : Z) : Z :=
  let fee := Z.quot (int64 (amountPence * platformFeeRateBPS)) 10000 in
  let fee := if fee <? minPlatformFeePence then minPlatformFeePence else fee in
  if amountPence <? fee then amountPence else fee.

(** [decision.String()]. *)
Definition decision_String (d : RiskDecision) : string :=
  match d with
  | RISK_DECISION_UNSPECIFIED => "RISK_DECISION_UNSPECIFIED"
  | RiskDecision_ALLOW => "ALLOW"
  | RiskDecision_REVIEW => "REVIEW"
  | RiskDecision_DECLINE => "DECLINE"
  | RiskDecision_other n => itoa n
  end.

Definition asDomain (err : error) : option Error := errors_As err.

(** The three lines of a settlement. *)
Definition settlement_lines (p : Payment) : list JournalLine :=
  let fee := platformFee (p_AmountPence p) in
  let merchantAmt := int64 (p_AmountPence p - fee) in
  [ MkJournalLine "" AccountType_CONSUMER_ESCROW (p_ConsumerID p) Direction_DR
      (Some (MkPMoney (p_AmountPence p) (p_Currency p)));
    MkJournalLine "" AccountType_MERCHANT_ESCROW (p_MerchantID p) Direction_CR
      (Some (MkPMoney merchantAmt (p_Currency p)));
    MkJournalLine "" AccountType_PLATFORM_FEE platformOwnerRef Direction_CR
      (Some (MkPMoney fee (p_Currency p))) ].

Record InitiateInput := MkInitiateInput {
  in_IdempotencyKey : string; in_MerchantID : string; in_ConsentID : string;
  in_AmountPence : Z; in_Currency : string; in_Description : string;
  in_SkipIdempotency : bool; in_Existing : option Payment }.

Section Orchestrator.
Context {W : Type} `{repo : paymentRepo W} `{idem : IdemStore W} `{clients : Clients W}.
Context `{GrpcLib} `{UuidLib} `{Unicode} (uuid_new : M W string).

Definition mapDownstreamErr (err : error) : error :=
  match asDomain err with
  | Some de => err_of de
  | None => let de := FromGRPC err in DomainError (Code de) (Message de) (Some err)
  end.

(** A failed call adds its message to the list of a compensation. *)
Definition note {A} (prefix : string) (r : result error A) : list string :=
  match r with Ok _ => [] | Err e => [prefix +:+ Error_ e] end.

Definition joined (errs : list string) : option error :=
  match errs with [] => None | _ => Some (PlainError (strings_Join "; " errs)) end.

Definition compensate (p : Payment) (reason : string) (releaseConsent reverseBank : bool)
  : M W (option error) :=
  e1 <- (if reverseBank && negb (is_empty (p_BankPaymentRef p))
         then r <- bank_ReversePayment (MkBankReverseRequest (p_BankPaymentRef p) reason) ;;
              gret (note "bank: " r)
         else gret []) ;;
  e2 <- match p_ReservationID p with
        | Some rid =>
            if releaseConsent
            then r <- consent_ReleaseReservation (MkReleaseRequest rid reason) ;;
                 gret (note "consent: " r)
            else gret []
        | None => gret []
        end ;;
  gret (joined (e1 ++ e2)).

Definition compensateFull (p : Payment) (reason : string) : M W (option error) :=
  r <- ledger_ReverseEntry (MkLedgerReverseRequest (p_ID p) reason) ;;
  c <- compensate p reason true true ;;
  gret (joined (note "ledger: " r ++ match c with Some e => [Error_ e] | None => [] end)).

(** The error the call ends with, and the payment. *)
Definition failAndCompensate (p : Payment) (reason : string) (releaseConsent reverseBank : bool)
    (retErr : option error) : M W (option error * Payment) :=
  c <- compensate p reason releaseConsent reverseBank ;;
  match c with
  | Some err =>
      o <- repo_MarkManualReview p (reason +:+ "; compensate failed: " +:+ Error_ err) ;;
      gret (Some (match retErr with
                  | Some e => e
                  | None => DomainErr.New CodeInternal "compensation failed"
                  end), snd o)
  | None =>
      o <- repo_MarkFailed p reason ;;
      gret (Some (match retErr with Some e => e | None => DomainErr.New CodeInternal reason end), snd o)
  end.

(** Settle, and on failure reverse ledger, bank and consent; then confirm. *)
Definition settle_and_confirm (p : Payment) (why : string) : M W (option error * Payment) :=
  s <- repo_SettleWithOutbox p ;;
  let '(r, p) := s in
  match r with
  | Err err =>
      c <- compensateFull p why ;;
      match c with
      | Some cerr =>
          o <- repo_MarkManualReview p (why +:+ "; compensate failed: " +:+ Error_ cerr) ;;
          gret (Some (DomainErr.Wrap CodeInternal "settle and compensate failed" err), snd o)
      | None =>
          o <- repo_MarkFailed p ("SETTLE_FAILED: " +:+ Error_ err) ;;
          gret (Some err, snd o)
      end
  | Ok _ =>
      match p_ReservationID p with
      | Some rid =>
          _ <- consent_ConfirmReservation (MkConfirmRequest rid (p_ID p)) ;; gret (None, p)
      | None => gret (None, p)
      end
  end.

(** Steps 4 to 6. *)
Definition run_from_ledger (p : Payment) (description ledger_error why : string)
  : M W (option error * Payment) :=
  r <- ledger_PostDoubleEntry (MkPostEntryRequest (p_ID p) description (settlement_lines p)) ;;
  match r with
  | Err err => failAndCompensate p (ledger_error +:+ Error_ err) true true (Some (mapDownstreamErr err))
  | Ok _ => settle_and_confirm p why
  end.

(** Step 3 and on. *)
Definition run_from_bank (p : Payment) (bankConsentRef : string) : M W (option error * Payment) :=
  b <- bank_InitiatePayment (MkInitiateRequest (p_ID p) bankConsentRef (p_ConsumerID p)
         (Some (MkPMoney (p_AmountPence p) (p_Currency p))) (p_Description p)) ;;
  match b with
  | Err err => failAndCompensate p ("BANK_ERROR: " +:+ Error_ err) true false (Some (mapDownstreamErr err))
  | Ok bankResp =>
      if bool_decide (is_status bankResp = Bank_REJECTED)
      then
        let reason := if is_empty (is_failure_reason bankResp) then "bank rejected payment"
                      else is_failure_reason bankResp in
        failAndCompensate p ("BANK_REJECTED: " +:+ reason) true false
          (Some (DomainErr.New CodeBankRejected reason))
      else
        o <- repo_UpdateAfterBank p (is_bank_payment_ref bankResp) ;;
        let '(r, p) := o in
        match r with
        | Err err => failAndCompensate p "persist bank failed" true true (Some err)
        | Ok _ => run_from_ledger p ("VRP settlement " +:+ p_ID p) "LEDGER_ERROR: " "settle failed"
        end
  end.

(** Step 2 and on. *)
Definition run_from_risk (p : Payment) (bankConsentRef : string) : M W (option error * Payment) :=
  s <- risk_Score (MkScoreRequest (p_MerchantID p) (p_ConsumerID p) (p_ConsentID p) (p_ID p)
         (Some (MkPMoney (p_AmountPence p) (p_Currency p))) "" "") ;;
  match s with
  | Err err => failAndCompensate p ("RISK_ERROR: " +:+ Error_ err) true false (Some (mapDownstreamErr err))
  | Ok scoreResp =>
      let decisionName := decision_String (ss_decision scoreResp) in
      if bool_decide (ss_decision scoreResp = RiskDecision_DECLINE)
      then
        let p := with_risk (Some (ss_score scoreResp)) decisionName p in
        failAndCompensate p ("RISK_DECLINED: " +:+ ss_reason scoreResp) true false
          (Some (DomainErr.New CodeRiskDeclined (ss_reason scoreResp)))
      else
        o <- repo_UpdateAfterRisk p (ss_score scoreResp) decisionName ;;
        let '(r, p) := o in
        match r with
        | Err err => failAndCompensate p "persist risk failed" true false (Some err)
        | Ok _ => run_from_bank p bankConsentRef
        end
  end.

Definition runSaga (p : Payment) : M W (option error * Payment) :=
  r <- consent_ValidateAndReserve (MkReserveRequest (p_ConsentID p) (p_ID p)
         (Some (MkPMoney (p_AmountPence p) (p_Currency p)))) ;;
  match r with
  | Err err =>
      let mapped := mapDownstreamErr err in
      match asDomain mapped with
      | Some de =>
          o <- repo_MarkFailed p (Code de +:+ ": " +:+ Message de) ;;
          gret (Some mapped, snd o)
      | None =>
          o <- repo_MarkFailed p ("CONSENT_REJECTED: " +:+ Error_ err) ;;
          gret (Some mapped, snd o)
      end
  | Ok reserve =>
      match uuid_Parse (rs_reservation_id reserve) with
      | None =>
          o <- repo_MarkFailed p "invalid reservation_id from consent" ;;
          gret (Some (DomainErr.Wrap CodeInternal "parse reservation_id"
                        (uuid_Parse_err (rs_reservation_id reserve))), snd o)
      | Some resID =>
          o <- repo_UpdateAfterConsent p resID (rs_consumer_id reserve) ;;
          let '(r, p) := o in
          match r with
          | Err err =>
              let p := with_consent (Some resID) (p_ConsumerID p) p in
              c <- compensate p "persist consent failed" true false ;;
              match c with
              | Some cerr =>
                  o <- repo_MarkManualReview p ("persist consent failed; compensate failed: " +:+ Error_ cerr) ;;
                  gret (Some err, snd o)
              | None =>
                  o <- repo_MarkFailed p "persist consent failed" ;; gret (Some err, snd o)
              end
          | Ok _ => run_from_risk p (rs_bank_consent_ref reserve)
          end
      end
  end.

Definition ResumeFromLedger (p : Payment) : M W (option error * Payment) :=
  o <- run_from_ledger p ("VRP settlement " +:+ p_ID p +:+ " (reconciled)")
         "RECONCILIATION_LEDGER_ERROR: " "reconciled settle failed" ;;
  match fst o with
  | Some e => gret o
  | None => _ <- idem_Complete (p_IdempotencyKey p) (p_ID p) ;; gret o
  end.

Definition CompensateStale (p : Payment) (reason : string) : M W (option error * Payment) :=
  let hasBank := negb (is_empty (p_BankPaymentRef p)) in
  let hasConsent := bool_decide (is_Some (p_ReservationID p)) in
  failAndCompensate p reason hasConsent hasBank None.

Definition validateInitiate (inp : InitiateInput) : option error :=
  if is_empty (TrimSpace (in_MerchantID inp)) then Some (DomainErr.New CodeValidation "merchant_id is required")
  else if is_empty (TrimSpace (in_ConsentID inp)) then Some (DomainErr.New CodeValidation "consent_id is required")
  else if in_AmountPence inp <=? 0 then Some (DomainErr.New CodeValidation "amount must be positive")
  else if negb (str_len (ToUpper (TrimSpace (in_Currency inp))) =? 3)
       then Some (DomainErr.New CodeValidation "currency must be 3-letter ISO code")
  else None.

(** The Go pair [( *Payment, error )]: both may be set. *)
Definition answer : Type := option Payment * option error.
Definition refused (e : error) : answer := (None, Some e).
Definition of_result (r : result error Payment) : answer :=
  match r with Ok p => (Some p, None) | Err e => (None, Some e) end.

Definition retry (existing : Payment) : M W answer :=
  o <- repo_ResetForRetry existing ;;
  let '(r, existing) := o in
  match r with
  | Err e => gret (refused e)
  | Ok _ =>
      s <- runSaga existing ;;
      let '(err, existing) := s in
      g <- repo_GetByID (p_ID existing) ;;
      match err with
      | Some err => gret (match g with Ok p => (Some p, Some err) | Err _ => (Some existing, Some err) end)
      | None => gret (of_result g)
      end
  end.

(** Another caller has the key: answer its payment. *)
Definition join_other (key completed : string) : M W answer :=
  if negb (is_empty completed)
  then match uuid_Parse completed with
       | None => r <- repo_GetByIdempotencyKey key ;; gret (of_result r)
       | Some id => r <- repo_GetByID id ;; gret (of_result r)
       end
  else
    v <- idem_WaitForCompletion key idempotencyWait ;;
    match v with
    | Err werr => gret (refused (DomainErr.Wrap CodeInternal "idempotency wait" werr))
    | Ok (val, done) =>
        let fallback :=
          r <- repo_GetByIdempotencyKey key ;;
          gret (match r with
                | Ok p => (Some p, None)
                | Err _ => refused (DomainErr.New CodeConflict "payment still processing")
                end) in
        if done && negb (is_empty val)
        then match uuid_Parse val with
             | Some id => r <- repo_GetByID id ;; gret (of_result r)
             | None => fallback
             end
        else fallback
    end.

(** The caller owns the key: create the payment and run the saga. *)
Definition own_payment (inp : InitiateInput) (merchantID consentID : string) : M W answer :=
  let key := in_IdempotencyKey inp in
  id <- uuid_new ;;
  let p := MkPayment id key merchantID consentID "" (in_AmountPence inp)
             (ToUpper (TrimSpace (in_Currency inp))) StatusInitiated "" None None "" "" (in_Description inp)
             0 None 0 in
  o <- repo_CreatePayment p ;;
  let '(r, p) := o in
  match r with
  | Err err =>
      _ <- idem_Release key ;;
      if Is err CodeDuplicateIdempotency
      then
        g <- repo_GetByIdempotencyKey key ;;
        match g with
        | Ok existing => _ <- idem_Complete key (p_ID existing) ;; gret (Some existing, None)
        | Err _ => gret (refused err)
        end
      else gret (refused err)
  | Ok _ =>
      s <- runSaga p ;;
      let '(sagaErr, p) := s in
      _ <- idem_Complete key (p_ID p) ;;
      g <- repo_GetByID (p_ID p) ;;
      gret (match g with
            | Ok fresh => (Some fresh, sagaErr)
            | Err gerr => (Some p, match sagaErr with Some e => Some e | None => Some gerr end)
            end)
  end.

Definition Initiate (inp : InitiateInput) : M W answer :=
  if in_SkipIdempotency inp then
    match in_Existing inp with
    | None => gret (refused (DomainErr.New CodeInternal "retry requires existing payment"))
    | Some existing => retry existing
    end
  else if is_empty (TrimSpace (in_IdempotencyKey inp))
  then gret (refused (DomainErr.New CodeValidation "idempotency_key is required"))
  else match validateInitiate inp with
  | Some e => gret (refused e)
  | None =>
      b <- idem_Begin (in_IdempotencyKey inp) ;;
      match b with
      | Err err => gret (refused (DomainErr.Wrap CodeInternal "idempotency begin" err))
      | Ok (false, completed) => join_other (in_IdempotencyKey inp) completed
      | Ok (true, _) =>
          match uuid_Parse (in_MerchantID inp) with
          | None => _ <- idem_Release (in_IdempotencyKey inp) ;;
                    gret (refused (DomainErr.New CodeValidation "invalid merchant_id"))
          | Some merchantID =>
              match uuid_Parse (in_ConsentID inp) with
              | None => _ <- idem_Release (in_IdempotencyKey inp) ;;
                        gret (refused (DomainErr.New CodeValidation "invalid consent_id"))
              | Some consentID => own_payment inp merchantID consentID
              end
          end
      end
  end.
End Orchestrator.
