(* ===== verification/PaymentHandler.v ===== *)
(** * The gRPC handler of the payment service
([services/payment-svc/internal/handler.go]).

[getByIDAndMerchant] is the repository method of that name on the world of the
orchestrator. *)
From S2P Require Import Prelude GoStrings DomainErr World Proto Uuid Idempotency PaymentRepo Saga.
Local Open Scope Z_scope.
Local Open Scope go_scope.

Definition isTerminalPayment (p : Payment) : bool :=
  bool_decide (p_Status p ∈ [StatusFailed; StatusSettled; StatusManualReview]).

(** [paymentv1.PaymentStatus_value[s]]. *)
Definition statusToProto (s : string) : PaymentStatus :=
  if bool_decide (s = "INITIATED") then PS_INITIATED
  else if bool_decide (s = "CONSENT_RESERVED") then PS_CONSENT_RESERVED
  else if bool_decide (s = "RISK_PASSED") then PS_RISK_PASSED
  else if bool_decide (s = "AUTHORISING") then PS_AUTHORISING
  else if bool_decide (s = "SETTLED") then PS_SETTLED
  else if bool_decide (s = "FAILED") then PS_FAILED
  else if bool_decide (s = "MANUAL_REVIEW") then PS_MANUAL_REVIEW
  else PAYMENT_STATUS_UNSPECIFIED.

Definition toProto (p : Payment) : PPayment :=
  MkPPayment (p_ID p) (p_IdempotencyKey p) (p_MerchantID p) (p_ConsentID p) (p_ConsumerID p)
    (MkPMoney (p_AmountPence p) (p_Currency p)) (statusToProto (p_Status p)) (p_BankPaymentRef p)
    (match p_RiskScore p with Some n => n | None => 0 end) (p_RiskDecision p) (p_FailureReason p)
    (p_Description p) (p_InitiatedAt p) (p_SettledAt p) (p_UpdatedAt p).

Section Handler.
Context {W : Type} `{paymentRepo W} `{IdemStore W} `{Clients W}.
Context `{GrpcLib} `{UuidLib} `{Unicode} (uuid_new : M W string).
Context (getByIDAndMerchant : string -> string -> M W (result error Payment)).

Definition invalid (msg : string) : error := ToGRPC (DomainErr.New CodeValidation msg).

(** What the client gets of an answer of the orchestrator: a terminal payment
even when the saga failed.  [Initiate] never answers without a payment and
without an error; the last line only makes the match total. *)
Definition to_client (a : answer) : result error PPayment :=
  match a with
  | (Some p, None) => Ok (toProto p)
  | (Some p, Some err) => if isTerminalPayment p then Ok (toProto p) else Err (ToGRPC err)
  | (None, Some err) => Err (ToGRPC err)
  | (None, None) => Err (PlainError "nil payment and nil error")
  end.

Definition InitiatePayment (req : option InitiatePaymentRequest) : M W (result error PPayment) :=
  match req with
  | None => gret (Err (invalid "request required"))
  | Some req =>
      match ipr_amount req with
      | None => gret (Err (invalid "amount is required"))
      | Some amount =>
          a <- Initiate uuid_new
                 (MkInitiateInput (ipr_idempotency_key req) (ipr_merchant_id req) (ipr_consent_id req)
                    (pm_amount_pence amount) (pm_currency amount) (ipr_description req) false None) ;;
          gret (to_client a)
      end
  end.

(** The lookup [GetPayment] and [RetryPayment] share. *)
Definition find_payment (req : option GetPaymentRequest) : M W (result error Payment) :=
  match req with
  | None => gret (Err (invalid "payment_id is required"))
  | Some req =>
      if is_empty (TrimSpace (gp_payment_id req)) then gret (Err (invalid "payment_id is required"))
      else match uuid_Parse (gp_payment_id req) with
           | None => gret (Err (invalid "invalid payment_id"))
           | Some id =>
               let mid := TrimSpace (gp_merchant_id req) in
               if is_empty mid then gmap_err ToGRPC (repo_GetByID id)
               else match uuid_Parse mid with
                    | None => gret (Err (invalid "invalid merchant_id"))
                    | Some merchantID => gmap_err ToGRPC (getByIDAndMerchant id merchantID)
                    end
           end
  end.

Definition GetPayment (req : option GetPaymentRequest) : M W (result error PPayment) :=
  p <-? find_payment req ;;
  gret (Ok (toProto p)).

Definition RetryPayment (req : option GetPaymentRequest) : M W (result error PPayment) :=
  p <-? find_payment req ;;
  if negb (bool_decide (p_Status p = StatusFailed))
  then gret (Err (ToGRPC (DomainErr.New CodeConflict "only FAILED payments can be retried")))
  else
    a <- Initiate uuid_new
           (MkInitiateInput (p_IdempotencyKey p) (p_MerchantID p) (p_ConsentID p) (p_AmountPence p)
              (p_Currency p) (p_Description p) true (Some p)) ;;
    gret (to_client a).
End Handler.
