(* ===== verification/Reconciliation.v ===== *)
(** * The reconciliation worker ([services/payment-svc/internal/reconciliation.go])
and the outbox relay ([services/payment-svc/internal/outbox.go]).

Each runs the body of its ticker loop until its context is cancelled.
[listStale] is [Repo.ListStaleInFlightPayments]. *)
From S2P Require Import Prelude GoStrings DomainErr World Proto Uuid Idempotency PaymentRepo Saga.
Local Open Scope Z_scope.
Local Open Scope go_scope.

(** The intervals of [NewReconciliationWorker]. *)
Definition worker_interval (interval : Z) : Z := if interval <=? 0 then 30 * second else interval.
Definition worker_staleAfter (staleAfter : Z) : Z := if staleAfter <=? 0 then 1 * minute else staleAfter.

(** A loop over a ticker, by what its [select] finds: a tick, with what the body
meets then, or the end of the context. *)
Fixpoint ticker_loop {W T} (body : T -> M W unit) (wakes : list (option T)) : M W unit :=
  match wakes with
  | Some t :: wakes' => body t ;;; ticker_loop body wakes'
  | None :: _ | [] => gret tt
  end.

Section Worker.
Context {W : Type} `{paymentRepo W} `{IdemStore W} `{Clients W} `{GrpcLib}.
Context (listStale : Z -> M W (result error (list Payment))).

(** One stale payment. *)
Definition reconcile_one (p : Payment) : M W unit :=
  let cancel := _ <- CompensateStale p "RECONCILIATION_TIMEOUT" ;; gret tt in
  if negb (is_empty (p_BankPaymentRef p)) then
    r <- bank_GetPaymentStatus (p_BankPaymentRef p) ;;
    match r with
    | Err _ => gret tt
    | Ok resp =>
        if bool_decide (sp_status resp = Bank_SETTLED)
        then _ <- ResumeFromLedger p ;; gret tt
        else cancel
    end
  else cancel.

Fixpoint reconcile_all (ps : list Payment) : M W unit :=
  match ps with
  | [] => gret tt
  | p :: ps' => reconcile_one p ;;; reconcile_all ps'
  end.

Definition reconcileStalePayments (staleAfter : Z) : M W unit :=
  stale <- listStale staleAfter ;;
  match stale with
  | Err _ => gret tt
  | Ok ps => reconcile_all ps
  end.

Definition Start (staleAfter : Z) (wakes : list (option unit)) : M W unit :=
  ticker_loop (fun _ => reconcileStalePayments staleAfter) wakes.
End Worker.

(* ------------------------------------------------------------------ *)
(** ** The outbox relay *)

(** A message as the relay hands it to the Kafka writer. *)
Record Message := MkMessage {
  msg_Topic : string; msg_Key : string; msg_Value : list (string * json); msg_Time : Z }.

(** The tables of the payment service and the messages Kafka has accepted. *)
Record Relay := MkRelay { rl_db : PaymentDB; rl_topic : list Message }.

Definition relay_interval : Z := 200 * millisecond.

Definition message_of (row : OutboxRow) : Message :=
  MkMessage (ob_Topic row) (ob_Key row) (ob_Payload row) (ob_CreatedAt row).

(** [WriteMessages] with acks from all replicas: accepted, refused, or accepted
with a lost acknowledgement. *)
Definition WriteMessages (m : Message) : M (world Relay) (result error unit) :=
  within rl_topic (fun t s => MkRelay (rl_db s) t) (exec (fun _ _ topic => (Ok tt, topic ++ [m]))).

Definition on_tables {A} (m : M (world PaymentDB) A) : M (world Relay) A :=
  within rl_db (fun db s => MkRelay db (rl_topic s)) m.

Fixpoint publish_rows (rows : list OutboxRow) : M (world Relay) unit :=
  match rows with
  | [] => gret tt
  | row :: rows' =>
      w <- WriteMessages (message_of row) ;;
      match w with
      | Err _ => gret tt
      | Ok _ =>
          d <- on_tables (DeleteOutbox (ob_ID row)) ;;
          match d with
          | Err _ => gret tt
          | Ok _ => publish_rows rows'
          end
      end
  end.

Definition flush (skipped : OutboxRow -> bool) : M (world Relay) unit :=
  rows <- on_tables (ListOutbox skipped 100) ;;
  match rows with
  | Err _ => gret tt
  | Ok rows => publish_rows rows
  end.

Definition Run (wakes : list (option (OutboxRow -> bool))) : M (world Relay) unit := ticker_loop flush wakes.

(* ------------------------------------------------------------------ *)
(** ** At-least-once delivery *)

Lemma merge_sort_earlier l : merge_sort earlier l ≡ₚ l.
Proof. apply merge_sort_Permutation. Qed.

(** No row disappears unpublished. *)
Definition delivered (before after : Relay) : Prop :=
  (exists ms, rl_topic after = rl_topic before ++ ms) /\
  forall row, row ∈ outbox (rl_db before) ->
    row ∈ outbox (rl_db after) \/ message_of row ∈ rl_topic after.

Lemma delivered_refl s : delivered s s.
Proof. split; [exists []; by rewrite app_nil_r|auto]. Qed.

Lemma delivered_trans s1 s2 s3 : delivered s1 s2 -> delivered s2 s3 -> delivered s1 s3.
Proof.
  intros [(m1 & H1) HA] [(m2 & H2) HB]. split; [exists (m1 ++ m2); by rewrite H2, H1, (assoc_L (++))|].
  intros row Hr. destruct (HA row Hr) as [Hr2|Hm]; [by apply HB|]. right. rewrite H2. set_solver.
Qed.

#[export] Instance delivered_preorder : PreOrder delivered.
Proof. split; [intros ?; apply delivered_refl|intros ???; apply delivered_trans]. Qed.

Lemma wp_delete_row id e s (Q : result error unit -> world Relay -> Prop) :
  let gone db := MkPaymentDB (payments db) (events db)
                   (where_ (fun r => negb (bool_decide (ob_ID r = id))) (outbox db)) in
  (forall err e', Q (Err err) (MkWorld e' s)) ->
  (forall r e', Q r (MkWorld e' (MkRelay (gone (rl_db s)) (rl_topic s)))) ->
  wp (on_tables (DeleteOutbox id)) Q (MkWorld e s).
Proof.
  intros gone He Ho. unfold on_tables, DeleteOutbox. apply wp_within. wp_step. apply wp_exec; simpl.
  - intros err. destruct s. apply He.
  - intros r s' [= <- <-]. apply Ho.
  - intros r s' err [= _ <-]. apply Ho.
Qed.

Lemma wp_publish rows : forall e s,
  NoDup (map ob_ID (outbox (rl_db s))) -> (forall row, row ∈ rows -> row ∈ outbox (rl_db s)) ->
  NoDup (map ob_ID rows) ->
  wp (publish_rows rows) (fun _ w => delivered s (w_st w)) (MkWorld e s).
Proof.
  induction rows as [|row rows IH]; intros e s Hnd Hin Hrows; simpl; [by wp_step|].
  simpl in Hrows. apply NoDup_cons in Hrows as [Hrow Hrows].
  set (s1 := MkRelay (rl_db s) (rl_topic s ++ [message_of row])).
  assert (Hs1 : delivered s s1) by (split; [by eexists|auto]).
  wp_step. unfold WriteMessages. apply wp_within. apply wp_exec; simpl.
  - intros err. wp_step. by destruct s.
  - intros r t [= <- <-]. wp_step. fold s1.
    set (gone db := MkPaymentDB (payments db) (events db)
           (where_ (fun r => negb (bool_decide (ob_ID r = ob_ID row))) (outbox db))).
    set (s2 := MkRelay (gone (rl_db s)) (rl_topic s ++ [message_of row])).
    assert (Hs2 : delivered s s2).
    { split; [by eexists|]. intros x Hx. simpl. destruct (decide (ob_ID x = ob_ID row)) as [Heq|Hne].
      - right. assert (x = row) as -> by (eapply (NoDup_map_inj ob_ID); [exact Hnd|done|apply Hin; set_solver|done]).
        set_solver.
      - left. apply elem_of_where. split; [done|]. by rewrite bool_decide_eq_false_2. }
    apply wp_delete_row.
    + intros err e'. by wp_step.
    + intros [[]|err] e'; [|by wp_step]. fold s2. eapply wp_mono; [apply IH|].
      * by apply NoDup_map_where.
      * intros x Hx. simpl. apply elem_of_where. split; [apply Hin; set_solver|].
        rewrite bool_decide_eq_false_2; [done|]. intros Heq. apply Hrow. rewrite <- Heq. by apply list_elem_of_fmap_2.
      * done.
      * intros a w Hw. by etrans.
  - intros r t err [= _ <-]. wp_step. done.
Qed.

(** The relay delivers at least once: whatever the database and Kafka do
(refuse, or accept and lose the reply, at any call), after a flush every row
that was in the outbox is still there or its message has been accepted by
Kafka, and messages are only ever appended. *)
Theorem flush_at_least_once skipped e s :
  NoDup (map ob_ID (outbox (rl_db s))) ->
  delivered s (w_st (snd (flush skipped (MkWorld e s)))).
Proof.
  intros Hnd. change (wp (flush skipped) (fun _ w => delivered s (w_st w)) (MkWorld e s)).
  unfold flush. wp_step. unfold on_tables at 1, ListOutbox. apply wp_within. wp_step. apply wp_exec; simpl.
  - intros err. wp_step. by destruct s.
  - intros r s' [= <- <-]. simpl. destruct s as [db topic]. simpl in *.
    set (rows := take _ _).
    assert (Hsub : rows ⊆+ where_ (fun r => negb (skipped r)) (outbox db)).
    { etrans; [apply submseteq_take|]. apply Permutation_submseteq, merge_sort_earlier. }
    apply wp_publish; simpl; [done| |].
    + intros row Hrow. eapply elem_of_submseteq in Hrow; [|exact Hsub]. by apply elem_of_where in Hrow as [? _].
    + apply (NoDup_map_where ob_ID (fun r => negb (skipped r))) in Hnd.
      destruct (submseteq_Permutation _ _ Hsub) as [k Hk].
      rewrite (Permutation_map ob_ID Hk), map_app in Hnd. by apply NoDup_app in Hnd as [? _].
  - intros r s' err [= _ <-]. wp_step. by destruct s.
Qed.

Definition demo_row : OutboxRow := MkOutbox "o1" TopicPaymentEvents "p1" [] 0.
Definition demo_relay : Relay := MkRelay (MkPaymentDB [] [] [demo_row]) [].

Lemma flush_witness :
  delivered demo_relay (w_st (snd (flush (fun _ => false) (MkWorld (idem_env 0) demo_relay)))) /\
  rl_topic (w_st (snd (flush (fun _ => false) (MkWorld (idem_env 0) demo_relay)))) = [message_of demo_row].
Proof.
  split; [|vm_compute; reflexivity].
  apply (flush_at_least_once (fun _ => false) (idem_env 0) demo_relay). apply NoDup_singleton.
Defined.
