(* ===== verification/OutboxRun.v ===== *)
(** * Runs of the outbox relay ([services/payment-svc/internal/outbox.go]): nothing
queued is lost, and once nothing fails the queue is emptied, oldest rows first. *)
From S2P Require Import Prelude GoStrings DomainErr World Idempotency PaymentRepo Saga Reconciliation.
Local Open Scope Z_scope.
Local Open Scope go_scope.

(* ------------------------------------------------------------------ *)
(** ** Histories *)

(** What happens to the outbox: a tick of the relay, or a settlement that queues a row. *)
Inductive relay_event := Tick (skipped : OutboxRow -> bool) | Queue (row : OutboxRow).

Definition queue_row (row : OutboxRow) (s : Relay) : Relay :=
  MkRelay (MkPaymentDB (payments (rl_db s)) (events (rl_db s)) (outbox (rl_db s) ++ [row])) (rl_topic s).

Definition relay_step (ev : relay_event) : M (world Relay) unit :=
  match ev with
  | Tick skipped => flush skipped
  | Queue row => fun w => (tt, MkWorld (w_env w) (queue_row row (w_st w)))
  end.

Fixpoint relay_history (evs : list relay_event) : M (world Relay) unit :=
  match evs with
  | [] => gret tt
  | ev :: evs' => relay_step ev ;;; relay_history evs'
  end.

Definition queued (evs : list relay_event) : list OutboxRow :=
  flat_map (fun ev => match ev with Queue row => [row] | Tick _ => [] end) evs.

(** Deletions only. *)
Definition shrunk (before after : Relay) : Prop :=
  exists p, outbox (rl_db after) = where_ p (outbox (rl_db before)).

Lemma shrunk_refl s : shrunk s s.
Proof. exists (fun _ => true). by rewrite where_true. Qed.

Lemma shrunk_trans s1 s2 s3 : shrunk s1 s2 -> shrunk s2 s3 -> shrunk s1 s3.
Proof. intros [p Hp] [q Hq]. exists (fun x => p x && q x). by rewrite Hq, Hp, where_where. Qed.

Lemma wp_publish_shrinks rows : forall e s,
  wp (publish_rows rows) (fun _ w => shrunk s (w_st w)) (MkWorld e s).
Proof.
  induction rows as [|row rows IH]; intros e s; simpl; [wp_step; apply shrunk_refl|].
  wp_step. unfold WriteMessages. apply wp_within. apply wp_exec; simpl.
  - intros err. wp_step. exact (shrunk_refl s).
  - intros r t [= <- <-]. wp_step. apply wp_delete_row.
    + intros err e'. wp_step. exact (shrunk_refl s).
    + intros [[]|err] e'; [|wp_step; eexists; reflexivity]. eapply wp_mono; [apply IH|]. intros a w Hw.
      eapply shrunk_trans; [|exact Hw]. by eexists.
  - intros r t err [= _ <-]. wp_step. exact (shrunk_refl s).
Qed.

Lemma flush_shrinks skipped e s : shrunk s (w_st (snd (flush skipped (MkWorld e s)))).
Proof.
  change (wp (flush skipped) (fun _ w => shrunk s (w_st w)) (MkWorld e s)).
  unfold flush. wp_step. unfold on_tables, ListOutbox. apply wp_within. wp_step. apply wp_exec; simpl.
  - intros err. wp_step. exact (shrunk_refl s).
  - intros r s' [= <- <-]. destruct s as [db topic]. apply wp_publish_shrinks.
  - intros r s' err [= _ <-]. wp_step. exact (shrunk_refl s).
Qed.

Lemma history_delivers evs : forall e s,
  NoDup (map ob_ID (outbox (rl_db s) ++ queued evs)) ->
  let s' := w_st (snd (relay_history evs (MkWorld e s))) in
  (exists ms, rl_topic s' = rl_topic s ++ ms) /\
  forall row, row ∈ outbox (rl_db s) ++ queued evs -> row ∈ outbox (rl_db s') \/ message_of row ∈ rl_topic s'.
Proof.
  induction evs as [|[skipped|row] evs IH]; intros e s Hnd; simpl.
  - split; [exists []; by rewrite app_nil_r|]. intros row. rewrite app_nil_r. auto.
  - unfold gbind. destruct (flush skipped (MkWorld e s)) as [[] [e1 s1]] eqn:Hf. simpl in *.
    assert (Hd : delivered s s1).
    { rewrite map_app in Hnd. apply NoDup_app in Hnd as [Hnd _]. pose proof (flush_at_least_once skipped e s Hnd) as Hd. by rewrite Hf in Hd. }
    pose proof (flush_shrinks skipped e s) as [p Hp]. rewrite Hf in Hp. simpl in Hp.
    destruct Hd as [[ms Hms] Hd]. destruct (IH e1 s1) as [[ms' Hms'] Hrest].
    { rewrite Hp. rewrite map_app in *. apply NoDup_app in Hnd as (Hn1 & Hn2 & Hn3). apply NoDup_app.
      split_and!; [by apply NoDup_map_where| |done]. intros x (r & -> & [Hr _]%elem_of_where)%list_elem_of_fmap.
      apply Hn2. by apply list_elem_of_fmap_2. }
    split; [exists (ms ++ ms'); by rewrite Hms', Hms, (assoc_L (++))|].
    intros row [Hr|Hr]%elem_of_app; [|apply Hrest; set_solver].
    destruct (Hd row Hr) as [Hin|Hm]; [apply Hrest; set_solver|]. right. rewrite Hms'. set_solver.
  - destruct (IH e (queue_row row s)) as [Htopic Hrest].
    { simpl. by rewrite <- (assoc_L (++)). }
    split; [exact Htopic|]. intros x Hx. apply Hrest. simpl. set_solver.
Qed.

(* ------------------------------------------------------------------ *)
(** ** Draining the queue *)

Definition without (rows : list OutboxRow) (l : list OutboxRow) : list OutboxRow :=
  where_ (fun r => negb (bool_decide (ob_ID r ∈ map ob_ID rows))) l.

Lemma without_cons row rows l : without (row :: rows) l =
  without rows (where_ (fun r => negb (bool_decide (ob_ID r = ob_ID row))) l).
Proof.
  unfold without. rewrite where_where. induction l as [|x l IH]; [done|]. rewrite !where_cons, IH.
  assert (negb (bool_decide (ob_ID x ∈ map ob_ID (row :: rows))) =
          negb (bool_decide (ob_ID x = ob_ID row)) && negb (bool_decide (ob_ID x ∈ map ob_ID rows))) as ->; [|done].
  rewrite <- negb_orb, <- bool_decide_or. f_equal. apply bool_decide_ext. simpl. apply elem_of_cons.
Qed.

(** The rows of one batch, each published and deleted. *)
Definition published (rows : list OutboxRow) (s : Relay) : Relay :=
  MkRelay (MkPaymentDB (payments (rl_db s)) (events (rl_db s)) (without rows (outbox (rl_db s))))
    (rl_topic s ++ map message_of rows).

Lemma published_nil s : published [] s = s.
Proof.
  destruct s as [[ps evs ob] topic]. unfold published, without. simpl. by rewrite app_nil_r, (where_true ob).
Qed.

Lemma wp_publish_calm rows : forall e s, calm e ->
  wp (publish_rows rows) (fun _ w => calm (w_env w) /\ w_st w = published rows s) (MkWorld e s).
Proof.
  induction rows as [|row rows IH]; intros e s He; simpl; [wp_step; by rewrite published_nil|].
  wp_step. unfold WriteMessages. apply wp_within. eapply wp_exec_calm; [done|reflexivity|]. simpl. wp_step.
  unfold on_tables, DeleteOutbox. apply wp_within. wp_step. eapply wp_exec_calm; [by apply calm_bump|reflexivity|]. simpl.
  eapply wp_mono; [apply IH; by apply calm_bump, calm_bump|]. intros a w [Hw ->]. split; [done|].
  unfold published. simpl. by rewrite without_cons, <- (assoc_L (++)).
Qed.

(** The rows a tick takes when no other session holds locks. *)
Definition batch (l : list OutboxRow) : list OutboxRow := take 100 (merge_sort earlier l).
Definition unlocked : OutboxRow -> bool := fun _ => false.

Lemma wp_flush_calm e s : calm e ->
  wp (flush unlocked) (fun _ w => calm (w_env w) /\ w_st w = published (batch (outbox (rl_db s))) s) (MkWorld e s).
Proof.
  intros He. unfold flush. wp_step. unfold on_tables, ListOutbox. apply wp_within. wp_step.
  eapply wp_exec_calm; [done|reflexivity|]. simpl. destruct s as [db topic]. simpl.
  rewrite where_true.
  apply (wp_publish_calm _ _ (MkRelay db topic)). by apply calm_bump.
Qed.

(** What a batch leaves is what the sorted queue has after it. *)
Lemma without_batch l : NoDup (map ob_ID l) -> without (batch l) l ≡ₚ drop 100 (merge_sort earlier l).
Proof.
  intros Hnd. unfold batch. pose proof (merge_sort_earlier l) as Hperm. revert Hperm.
  generalize (merge_sort earlier l). intros l' Hperm.
  assert (Hnd' : NoDup (map ob_ID l')) by (by rewrite (Permutation_map ob_ID Hperm)).
  unfold without. set (p := fun r => negb (bool_decide (ob_ID r ∈ map ob_ID (take 100 l')))).
  transitivity (where_ p l'); [by rewrite Hperm|].
  pose proof (where_app p (take 100 l') (drop 100 l')) as Happ. rewrite take_drop in Happ. rewrite Happ.
  rewrite <- (take_drop 100 l'), map_app in Hnd'. apply NoDup_app in Hnd' as (_ & Hdisj & _).
  rewrite where_none, where_all; [done| |].
  - intros x Hx. unfold p. rewrite bool_decide_eq_false_2; [done|]. intros Hin. by apply (Hdisj _ Hin), list_elem_of_fmap_2.
  - intros x Hx. unfold p. rewrite bool_decide_eq_true_2; [done|]. by apply list_elem_of_fmap_2.
Qed.

(** Messages in the order of their rows' creation. *)
Definition oldest_first (ms : list Message) : Prop := StronglySorted (fun m1 m2 => msg_Time m1 <= msg_Time m2) ms.

#[export] Instance earlier_total : Total earlier.
Proof. intros r1 r2. unfold earlier. lia. Qed.
#[export] Instance earlier_trans : Transitive earlier.
Proof. intros r1 r2 r3. unfold earlier. lia. Qed.

Lemma oldest_first_of l : StronglySorted earlier l -> oldest_first (map message_of l).
Proof.
  induction 1 as [|x l _ IH Hx]; constructor; [done|]. apply List.Forall_forall. intros m Hm.
  apply list_elem_of_In, list_elem_of_fmap in Hm as (y & -> & Hy).
  rewrite Forall_forall in Hx. by apply Hx.
Qed.

Lemma StronglySorted_cut {A} (R : relation A) l1 l2 : StronglySorted R (l1 ++ l2) ->
  StronglySorted R l1 /\ StronglySorted R l2 /\ forall x y, x ∈ l1 -> y ∈ l2 -> R x y.
Proof.
  induction l1 as [|z l1 IH]; simpl; [intros Hs; split_and!; [constructor|done|set_solver]|].
  intros [Hs Hz]%StronglySorted_inv. destruct (IH Hs) as (H1 & H2 & H3). rewrite Forall_app in Hz. destruct Hz as [Hz1 Hz2].
  split_and!; [by constructor|done|]. intros x y [->|Hx]%elem_of_cons Hy; [|by apply H3].
  rewrite Forall_forall in Hz2. by apply Hz2.
Qed.

Lemma StronglySorted_join {A} (R : relation A) l1 l2 : StronglySorted R l1 -> StronglySorted R l2 ->
  (forall x y, x ∈ l1 -> y ∈ l2 -> R x y) -> StronglySorted R (l1 ++ l2).
Proof.
  intros H1 H2 H. induction H1 as [|z l1 _ IH Hz]; [done|]. simpl. constructor.
  - apply IH. set_solver.
  - apply Forall_app. split; [done|]. apply Forall_forall. intros y Hy. apply H; [set_solver|done].
Qed.

Lemma run_drains n : forall e s, calm e -> NoDup (map ob_ID (outbox (rl_db s))) -> (length (outbox (rl_db s)) <= 100 * n)%nat ->
  wp (Run (replicate n (Some unlocked))) (fun _ w => outbox (rl_db (w_st w)) = [] /\
    exists ms, rl_topic (w_st w) = rl_topic s ++ ms /\ ms ≡ₚ map message_of (outbox (rl_db s)) /\ oldest_first ms) (MkWorld e s).
Proof.
  induction n as [|n IH]; intros e s He Hnd Hlen; unfold Run; simpl.
  - wp_step. simpl. destruct (outbox (rl_db s)); [|simpl in Hlen; lia]. split; [done|]. exists [].
    rewrite app_nil_r. split_and!; [done|done|constructor].
  - wp_step. eapply wp_mono; [by apply wp_flush_calm|]. intros _ [e1 s1] [He1 Hs1]. simpl in *.
    set (l := outbox (rl_db s)) in *. pose proof (without_batch l Hnd) as Hrest.
    pose proof (StronglySorted_merge_sort earlier l) as Hsort. rewrite <- (take_drop 100 (merge_sort earlier l)) in Hsort.
    apply StronglySorted_cut in Hsort as (Hb & _ & Hcut). fold (batch l) in Hb, Hcut.
    assert (Hq : outbox (rl_db s1) ≡ₚ drop 100 (merge_sort earlier l)) by (by subst s1).
    eapply wp_mono; [apply IH; [done| |]|].
    + rewrite (Permutation_map ob_ID Hq), <- skipn_map. eapply sublist_NoDup; [|apply sublist_drop].
      by rewrite (Permutation_map ob_ID (merge_sort_earlier l)).
    + rewrite (Permutation_length Hq), length_drop, (Permutation_length (merge_sort_earlier l)). lia.
    + intros _ w (Hnil & ms & Htopic & Hperm & Hold). split; [done|]. exists (map message_of (batch l) ++ ms). split_and!.
      * rewrite Htopic, Hs1. simpl. by rewrite (assoc_L (++)).
      * rewrite Hperm, (Permutation_map message_of Hq), <- map_app. unfold batch. rewrite take_drop.
        apply Permutation_map, merge_sort_earlier.
      * apply StronglySorted_join; [by apply oldest_first_of|done|]. intros m1 m2 (r1 & -> & Hr1)%list_elem_of_fmap Hm2.
        rewrite Hperm in Hm2. apply list_elem_of_fmap in Hm2 as (r2 & -> & Hr2). rewrite Hq in Hr2. by apply Hcut.
Qed.

(** C15.  The relay delivers at least once.  Whatever happens to the outbox (ticks
of the relay, settlements that queue rows, calls of the database or of Kafka that
are refused or whose reply is lost), every row that was or came into it is still
there or its message was accepted by Kafka, and messages are only ever appended.
From any moment on at which nothing fails, a hundred rows go with each tick: after
enough ticks the outbox is empty and Kafka has exactly its messages, oldest first. *)
Theorem relay_delivers :
  (forall evs e s, NoDup (map ob_ID (outbox (rl_db s) ++ queued evs)) ->
     let s' := w_st (snd (relay_history evs (MkWorld e s))) in
     (exists ms, rl_topic s' = rl_topic s ++ ms) /\
     forall row, row ∈ outbox (rl_db s) ++ queued evs -> row ∈ outbox (rl_db s') \/ message_of row ∈ rl_topic s') /\
  (forall n e s, calm e -> NoDup (map ob_ID (outbox (rl_db s))) -> (length (outbox (rl_db s)) <= 100 * n)%nat ->
     let s' := w_st (snd (Run (replicate n (Some unlocked)) (MkWorld e s))) in
     outbox (rl_db s') = [] /\
     exists ms, rl_topic s' = rl_topic s ++ ms /\ ms ≡ₚ map message_of (outbox (rl_db s)) /\ oldest_first ms).
Proof. split; [apply history_delivers|]. intros n e s He Hnd Hlen. exact (run_drains n e s He Hnd Hlen). Qed.

(* ------------------------------------------------------------------ *)
(** ** An example *)

Definition row_of (n : nat) : OutboxRow := MkOutbox (pretty (N.of_nat n)) TopicPaymentEvents "p1" [] (Z.of_nat n).
Definition two_rows : Relay := MkRelay (MkPaymentDB [] [] [row_of 2; row_of 1]) [].

Lemma row_ids_distinct l : NoDup l -> NoDup (map ob_ID (map row_of l)).
Proof.
  induction 1 as [|n l Hn _ IH]; simpl; [constructor|]. constructor; [|done].
  intros (r & Hr & (m & -> & Hm)%list_elem_of_fmap)%list_elem_of_fmap. unfold row_of in Hr. cbn [ob_ID] in Hr. apply (inj pretty) in Hr. apply Hn.
  by replace n with m by lia.
Qed.

Lemma relay_delivers_witness :
  let tick := Run [Some unlocked] (MkWorld (idem_env 0) two_rows) in
  outbox (rl_db (w_st (snd tick))) = [] /\ rl_topic (w_st (snd tick)) = map message_of [row_of 1; row_of 2] /\
  forall row, row ∈ [row_of 2; row_of 1; row_of 3] ->
    let s' := w_st (snd (relay_history [Tick (fun r => bool_decide (ob_ID r = "2")); Queue (row_of 3)] (MkWorld (idem_env 0) two_rows))) in
    row ∈ outbox (rl_db s') \/ message_of row ∈ rl_topic s'.
Proof.
  split; [|split; [vm_compute; reflexivity|]].
  - refine (proj1 (proj2 relay_delivers 1%nat (idem_env 0) two_rows _ _ _)).
    + intros n. reflexivity.
    + apply (row_ids_distinct [2; 1]%nat). repeat constructor; set_solver.
    + simpl. lia.
  - intros row Hrow. refine (proj2 (proj1 relay_delivers
      [Tick (fun r => bool_decide (ob_ID r = "2")); Queue (row_of 3)] (idem_env 0) two_rows _) row Hrow).
    apply (row_ids_distinct [2; 1; 3]%nat). repeat constructor; set_solver.
Defined.
