(* ===== verification/Gateway.v ===== *)
(** * The HTTP gateway ([services/gateway/internal/httpapi/]).

A request is its headers, query, path parameter and body; a response its status,
headers and JSON value.  The three services behind the gateway are the classes
[MerchantClient], [ConsentClient] and [PaymentClient] of calls on their own state
[B], any of which can answer any error.  [decodeJSON] tells whether a
request body fails to decode, and the struct it has filled in by then.
The chi router is the choice of a [Route]; [NewRouter] is the middleware around
each handler. *)
From S2P Require Import Prelude GoStrings DomainErr World Proto Redis Idempotency GoTime GoJson JsonParse JsonStruct Auth RateLimit.
Local Open Scope Z_scope.
Local Open Scope go_scope.

(* ------------------------------------------------------------------ *)
(** ** Types ([types.go]) *)

Record TokenRequest := MkTokenRequest { tq_APIKey : string }.
Record HttpRegisterMerchant := MkHttpRegisterMerchant { hm_Name : string; hm_WebhookURL : string; hm_ContactEmail : string }.
Record HttpCreateConsent := MkHttpCreateConsent {
  hc_ConsumerID : string;
  hc_BankConsentRef : string;
  hc_MaxPerTransaction : PMoney;
  hc_MaxPerMonth : PMoney;
  hc_ValidUntil : string;
}.
Record HttpRevokeConsent := MkHttpRevokeConsent { hv_Reason : string }.
Record HttpInitiatePayment := MkHttpInitiatePayment { hp_ConsentID : string; hp_Amount : PMoney; hp_Description : string }.

(** [decodeJSON]: the first value of the body, unknown fields refused. *)
Definition decodeJSON {T} (fields : list (field T)) (zero : T) (body : string) : bool * T :=
  let '(t, failed) := Decode (dec_struct true fields) body zero in (failed, t).

Definition money_fields : list (field PMoney) := [
  field_at "amount_pence" pm_amount_pence (fun x m => MkPMoney x (pm_currency m)) (dec_int 64);
  field_at "currency" pm_currency (fun x m => MkPMoney (pm_amount_pence m) x) dec_string ].

Definition dec_TokenRequest : string -> bool * TokenRequest := decodeJSON
  [ field_at "api_key" tq_APIKey (fun x _ => MkTokenRequest x) dec_string ] (MkTokenRequest "").

Definition dec_RegisterMerchant : string -> bool * HttpRegisterMerchant := decodeJSON
  [ field_at "name" hm_Name (fun x r => MkHttpRegisterMerchant x (hm_WebhookURL r) (hm_ContactEmail r)) dec_string;
    field_at "webhook_url" hm_WebhookURL (fun x r => MkHttpRegisterMerchant (hm_Name r) x (hm_ContactEmail r)) dec_string;
    field_at "contact_email" hm_ContactEmail (fun x r => MkHttpRegisterMerchant (hm_Name r) (hm_WebhookURL r) x) dec_string ]
  (MkHttpRegisterMerchant "" "" "").

Definition dec_CreateConsent : string -> bool * HttpCreateConsent := decodeJSON
  [ field_at "consumer_id" hc_ConsumerID (fun x '(MkHttpCreateConsent _ b c d e) => MkHttpCreateConsent x b c d e) dec_string;
    field_at "bank_consent_ref" hc_BankConsentRef (fun x '(MkHttpCreateConsent a _ c d e) => MkHttpCreateConsent a x c d e) dec_string;
    field_at "max_per_transaction" hc_MaxPerTransaction (fun x '(MkHttpCreateConsent a b _ d e) => MkHttpCreateConsent a b x d e)
      (dec_struct true money_fields);
    field_at "max_per_month" hc_MaxPerMonth (fun x '(MkHttpCreateConsent a b c _ e) => MkHttpCreateConsent a b c x e)
      (dec_struct true money_fields);
    field_at "valid_until" hc_ValidUntil (fun x '(MkHttpCreateConsent a b c d _) => MkHttpCreateConsent a b c d x) dec_string ]
  (MkHttpCreateConsent "" "" (MkPMoney 0 "") (MkPMoney 0 "") "").

Definition dec_RevokeConsent : string -> bool * HttpRevokeConsent := decodeJSON
  [ field_at "reason" hv_Reason (fun x _ => MkHttpRevokeConsent x) dec_string ] (MkHttpRevokeConsent "").

Definition dec_InitiatePayment : string -> bool * HttpInitiatePayment := decodeJSON
  [ field_at "consent_id" hp_ConsentID (fun x r => MkHttpInitiatePayment x (hp_Amount r) (hp_Description r)) dec_string;
    field_at "amount" hp_Amount (fun x r => MkHttpInitiatePayment (hp_ConsentID r) x (hp_Description r)) (dec_struct true money_fields);
    field_at "description" hp_Description (fun x r => MkHttpInitiatePayment (hp_ConsentID r) (hp_Amount r) x) dec_string ]
  (MkHttpInitiatePayment "" (MkPMoney 0 "") "").

(** The last of two members of a name wins, names fold, a null leaves the field
alone; an unknown field or a fraction of a penny is refused, with what else is
there decoded. *)
Example bodies :
  (dec_InitiatePayment (unq "{`consent_id`:`c1`,`Amount`:{`amount_pence`:2500,`currency`:`GBP`},`consent_id`:`c2`,`description`:null} x"),
   dec_InitiatePayment (unq "{`amount`:{`amount_pence`:25.5,`currency`:`GBP`},`tip`:1}"),
   dec_TokenRequest (unq "{`api_key`:`k`"), dec_TokenRequest "") =
  ((false, MkHttpInitiatePayment "c2" (MkPMoney 2500 "GBP") ""),
   (true, MkHttpInitiatePayment "" (MkPMoney 0 "GBP") ""), (true, MkTokenRequest ""), (true, MkTokenRequest "")).
Proof. vm_compute. reflexivity. Qed.

Record Request := MkRequest {
  rq_header : string -> string;
  rq_query : string -> string;
  rq_body : string;
}.
Record Response := MkResponse { rs_status : Z; rs_headers : list (string * string); rs_body : value }.

(** The values the middleware puts into the request's context. *)
Record Ctx := MkCtx { cx_RequestID : string; cx_MerchantID : string }.

Record Gw (R B : Type) := MkGw { g_redis : option R; g_backend : B }.
Arguments MkGw {R B}.
Arguments g_redis {R B}.
Arguments g_backend {R B}.

Class MerchantClient (B : Type) := {
  mc_GetMerchantByApiKey : string -> M (world B) (result error Merchant);
  mc_RegisterMerchant : RegisterMerchantRequest -> M (world B) (result error RegisterMerchantResponse);
  mc_GetMerchant : string -> M (world B) (result error Merchant);
}.
Class ConsentClient (B : Type) := {
  cc_CreateConsent : CreateConsentRequest -> M (world B) (result error Consent);
  cc_GetConsent : string -> string -> M (world B) (result error Consent);
  cc_RevokeConsent : string -> string -> string -> M (world B) (result error Consent);
  cc_ListConsents : ListConsentsRequest -> M (world B) (result error ListConsentsResponse);
}.
Class PaymentClient (B : Type) := {
  pc_InitiatePayment : InitiatePaymentRequest -> M (world B) (result error PPayment);
  pc_GetPayment : GetPaymentRequest -> M (world B) (result error PPayment);
  pc_RetryPayment : GetPaymentRequest -> M (world B) (result error PPayment);
}.

(* ------------------------------------------------------------------ *)
(** ** The bodies of responses ([types.go]) and what [encoding/json] makes of them *)

Definition money_value (m : PMoney) : value :=
  VObj [("amount_pence", VInt (pm_amount_pence m)); ("currency", VStr (pm_currency m))].

Record ErrorBody := MkErrorBody { eb_Code : string; eb_Message : string; eb_RequestID : string }.
Definition ErrorBody_json (b : ErrorBody) : value :=
  VObj ([("code", VStr (eb_Code b)); ("message", VStr (eb_Message b))] ++ omit_str "request_id" (eb_RequestID b)).

Record TokenResponse := MkTokenResponse { ts_Token : string; ts_ExpiresAt : string }.
Definition TokenResponse_json (t : TokenResponse) : value :=
  VObj [("token", VStr (ts_Token t)); ("expires_at", VStr (ts_ExpiresAt t))].

Record MerchantResponse := MkMerchantResponse {
  mr_ID : string; mr_Name : string; mr_KYBStatus : string; mr_Status : string; mr_WebhookURL : string;
  mr_CreatedAt : string; mr_UpdatedAt : string }.
Definition MerchantResponse_json (m : MerchantResponse) : value := VObj (
  [ ("id", VStr (mr_ID m)); ("name", VStr (mr_Name m)); ("kyb_status", VStr (mr_KYBStatus m)); ("status", VStr (mr_Status m));
    ("webhook_url", VStr (mr_WebhookURL m)) ]
  ++ omit_str "created_at" (mr_CreatedAt m) ++ omit_str "updated_at" (mr_UpdatedAt m)).

Record HttpMerchantCreated := MkHttpMerchantCreated { hmc_Merchant : MerchantResponse; hmc_APIKey : string }.
Definition HttpMerchantCreated_json (r : HttpMerchantCreated) : value :=
  VObj [("merchant", MerchantResponse_json (hmc_Merchant r)); ("api_key", VStr (hmc_APIKey r))].

Record ConsentResponse := MkConsentResponse {
  cr_ID : string; cr_MerchantID : string; cr_ConsumerID : string; cr_BankConsentRef : string; cr_Status : string;
  cr_MaxPerTransaction : PMoney; cr_MaxPerMonth : PMoney;
  cr_ValidFrom : string; cr_ValidUntil : string; cr_CreatedAt : string; cr_UpdatedAt : string }.
Definition ConsentResponse_json (c : ConsentResponse) : value := VObj (
  [ ("id", VStr (cr_ID c)); ("merchant_id", VStr (cr_MerchantID c)); ("consumer_id", VStr (cr_ConsumerID c));
    ("bank_consent_ref", VStr (cr_BankConsentRef c)); ("status", VStr (cr_Status c));
    ("max_per_transaction", money_value (cr_MaxPerTransaction c)); ("max_per_month", money_value (cr_MaxPerMonth c)) ]
  ++ omit_str "valid_from" (cr_ValidFrom c) ++ omit_str "valid_until" (cr_ValidUntil c)
  ++ omit_str "created_at" (cr_CreatedAt c) ++ omit_str "updated_at" (cr_UpdatedAt c)).

Record HttpConsents := MkHttpConsents { hcs_Consents : list ConsentResponse; hcs_NextPageToken : string; hcs_TotalCount : Z }.
Definition HttpConsents_json (r : HttpConsents) : value := VObj (
  [("consents", VArr (map ConsentResponse_json (hcs_Consents r)))]
  ++ omit_str "next_page_token" (hcs_NextPageToken r) ++ [("total_count", VInt (hcs_TotalCount r))]).

Record PaymentResponse := MkPaymentResponse {
  pr_ID : string; pr_IdempotencyKey : string; pr_MerchantID : string; pr_ConsentID : string; pr_ConsumerID : string;
  pr_Amount : PMoney; pr_Status : string; pr_BankPaymentRef : string; pr_RiskScore : Z; pr_RiskDecision : string;
  pr_FailureReason : string; pr_Description : string; pr_InitiatedAt : string; pr_SettledAt : string; pr_UpdatedAt : string }.
Definition PaymentResponse_json (p : PaymentResponse) : value := VObj (
  [ ("id", VStr (pr_ID p)); ("idempotency_key", VStr (pr_IdempotencyKey p)); ("merchant_id", VStr (pr_MerchantID p));
    ("consent_id", VStr (pr_ConsentID p)) ]
  ++ omit_str "consumer_id" (pr_ConsumerID p)
  ++ [ ("amount", money_value (pr_Amount p)); ("status", VStr (pr_Status p)) ]
  ++ omit_str "bank_payment_ref" (pr_BankPaymentRef p) ++ omit_int "risk_score" (pr_RiskScore p)
  ++ omit_str "risk_decision" (pr_RiskDecision p) ++ omit_str "failure_reason" (pr_FailureReason p)
  ++ omit_str "description" (pr_Description p) ++ omit_str "initiated_at" (pr_InitiatedAt p)
  ++ omit_str "settled_at" (pr_SettledAt p) ++ omit_str "updated_at" (pr_UpdatedAt p)).

(* ------------------------------------------------------------------ *)
(** ** Responses ([respond.go]) *)

Definition writeJSON (status : Z) (headers : list (string * string)) (v : value) : Response :=
  MkResponse status (headers ++ [("Content-Type", "application/json")]) v.

Definition error_body (code message requestID : string) : value := ErrorBody_json (MkErrorBody code message requestID).

Definition writeError (c : Ctx) (status : Z) (code message : string) : Response :=
  writeJSON status [] (error_body code message (cx_RequestID c)).

Definition isBusinessCode (s : string) : bool :=
  bool_decide (s ∈ ["VALIDATION_ERROR"; "NOT_FOUND"; "ALREADY_EXISTS"; "CONSENT_LIMIT_EXCEEDED";
    "CONSENT_EXPIRED"; "CONSENT_REVOKED"; "CONSENT_INACTIVE"; "RISK_DECLINED";
    "BANK_REJECTED"; "BANK_UNAVAILABLE"; "MERCHANT_SUSPENDED";
    "DUPLICATE_IDEMPOTENCY_KEY"; "CONFLICT"; "INTERNAL_ERROR"]).

Definition grpcBusinessCode (c : GrpcCode) (msg : string) : string :=
  let by_code := match c with
    | InvalidArgument => "VALIDATION_ERROR"
    | NotFound => "NOT_FOUND"
    | AlreadyExists => "ALREADY_EXISTS"
    | Aborted => "CONFLICT"
    | _ => "INTERNAL_ERROR"
    end in
  if bool_decide (c = FailedPrecondition) then
    match strings_Index msg ": " with
    | Some i => if Nat.ltb 0 i && isBusinessCode (str_take i msg) then str_take i msg else by_code
    | None => by_code
    end
  else by_code.

Section Respond.
Context `{Unicode} `{GrpcLib}.

Definition stripCodePrefix (msg : string) : string :=
  match strings_Index msg ": " with
  | Some i => if Nat.ltb 0 i && isBusinessCode (str_take i msg) then TrimSpace (str_drop (i + 2) msg) else msg
  | None => msg
  end.

Definition mapGRPCError (c : Ctx) (err : error) : Response :=
  let de := FromGRPC err in
  if negb (bool_decide (Code de = CodeInternal)) then
    let code := Code de in
    if bool_decide (code = CodeValidation) then writeError c 400 code (Message de)
    else if bool_decide (code = CodeNotFound) then writeError c 404 code (Message de)
    else if bool_decide (code ∈ [CodeAlreadyExists; CodeDuplicateIdempotency]) then writeError c 409 code (Message de)
    else if bool_decide (code ∈ [CodeConsentLimitExceeded; CodeConsentExpired; CodeConsentRevoked; CodeConsentInactive;
              CodeRiskDeclined; CodeBankRejected; CodeMerchantSuspended; CodeConflict])
         then writeError c 422 code (Message de)
    else if bool_decide (code = CodeBankUnavailable) then writeError c 503 code (Message de)
    else writeError c 500 code (Message de)
  else
    match status_FromError err with
    | None => writeError c 500 "INTERNAL_ERROR" "unexpected error"
    | Some st =>
        let msg := st_Message st in
        let code := grpcBusinessCode (st_Code st) msg in
        match st_Code st with
        | InvalidArgument => writeError c 400 code msg
        | NotFound => writeError c 404 code msg
        | AlreadyExists => writeError c 409 code msg
        | FailedPrecondition => writeError c 422 code (stripCodePrefix msg)
        | Unauthenticated => writeError c 401 "UNAUTHORIZED" msg
        | PermissionDenied => writeError c 403 "FORBIDDEN" msg
        | ResourceExhausted => writeError c 429 "RATE_LIMITED" msg
        | Unavailable => writeError c 503 "SERVICE_UNAVAILABLE" msg
        | Aborted => writeError c 409 code msg
        | _ => writeError c 500 "INTERNAL_ERROR" msg
        end
    end.
End Respond.

(* ------------------------------------------------------------------ *)
(** ** Conversions ([convert.go]) *)

Definition moneyToProto (m : PMoney) : PMoney := m.
Definition moneyFromProto (m : option PMoney) : PMoney := match m with None => MkPMoney 0 "" | Some m => m end.

Definition tsString (ts : option Z) : string :=
  match ts with None => "" | Some t => if IsZero t then "" else Format_RFC3339 t end.

(** [(nil, nil)] for an empty text, else a timestamp or an error; the two layouts
read the same texts. *)
Definition parseTime (s : string) : option (option Z) :=
  if is_empty s then Some None
  else match Parse_RFC3339 s with
       | Some t => Some (Some t)
       | None => match Parse_RFC3339 s with Some t => Some (Some t) | None => None end
       end.

Definition merchantFromProto (m : option Merchant) : MerchantResponse :=
  match m with
  | None => MkMerchantResponse "" "" "" "" "" "" ""
  | Some m => MkMerchantResponse (mp_id m) (mp_name m) (mp_kyb_status m) (mp_status m) (mp_webhook_url m)
                (tsString (Some (mp_created_at m))) (tsString (Some (mp_updated_at m)))
  end.

(** [s.String()] of a value outside the cases is its name in the schema or its
number. *)
Definition consentStatusString (s : ConsentStatus) : string :=
  match s with
  | ConsentStatus_PENDING => "PENDING"
  | ConsentStatus_ACTIVE => "ACTIVE"
  | ConsentStatus_REVOKED => "REVOKED"
  | ConsentStatus_EXPIRED => "EXPIRED"
  | CONSENT_STATUS_UNSPECIFIED => "CONSENT_STATUS_UNSPECIFIED"
  | ConsentStatus_other n => itoa n
  end.

Definition parseConsentStatus `{Unicode} (s : string) : ConsentStatus :=
  let u := ToUpper (TrimSpace s) in
  if bool_decide (u = "PENDING") then ConsentStatus_PENDING
  else if bool_decide (u = "ACTIVE") then ConsentStatus_ACTIVE
  else if bool_decide (u = "REVOKED") then ConsentStatus_REVOKED
  else if bool_decide (u = "EXPIRED") then ConsentStatus_EXPIRED
  else CONSENT_STATUS_UNSPECIFIED.

Definition consentFromProto (c : Consent) : ConsentResponse := {|
  cr_ID := cn_id c; cr_MerchantID := cn_merchant_id c; cr_ConsumerID := cn_consumer_id c; cr_BankConsentRef := cn_bank_consent_ref c;
  cr_Status := consentStatusString (cn_status c);
  cr_MaxPerTransaction := moneyFromProto (Some (cn_max_per_transaction c)); cr_MaxPerMonth := moneyFromProto (Some (cn_max_per_month c));
  cr_ValidFrom := tsString (Some (cn_valid_from c)); cr_ValidUntil := tsString (Some (cn_valid_until c));
  cr_CreatedAt := tsString (Some (cn_created_at c)); cr_UpdatedAt := tsString (Some (cn_updated_at c)) |}.

Definition paymentStatusString (s : PaymentStatus) : string :=
  match s with
  | PS_INITIATED => "INITIATED"
  | PS_CONSENT_RESERVED => "CONSENT_RESERVED"
  | PS_RISK_PASSED => "RISK_PASSED"
  | PS_AUTHORISING => "AUTHORISING"
  | PS_SETTLED => "SETTLED"
  | PS_FAILED => "FAILED"
  | PS_MANUAL_REVIEW => "MANUAL_REVIEW"
  | PAYMENT_STATUS_UNSPECIFIED => "PAYMENT_STATUS_UNSPECIFIED"
  | PS_other n => itoa n
  end.

Definition paymentFromProto (p : PPayment) : PaymentResponse := {|
  pr_ID := pp_id p; pr_IdempotencyKey := pp_idempotency_key p; pr_MerchantID := pp_merchant_id p; pr_ConsentID := pp_consent_id p;
  pr_ConsumerID := pp_consumer_id p; pr_Amount := moneyFromProto (Some (pp_amount p)); pr_Status := paymentStatusString (pp_status p);
  pr_BankPaymentRef := pp_bank_payment_ref p; pr_RiskScore := pp_risk_score p; pr_RiskDecision := pp_risk_decision p;
  pr_FailureReason := pp_failure_reason p; pr_Description := pp_description p; pr_InitiatedAt := tsString (Some (pp_initiated_at p));
  pr_SettledAt := tsString (pp_settled_at p); pr_UpdatedAt := tsString (Some (pp_updated_at p)) |}.
