(* ===== verification/GatewayHandlers.v ===== *)
(** * The handlers, middleware and routes of the gateway
([services/gateway/internal/httpapi/handlers.go], [middleware.go], [router.go]). *)
From S2P Require Import Prelude GoStrings DomainErr World Proto Redis Idempotency GoTime GoJson Auth RateLimit Gateway.
Local Open Scope Z_scope.
Local Open Scope go_scope.

Section Gateway.
Context {R B : Type} `{Redis R} `{Unicode} `{GrpcLib} `{JwtLib}.
Context `{MerchantClient B} `{ConsentClient B} `{PaymentClient B}.
Abbreviation St := (world (Gw R B)).

Definition on_backend {A} (m : M (world B) A) : M St A := within g_backend (fun b s => MkGw (g_redis s) b) m.
Definition on_redis {A} (m : M (world (option R)) A) : M St A := within g_redis (fun r s => MkGw r (g_backend s)) m.

Definition Handler : Type := Ctx -> Request -> M St Response.

(** Answer a call: the error as [mapGRPCError] puts it, or what [f] makes of the
value. *)
Definition reply {A} (c : Ctx) (call : M (world B) (result error A)) (f : A -> M St Response) : M St Response :=
  r <- on_backend call ;;
  match r with
  | Err err => gret (mapGRPCError c err)
  | Ok a => f a
  end.

Definition bad_request (c : Ctx) (msg : string) : M St Response := gret (writeError c 400 "VALIDATION_ERROR" msg).

(** Decode the body, or answer 400. *)
Definition with_body {T} (c : Ctx) (d : bool * T) (k : T -> M St Response) : M St Response :=
  if d.1 then bad_request c "invalid JSON body" else k d.2.

(* ------------------------------------------------------------------ *)
(** ** Handlers *)

Definition IssueToken (tokens : TokenService) : Handler := fun c r =>
  with_body c (dec_TokenRequest (rq_body r)) (fun req =>
    if is_empty (TrimSpace (tq_APIKey req)) then bad_request c "api_key is required"
    else reply c (mc_GetMerchantByApiKey (tq_APIKey req)) (fun m =>
      if bool_decide (mp_status m = "SUSPENDED")
      then gret (writeError c 403 "MERCHANT_SUSPENDED" "merchant is suspended")
      else
        t <- Issue tokens (mp_id m) ;;
        match t with
        | Err _ => gret (writeError c 500 "INTERNAL_ERROR" "failed to issue token")
        | Ok (token, exp) =>
            gret (writeJSON 200 [] (TokenResponse_json (MkTokenResponse token (Format_RFC3339 exp))))
        end)).

Definition RegisterMerchant : Handler := fun c r =>
  with_body c (dec_RegisterMerchant (rq_body r)) (fun req =>
    if is_empty (TrimSpace (hm_Name req)) || is_empty (TrimSpace (hm_WebhookURL req))
       || is_empty (TrimSpace (hm_ContactEmail req))
    then bad_request c "name, webhook_url, and contact_email are required"
    else reply c (mc_RegisterMerchant (MkRegisterMerchantRequest (hm_Name req) (hm_WebhookURL req) (hm_ContactEmail req)))
      (fun resp => gret (writeJSON 201 [] (HttpMerchantCreated_json
        (MkHttpMerchantCreated (merchantFromProto (Some (rms_merchant resp))) (rms_api_key resp)))))).

Definition GetMerchant (id : string) : Handler := fun c r =>
  if negb (bool_decide (id = cx_MerchantID c)) then gret (writeError c 403 "FORBIDDEN" "cannot access another merchant")
  else reply c (mc_GetMerchant id) (fun m => gret (writeJSON 200 [] (MerchantResponse_json (merchantFromProto (Some m))))).

Definition CreateConsent : Handler := fun c r =>
  with_body c (dec_CreateConsent (rq_body r)) (fun req =>
    if is_empty (hc_ConsumerID req) || is_empty (hc_BankConsentRef req)
    then bad_request c "consumer_id and bank_consent_ref are required"
    else if (pm_amount_pence (hc_MaxPerTransaction req) <=? 0) || (pm_amount_pence (hc_MaxPerMonth req) <=? 0)
    then bad_request c "max_per_transaction and max_per_month must be positive"
    else match parseTime (hc_ValidUntil req) with
         | None | Some None => bad_request c "valid_until must be RFC3339 timestamp"
         | Some (Some validUntil) =>
             reply c (cc_CreateConsent (MkCreateConsentRequest (cx_MerchantID c) (hc_ConsumerID req) (hc_BankConsentRef req)
                        (Some (moneyToProto (hc_MaxPerTransaction req))) (Some (moneyToProto (hc_MaxPerMonth req)))
                        (Some validUntil)))
               (fun consent => gret (writeJSON 201 [] (ConsentResponse_json (consentFromProto consent))))
         end).

Definition GetConsent (id : string) : Handler := fun c r =>
  reply c (cc_GetConsent id (cx_MerchantID c)) (fun consent => gret (writeJSON 200 [] (ConsentResponse_json (consentFromProto consent)))).

(** The body is optional: a decoding error is ignored. *)
Definition RevokeConsent (id : string) : Handler := fun c r =>
  let req := snd (dec_RevokeConsent (rq_body r)) in
  let reason := if is_empty (hv_Reason req) then "MERCHANT_REQUEST" else hv_Reason req in
  reply c (cc_RevokeConsent id (cx_MerchantID c) reason) (fun consent => gret (writeJSON 200 [] (ConsentResponse_json (consentFromProto consent)))).

(** The page size of the query: 20 when absent, an error outside 1 to 100. *)
Definition page_size (v : string) : option Z :=
  if is_empty v then Some 20
  else match Atoi v with
       | Some n => if (n <=? 0) || (100 <? n) then None else Some n
       | None => None
       end.

Definition ListConsents : Handler := fun c r =>
  let consumerID := rq_query r "consumer_id" in
  if is_empty consumerID then bad_request c "consumer_id query param is required"
  else match page_size (rq_query r "page_size") with
       | None => bad_request c "page_size must be 1-100"
       | Some pageSize =>
           reply c (cc_ListConsents (MkListConsentsRequest consumerID (cx_MerchantID c)
                      (parseConsentStatus (rq_query r "status"))
                      (Some (MkPageRequest (int32 pageSize) (rq_query r "page_token")))))
             (fun resp => gret (writeJSON 200 [] (HttpConsents_json (MkHttpConsents
                (map consentFromProto (lcs_consents resp)) (lcs_next_page_token resp) (lcs_total_count resp)))))
       end.

Definition InitiatePayment : Handler := fun c r =>
  let idemKey := TrimSpace (rq_header r "Idempotency-Key") in
  if is_empty idemKey then bad_request c "Idempotency-Key header is required"
  else if 128 <? str_len idemKey then bad_request c "Idempotency-Key max length is 128"
  else with_body c (dec_InitiatePayment (rq_body r)) (fun req =>
    if is_empty (hp_ConsentID req) then bad_request c "consent_id is required"
    else if (pm_amount_pence (hp_Amount req) <=? 0) || is_empty (pm_currency (hp_Amount req))
    then bad_request c "amount.amount_pence and amount.currency are required"
    else reply c (pc_InitiatePayment (MkInitiatePaymentRequest idemKey (cx_MerchantID c) (hp_ConsentID req)
                    (Some (moneyToProto (hp_Amount req))) (hp_Description req)))
      (fun p =>
        let body := PaymentResponse_json (paymentFromProto p) in
        gret (match pp_status p with
              | PS_SETTLED => writeJSON 201 [] body
              | PS_FAILED => writeJSON 422 [] body
              | _ => writeJSON 202 [("Location", "/v1/payments/" +:+ pp_id p); ("Retry-After", "2")] body
              end))).

Definition GetPayment (id : string) : Handler := fun c r =>
  reply c (pc_GetPayment (MkGetPaymentRequest id (cx_MerchantID c))) (fun p => gret (writeJSON 200 [] (PaymentResponse_json (paymentFromProto p)))).

Definition RetryPayment (id : string) : Handler := fun c r =>
  reply c (pc_RetryPayment (MkGetPaymentRequest id (cx_MerchantID c))) (fun p =>
    let body := PaymentResponse_json (paymentFromProto p) in
    gret (match pp_status p with
          | PS_SETTLED => writeJSON 200 [] body
          | PS_FAILED => writeJSON 422 [] body
          | _ => writeJSON 202 [] body
          end)).

Definition Live : Handler := fun _ _ => gret (writeJSON 200 [] (VObj [("status", VStr "ok")])).
Definition Ready : Handler := fun _ _ => gret (writeJSON 200 [] (VObj [("status", VStr "ready")])).

(* ------------------------------------------------------------------ *)
(** ** Middleware *)

(** The response carries the request's identifier, its own or a new one. *)
Definition RequestIDMiddleware (next : Handler) : Handler := fun c r =>
  id <- (if is_empty (rq_header r "X-Request-Id") then uuid_New else gret (rq_header r "X-Request-Id")) ;;
  resp <- next (MkCtx id (cx_MerchantID c)) r ;;
  gret (MkResponse (rs_status resp) (("X-Request-Id", id) :: rs_headers resp) (rs_body resp)).

Definition unauthorized (c : Ctx) (msg : string) : M St Response := gret (writeError c 401 "UNAUTHORIZED" msg).

Definition AuthMiddleware (tokens : TokenService) (next : Handler) : Handler := fun c r =>
  let h := rq_header r "Authorization" in
  if is_empty h || negb (strings_HasPrefix (ToLower h) "bearer ")
  then unauthorized c "missing or invalid Authorization header"
  else
    let raw := TrimSpace (str_drop 7 h) in
    if is_empty raw then unauthorized c "missing bearer token"
    else
      claims <- Parse tokens raw ;;
      match claims with
      | Err _ => unauthorized c "invalid token"
      | Ok claims =>
          if is_empty (cl_MerchantID claims) then unauthorized c "token missing merchant_id"
          else next (MkCtx (cx_RequestID c) (cl_MerchantID claims)) r
      end.

Definition rate_limited (c : Ctx) : Response :=
  let e := writeError c 429 "RATE_LIMITED" "rate limit exceeded" in
  MkResponse (rs_status e) (("Retry-After", "1") :: rs_headers e) (rs_body e).

Definition with_rate_limit (limitPerSec : Z) (next : Handler) : Handler := fun c r =>
  ok <- on_redis (RateLimitMiddleware (limit_of limitPerSec) (cx_MerchantID c)) ;;
  if ok : bool then next c r else gret (rate_limited c).

(* ------------------------------------------------------------------ *)
(** ** Routes *)

Inductive Route :=
| PostToken | PostMerchants | GetLive | GetReady
| GetMerchantRoute (id : string)
| PostConsents | GetConsents | GetConsentRoute (id : string) | DeleteConsent (id : string)
| PostPayments | GetPaymentRoute (id : string) | PostRetry (id : string).

Record RouterDeps := MkRouterDeps { rd_Tokens : TokenService; rd_RateLimitRPS : Z }.

(** The handler of a route, and whether it is in the authenticated group. *)
Definition route_handler (d : RouterDeps) (rt : Route) : bool * Handler :=
  match rt with
  | GetLive => (false, Live)
  | GetReady => (false, Ready)
  | PostToken => (false, IssueToken (rd_Tokens d))
  | PostMerchants => (false, RegisterMerchant)
  | GetMerchantRoute id => (true, GetMerchant id)
  | PostConsents => (true, CreateConsent)
  | GetConsents => (true, ListConsents)
  | GetConsentRoute id => (true, GetConsent id)
  | DeleteConsent id => (true, RevokeConsent id)
  | PostPayments => (true, InitiatePayment)
  | GetPaymentRoute id => (true, GetPayment id)
  | PostRetry id => (true, RetryPayment id)
  end.

Definition NewRouter (d : RouterDeps) (rt : Route) (r : Request) : M St Response :=
  let '(authenticated, h) := route_handler d rt in
  RequestIDMiddleware
    (if authenticated then AuthMiddleware (rd_Tokens d) (with_rate_limit (rd_RateLimitRPS d) h) else h)
    (MkCtx "" "") r.
End Gateway.
