(* ===== verification/GatewayAuth.v ===== *)
(** * What a request of the authenticated group goes through: the request's
identifier, the bearer token and the limiter, before its handler runs in the name
of the merchant of the token. *)
From S2P Require Import Prelude GoStrings Utf8 DomainErr World Advance Proto Redis Idempotency GoTime GoJson Auth RateLimit Gateway GatewayHandlers.
From Stdlib Require Import Ascii.
Local Open Scope Z_scope.
Local Open Scope go_scope.

Section Bearer.
Context `{Unicode}.

Lemma ToLower_ascii c s : (byte_of c <? 128) = true ->
  ToLower (String c s) = String (ascii_of (unicode_ToLower (byte_of c))) (ToLower s).
Proof.
  intros Hc. unfold ToLower, strings_Map, runes. cbn [String.list_ascii_of_string runes_from].
  unfold decode_rune at 1. change 0x80 with 128. rewrite Hc. cbn [take map concat fst Nat.sub].
  pose proof (byte_range c). rewrite encode_rune_ascii; [done|].
  unfold unicode_ToLower. change 0x80 with 128. rewrite Hc. apply Z.ltb_lt in Hc. destruct (_ && _) eqn:Hu; [|lia].
  apply andb_true_iff in Hu as [_ Hu%Z.leb_le]. lia.
Qed.

Lemma bearer_prefix t : strings_HasPrefix (ToLower ("Bearer " +:+ t)) "bearer " = true.
Proof.
  change ("Bearer " +:+ t) with (String "B" (String "e" (String "a" (String "r" (String "e" (String "r" (String " " t))))))).
  unfold strings_HasPrefix. rewrite !ToLower_ascii by reflexivity. generalize (ToLower t) as u. intros u.
  vm_compute. by destruct u.
Qed.
End Bearer.

Lemma bearer_drop t : str_drop 7 ("Bearer " +:+ t) = t.
Proof.
  change 7%nat with (String.length "Bearer "). generalize "Bearer " as c. intros c. unfold str_drop.
  induction c as [|x c IH]; [simpl; rewrite Nat.sub_0_r; apply substring_all|exact IH].
Qed.

Section Door.
Context {R B : Type} `{Redis R} `{Unicode} `{GrpcLib} `{JwtLib}.
Context `{MerchantClient B} `{ConsentClient B} `{PaymentClient B}.

(** The request carries a token of the merchant that is good now (whether or not
the gateway draws an identifier for the request first). *)
Record bearer (d : RouterDeps) (r : Request) (mid : string) (e : env) : Prop := {
  bearer_merchant : mid <> "";
  bearer_token : exists token, plain_text token /\ token <> "" /\ rq_header r "Authorization" = "Bearer " +:+ token /\
    forall e', e' = e \/ e' = bump e -> exists c,
      jwt_ParseWithClaims token (keyfunc (rd_Tokens d)) (cur_clock e') = Ok c /\ cl_MerchantID c = mid;
}.

(** The limiter has room for a request of the merchant. *)
Definition lets_through (d : RouterDeps) (mid : string) (e : env) (red : option R) : Prop := forall e', later e e' ->
  wp (RateLimitMiddleware (limit_of (rd_RateLimitRPS d)) mid) (fun ok w => ok = true /\ later e' (w_env w)) (MkWorld e' red).

Lemma no_limiter d mid e : lets_through d mid e None.
Proof. intros e' _. unfold wp, RateLimitMiddleware. simpl. split; [done|reflexivity]. Qed.

(** The handler of an authenticated route runs in the merchant's name; its answer
gets the request's identifier. *)
Lemma wp_authenticated d rt h r mid e red b (Q : Response -> world (Gw R B) -> Prop) :
  route_handler d rt = (true, h) -> bearer d r mid e -> lets_through d mid e red ->
  (forall c e' red', cx_MerchantID c = mid -> later e e' -> (red = None -> red' = None) ->
     wp (h c r) (fun resp w => forall id, Q (MkResponse (rs_status resp) (("X-Request-Id", id) :: rs_headers resp) (rs_body resp)) w)
       (MkWorld e' (MkGw red' b))) ->
  wp (NewRouter d rt r) Q (MkWorld e (MkGw red b)).
Proof.
  intros Hrt [Hmid (token & Htext & Hne & Hauth & Hparse)] Hlim Hh. unfold NewRouter. rewrite Hrt.
  assert (Hin : forall id e1, e1 = e \/ e1 = bump e -> later e e1 ->
    wp (AuthMiddleware (rd_Tokens d) (with_rate_limit (rd_RateLimitRPS d) h) (MkCtx id "") r)
      (fun resp w => forall id, Q (MkResponse (rs_status resp) (("X-Request-Id", id) :: rs_headers resp) (rs_body resp)) w)
      (MkWorld e1 (MkGw red b))).
  { intros id e1 He Hl. unfold AuthMiddleware. rewrite Hauth, bearer_prefix, bearer_drop, (TrimSpace_visible token Htext).
    rewrite (proj2 (is_empty_false token) Hne). change (is_empty ("Bearer " +:+ token)) with false. cbn [negb orb].
    destruct (Hparse e1 He) as (c & Hp & Hc). unfold Parse. wp_step. wp_step. apply wp_time_Now. cbn [w_env w_st]. wp_step.
    rewrite Hp, Hc, (proj2 (is_empty_false mid) Hmid). unfold with_rate_limit. wp_step. unfold on_redis. apply wp_within.
    cbn [cx_MerchantID g_redis]. assert (Hl2 : later e (bump e1)) by (etrans; [done|apply later_bump]).
    destruct (RateLimitMiddleware (limit_of (rd_RateLimitRPS d)) mid (MkWorld (bump e1) red)) as [ok w] eqn:Hrun.
    pose proof (Hlim (bump e1) Hl2) as Hlim'. unfold wp in Hlim'. rewrite Hrun in Hlim'. destruct Hlim' as [Hok Hl3].
    cbn [fst snd] in Hok, Hl3. subst ok. eapply run_wp. intros a w' Hrun'. rewrite Hrun in Hrun'. injection Hrun' as <- <-.
    apply Hh; [done|by etrans|]. intros ->. unfold RateLimitMiddleware in Hrun. simpl in Hrun. by injection Hrun as <-. }
  unfold RequestIDMiddleware. wp_step. destruct (is_empty _).
  - apply wp_uuid_New. cbv beta. wp_step. eapply wp_mono; [apply Hin; [by right|apply later_bump]|]. intros resp w' Hw. by wp_step.
  - wp_step. wp_step. eapply wp_mono; [apply Hin; [by left|reflexivity]|]. intros resp w' Hw. by wp_step.
Qed.

(** A call of a service and what becomes of its answer. *)
Lemma wp_reply {A} c (call : M (world B) (result error A)) f e red b (Q : Response -> world (Gw R B) -> Prop) :
  wp call (fun a w => match a with
    | Err err => Q (mapGRPCError c err) (MkWorld (w_env w) (MkGw red (w_st w)))
    | Ok a => wp (f a) Q (MkWorld (w_env w) (MkGw red (w_st w)))
    end) (MkWorld e b) ->
  wp (reply c call f) Q (MkWorld e (MkGw red b)).
Proof.
  intros Hcall. unfold reply. wp_step. unfold on_backend. apply wp_within. eapply wp_mono; [exact Hcall|].
  intros [a|err] w Hw; [exact Hw|by wp_step].
Qed.
End Door.

(** A merchant of whom no window has seen a request is let through. *)
Lemma first_request_passes {R} `{RedisLaws R} d mid e r :
  calm e -> (forall w t, count r t (ratelimit_key mid w) = 0) -> lets_through d mid e (Some r).
Proof.
  intros Hc Hzero e' Hl. apply (later_calm _ _ Hl) in Hc. unfold wp, RateLimitMiddleware. cbn [w_st w_env].
  destruct (is_empty mid); [by split|]. unfold time_Now. cbn [w_env w_st]. unfold exec, cur_fault. cbn [w_env w_st].
  rewrite (calm_now (bump e')) by done. set (key := ratelimit_key mid _). unfold rateLimitLua.
  pose proof (Incr_law key (cur_clock (bump e')) (cur_uuid (bump e')) r) as Hi.
  assert (Hz : count r (cur_clock (bump e')) key = 0) by apply Hzero. rewrite Hz in Hi.
  destruct (r_Incr _ _ _ r) as [a r1]. destruct Hi as (-> & _). change (0 + 1 =? 1) with true. cbv iota.
  pose proof (Expire_law key (2 * second) (cur_clock (bump e')) (cur_uuid (bump e')) r1) as Hx.
  destruct (r_Expire _ _ _ _ r1) as [a r2]. destruct Hx as (-> & _). cbn [fst snd w_env].
  split; [|etrans; apply later_bump]. unfold limit_of. destruct (Z.leb_spec (rd_RateLimitRPS d) 0); [done|].
  by destruct (Z.ltb_spec (rd_RateLimitRPS d) (0 + 1)); [lia|].
Qed.
