(* ===== verification/GatewayProps.v ===== *)
(** * Properties of the gateway. *)
From S2P Require Import Prelude GoStrings DomainErr World Proto Redis Idempotency GoTime GoJson Auth RateLimit Gateway GatewayHandlers.
From Stdlib Require Import Ascii.
Local Open Scope Z_scope.
Local Open Scope go_scope.

(* ------------------------------------------------------------------ *)
(** ** Errors *)

Section Errors.
Context `{Unicode} `{GrpcLib}.

(** The HTTP status of each platform code. *)
Definition http_status (code : string) : Z :=
  if bool_decide (code = CodeValidation) then 400
  else if bool_decide (code = CodeNotFound) then 404
  else if bool_decide (code ∈ [CodeAlreadyExists; CodeDuplicateIdempotency]) then 409
  else if bool_decide (code = CodeBankUnavailable) then 503
  else if bool_decide (code = CodeInternal) then 500
  else 422.

Lemma isBusinessCode_known s : isBusinessCode s = isKnownCode s.
Proof. reflexivity. Qed.

(** What becomes of an error of a service. *)
Lemma mapped_error c code msg cause :
  isKnownCode code = true -> plain_message msg ->
  mapGRPCError c (ToGRPC (DomainError code msg cause)) =
  writeError c (http_status code) (if bool_decide (code = CodeDuplicateIdempotency) then CodeAlreadyExists else code) msg.
Proof.
  intros Hc Hm. unfold mapGRPCError. rewrite (FromGRPC_ToGRPC code msg cause Hc Hm). cbn [Code Message].
  revert code Hc. apply known_cases; try reflexivity. repeat constructor.
Qed.

(** C26.  An error of a service reaches the API's caller with its code and message:
whatever known code a service answers with, [ToGRPC] on its side and
[mapGRPCError] on the gateway's make of it the HTTP status of the code, and a
body with the code and the message (a duplicate idempotency key is shown as
ALREADY_EXISTS). *)
Theorem error_reaches_caller c code msg cause :
  isKnownCode code = true -> plain_message msg ->
  mapGRPCError c (ToGRPC (DomainError code msg cause)) =
  writeError c (http_status code) (if bool_decide (code = CodeDuplicateIdempotency) then CodeAlreadyExists else code) msg.
Proof. apply mapped_error. Qed.
End Errors.

(* ------------------------------------------------------------------ *)
(** ** Timestamps *)

(** A timestamp the API shows can be sent back: for years 0 to 9999,
[parseTime] reads what [tsString] wrote as the same second, and the zero time,
which is shown as nothing, as no timestamp. *)
Theorem timestamp_roundtrip t : 0 <= year_of t <= 9999 ->
  parseTime (tsString (Some t)) = Some (if IsZero t then None else Some (t / second * second)).
Proof.
  intros Hy. unfold tsString. destruct (IsZero t) eqn:Hz; [done|].
  unfold parseTime. pose proof (format_parse false t Hy) as Hp. unfold Format_RFC3339.
  destruct (is_empty (format_with false t)) eqn:He; [|by rewrite Hp].
  apply is_empty_true in He. by rewrite He in Hp.
Qed.

Lemma timestamp_roundtrip_witness :
  parseTime (tsString (Some 951827696120000000)) = Some (Some 951827696000000000).
Proof. apply (timestamp_roundtrip 951827696120000000). vm_compute. split; discriminate. Defined.

Lemma consent_status_roundtrip `{Unicode} s : (forall n, s <> ConsentStatus_other n) ->
  parseConsentStatus (consentStatusString s) = s.
Proof. intros Ho. destruct s as [| | | | |n]; try reflexivity. by destruct (Ho n). Qed.

(* ------------------------------------------------------------------ *)
(** ** The shape of responses *)

Section Shape.
Context {R B : Type} `{Redis R} `{Unicode} `{GrpcLib} `{JwtLib}.
Context `{MerchantClient B} `{ConsentClient B} `{PaymentClient B}.
Abbreviation Store := (Gw R B).

Definition success_codes : list Z := [200; 201; 202].
Definition error_codes : list Z := [400; 401; 403; 404; 409; 422; 429; 500; 503].

(** A response of the API: JSON, with a success status or 422 and a resource, or
with an error status and an error body that names the request. *)
Definition api_response (requestID : string) (resp : Response) : Prop :=
  ("Content-Type", "application/json") ∈ rs_headers resp /\
  ((rs_status resp ∈ 422 :: success_codes /\ exists ms, rs_body resp = VObj ms) \/
   (rs_status resp ∈ error_codes /\ exists code msg, rs_body resp = error_body code msg requestID)).

Lemma error_response c status code msg : status ∈ error_codes ->
  api_response (cx_RequestID c) (writeError c status code msg).
Proof.
  intros Hs. split; [by left|]. right. split; [done|]. by exists code, msg.
Qed.

Lemma resource_response id status headers ms : status ∈ 422 :: success_codes ->
  api_response id (writeJSON status headers (VObj ms)).
Proof.
  intros Hs. split; [apply elem_of_app; right; by left|]. left. split; [done|]. by exists ms.
Qed.

Ltac member := by (apply (bool_decide_unpack _); vm_compute).
Ltac respond := first [apply error_response; member | apply resource_response; member].

Lemma mapped_response c err : api_response (cx_RequestID c) (mapGRPCError c err).
Proof.
  unfold mapGRPCError. cbv zeta. destruct (negb _); [by repeat (case_bool_decide; [respond|]); respond|].
  destruct (status_FromError err) as [st|]; [|respond]. destruct (st_Code st); respond.
Qed.

Definition responds (c : Ctx) (m : M (world Store) Response) : Prop :=
  forall w, wp m (fun resp _ => api_response (cx_RequestID c) resp) w.

Lemma responds_ret c resp : api_response (cx_RequestID c) resp -> responds c (gret resp).
Proof. by intros Hr w. Qed.
Lemma responds_bind {A} c (m : M (world Store) A) k : (forall a, responds c (k a)) -> responds c (gbind m k).
Proof. intros Hk w. apply wp_bind, run_wp. intros a w' _. apply Hk. Qed.
Lemma responds_reply {A} c (call : M (world B) (result error A)) f :
  (forall a, responds c (f a)) -> responds c (reply c call f).
Proof.
  intros Hf. apply responds_bind. intros [a|err]; [apply Hf|]. apply responds_ret, mapped_response.
Qed.
Lemma responds_body {T} c (d : bool * T) k : (forall t, responds c (k t)) -> responds c (with_body c d k).
Proof. intros Hk. unfold with_body. destruct (d.1); [|apply Hk]. apply responds_ret. respond. Qed.

Ltac responds_step :=
  lazymatch goal with
  | |- responds _ (bad_request _ _) => apply responds_ret; respond
  | |- responds _ (unauthorized _ _) => apply responds_ret; respond
  | |- responds _ (with_body _ _ _) => apply responds_body; intros ?
  | |- responds _ (reply _ _ _) => apply responds_reply; intros ?
  | |- responds _ (gret (match ?x with _ => _ end)) => destruct x
  | |- responds _ (gret _) => apply responds_ret; respond
  | |- responds _ (gbind _ _) => apply responds_bind; intros ?
  | |- responds _ (match ?x with _ => _ end) => destruct x
  | |- responds _ (let _ := _ in _) => cbv zeta
  end.

Lemma handler_responds d rt c r : responds c (snd (route_handler d rt) c r).
Proof.
  destruct rt; cbn [route_handler snd];
    unfold IssueToken, RegisterMerchant, GetMerchant, CreateConsent, GetConsent, RevokeConsent, ListConsents,
      InitiatePayment, GetPayment, RetryPayment, Live, Ready; repeat responds_step.
Qed.

Lemma auth_responds tokens next c r :
  (forall mid, responds (MkCtx (cx_RequestID c) mid) (next (MkCtx (cx_RequestID c) mid) r)) ->
  responds c (AuthMiddleware tokens next c r).
Proof.
  intros Hnext. unfold AuthMiddleware. repeat responds_step. exact (Hnext (cl_MerchantID _)).
Qed.

Lemma limit_responds n next c r : responds c (next c r) -> responds c (with_rate_limit n next c r).
Proof.
  intros Hnext. unfold with_rate_limit. apply responds_bind. intros []; [done|]. apply responds_ret.
  split; [right; by left|]. right. split; [member|]. by eexists _, _.
Qed.

(** C23.  Every response of the API is well formed, whatever the services, Redis and
the request's body decode to: it is JSON, it names the request (by the caller's
X-Request-Id, or a fresh one, in the header), and it is either a resource with
200, 201, 202 or 422, or an error status with a body made of a code, a message and
the request's identifier. *)
Theorem response_well_formed d rt r e (s : Store) :
  let '(resp, _) := NewRouter d rt r (MkWorld e s) in
  let id := if is_empty (rq_header r "X-Request-Id") then cur_uuid e else rq_header r "X-Request-Id" in
  head (rs_headers resp) = Some ("X-Request-Id", id) /\ api_response id resp.
Proof.
  destruct (NewRouter d rt r (MkWorld e s)) as [resp w'] eqn:Hrun. revert Hrun.
  unfold NewRouter. destruct (route_handler d rt) as [auth h] eqn:Hrt.
  set (inner := if auth then _ else h). cbv zeta.
  assert (Hinner : forall id, responds (MkCtx id "") (inner (MkCtx id "") r)).
  { intros id. pose proof (handler_responds d rt) as Hh. rewrite Hrt in Hh. simpl in Hh.
    unfold inner. destruct auth; [|apply Hh]. apply auth_responds. intros mid. apply limit_responds, Hh. }
  unfold RequestIDMiddleware. intros Hrun.
  refine (wp_run _ (fun resp _ => head (rs_headers resp) = Some ("X-Request-Id", _) /\ api_response _ resp) _ _ _ Hrun _).
  wp_step. assert (Hid : forall id w, wp (resp <- inner (MkCtx id "") r ;;
    gret (MkResponse (rs_status resp) (("X-Request-Id", id) :: rs_headers resp) (rs_body resp)))
    (fun resp _ => head (rs_headers resp) = Some ("X-Request-Id", id) /\ api_response id resp) w).
  { intros id w. wp_step. eapply wp_mono; [apply (Hinner id)|]. intros resp0 w0 [Hct Hbody]. wp_step.
    split; [done|]. split; [by right|done]. }
  destruct (is_empty _).
  - apply wp_uuid_New. apply Hid.
  - wp_step. apply Hid.
Qed.
End Shape.

Lemma error_reaches_caller_witness :
  @mapGRPCError ascii_tables simple_grpc (MkCtx "req1" "m1") (@ToGRPC simple_grpc (DomainError CodeConsentRevoked "consent is revoked" None)) =
  writeError (MkCtx "req1" "m1") 422 "CONSENT_REVOKED" "consent is revoked".
Proof.
  apply (@error_reaches_caller ascii_tables simple_grpc (MkCtx "req1" "m1") CodeConsentRevoked "consent is revoked" None); [reflexivity|].
  intros i Hi. vm_compute in Hi. discriminate.
Defined.
