(* ===== verification/GatewayCalls.v ===== *)
(** * The calls the gateway makes.

[Logged] puts a log of the calls around the services; the instances of the three
clients record each call and pass it on.  The theorems say which calls a request
can cause: at most one, checked, and in the name of the merchant whose token it
carries. *)
From S2P Require Import Prelude GoStrings DomainErr World Proto Redis Idempotency GoTime GoJson Auth RateLimit Gateway GatewayHandlers.
From Stdlib Require Import Ascii.
Local Open Scope Z_scope.
Local Open Scope go_scope.

Inductive call : Type :=
| CByApiKey (key : string)
| CRegister (req : RegisterMerchantRequest)
| CGetMerchant (id : string)
| CCreateConsent (req : CreateConsentRequest)
| CGetConsent (id merchantID : string)
| CRevokeConsent (id merchantID reason : string)
| CListConsents (req : ListConsentsRequest)
| CInitiate (req : InitiatePaymentRequest)
| CGetPayment (req : GetPaymentRequest)
| CRetry (req : GetPaymentRequest).

Record Logged (B : Type) := MkLogged { lg_backend : B; lg_calls : list call }.
Arguments MkLogged {B}.
Arguments lg_backend {B}.
Arguments lg_calls {B}.

(** The merchant a call acts for; none for the two public calls. *)
Definition call_merchant (c : call) : option string :=
  match c with
  | CByApiKey _ | CRegister _ => None
  | CGetMerchant id => Some id
  | CCreateConsent req => Some (ccr_merchant_id req)
  | CGetConsent _ mid | CRevokeConsent _ mid _ => Some mid
  | CListConsents req => Some (lcr_merchant_id req)
  | CInitiate req => Some (ipr_merchant_id req)
  | CGetPayment req | CRetry req => Some (gp_merchant_id req)
  end.

(** What the gateway has checked about the arguments. *)
Definition positive_money (m : option PMoney) : Prop := exists a, m = Some a /\ 0 < pm_amount_pence a.
Definition checked (c : call) : Prop :=
  match c with
  | CCreateConsent req => ccr_consumer_id req <> "" /\ ccr_bank_consent_ref req <> "" /\
      positive_money (ccr_max_per_transaction req) /\ positive_money (ccr_max_per_month req) /\ is_Some (ccr_valid_until req)
  | CListConsents req => lcr_consumer_id req <> "" /\ exists p, lcr_page req = Some p /\ 1 <= pg_page_size p <= 100
  | CInitiate req => ipr_idempotency_key req <> "" /\ str_len (ipr_idempotency_key req) <= 128 /\
      ipr_consent_id req <> "" /\ positive_money (ipr_amount req)
  | CRevokeConsent _ _ reason => reason <> ""
  | _ => True
  end.

Section Calls.
Context {R B : Type} `{Redis R} `{Unicode} `{GrpcLib} `{JwtLib}.
Context `{MerchantClient B} `{ConsentClient B} `{PaymentClient B}.

Definition log {A} (c : call) (m : M (world B) A) : M (world (Logged B)) A := fun w =>
  let '(a, v) := m (MkWorld (w_env w) (lg_backend (w_st w))) in
  (a, MkWorld (w_env v) (MkLogged (w_st v) (lg_calls (w_st w) ++ [c]))).

#[export] Instance logged_merchant : MerchantClient (Logged B) := {|
  mc_GetMerchantByApiKey k := log (CByApiKey k) (mc_GetMerchantByApiKey k);
  mc_RegisterMerchant req := log (CRegister req) (mc_RegisterMerchant req);
  mc_GetMerchant id := log (CGetMerchant id) (mc_GetMerchant id);
|}.
#[export] Instance logged_consent : ConsentClient (Logged B) := {|
  cc_CreateConsent req := log (CCreateConsent req) (cc_CreateConsent req);
  cc_GetConsent id mid := log (CGetConsent id mid) (cc_GetConsent id mid);
  cc_RevokeConsent id mid reason := log (CRevokeConsent id mid reason) (cc_RevokeConsent id mid reason);
  cc_ListConsents req := log (CListConsents req) (cc_ListConsents req);
|}.
#[export] Instance logged_payment : PaymentClient (Logged B) := {|
  pc_InitiatePayment req := log (CInitiate req) (pc_InitiatePayment req);
  pc_GetPayment req := log (CGetPayment req) (pc_GetPayment req);
  pc_RetryPayment req := log (CRetry req) (pc_RetryPayment req);
|}.

Abbreviation Store := (Gw R (Logged B)).
Definition calls_of (s : Store) : list call := lg_calls (g_backend s).

(** [m] makes at most one call, which satisfies [P]. *)
Definition calls {A} (P : call -> Prop) (m : M (world Store) A) : Prop := forall e s,
  wp m (fun _ w' => calls_of (w_st w') = calls_of s \/ exists c, P c /\ calls_of (w_st w') = calls_of s ++ [c]) (MkWorld e s).

(** [m] makes no call. *)
Definition quiet {A} (m : M (world Store) A) : Prop := forall e s,
  wp m (fun _ w' => calls_of (w_st w') = calls_of s) (MkWorld e s).

Lemma quiet_ret {A} (a : A) : quiet (gret a).
Proof. by intros e s. Qed.
Lemma quiet_bind {A A'} (m : M (world Store) A) (k : A -> M (world Store) A') :
  quiet m -> (forall a, quiet (k a)) -> quiet (gbind m k).
Proof.
  intros Hm Hk e s. apply wp_bind. eapply wp_mono; [apply Hm|]. intros a [e1 s1] Hm1.
  eapply wp_mono; [apply Hk|]. intros a' w2 Hk2. simpl in *. by rewrite Hk2.
Qed.
Lemma quiet_time : quiet time_Now.
Proof. by intros e s. Qed.
Lemma quiet_uuid : quiet uuid_New.
Proof. by intros e s. Qed.
Lemma quiet_redis {A} (m : M (world (option R)) A) : quiet (on_redis m).
Proof. intros e s. unfold on_redis. apply wp_within. apply run_wp. by intros a w' _. Qed.

Lemma calls_quiet {A} P (m : M (world Store) A) : quiet m -> calls P m.
Proof. intros Hq e s. eapply wp_mono; [apply Hq|]. intros a w' Hw. by left. Qed.
Lemma calls_quiet_bind {A A'} P (m : M (world Store) A) (k : A -> M (world Store) A') :
  quiet m -> (forall a, calls P (k a)) -> calls P (gbind m k).
Proof.
  intros Hm Hk e s. apply wp_bind. eapply wp_mono; [apply Hm|]. intros a [e1 s1] Hm1. simpl in Hm1.
  eapply wp_mono; [apply Hk|]. intros a' w2 Hk2. simpl in Hk2. by rewrite <- Hm1.
Qed.

Lemma calls_reply {A} (P : call -> Prop) ctx c (m : M (world B) (result error A)) f : P c -> (forall a, quiet (f a)) ->
  calls P (reply ctx (log c m) f).
Proof.
  intros Hc Hf e s. unfold reply. wp_step. unfold on_backend. apply wp_within. unfold wp, log. cbn [w_env w_st].
  destruct (m _) as [r [e1 b1]]. cbn [fst snd w_env w_st].
  set (s1 := MkGw (g_redis s) (MkLogged b1 (lg_calls (g_backend s) ++ [c]))).
  change (wp (match r with Ok a => f a | Err err => gret (mapGRPCError ctx err) end)
    (fun _ w' => calls_of (w_st w') = calls_of s \/ exists c, P c /\ calls_of (w_st w') = calls_of s ++ [c]) (MkWorld e1 s1)).
  assert (Hq : quiet (match r with Ok a => f a | Err err => gret (mapGRPCError ctx err) end))
    by (destruct r; [apply Hf|apply quiet_ret]).
  eapply wp_mono; [apply Hq|]. intros resp w' Hw. right. exists c. split; [done|exact Hw].
Qed.
Lemma calls_body {T} (P : call -> Prop) c (d : bool * T) (k : T -> M (world Store) Response) :
  (forall t, calls P (k t)) -> calls P (with_body c d k).
Proof. intros Hk. unfold with_body. destruct (d.1); [|apply Hk]. apply calls_quiet, quiet_ret. Qed.

Ltac quiet_step :=
  lazymatch goal with
  | |- quiet (gret _) => apply quiet_ret
  | |- quiet (match ?x with _ => _ end) => destruct x
  | |- quiet (gbind _ _) => apply quiet_bind; [|intros ?]
  | |- quiet time_Now => apply quiet_time
  | |- quiet uuid_New => apply quiet_uuid
  | |- quiet (on_redis _) => apply quiet_redis
  | |- quiet (let _ := _ in _) => cbv zeta
  end.

Lemma quiet_Issue tokens mid : quiet (Issue tokens mid).
Proof. unfold Issue. repeat quiet_step. Qed.
Lemma quiet_Parse tokens t : quiet (Parse tokens t).
Proof. unfold Parse. repeat quiet_step. Qed.

(** The calls of the two groups of routes. *)
Definition public_call (c : call) : Prop := call_merchant c = None.
Definition own_call (mid : string) (c : call) : Prop := call_merchant c = Some mid /\ checked c.

Ltac calls_step :=
  lazymatch goal with
  | |- calls _ (bad_request _ _) => apply calls_quiet, quiet_ret
  | |- calls _ (gret _) => apply calls_quiet, quiet_ret
  | |- calls _ (with_body _ _ _) => apply calls_body; intros ?
  | |- calls _ (reply _ (log _ _) _) => apply calls_reply; [|intros ?; repeat quiet_step]
  | |- calls _ (if ?b then _ else _) => let Hb := fresh "Hb" in destruct b eqn:Hb
  | |- calls _ (match ?x with _ => _ end) => let Hb := fresh "Hb" in destruct x eqn:Hb
  | |- calls _ (let _ := _ in _) => cbv zeta
  end.

Lemma public_calls d rt c r : fst (route_handler (R := R) (B := Logged B) d rt) = false ->
  calls public_call (snd (route_handler d rt) c r).
Proof.
  destruct rt; cbn [route_handler fst snd]; try done; intros _; unfold IssueToken, RegisterMerchant, Live, Ready;
    cbn [mc_GetMerchantByApiKey mc_RegisterMerchant logged_merchant]; repeat calls_step; try done.
Qed.

Lemma page_size_range v n : page_size v = Some n -> 1 <= n <= 100.
Proof.
  unfold page_size. destruct (is_empty v); [intros [= <-]; lia|]. destruct (Atoi v) as [k|]; [|done].
  destruct (Z.leb_spec k 0), (Z.ltb_spec 100 k); simpl; intros [= <-]; lia.
Qed.

Lemma own_calls d rt c r : fst (route_handler (R := R) (B := Logged B) d rt) = true ->
  calls (own_call (cx_MerchantID c)) (snd (route_handler d rt) c r).
Proof.
  destruct rt; cbn [route_handler fst snd]; try done; intros _;
    unfold GetMerchant, CreateConsent, GetConsent, RevokeConsent, ListConsents, InitiatePayment, GetPayment, RetryPayment;
    cbn [mc_GetMerchant cc_CreateConsent cc_GetConsent cc_RevokeConsent cc_ListConsents pc_InitiatePayment pc_GetPayment
         pc_RetryPayment logged_merchant logged_consent logged_payment]; repeat calls_step; try (by split).
  - split; [|done]. simpl. f_equal. by apply negb_false_iff, bool_decide_eq_true in Hb.
  - apply orb_false_iff in Hb as [Hc1%is_empty_false Hc2%is_empty_false].
    apply orb_false_iff in Hb0 as [Hc3%Z.leb_gt Hc4%Z.leb_gt]. split; [done|]. simpl. unfold positive_money, moneyToProto.
    split_and!; eauto.
  - split; [done|]. simpl. split; [by apply is_empty_false|]. eexists. split; [done|]. simpl.
    apply page_size_range in Hb0. rewrite int32_id; lia.
  - split; [done|]. simpl. destruct (is_empty (hv_Reason _)) eqn:Hr; [done|by apply is_empty_false].
  - apply is_empty_false in Hb, Hb1. apply Z.ltb_ge in Hb0. apply orb_false_iff in Hb2 as [Hc2%Z.leb_gt _].
    split; [done|]. simpl. unfold positive_money, moneyToProto. split_and!; eauto.
Qed.

(** The bearer token of a request. *)
Definition bearer (r : Request) : string := TrimSpace (str_drop 7 (rq_header r "Authorization")).

(** The token of the request is valid at some reading of the clock, and names the
merchant. *)
Definition speaks_for (tokens : TokenService) (r : Request) (mid : string) : Prop :=
  mid <> "" /\ exists claims now, jwt_ParseWithClaims (bearer r) (keyfunc tokens) now = Ok claims /\ cl_MerchantID claims = mid.

Lemma calls_auth tokens (h : Handler (R := R) (B := Logged B)) c r :
  (forall id mid, calls (own_call mid) (h (MkCtx id mid) r)) ->
  calls (fun x => exists mid, speaks_for tokens r mid /\ own_call mid x) (AuthMiddleware tokens h c r).
Proof.
  intros Hh. unfold AuthMiddleware. repeat calls_step; try (by apply calls_quiet, quiet_ret).
  intros e s. unfold Parse. wp_step. wp_step. apply wp_time_Now. wp_step. fold (bearer r).
  destruct (jwt_ParseWithClaims _ _ _) as [claims|err] eqn:Hp; [|by left].
  wp_step; [by left|]. eapply wp_mono; [apply (Hh (cx_RequestID c) (cl_MerchantID claims))|].
  intros resp w' [Hsame|(x & Hx & Hcalls)]; [by left|]. right. exists x. split; [|done].
  exists (cl_MerchantID claims). split; [|done]. split; [by apply is_empty_false|]. by exists claims, (cur_clock e).
Qed.

Lemma calls_limit P n (h : Handler (R := R) (B := Logged B)) c r : calls P (h c r) -> calls P (with_rate_limit n h c r).
Proof.
  intros Hh. unfold with_rate_limit. apply calls_quiet_bind; [apply quiet_redis|]. intros []; [done|].
  apply calls_quiet, quiet_ret.
Qed.

Lemma calls_request_id P (h : Handler (R := R) (B := Logged B)) c r :
  (forall id, calls P (h (MkCtx id (cx_MerchantID c)) r)) -> calls P (RequestIDMiddleware h c r).
Proof.
  intros Hh. unfold RequestIDMiddleware. apply calls_quiet_bind.
  { destruct (is_empty _); [apply quiet_uuid|apply quiet_ret]. }
  intros id e s. wp_step. eapply wp_mono; [apply Hh|]. intros resp w' Hw. by wp_step.
Qed.

(** C9.  Merchants are isolated at the gateway: a request makes at most one call.
On the two public routes it is the registration or the lookup of an API key.  On
every other route a call is made only when the bearer token is valid under the
gateway's secret and names a merchant, it is in the name of that merchant, and
its arguments have been checked (identifiers present, amounts positive, an
idempotency key of 1 to 128 bytes, a page of 1 to 100).  This holds whatever the
services and Redis do. *)
Theorem tenant_isolation d rt r e (s : Store) :
  let w' := snd (NewRouter d rt r (MkWorld e s)) in
  calls_of (w_st w') = calls_of s \/
  exists c, calls_of (w_st w') = calls_of s ++ [c] /\
    match rt with
    | PostToken | PostMerchants => public_call c
    | GetLive | GetReady => False
    | _ => exists mid, speaks_for (rd_Tokens d) r mid /\ own_call mid c
    end.
Proof.
  pose (P := fun c => match rt with
    | PostToken | PostMerchants => public_call c
    | GetLive | GetReady => False
    | _ => exists mid, speaks_for (rd_Tokens d) r mid /\ own_call mid c end).
  assert (Hcalls : calls P (NewRouter d rt r)).
  { unfold NewRouter.
    pose proof (public_calls d rt) as Hpub. pose proof (own_calls d rt) as Hown.
    destruct (route_handler d rt) as [auth h] eqn:Hrt. simpl in Hpub, Hown. apply calls_request_id. intros id.
    destruct rt; cbn [route_handler] in Hrt; injection Hrt as <- <-; cbv iota;
      try (by apply Hpub); try (by apply calls_quiet, quiet_ret);
      (apply calls_auth; intros id' mid; apply calls_limit; by apply (Hown (MkCtx id' mid))). }
  destruct (Hcalls e s) as [Hsame|(c & Hc & Heq)]; [by left|]. right. by exists c.
Qed.
End Calls.
