(* ===== verification/GatewayLog.v ===== *)
(** * The request log of the gateway
([services/gateway/internal/httpapi/middleware.go], [router.go]).

[LoggerMiddleware] sits between [RequestIDMiddleware] and the other middleware.
The log is kept beside the services: [Logged B], on which the clients of [B] work
as before.  [slog.Info] has no context, so the line goes through no trace handler. *)
From S2P Require Import Prelude GoStrings DomainErr World Proto Redis Idempotency GoTime GoJson Auth RateLimit Config GrpcServer Gateway GatewayHandlers.
From Stdlib Require Import Ascii.
Local Open Scope Z_scope.
Local Open Scope go_scope.

Definition beside_log {B A} (m : M (world B) A) : M (world (Logged B)) A :=
  within lg_state (fun b l => MkLogged b (lg_lines l)) m.

#[export] Instance logged_merchants `{MerchantClient B} : MerchantClient (Logged B) := {|
  mc_GetMerchantByApiKey key := beside_log (mc_GetMerchantByApiKey key);
  mc_RegisterMerchant req := beside_log (mc_RegisterMerchant req);
  mc_GetMerchant id := beside_log (mc_GetMerchant id) |}.
#[export] Instance logged_consents `{ConsentClient B} : ConsentClient (Logged B) := {|
  cc_CreateConsent req := beside_log (cc_CreateConsent req);
  cc_GetConsent id mid := beside_log (cc_GetConsent id mid);
  cc_RevokeConsent id mid reason := beside_log (cc_RevokeConsent id mid reason);
  cc_ListConsents req := beside_log (cc_ListConsents req) |}.
#[export] Instance logged_payments `{PaymentClient B} : PaymentClient (Logged B) := {|
  pc_InitiatePayment req := beside_log (pc_InitiatePayment req);
  pc_GetPayment req := beside_log (pc_GetPayment req);
  pc_RetryPayment req := beside_log (pc_RetryPayment req) |}.

(** The method and the path of a request on a route. *)
Definition route_line (rt : Route) : string * string :=
  match rt with
  | PostToken => ("POST", "/v1/auth/token")
  | PostMerchants => ("POST", "/v1/merchants")
  | GetLive => ("GET", "/healthz/live")
  | GetReady => ("GET", "/healthz/ready")
  | GetMerchantRoute id => ("GET", "/v1/merchants/" +:+ id)
  | PostConsents => ("POST", "/v1/consents")
  | GetConsents => ("GET", "/v1/consents")
  | GetConsentRoute id => ("GET", "/v1/consents/" +:+ id)
  | DeleteConsent id => ("DELETE", "/v1/consents/" +:+ id)
  | PostPayments => ("POST", "/v1/payments")
  | GetPaymentRoute id => ("GET", "/v1/payments/" +:+ id)
  | PostRetry id => ("POST", "/v1/payments/" +:+ id +:+ "/retry")
  end.

Section Log.
Context {R B : Type} `{Redis R} `{Unicode} `{GrpcLib} `{JwtLib}.
Context `{MerchantClient B} `{ConsentClient B} `{PaymentClient B}.
Abbreviation LSt := (world (Gw R (Logged B))).
Abbreviation LHandler := (@Handler R (Logged B)).

(** [d.Milliseconds()]. *)
Definition Milliseconds (d : Z) : Z := Z.quot d millisecond.

Definition http_line (rt : Route) (status took : Z) (c : Ctx) : list (string * attr) := [
  ("method", AStr (route_line rt).1); ("path", AStr (route_line rt).2); ("status", AInt status);
  ("duration_ms", AInt (Milliseconds took)); ("request_id", AStr (cx_RequestID c)); ("merchant_id", AStr (cx_MerchantID c)) ].

(** The context of the line is that of the request as it came in. *)
Definition LoggerMiddleware (rt : Route) (next : LHandler) : LHandler := fun c r =>
  start <- time_Now ;;
  resp <- next c r ;;
  now <- time_Now ;;
  on_backend (slog_Log JSONHandler Background LevelInfo "http_request" (http_line rt (rs_status resp) (now - start) c)) ;;;
  gret resp.

(** [NewRouter] with the request log in its place. *)
Definition LoggedRouter (d : RouterDeps) (rt : Route) (r : Request) : M LSt Response :=
  let '(authenticated, h) := route_handler d rt in
  RequestIDMiddleware
    (LoggerMiddleware rt
       (if authenticated then AuthMiddleware (rd_Tokens d) (with_rate_limit (rd_RateLimitRPS d) h) else h))
    (MkCtx "" "") r.

(** The last line of the log after a request is its own, with the status and the
identifier of the response; the merchant in it is always empty, since the
authentication puts it into the context of the requests further in only. *)
Lemma request_is_logged d rt r (w : LSt) :
  let '(resp, w') := LoggedRouter d rt r w in
  exists lines took id,
    lg_lines (g_backend (w_st w')) =
      lines ++ [MkLogRecord LevelInfo "http_request" (http_line rt (rs_status resp) took (MkCtx id ""))] /\
    head (rs_headers resp) = Some ("X-Request-Id", id).
Proof.
  unfold LoggedRouter. destruct (route_handler d rt) as [auth h]. set (inner := if auth then _ else h).
  unfold RequestIDMiddleware. set (fresh := if is_empty _ then _ else _).
  unfold LoggerMiddleware, gbind, gret, time_Now. destruct (fresh w) as [id w1]. simpl.
  destruct (inner _ r _) as [resp w2]. simpl. eauto.
Qed.
End Log.
