(* ===== verification/Onboarding.v ===== *)
(** * API keys, tokens and suspension: the gateway on top of the merchant service.

[remote_merchants] is the gRPC client of the merchant service's handler, so that
[IssueToken] runs against the real lookup. *)
From S2P Require Import Prelude GoStrings DomainErr World Proto Uuid Redis Idempotency GoTime Sha256 GoJson Auth RateLimit.
From S2P Require Import MerchantRepo MerchantService MerchantHandler MerchantProps Gateway GatewayHandlers GatewayAuth GatewayCalls.
From Stdlib Require Import Ascii.
Local Open Scope Z_scope.
Local Open Scope go_scope.

Section Tokens.
Context {R B : Type} `{Redis R} `{Unicode} `{GrpcLib} `{JwtLib} `{!JwtLaws}.
Context `{MerchantClient B} `{ConsentClient B} `{PaymentClient B}.

(** The call that a request asks for, in the name of a merchant; none when it is
not well formed. *)
Definition asked (rt : Route) (mid : string) (r : Request) : option call :=
  match rt with
  | GetMerchantRoute id => if bool_decide (id = mid) then Some (CGetMerchant id) else None
  | PostConsents =>
      let '(bad, b) := dec_CreateConsent (rq_body r) in
      if bad || is_empty (hc_ConsumerID b) || is_empty (hc_BankConsentRef b)
         || (pm_amount_pence (hc_MaxPerTransaction b) <=? 0) || (pm_amount_pence (hc_MaxPerMonth b) <=? 0)
      then None
      else match parseTime (hc_ValidUntil b) with
           | Some (Some t) => Some (CCreateConsent (MkCreateConsentRequest mid (hc_ConsumerID b) (hc_BankConsentRef b)
                                (Some (hc_MaxPerTransaction b)) (Some (hc_MaxPerMonth b)) (Some t)))
           | _ => None
           end
  | GetConsents =>
      match page_size (rq_query r "page_size") with
      | Some n => if is_empty (rq_query r "consumer_id") then None
                  else Some (CListConsents (MkListConsentsRequest (rq_query r "consumer_id") mid
                         (parseConsentStatus (rq_query r "status")) (Some (MkPageRequest (int32 n) (rq_query r "page_token")))))
      | None => None
      end
  | GetConsentRoute id => Some (CGetConsent id mid)
  | DeleteConsent id =>
      let why := hv_Reason (snd (dec_RevokeConsent (rq_body r))) in
      Some (CRevokeConsent id mid (if is_empty why then "MERCHANT_REQUEST" else why))
  | PostPayments =>
      let key := TrimSpace (rq_header r "Idempotency-Key") in
      let '(bad, b) := dec_InitiatePayment (rq_body r) in
      if is_empty key || (128 <? str_len key) || bad || is_empty (hp_ConsentID b)
         || (pm_amount_pence (hp_Amount b) <=? 0) || is_empty (pm_currency (hp_Amount b))
      then None
      else Some (CInitiate (MkInitiatePaymentRequest key mid (hp_ConsentID b) (Some (hp_Amount b)) (hp_Description b)))
  | GetPaymentRoute id => Some (CGetPayment (MkGetPaymentRequest id mid))
  | PostRetry id => Some (CRetry (MkGetPaymentRequest id mid))
  | GetLive | GetReady | PostToken | PostMerchants => None
  end.

(** [m] makes the call [c], if any, and no other. *)
Definition makes {A} (c : option call) (m : M (world (Gw R (Logged B))) A) : Prop := forall e s,
  wp m (fun _ w' => calls_of (w_st w') = calls_of s ++ option_list c) (MkWorld e s).

Lemma makes_none {A} (m : M (world (Gw R (Logged B))) A) : quiet m -> makes None m.
Proof. intros Hq e s. eapply wp_mono; [apply Hq|]. intros a w' ->. by rewrite app_nil_r. Qed.

Lemma makes_reply {A} ctx c (m : M (world B) (result error A)) f : (forall a, quiet (f a)) -> makes (Some c) (reply ctx (log c m) f).
Proof.
  intros Hf e s. unfold reply. wp_step. unfold on_backend. apply wp_within. unfold wp, log. cbn [w_env w_st].
  destruct (m _) as [r [e1 b1]]. cbn [fst snd w_env w_st].
  set (s1 := MkGw (g_redis s) (MkLogged b1 (lg_calls (g_backend s) ++ [c]))).
  change (wp (match r with Ok a => f a | Err err => gret (mapGRPCError ctx err) end)
    (fun _ w' => calls_of (w_st w') = calls_of s ++ [c]) (MkWorld e1 s1)).
  destruct r; [apply Hf|apply quiet_ret].
Qed.

Lemma makes_asked d rt c r : fst (route_handler (R := R) (B := Logged B) d rt) = true ->
  makes (asked rt (cx_MerchantID c) r) (snd (route_handler d rt) c r).
Proof.
  destruct rt; cbn [route_handler fst snd]; try done; intros _;
    unfold GetMerchant, CreateConsent, GetConsent, RevokeConsent, ListConsents, InitiatePayment, GetPayment, RetryPayment,
      with_body, bad_request, asked, moneyToProto;
    cbn [mc_GetMerchant cc_CreateConsent cc_GetConsent cc_RevokeConsent cc_ListConsents pc_InitiatePayment pc_GetPayment
         pc_RetryPayment logged_merchant logged_consent logged_payment]; cbv zeta;
    repeat match goal with
    | |- makes ?m _ => match m with context [match ?x with _ => _ end] => destruct x eqn:?; cbn [negb orb fst snd] in * end
    | |- makes _ (if ?x then _ else _) => destruct x eqn:?; cbn [negb orb fst snd] in *
    | |- makes _ (match ?x with _ => _ end) => destruct x eqn:?; cbn [negb orb fst snd] in *
    end; try discriminate; try (apply makes_reply; intros ?; apply quiet_ret); try (apply makes_none; apply quiet_ret).
Qed.

(** C39.  A token outlives a suspension: from the moment it is issued to the second
of its expiry, a request with it to any authenticated route that the limiter lets
through makes exactly the call it asks for, in the merchant's name, whatever the
state of the merchant service (nothing asks it) and of any other service. *)
Theorem token_outlives_suspension d mid e (st : Gw R (Logged B)) :
  plain_text mid -> mid <> "" -> (forall n, plain_text (uuid_at e n)) ->
  0 <= (cur_clock e + ts_ttl (rd_Tokens d)) / second < 2 ^ 53 -> 0 <= cur_clock (bump (bump e)) / second < 2 ^ 53 ->
  exists token w1, Issue (rd_Tokens d) mid (MkWorld e st) = (Ok (token, cur_clock e + ts_ttl (rd_Tokens d)), w1) /\
  forall rt e2 (s2 : Gw R (Logged B)) r,
    fst (route_handler (R := R) (B := Logged B) d rt) = true ->
    lets_through d mid e2 (g_redis s2) -> rq_header r "Authorization" = "Bearer " +:+ token ->
    cur_clock e2 < NewNumericDate (cur_clock e + ts_ttl (rd_Tokens d)) ->
    cur_clock (bump e2) < NewNumericDate (cur_clock e + ts_ttl (rd_Tokens d)) ->
    calls_of (w_st (snd (NewRouter d rt r (MkWorld e2 s2)))) = calls_of s2 ++ option_list (asked rt mid r).
Proof.
  intros Hmid Hne Hids Hexp Hiat.
  destruct (issue_spec (rd_Tokens d) mid e st Hmid Hids Hexp Hiat) as (token & w1 & Hrun & _ & Htext & Htne & Hparse).
  exists token, w1. split; [exact Hrun|]. intros rt e2 [red b] r Hrt Hlim Hauth Hc1 Hc2.
  change (wp (NewRouter d rt r) (fun _ w => calls_of (w_st w) = calls_of (MkGw red b) ++ option_list (asked rt mid r))
    (MkWorld e2 (MkGw red b))).
  assert (Hroute : route_handler (R := R) (B := Logged B) d rt = (true, snd (route_handler d rt)))
    by (by rewrite <- Hrt, <- surjective_pairing).
  apply (wp_authenticated d rt _ r mid e2 red b _ Hroute); [|exact Hlim|].
  - split; [done|]. exists token. split_and!; try done. intros e' He'. specialize (Hparse e' (MkGw red b)).
    destruct (Z.ltb_spec (cur_clock e') (NewNumericDate (cur_clock e + ts_ttl (rd_Tokens d)))); [exact Hparse|].
    destruct He' as [-> | ->]; lia.
  - intros c e' red' <- _ _. eapply wp_mono; [by apply makes_asked|]. intros resp w Hw id. exact Hw.
Qed.
End Tokens.

(* ------------------------------------------------------------------ *)
(** ** The merchant service behind the gateway *)

Section Merchants.
Context {R : Type} `{UuidLib} `{Unicode} `{GrpcLib} `{Entropy} `{Bcrypt} `{JwtLib}.

#[export] Instance remote_merchants : MerchantClient MerchantDB := {|
  mc_GetMerchantByApiKey key := remote (MerchantHandler.GetMerchantByApiKey key);
  mc_RegisterMerchant req := remote (MerchantHandler.RegisterMerchant req);
  mc_GetMerchant id := remote (MerchantHandler.GetMerchant id);
|}.

(** An answer of the lookup over gRPC is the merchant that owns the key. *)
Lemma wp_remote_lookup key e db :
  wp (mc_GetMerchantByApiKey key) (fun r w' => forall p, r = Ok p ->
    exists m, owns_key db (TrimSpace key) m /\ p = toProtoMerchant m) (MkWorld e db).
Proof.
  cbn [mc_GetMerchantByApiKey remote_merchants]. unfold wp, remote. cbn [w_env w_st].
  destruct (cur_fault e); cbn [fst snd]; [|done..].
  change (wp (MerchantHandler.GetMerchantByApiKey key) (fun r _ => forall p, r = Ok p ->
    exists m, owns_key db (TrimSpace key) m /\ p = toProtoMerchant m) (MkWorld (bump e) db)).
  unfold MerchantHandler.GetMerchantByApiKey, answer. wp_step. eapply wp_mono; [apply wp_lookup_owner|].
  intros [m|err] w' [_ Hm]; wp_step; [|done]. intros p [= <-]. exists m. auto.
Qed.

(** The text presented for a token. *)
Definition presented_key (r : Request) : string := TrimSpace (tq_APIKey (dec_TokenRequest (rq_body r)).2).

(** C38.  A suspended merchant gets no new token: after [SuspendMerchant], through
every further history of requests of the merchant service, a request for a token
is answered 200 only when the API key it presents is an active key of another
merchant, which is not suspended; whatever fails. *)
Theorem suspended_gets_no_token id e db m w1 h tokens c r e2 (red : option R) :
  Suspend id (MkWorld e db) = (Ok m, w1) -> Forall (fun p => canonical_ids p.1) h ->
  let db2 := serve_all h (w_st w1) in
  rs_status (fst (IssueToken tokens c r (MkWorld e2 (MkGw red db2)))) = 200 ->
  exists m2, owns_key db2 (presented_key r) m2 /\ m_ID m2 <> m_ID m /\ m_Status m2 <> StatusSuspended.
Proof.
  intros Hsus Hcans db2. change (wp (IssueToken tokens c r) (fun resp _ => rs_status resp = 200 ->
    exists m2, owns_key db2 (presented_key r) m2 /\ m_ID m2 <> m_ID m /\ m_Status m2 <> StatusSuspended) (MkWorld e2 (MkGw red db2))).
  assert (Hmap : forall err, rs_status (mapGRPCError c err) <> 200).
  { intros err. unfold mapGRPCError. cbv zeta. destruct (negb _); [by repeat case_bool_decide|].
    destruct (status_FromError err) as [st|]; [by destruct (st_Code st)|done]. }
  unfold IssueToken, with_body, bad_request. wp_step; [by wp_step|]. wp_step; [by wp_step|].
  unfold reply. wp_step. unfold on_backend. apply wp_within. eapply wp_mono; [apply wp_remote_lookup|].
  intros [p|err] [e3 db3] Hp; [|wp_step; intros Hst; by destruct (Hmap err)].
  destruct (Hp p eq_refl) as (m2 & Hm2 & ->). wp_step; [by wp_step|]. apply bool_decide_eq_false in Hif1.
  apply run_wp. intros resp w' _ _. exists m2. split; [done|]. split; [|done].
  intros Hid. apply Hif1. apply (suspended_forever id e db m w1 h Hsus Hcans m2); [apply Hm2|done].
Qed.
End Merchants.

(* ------------------------------------------------------------------ *)
(** ** Examples *)

(** Services that answer nothing, and a body that is its own API key. *)
#[local] Instance no_merchants : MerchantClient unit := {|
  mc_GetMerchantByApiKey _ := gret (Err (PlainError "down"));
  mc_RegisterMerchant _ := gret (Err (PlainError "down"));
  mc_GetMerchant _ := gret (Err (PlainError "down"));
|}.
#[local] Instance no_consents : ConsentClient unit := {|
  cc_CreateConsent _ := gret (Err (PlainError "down"));
  cc_GetConsent _ _ := gret (Err (PlainError "down"));
  cc_RevokeConsent _ _ _ := gret (Err (PlainError "down"));
  cc_ListConsents _ := gret (Err (PlainError "down"));
|}.
#[local] Instance no_payments : PaymentClient unit := {|
  pc_InitiatePayment _ := gret (Err (PlainError "down"));
  pc_GetPayment _ := gret (Err (PlainError "down"));
  pc_RetryPayment _ := gret (Err (PlainError "down"));
|}.
#[local] Existing Instances text_uuids ascii_tables simple_grpc demo_entropy demo_bcrypt bit_jwt bit_jwt_laws.

Definition demo_deps : RouterDeps := MkRouterDeps demo_tokens 100.
Definition empty_gateway : Gw Memory (Logged unit) := MkGw None (MkLogged tt []).
Definition with_header (name v : string) : Request :=
  MkRequest (fun h => if bool_decide (h = name) then v else "") (fun _ => "") "".

(** A consent is revoked with a token, and a payment read. *)
Lemma token_outlives_suspension_witness : exists token w1,
  Issue demo_tokens "m1" (MkWorld (token_env 0) empty_gateway) = (Ok (token, hour), w1) /\
  let with_token rt := calls_of (w_st (snd (NewRouter demo_deps rt (with_header "Authorization" ("Bearer " +:+ token))
                         (MkWorld (token_env 50) empty_gateway)))) in
  with_token (GetPaymentRoute "pay1") = [CGetPayment (MkGetPaymentRequest "pay1" "m1")] /\
  with_token (DeleteConsent "c1") = [CRevokeConsent "c1" "m1" "MERCHANT_REQUEST"] /\ with_token PostPayments = [].
Proof.
  destruct (token_outlives_suspension demo_deps "m1" (token_env 0) empty_gateway) as (token & w1 & Hrun & Hpass).
  - by repeat constructor.
  - done.
  - intros n. by repeat constructor.
  - vm_compute. split; [discriminate|reflexivity].
  - vm_compute. split; [discriminate|reflexivity].
  - exists token, w1. split; [exact Hrun|].
    assert (forall rt, fst (route_handler (R := Memory) (B := Logged unit) demo_deps rt) = true -> _) as Hr
      by exact (fun rt Hrt => Hpass rt (token_env 50) empty_gateway (with_header "Authorization" ("Bearer " +:+ token)) Hrt
                 (no_limiter _ _ _) eq_refl eq_refl eq_refl).
    cbv zeta. split_and!; rewrite Hr by reflexivity; reflexivity.
Defined.

(** Shop is suspended; Other, registered later, still gets tokens. *)
Definition other_key : string := apiKeyPrefix +:+ hex_Encode (rand_at 10 32).
(** The body of a token request. *)
Definition key_body (key : string) : string := json_text (VObj [("api_key", VStr key)]).
Definition token_status (key : string) (n : nat) (db : MerchantDB) : Z :=
  rs_status (fst (IssueToken (R := Memory) demo_tokens (MkCtx "" "") (MkRequest (fun _ => "") (fun _ => "") (key_body key))
                    (MkWorld (shop_env n) (MkGw None db)))).

Example shop_tokens :
  (token_status (apiKeyPrefix +:+ hex_Encode (rand_at 0 32)) 50 shop_db,
   token_status (apiKeyPrefix +:+ hex_Encode (rand_at 0 32)) 50 (serve_all shop_history shop_db),
   token_status other_key 50 (serve_all shop_history shop_db), token_status "vrp_0000" 50 shop_db) = (200, 403, 200, 404).
Proof. vm_compute. reflexivity. Qed.

Lemma suspended_gets_no_token_witness :
  exists m2, owns_key (serve_all (take 1 shop_history) (w_st (snd (Suspend "m4" (MkWorld (shop_env 40) shop_db))))) other_key m2 /\
    m_ID m2 <> "m4" /\ m_Status m2 <> StatusSuspended.
Proof.
  refine (suspended_gets_no_token (R := Memory) "m4" (shop_env 40) shop_db
    (suspended_row 40 (MkMerchantRow "m4" "Shop" "https://shop.example/hook" "" "ACTIVE" "ACTIVE" (hex_Encode (rand_at 2 32)) 3 3))
    (snd (Suspend "m4" (MkWorld (shop_env 40) shop_db))) (take 1 shop_history) demo_tokens (MkCtx "" "")
    (MkRequest (fun _ => "") (fun _ => "") (key_body other_key)) (shop_env 50) None _ _ _).
  - vm_compute. reflexivity.
  - constructor; [apply shop_canonical|constructor].
  - vm_compute. reflexivity.
Defined.
