(* ===== verification/Deliver.v ===== *)
(** * Webhook delivery ([services/notification-svc/internal/deliver.go]).

The deliverer talks to three things outside it: the merchant service, through
the class [Directory] of the one call it makes; the merchant's web server, whose
answer at a call number is the class [Endpoint]; and Kafka, whose dead-letter
topic is a list.  A request can be refused before it is sent, or sent and its
reply lost; every request that was sent is in the log [n_posts].  The context may
end at any check. *)
From S2P Require Import Prelude GoStrings DomainErr World Proto Idempotency GoTime GoJson Webhook.
Local Open Scope Z_scope.
Local Open Scope go_scope.

Definition maxAttempts : nat := 3.
Definition contentTypeJSON : string := "application/json".
Definition retryBackoffs : list Z := [1 * second; 2 * second; 4 * second].

Record PaymentEvent := MkPaymentEvent {
  e_EventType : string;
  e_ID : string;
  e_PaymentID : string;
  e_MerchantID : string;
  e_ConsentID : string;
  e_ConsumerID : string;
  e_AmountPence : Z;
  e_Currency : string;
  e_Status : string;
  e_BankPaymentRef : string;
  e_Description : string;
  e_RiskScore : Z;
  e_RiskDecision : string;
  e_InitiatedAt : string;
  e_SettledAt : string;
}.

Definition PaymentKey (e : PaymentEvent) : string :=
  if is_empty (e_ID e) then e_PaymentID e else e_ID e.

Record WebhookPaymentData := MkWebhookPaymentData {
  wd_ID : string;
  wd_MerchantID : string;
  wd_ConsentID : string;
  wd_ConsumerID : string;
  wd_AmountPence : Z;
  wd_Currency : string;
  wd_Status : string;
  wd_BankPaymentRef : string;
  wd_RiskScore : Z;
  wd_RiskDecision : string;
  wd_SettledAt : string;
  wd_Description : string;
}.
Record WebhookBody := MkWebhookBody { wb_EventType : string; wb_Payment : WebhookPaymentData; wb_DeliveredAt : string }.
Record DLQPayload := MkDLQPayload {
  dq_MerchantID : string;
  dq_PaymentID : string;
  dq_WebhookURL : string;
  dq_Attempts : Z;
  dq_LastError : string;
  dq_Payload : string;
  dq_FailedAt : string;
}.

(** [json.Marshal] of the three structs, by their field tags. *)
Definition payment_value (d : WebhookPaymentData) : value := VObj (
  [ ("id", VStr (wd_ID d)); ("merchant_id", VStr (wd_MerchantID d)); ("consent_id", VStr (wd_ConsentID d));
    ("consumer_id", VStr (wd_ConsumerID d)); ("amount_pence", VInt (wd_AmountPence d));
    ("currency", VStr (wd_Currency d)); ("status", VStr (wd_Status d)) ]
  ++ omit_str "bank_payment_ref" (wd_BankPaymentRef d) ++ omit_int "risk_score" (wd_RiskScore d)
  ++ omit_str "risk_decision" (wd_RiskDecision d) ++ omit_str "settled_at" (wd_SettledAt d)
  ++ omit_str "description" (wd_Description d)).
Definition webhook_value (b : WebhookBody) : value := VObj
  [ ("event_type", VStr (wb_EventType b)); ("payment", payment_value (wb_Payment b));
    ("delivered_at", VStr (wb_DeliveredAt b)) ].
Definition dlq_value (d : DLQPayload) : value := VObj
  [ ("merchant_id", VStr (dq_MerchantID d)); ("payment_id", VStr (dq_PaymentID d));
    ("webhook_url", VStr (dq_WebhookURL d)); ("attempts", VInt (dq_Attempts d));
    ("last_error", VStr (dq_LastError d)); ("payload", VRaw (dq_Payload d)); ("failed_at", VStr (dq_FailedAt d)) ].

Record PostRequest := MkPostRequest {
  pq_url : string; pq_contentType : string; pq_signature : string; pq_timestamp : string; pq_body : string }.
Record DLQMessage := MkDLQMessage { dm_Key : string; dm_Value : string; dm_Time : Z }.

(** The stores of the notification service, around those of the directory. *)
Record Notifier (R D : Type) := MkNotifier {
  n_redis : R;
  n_directory : D;
  n_posts : list PostRequest;
  n_dlq : list DLQMessage;
  n_committed : Z;
}.
Arguments MkNotifier {R D}.
Arguments n_redis {R D}.
Arguments n_directory {R D}.
Arguments n_posts {R D}.
Arguments n_dlq {R D}.
Arguments n_committed {R D}.

Class Directory (D : Type) := dir_GetWebhookConfig : string -> M (world D) (result error WebhookConfig).

(** [http.NewRequest] refuses a URL it cannot parse; the answer to a request is a
status code. *)
Class Endpoint := {
  http_NewRequest_err : string -> option error;
  http_reply : nat -> PostRequest -> Z;
}.

Section Deliver.
Context {R D : Type} `{Directory D} `{Endpoint} `{GrpcLib}.
Abbreviation St := (world (Notifier R D)).

(** [DLQ *kafka.Writer], which may be nil. *)
Context (dlq_configured : bool).

Definition on_directory {A} (m : M (world D) A) : M St A :=
  within n_directory (fun d s => MkNotifier (n_redis s) d (n_posts s) (n_dlq s) (n_committed s)) m.

(** [d.HTTP.Do(req)]. *)
Definition http_Do (req : PostRequest) : M St (result error Z) := fun w =>
  let e := w_env w in
  let s := w_st w in
  let sent := MkNotifier (n_redis s) (n_directory s) (n_posts s ++ [req]) (n_dlq s) (n_committed s) in
  match cur_fault e with
  | NoFault => (Ok (http_reply (tick e) req), MkWorld (bump e) sent)
  | Refused err => (Err err, MkWorld (bump e) s)
  | LostReply err => (Err err, MkWorld (bump e) sent)
  end.

(** [d.DLQ.WriteMessages(ctx, msg)]. *)
Definition dlq_Write (m : DLQMessage) : M St (result error unit) :=
  exec (fun _ _ s => (Ok tt, MkNotifier (n_redis s) (n_directory s) (n_posts s) (n_dlq s ++ [m]) (n_committed s))).

(** [ctx.Err()] and [select { case <-ctx.Done(): case <-time.After(delay): }]. *)
Definition ctx_Err : M St (result error unit) := draw (fun _ => Ok tt).
Definition wait (delay : Z) : M St (result error unit) := draw (fun _ => Ok tt).

Definition webhook_data (evt : PaymentEvent) : WebhookPaymentData :=
  let currency := if is_empty (e_Currency evt) then "GBP" else e_Currency evt in
  let status := if is_empty (e_Status evt) then "SETTLED" else e_Status evt in
  MkWebhookPaymentData (PaymentKey evt) (e_MerchantID evt) (e_ConsentID evt) (e_ConsumerID evt)
    (e_AmountPence evt) currency status (e_BankPaymentRef evt) (e_RiskScore evt) (e_RiskDecision evt)
    (e_SettledAt evt) (e_Description evt).

(** Marshalling a struct of strings and integers cannot fail. *)
Definition buildWebhookBody (evt : PaymentEvent) : M St string :=
  now <- time_Now ;;
  gret (json_text (webhook_value (MkWebhookBody "payment.settled" (webhook_data evt) (Format_RFC3339Nano now)))).

Definition post_request (url secret body : string) (ts : Z) : PostRequest :=
  MkPostRequest url contentTypeJSON (Sign secret ts body) (TimestampHeader ts) body.

Definition postWebhook (url secret body : string) : M St (result error unit) :=
  ts <- time_Now ;;
  match http_NewRequest_err url with
  | Some err => gret (Err (WrapError "new request" err))
  | None =>
      code <-? gmap_err (WrapError "http post") (http_Do (post_request url secret body ts)) ;;
      if (code <? 200) || (300 <=? code) then gret (Err (PlainError ("webhook status " +:+ itoa code)))
      else gret (Ok tt)
  end.

Definition publishDLQ (evt : PaymentEvent) (webhookURL body : string) (attempts : Z) (lastErr : error)
  : M St (result error unit) :=
  if negb dlq_configured then gret (Err (PlainError "dlq writer not configured"))
  else
    failedAt <- time_Now ;;
    let payload := MkDLQPayload (e_MerchantID evt) (PaymentKey evt) webhookURL attempts (Error_ lastErr) body
                     (Format_RFC3339Nano failedAt) in
    now <- time_Now ;;
    gmap_err (WrapError "write dlq") (dlq_Write (MkDLQMessage (e_MerchantID evt) (json_text (dlq_value payload)) now)).

(** How the attempts end: delivered, out of attempts with the last error, or the
context ended. *)
Inductive attempted := Delivered | Exhausted (lastErr : error) | Cancelled (err : error).

(** The loop, with [left] attempts to go after this one. *)
Fixpoint attempts (left : nat) (url secret body : string) : M St attempted :=
  c <- ctx_Err ;;
  match c with
  | Err err => gret (Cancelled err)
  | Ok _ =>
      r <- postWebhook url secret body ;;
      match r with
      | Ok _ => gret Delivered
      | Err lastErr =>
          match left with
          | O => gret (Exhausted lastErr)
          | S left' =>
              w <- wait (nth (maxAttempts - left - 1) retryBackoffs 0) ;;
              match w with
              | Err err => gret (Cancelled err)
              | Ok _ => attempts left' url secret body
              end
          end
      end
  end.

Definition Deliver (evt : PaymentEvent) : M St (result error unit) :=
  if is_empty (PaymentKey evt) then gret (Err (PlainError "payment event missing id"))
  else if is_empty (e_MerchantID evt) then gret (Err (PlainError "payment event missing merchant_id"))
  else
    cfg <-? gmap_err (WrapError "get webhook config") (on_directory (dir_GetWebhookConfig (e_MerchantID evt))) ;;
    if is_empty (wc_webhook_url cfg) then gret (Ok tt)
    else
      body <- buildWebhookBody evt ;;
      o <- attempts (maxAttempts - 1) (wc_webhook_url cfg) (wc_hmac_secret cfg) body ;;
      match o with
      | Delivered => gret (Ok tt)
      | Cancelled err => gret (Err err)
      | Exhausted lastErr =>
          gmap_err (fun err => WrapTail "deliver failed and dlq publish failed" err
                                 (" (last deliver err: " +:+ Error_ lastErr +:+ ")"))
            (publishDLQ evt (wc_webhook_url cfg) body (Z.of_nat maxAttempts) lastErr)
      end.
End Deliver.
