(* ===== verification/Notification.v ===== *)
(** * The consumer of payment events
([services/notification-svc/internal/consumer.go]).

[kafka-go] hands the messages of a partition out in order; committing a message
sets the offset a restarted consumer resumes from, which covers every message
before it ([committed]).  The reader commits once a second ([CommitInterval]); an
offset counts as committed here when [CommitMessages] has answered.  The text of a
message is what PostgreSQL renders of the payload the outbox stored: the class
[JsonbText].  [EventDecode] says what [event_Unmarshal] makes of it. *)
From S2P Require Import Prelude GoStrings Utf8 DomainErr World Proto Redis Idempotency GoTime GoJson JsonParse JsonStruct Deliver PaymentRepo.
From Stdlib Require Import Ascii.
Local Open Scope Z_scope.
Local Open Scope go_scope.

Definition deliveredKeyTTL : Z := 24 * hour.
Definition deliveredKeyPrefix : string := "webhook:delivered:".

Record KafkaMessage := MkKafkaMessage { km_Offset : Z; km_Value : string }.

(** PostgreSQL renders the payload, a JSONB column, as text. *)
Class JsonbText := { jsonb_text : list (string * json) -> string }.

(** A member of the payload, as it is read back. *)
Definition json_jvalue (j : json) : jvalue :=
  match j with
  | JStr s => JvStr s
  | JInt z => JvNum (itoa z)
  | JTime t => JvStr (Format_RFC3339Nano t)
  | JNull => JvNull
  end.

(** A value of a text column: UTF-8 without a NUL byte. *)
Definition pg_text (s : string) : Prop := valid_utf8 s /\ ascii_of 0 ∉ String.list_ascii_of_string s.

(** The rendered text is JSON with the members that went in, in an order of its own. *)
Class JsonbLaw `{JsonbText} := jsonb_law : forall o,
  NoDup (map fst o) -> forallb (fun m => lower_name m.1) o = true -> (forall k s, (k, JStr s) ∈ o -> pg_text s) ->
  exists ms, json_parse (jsonb_text o) = Some (JvObj ms) /\ ms ≡ₚ map (fun m => (m.1, json_jvalue m.2)) o.

(** The tags of [PaymentEvent]. *)
Definition event_fields : list (field PaymentEvent) := [
  field_at "event_type" e_EventType (fun x ev => let '(MkPaymentEvent _ b c d e f g h i j k l m n o) := ev in
    MkPaymentEvent x b c d e f g h i j k l m n o) dec_string;
  field_at "id" e_ID (fun x ev => let '(MkPaymentEvent a _ c d e f g h i j k l m n o) := ev in
    MkPaymentEvent a x c d e f g h i j k l m n o) dec_string;
  field_at "payment_id" e_PaymentID (fun x ev => let '(MkPaymentEvent a b _ d e f g h i j k l m n o) := ev in
    MkPaymentEvent a b x d e f g h i j k l m n o) dec_string;
  field_at "merchant_id" e_MerchantID (fun x ev => let '(MkPaymentEvent a b c _ e f g h i j k l m n o) := ev in
    MkPaymentEvent a b c x e f g h i j k l m n o) dec_string;
  field_at "consent_id" e_ConsentID (fun x ev => let '(MkPaymentEvent a b c d _ f g h i j k l m n o) := ev in
    MkPaymentEvent a b c d x f g h i j k l m n o) dec_string;
  field_at "consumer_id" e_ConsumerID (fun x ev => let '(MkPaymentEvent a b c d e _ g h i j k l m n o) := ev in
    MkPaymentEvent a b c d e x g h i j k l m n o) dec_string;
  field_at "amount_pence" e_AmountPence (fun x ev => let '(MkPaymentEvent a b c d e f _ h i j k l m n o) := ev in
    MkPaymentEvent a b c d e f x h i j k l m n o) (dec_int 64);
  field_at "currency" e_Currency (fun x ev => let '(MkPaymentEvent a b c d e f g _ i j k l m n o) := ev in
    MkPaymentEvent a b c d e f g x i j k l m n o) dec_string;
  field_at "status" e_Status (fun x ev => let '(MkPaymentEvent a b c d e f g h _ j k l m n o) := ev in
    MkPaymentEvent a b c d e f g h x j k l m n o) dec_string;
  field_at "bank_payment_ref" e_BankPaymentRef (fun x ev => let '(MkPaymentEvent a b c d e f g h i _ k l m n o) := ev in
    MkPaymentEvent a b c d e f g h i x k l m n o) dec_string;
  field_at "description" e_Description (fun x ev => let '(MkPaymentEvent a b c d e f g h i j _ l m n o) := ev in
    MkPaymentEvent a b c d e f g h i j x l m n o) dec_string;
  field_at "risk_score" e_RiskScore (fun x ev => let '(MkPaymentEvent a b c d e f g h i j k _ m n o) := ev in
    MkPaymentEvent a b c d e f g h i j k x m n o) (dec_int 32);
  field_at "risk_decision" e_RiskDecision (fun x ev => let '(MkPaymentEvent a b c d e f g h i j k l _ n o) := ev in
    MkPaymentEvent a b c d e f g h i j k l x n o) dec_string;
  field_at "initiated_at" e_InitiatedAt (fun x ev => let '(MkPaymentEvent a b c d e f g h i j k l m _ o) := ev in
    MkPaymentEvent a b c d e f g h i j k l m x o) dec_string;
  field_at "settled_at" e_SettledAt (fun x ev => let '(MkPaymentEvent a b c d e f g h i j k l m n _) := ev in
    MkPaymentEvent a b c d e f g h i j k l m n x) dec_string ].

Definition zero_event : PaymentEvent := MkPaymentEvent "" "" "" "" "" "" 0 "" "" "" "" 0 "" "" "".

(** [json.Unmarshal(text, &evt)], without an error. *)
Definition event_Unmarshal (text : string) : option PaymentEvent :=
  let '(evt, failed) := Unmarshal (dec_struct false event_fields) text zero_event in
  if failed : bool then None else Some evt.

Section Consumer.
Context {R D : Type} `{Redis R} `{Directory D} `{Endpoint} `{GrpcLib}.
Abbreviation St := (world (Notifier R D)).
Context (dlq_configured : bool).

Definition on_redis {A} (m : M (world R) A) : M St A :=
  within n_redis (fun r s => MkNotifier r (n_directory s) (n_posts s) (n_dlq s) (n_committed s)) m.

Definition deliveredKey (paymentID : string) : string := deliveredKeyPrefix +:+ paymentID.

Definition alreadyDelivered (paymentID : string) : M St (result error bool) :=
  n <-? on_redis (exec (r_Exists (deliveredKey paymentID))) ;; gret (Ok (0 <? n)).

Definition markDelivered (paymentID : string) : M St (result error unit) :=
  on_redis (exec (r_Set (deliveredKey paymentID) "1" deliveredKeyTTL)).

Definition handle (msg : KafkaMessage) : M St (result error unit) :=
  match event_Unmarshal (km_Value msg) with
  | None => gret (Ok tt)
  | Some evt =>
      let paymentID := PaymentKey evt in
      if is_empty paymentID then gret (Ok tt)
      else if negb (is_empty (e_EventType evt)) && negb (bool_decide (e_EventType evt = "payment.settled"))
      then gret (Ok tt)
      else
        delivered <-? gmap_err (WrapError "check delivered") (alreadyDelivered paymentID) ;;
        if delivered : bool then gret (Ok tt)
        else
          Deliver dlq_configured evt ?;;
          gmap_err (WrapError "mark delivered") (markDelivered paymentID)
  end.

Definition CommitMessages (msg : KafkaMessage) : M St (result error unit) :=
  exec (fun _ _ s => (Ok tt, MkNotifier (n_redis s) (n_directory s) (n_posts s) (n_dlq s)
                               (Z.max (n_committed s) (km_Offset msg + 1)))).

(** The loop over the messages the partition still has; when they are used up,
or a fetch is interrupted by the end of the context, it ends without an error.
A failed fetch is [Err]; a message that could not be handled is passed over. *)
Fixpoint Run (msgs : list KafkaMessage) : M St (result error unit) :=
  match msgs with
  | [] => gret (Ok tt)
  | msg :: rest =>
      f <- draw (fun _ => Ok tt) ;;
      match f with
      | Err err => c <- ctx_Err ;;
                   match c with Err _ => gret (Ok tt) | Ok _ => gret (Err (WrapError "fetch message" err)) end
      | Ok _ =>
          h <- handle msg ;;
          match h with
          | Err _ => Run rest
          | Ok _ => gmap_err (WrapError "commit") (CommitMessages msg) ?;; Run rest
          end
      end
  end.

(** The messages a restarted consumer gets. *)
Definition resumed (log : list KafkaMessage) (s : Notifier R D) : list KafkaMessage :=
  where_ (fun m => n_committed s <=? km_Offset m) log.
End Consumer.
