(* ===== verification/EventDecode.v ===== *)
(** * What the consumer reads of a payload: the text PostgreSQL renders of the
object that the outbox stored, decoded into a [PaymentEvent]. *)
From S2P Require Import Prelude GoStrings Utf8 DomainErr World Proto Redis Idempotency GoTime GoJson JsonParse JsonStruct Deliver PaymentRepo Notification.
From Stdlib Require Import Ascii.
Local Open Scope Z_scope.


Definition str_field (name : string) (o : list (string * json)) : option string :=
  match obj_member name o with
  | None | Some JNull => Some ""
  | Some (JStr s) => Some s
  | Some (JTime t) => Some (Format_RFC3339Nano t)
  | Some (JInt _) => None
  end.
Definition int_field (bits : Z) (name : string) (o : list (string * json)) : option Z :=
  match obj_member name o with
  | None | Some JNull => Some 0
  | Some (JInt z) => if (- 2 ^ (bits - 1) <=? z) && (z <? 2 ^ (bits - 1)) then Some z else None
  | _ => None
  end.

Definition event_of (o : list (string * json)) : option PaymentEvent :=
  ty ← str_field "event_type" o;
  id ← str_field "id" o;
  pid ← str_field "payment_id" o;
  mid ← str_field "merchant_id" o;
  cid ← str_field "consent_id" o;
  consumer ← str_field "consumer_id" o;
  amount ← int_field 64 "amount_pence" o;
  cur ← str_field "currency" o;
  st ← str_field "status" o;
  ref ← str_field "bank_payment_ref" o;
  desc ← str_field "description" o;
  score ← int_field 32 "risk_score" o;
  dec ← str_field "risk_decision" o;
  initiated ← str_field "initiated_at" o;
  settled ← str_field "settled_at" o;
  Some (MkPaymentEvent ty id pid mid cid consumer amount cur st ref desc score dec initiated settled).

Lemma event_names : NoDup (map fd_name event_fields) /\ forallb lower_name (map fd_name event_fields) = true.
Proof. split; [apply (bool_decide_unpack _); vm_compute; exact I|vm_compute; reflexivity]. Qed.

(** A field of the decoded event is what its own decoder makes of its member. *)
Lemma event_field {A} (get : PaymentEvent -> A) put name d ms :
  In (field_at name get put d) event_fields ->
  (forall f, f ∈ event_fields -> fd_name f = name -> forall v t, get (fd_decode f v t).1 = (d v (get t)).1) ->
  (forall f, f ∈ event_fields -> fd_name f <> name -> forall v t, get (fd_decode f v t).1 = get t) ->
  NoDup (map fst ms) -> forallb (fun m => lower_name m.1) ms = true ->
  get (fold_left (decode_member false event_fields) ms (zero_event, false)).1 =
  match obj_member name ms with Some v => (d v (get zero_event)).1 | None => get zero_event end.
Proof.
  intros Hin Hown Hother Hnd Hlow. destruct event_names as [Hn Hl].
  apply (get_decoded event_fields Hn Hl get name d Hown Hother); [|done|done].
  apply list_elem_of_In in Hin. by apply (list_elem_of_fmap_2 fd_name) in Hin.
Qed.

(** The string and integer fields against what [event_of] reads. *)
Lemma str_decodes name o ms s : obj_member name ms = json_jvalue <$> obj_member name o -> str_field name o = Some s ->
  match obj_member name ms with Some v => (dec_string v "").1 | None => "" end = s /\
  forall v t, obj_member name ms = Some v -> (dec_string v t).2 = false.
Proof.
  intros ->. unfold str_field. destruct (obj_member name o) as [[x|z|t|]|]; simpl; intros [= <-]; split; try done;
    intros v ? [= <-]; done.
Qed.

Lemma int_decodes bits name o ms n : 0 < bits <= 64 -> obj_member name ms = json_jvalue <$> obj_member name o ->
  int_field bits name o = Some n ->
  match obj_member name ms with Some v => (dec_int bits v 0).1 | None => 0 end = n /\
  forall v t, obj_member name ms = Some v -> (dec_int bits v t).2 = false.
Proof.
  intros Hbits ->. unfold int_field. destruct (obj_member name o) as [[x|z|t|]|]; cbn [fmap option_map json_jvalue]; try done.
  - destruct ((- 2 ^ (bits - 1) <=? z) && _) eqn:Hr; [|done]. intros [= ->].
    apply andb_true_iff in Hr as [H1%Z.leb_le H2%Z.ltb_lt].
    assert (Hd : forall t, dec_int bits (JvNum (itoa n)) t = (n, false)) by (intros t; by apply dec_int_itoa).
    split; [change ((dec_int bits (JvNum (itoa n)) 0).1 = n); by rewrite Hd|]. intros v t [= <-]. by rewrite Hd.
  - intros [= <-]. split; [done|]. by intros v t [= <-].
  - intros [= <-]. split; [done|]. by intros v t.
Qed.

Ltac each_field := intros f Hf; repeat (apply elem_of_cons in Hf as [->|Hf];
  [first [done|intros _ v t; destruct t; cbn [fst field_at fd_decode];
    match goal with |- context [let '(_, _) := ?x in _] => by destruct x end]|]); by apply elem_of_nil in Hf.

Lemma obj_member_of {A} name v (ms : list (string * A)) : NoDup (map fst ms) -> (name, v) ∈ ms -> obj_member name ms = Some v.
Proof. intros Hnd Hin. unfold obj_member. pose proof (find_unique fst ms (name, v) Hnd Hin) as Hf. cbn [fst] in Hf. by rewrite Hf. Qed.

Lemma event_ext x ty id pid mid cid consumer amount cur st ref desc score dec initiated settled :
  e_EventType x = ty -> e_ID x = id -> e_PaymentID x = pid -> e_MerchantID x = mid -> e_ConsentID x = cid ->
  e_ConsumerID x = consumer -> e_AmountPence x = amount -> e_Currency x = cur -> e_Status x = st ->
  e_BankPaymentRef x = ref -> e_Description x = desc -> e_RiskScore x = score -> e_RiskDecision x = dec ->
  e_InitiatedAt x = initiated -> e_SettledAt x = settled ->
  x = MkPaymentEvent ty id pid mid cid consumer amount cur st ref desc score dec initiated settled.
Proof. destruct x; simpl; intros; by subst. Qed.

Ltac pose_field ms Hnd Hlow get name d zero :=
  let H := fresh in
  assert (H : get (fold_left (decode_member false event_fields) ms (zero_event, false)).1 =
              match obj_member name ms with Some v => (d v zero).1 | None => zero end)
    by (eapply (event_field get _ name d); [repeat (first [left; reflexivity|right])|each_field|each_field|exact Hnd|exact Hlow]).
Ltac pose_fields ms Hnd Hlow :=
  pose_field ms Hnd Hlow e_EventType "event_type" dec_string ""; pose_field ms Hnd Hlow e_ID "id" dec_string "";
  pose_field ms Hnd Hlow e_PaymentID "payment_id" dec_string ""; pose_field ms Hnd Hlow e_MerchantID "merchant_id" dec_string "";
  pose_field ms Hnd Hlow e_ConsentID "consent_id" dec_string ""; pose_field ms Hnd Hlow e_ConsumerID "consumer_id" dec_string "";
  pose_field ms Hnd Hlow e_AmountPence "amount_pence" (dec_int 64) 0; pose_field ms Hnd Hlow e_Currency "currency" dec_string "";
  pose_field ms Hnd Hlow e_Status "status" dec_string ""; pose_field ms Hnd Hlow e_BankPaymentRef "bank_payment_ref" dec_string "";
  pose_field ms Hnd Hlow e_Description "description" dec_string ""; pose_field ms Hnd Hlow e_RiskScore "risk_score" (dec_int 32) 0;
  pose_field ms Hnd Hlow e_RiskDecision "risk_decision" dec_string ""; pose_field ms Hnd Hlow e_InitiatedAt "initiated_at" dec_string "";
  pose_field ms Hnd Hlow e_SettledAt "settled_at" dec_string "".

Ltac without_error v t :=
  match goal with
  | H : forall v t, obj_member ?name _ = Some v -> (?d v t).2 = false, Hv : obj_member (fd_name (field_at ?name ?get _ _)) _ = Some v |- _ =>
      specialize (H v (get t) Hv); cbn [field_at fd_decode]; destruct (d v (get t)); exact H
  end.

(** Every field of the event is read, and none of them with an error. *)
Lemma event_decoded o ms ev :
  NoDup (map fst o) -> forallb (fun m => lower_name m.1) o = true ->
  ms ≡ₚ map (fun m => (m.1, json_jvalue m.2)) o -> event_of o = Some ev ->
  fold_left (decode_member false event_fields) ms (zero_event, false) = (ev, false).
Proof.
  intros Hnd Hlow Hperm Hev.
  assert (Hkeys : map fst (map (fun m => (m.1, json_jvalue m.2)) o) = map fst o) by (rewrite map_map; done).
  assert (Hndm : NoDup (map fst ms)) by (by rewrite Hperm, Hkeys).
  assert (Hlowm : forallb (fun m => lower_name m.1) ms = true).
  { rewrite forallb_forall in *. intros m Hm. apply list_elem_of_In in Hm. rewrite Hperm in Hm.
    apply list_elem_of_fmap in Hm as (x & -> & Hx). cbn [fst]. by apply Hlow, list_elem_of_In. }
  assert (Hmem : forall name, obj_member name ms = json_jvalue <$> obj_member name o).
  { intros name. rewrite (obj_member_perm name ms _ Hndm Hperm). by apply obj_member_map. }
  destruct event_names as [Hn Hl]. revert Hev. unfold event_of.
  (* one field after the other *)
  repeat match goal with
  | |- (x ← str_field ?name o; _) = Some _ -> _ =>
      destruct (str_field name o) as [?|] eqn:?; cbn [mbind option_bind]; [|done]
  | |- (x ← int_field ?bits ?name o; _) = Some _ -> _ =>
      destruct (int_field bits name o) as [?|] eqn:?; cbn [mbind option_bind]; [|done]
  end.
  intros [= <-].
  repeat match goal with
  | H : str_field ?name o = Some _ |- _ => apply (str_decodes name o ms _ (Hmem name)) in H as [? ?]
  | H : int_field ?bits ?name o = Some _ |- _ => apply (int_decodes bits name o ms _ ltac:(lia) (Hmem name)) in H as [? ?]
  end.
  apply injective_projections.
  - pose_fields ms Hndm Hlowm. apply event_ext; (etrans; [eassumption|assumption]).
  - apply (decoded_without_error event_fields ms (zero_event, false) Hn Hl Hlowm). intros f v Hf Hv t.
    apply (obj_member_of _ _ _ Hndm) in Hv.
    repeat (apply elem_of_cons in Hf as [->|Hf]; [without_error v t|]). by apply elem_of_nil in Hf.
Qed.

(** What the consumer reads of the text of a payload is the event of its
members, whatever order and spacing PostgreSQL gave it. *)
Lemma payload_text_decodes `{JsonbLaw} o ev :
  NoDup (map fst o) -> forallb (fun m => lower_name m.1) o = true -> (forall k s, (k, JStr s) ∈ o -> pg_text s) ->
  event_of o = Some ev -> event_Unmarshal (jsonb_text o) = Some ev.
Proof.
  intros Hnd Hlow Htext Hev. destruct (jsonb_law o Hnd Hlow Htext) as (ms & Hparse & Hperm).
  unfold event_Unmarshal, Unmarshal. rewrite Hparse. cbn [dec_struct]. by rewrite (event_decoded o ms ev).
Qed.

(* ------------------------------------------------------------------ *)
(** ** A rendering *)

Definition json_value (j : json) : value :=
  match j with JStr s => VStr s | JInt z => VInt z | JTime t => VStr (Format_RFC3339Nano t) | JNull => VNull end.

(** The text that Marshal writes. *)
Definition compact_text : JsonbText := {| jsonb_text o := json_text (VObj (map (fun m => (m.1, json_value m.2)) o)) |}.

Lemma compact_text_law : @JsonbLaw compact_text.
Proof.
  intros o _ Hlow Htext. exists (map (fun m => (m.1, json_jvalue m.2)) o). split; [|done].
  unfold jsonb_text, compact_text. set (v := VObj _). assert (Hplain : plain_value 1 v = true).
  { simpl. rewrite forallb_forall. intros m (x & <- & _)%List.in_map_iff. by destruct x as [k []]. }
  destruct (parse_json_text v) as [-> _]; [by apply (plain_value_mono 1); [unfold maxNestingDepth; lia|]|].
  unfold v. cbn [reads_as]. rewrite map_map. do 2 f_equal. apply List.map_ext_in. intros [k j] Hin. cbn [fst snd].
  rewrite forallb_forall in Hlow. rewrite lower_valid by exact (Hlow _ Hin). f_equal. destruct j as [s|z|t|]; try done; cbn [json_value reads_as json_jvalue].
  - f_equal. apply list_elem_of_In in Hin. by destruct (Htext k s Hin).
  - f_equal. apply visible_valid, format_visible.
Qed.
