(* ===== verification/NotificationProps.v ===== *)
(** * Properties of webhook delivery.

[wp_attempts] and [wp_Deliver] say what a delivery does under every failure; the
theorems on the consumer follow from them. *)
From S2P Require Import Prelude GoStrings DomainErr World Advance Proto Redis Idempotency GoTime GoJson Webhook PaymentRepo Deliver Notification.
From Stdlib Require Import Ascii.
Local Open Scope Z_scope.
Local Open Scope go_scope.

Section Props.
Context {R D : Type} `{Redis R} `{Directory D} `{Endpoint} `{GrpcLib}.
Abbreviation Store := (Notifier R D).

(** [s'] is [s] after sending the requests [ps]. *)
Definition posted (ps : list PostRequest) (s s' : Store) : Prop :=
  n_posts s' = n_posts s ++ ps /\ n_redis s' = n_redis s /\ n_directory s' = n_directory s /\
  n_dlq s' = n_dlq s /\ n_committed s' = n_committed s.

Lemma posted_nil s : posted [] s s.
Proof. unfold posted. by rewrite app_nil_r. Qed.

Lemma posted_app ps qs s1 s2 s3 : posted ps s1 s2 -> posted qs s2 s3 -> posted (ps ++ qs) s1 s3.
Proof.
  unfold posted. intros (Hp & ? & ? & ? & ?) (Hq & ? & ? & ? & ?).
  split_and!; try congruence. by rewrite Hq, Hp, app_assoc.
Qed.

(** One try of a delivery: the number of its call, what it sent, how it ended. *)
Record try := MkTry { try_call : nat; try_sent : list PostRequest; try_result : result error unit }.
Definition failed (x : try) : Prop := is_ok (try_result x) = false.
Definition sent_by (tries : list try) : list PostRequest := concat (map try_sent tries).

(** What the answer of the server means. *)
Definition verdict (code : Z) : result error unit :=
  if (200 <=? code) && (code <? 300) then Ok tt else Err (PlainError ("webhook status " +:+ itoa code)).

(** A try to send [body] in the environment [e]: the request is signed at the
reading of the clock before the call; it is answered, or not sent, or sent without
an answer. *)
Definition tried (e : env) (url secret body : string) (x : try) : Prop :=
  let p := post_request url secret body (clock e (pred (try_call x))) in
  match http_NewRequest_err url with
  | Some err => try_sent x = [] /\ try_result x = Err (WrapError "new request" err)
  | None =>
      match fault_at e (try_call x) with
      | NoFault => try_sent x = [p] /\ try_result x = verdict (http_reply (try_call x) p)
      | Refused err => try_sent x = [] /\ try_result x = Err (WrapError "http post" err)
      | LostReply err => try_sent x = [p] /\ try_result x = Err (WrapError "http post" err)
      end
  end.

Lemma tried_later e e' url secret body x : later e e' -> tried e' url secret body x -> tried e url secret body x.
Proof. intros [_ Hc _ Hf]. unfold tried. by rewrite Hc, Hf. Qed.

Lemma tried_sent e url secret body x p : tried e url secret body x -> p ∈ try_sent x -> exists ts, p = post_request url secret body ts.
Proof.
  unfold tried. destruct (http_NewRequest_err url); [intros [-> _]; by intros ?%not_elem_of_nil|].
  destruct (fault_at _ _); intros [-> _]; try (by intros ?%not_elem_of_nil); intros ->%list_elem_of_singleton; eauto.
Qed.

(** A request is answered, or not sent, or sent without an answer. *)
Lemma wp_http_Do p e (s : Store) (Q : result error Z -> world Store -> Prop) :
  let sent := MkNotifier (n_redis s) (n_directory s) (n_posts s ++ [p]) (n_dlq s) (n_committed s) in
  match fault_at e (tick e) with
  | NoFault => Q (Ok (http_reply (tick e) p)) (MkWorld (bump e) sent)
  | Refused err => Q (Err err) (MkWorld (bump e) s)
  | LostReply err => Q (Err err) (MkWorld (bump e) sent)
  end -> wp (http_Do p) Q (MkWorld e s).
Proof. unfold wp, http_Do, cur_fault. cbn. by destruct (fault_at e (tick e)). Qed.

Lemma wp_http_Do_calm p e (s : Store) (Q : result error Z -> world Store -> Prop) :
  calm e ->
  Q (Ok (http_reply (tick e) p)) (MkWorld (bump e)
      (MkNotifier (n_redis s) (n_directory s) (n_posts s ++ [p]) (n_dlq s) (n_committed s))) ->
  wp (http_Do p) Q (MkWorld e s).
Proof. unfold wp, http_Do, cur_fault. cbn. intros Hc. by rewrite (calm_now e Hc). Qed.

Lemma wp_postWebhook url secret body e (s : Store) :
  wp (postWebhook url secret body) (fun r w' => exists x, tried e url secret body x /\ r = try_result x /\
    posted (try_sent x) s (w_st w') /\ (tick e <= try_call x < tick (w_env w'))%nat /\ later e (w_env w')) (MkWorld e s).
Proof.
  unfold postWebhook. wp_step. apply wp_time_Now. cbn [w_env w_st].
  destruct (http_NewRequest_err url) as [err|] eqn:Hu.
  { wp_step. exists (MkTry (tick e) [] (Err (WrapError "new request" err))). unfold tried. rewrite Hu.
    split_and!; try done; try apply posted_nil; simpl; try lia. apply later_bump. }
  set (p := post_request url secret body (cur_clock e)). do 2 wp_step.
  assert (Hend : forall ps r s', posted ps s s' -> tried e url secret body (MkTry (S (tick e)) ps r) ->
    exists x, tried e url secret body x /\ r = try_result x /\ posted (try_sent x) s s' /\
      (tick e <= try_call x < tick (bump (bump e)))%nat /\ later e (bump (bump e))).
  { intros ps r s' Hps Hx. exists (MkTry (S (tick e)) ps r). split_and!; try done; [simpl; lia|simpl; lia|].
    etrans; apply later_bump. }
  apply wp_http_Do. cbn [tick fault_at bump].
  destruct (fault_at e (S (tick e))) as [|err|err] eqn:Hf; cbn [map_err].
  - set (code := http_reply (S (tick e)) p).
    assert (Hx : tried e url secret body (MkTry (S (tick e)) [p] (verdict code))) by (unfold tried; by rewrite Hu; cbn; rewrite Hf).
    unfold verdict in Hx. wp_step; wp_step; (apply (Hend [p]); [done|]);
      destruct (Z.ltb_spec code 200), (Z.leb_spec 300 code), (Z.leb_spec 200 code), (Z.ltb_spec code 300); simpl in *; try lia; done.
  - apply (Hend []); [apply posted_nil|]. unfold tried. rewrite Hu. cbn. by rewrite Hf.
  - apply (Hend [p]); [done|]. unfold tried. rewrite Hu. cbn. by rewrite Hf.
Qed.

(** How the tries of a delivery end. *)
Definition tries_end (left : nat) (tries : list try) (o : attempted) : Prop :=
  match o with
  | Delivered => exists pre x, tries = pre ++ [x] /\ Forall failed pre /\ try_result x = Ok tt
  | Exhausted err => length tries = S left /\ Forall failed tries /\ exists x, last tries = Some x /\ try_result x = Err err
  | Cancelled _ => Forall failed tries
  end.

(** Tries one after the other, between two calls. *)
Definition in_turn (e e' : env) (tries : list try) : Prop :=
  StronglySorted lt (map try_call tries) /\ Forall (fun x => (tick e <= try_call x < tick e')%nat) tries.

Lemma in_turn_cons e e1 e2 x tries : (tick e <= try_call x < tick e1)%nat -> later e1 e2 -> in_turn e1 e2 tries ->
  in_turn e e2 (x :: tries).
Proof.
  intros Hx [Ht _ _ _] [Hs Hf]. rewrite Forall_forall in Hf. split; simpl.
  - constructor; [done|]. apply List.Forall_map, List.Forall_forall. intros y Hy%list_elem_of_In. apply Hf in Hy. simpl. lia.
  - constructor; [lia|]. apply Forall_forall. intros y Hy. apply Hf in Hy. lia.
Qed.

(** What is known of the tries of the loop when it ends. *)
Definition looped (url secret body : string) (left : nat) (e : env) (s : Store) (o : attempted) (w' : world Store) : Prop :=
  exists tries, posted (sent_by tries) s (w_st w') /\ (length tries <= S left)%nat /\ Forall (tried e url secret body) tries /\
    in_turn e (w_env w') tries /\ later e (w_env w') /\ tries_end left tries o.

Lemma looped_none url secret body left e e' (s : Store) err : later e e' -> looped url secret body left e s (Cancelled err) (MkWorld e' s).
Proof. intros Hl. exists []. split_and!; try done; [apply posted_nil|simpl; lia|repeat constructor|constructor]. Qed.

Lemma looped_one url secret body left e e1 e' (s s' : Store) x o : tried e url secret body x -> posted (try_sent x) s s' ->
  (tick e <= try_call x < tick e1)%nat -> later e e1 -> later e1 e' -> tries_end left [x] o ->
  looped url secret body left e s o (MkWorld e' s').
Proof.
  intros Hx Hp Hc Hl Hl' Hend. exists [x]. split_and!; [|simpl; lia|by repeat constructor| |by etrans|done].
  - unfold sent_by. simpl. by rewrite app_nil_r.
  - eapply in_turn_cons; [done|done|]. repeat constructor.
Qed.

Lemma looped_more url secret body left e e1 e2 (s s1 : Store) x o w' : tried e url secret body x -> posted (try_sent x) s s1 ->
  (tick e <= try_call x < tick e1)%nat -> later e e1 -> later e1 e2 -> failed x -> looped url secret body left e2 s1 o w' ->
  looped url secret body (S left) e s o w'.
Proof.
  intros Hx Hp Hc Hl Hl' Hfail (tries & Hqs & Hlen & Htried & [Hs Hf] & Hl2 & Hend). pose proof Hl' as [Ht _ _ _].
  assert (Hle : later e e2) by (etrans; done).
  exists (x :: tries). split_and!.
  - unfold sent_by. simpl. by eapply posted_app.
  - simpl. lia.
  - constructor; [done|]. eapply Forall_impl; [exact Htried|]. intros y. by apply tried_later.
  - eapply in_turn_cons; [done|by etrans|]. split; [done|]. eapply Forall_impl; [exact Hf|]. simpl. lia.
  - by etrans.
  - destruct o; simpl in *; [..|by constructor].
    + destruct Hend as (pre & y & -> & Hpre & Hy). exists (x :: pre), y. split_and!; [done|by constructor|done].
    + destruct Hend as (Hn & Hall & y & Hlast & Hy). split_and!; [lia|by constructor|]. exists y. split; [|done].
      destruct tries; [done|exact Hlast].
Qed.

Lemma wp_attempts url secret body left : forall e (s : Store),
  wp (attempts left url secret body) (looped url secret body left e s) (MkWorld e s).
Proof.
  induction left as [|left IH]; intros e s; cbn [attempts]; wp_step; (apply wp_draw; [intros err; wp_step; apply looped_none, later_bump|]);
    wp_step; (eapply wp_mono; [apply wp_postWebhook|]); intros r [e1 s1] (x & Hx & -> & Hps & Hcall & Hl); cbn [w_env w_st] in *;
    apply (tried_later e (bump e)) in Hx; [|apply later_bump| |apply later_bump];
    assert (Hl0 : later e e1) by (etrans; [apply later_bump|done]);
    assert (Hcall0 : (tick e <= try_call x < tick e1)%nat) by (simpl in Hcall; lia);
    destruct (try_result x) as [[]|lastErr] eqn:Hres.
  1,3: wp_step; eapply looped_one; try done; by exists [], x.
  - assert (Hfail : failed x) by (unfold failed; by rewrite Hres). wp_step. eapply looped_one; try done.
    split_and!; [done|by repeat constructor|by exists x].
  - assert (Hfail : failed x) by (unfold failed; by rewrite Hres). wp_step. apply wp_draw.
    + intros err. eapply looped_one; try done; [apply later_bump|by repeat constructor].
    + eapply wp_mono; [apply IH|]. intros o w' Hw. eapply (looped_more _ _ _ _ e e1 (bump e1)); try done. apply later_bump.
Qed.

#[local] Arguments attempts : simpl never.

(** The message that carries an undelivered webhook and the last error to the
dead-letter topic. *)
Definition dead_letter (evt : PaymentEvent) (cfg : WebhookConfig) (body : string) (lastErr : error) (m : DLQMessage) : Prop :=
  exists failedAt, dm_Key m = e_MerchantID evt /\
    dm_Value m = json_text (dlq_value (MkDLQPayload (e_MerchantID evt) (PaymentKey evt) (wc_webhook_url cfg) 3
                                        (Error_ lastErr) body (Format_RFC3339Nano failedAt))).

(** The tries of one delivery: at most three, one after the other, to the
configured URL, with one body that tells the event. *)
Record delivery (evt : PaymentEvent) (e : env) (cfg : WebhookConfig) (body : string) (tries : list try) (s s' : Store) : Prop := {
  dl_tries : exists e1 d1, dir_GetWebhookConfig (e_MerchantID evt) (MkWorld e (n_directory s)) = (Ok cfg, MkWorld e1 d1) /\
    body = json_text (webhook_value (MkWebhookBody "payment.settled" (webhook_data evt) (Format_RFC3339Nano (cur_clock e1)))) /\
    Forall (tried e1 (wc_webhook_url cfg) (wc_hmac_secret cfg) body) tries;
  dl_count : (length tries <= 3)%nat;
  dl_order : StronglySorted lt (map try_call tries);
  dl_posts : n_posts s' = n_posts s ++ sent_by tries;
  dl_rest : n_redis s' = n_redis s /\ n_committed s' = n_committed s;
}.

(** What an error, and what success, leave behind. *)
Definition finished (evt : PaymentEvent) (cfg : WebhookConfig) (body : string) (tries : list try)
    (r : result error unit) (s s' : Store) : Prop :=
  let dead := exists x lastErr m, length tries = 3%nat /\ Forall failed tries /\ last tries = Some x /\
                try_result x = Err lastErr /\ dead_letter evt cfg body lastErr m /\ n_dlq s' = n_dlq s ++ [m] in
  match r with
  | Ok _ => (wc_webhook_url cfg = "" /\ tries = [] /\ n_dlq s' = n_dlq s) \/
            (exists pre x, tries = pre ++ [x] /\ Forall failed pre /\ try_result x = Ok tt /\ n_dlq s' = n_dlq s) \/ dead
  | Err _ => (Forall failed tries /\ n_dlq s' = n_dlq s) \/ dead
  end.

(** The event is not complete, or the directory does not tell its webhook. *)
Definition undeliverable (evt : PaymentEvent) (e : env) (s : Store) : Prop :=
  PaymentKey evt = "" \/ e_MerchantID evt = "" \/
  exists err, fst (dir_GetWebhookConfig (e_MerchantID evt) (MkWorld e (n_directory s))) = Err err.

Lemma wp_publishDLQ dlq evt cfg body lastErr e (s : Store) :
  wp (publishDLQ dlq evt (wc_webhook_url cfg) body 3 lastErr) (fun r w' =>
    n_posts (w_st w') = n_posts s /\ n_redis (w_st w') = n_redis s /\ n_committed (w_st w') = n_committed s /\
    let dead := exists m, dead_letter evt cfg body lastErr m /\ n_dlq (w_st w') = n_dlq s ++ [m] in
    match r with Ok _ => dead | Err _ => n_dlq (w_st w') = n_dlq s \/ dead end) (MkWorld e s).
Proof.
  assert (Hdead : forall t t', dead_letter evt cfg body lastErr (MkDLQMessage (e_MerchantID evt)
            (json_text (dlq_value (MkDLQPayload (e_MerchantID evt) (PaymentKey evt) (wc_webhook_url cfg) 3
               (Error_ lastErr) body (Format_RFC3339Nano t)))) t')) by (intros; by exists t).
  unfold publishDLQ. wp_step; [wp_step; auto|]. wp_step. apply wp_time_Now. simpl. wp_step. apply wp_time_Now. simpl.
  wp_step. unfold dlq_Write. apply wp_exec; simpl; [auto|..]; intros r s' .
  - intros [= <- <-]. simpl. eauto 10.
  - intros err [= _ <-]. simpl. eauto 10.
Qed.

(** What is left when a delivery has not begun. *)
Definition untouched (r : result error unit) (s s' : Store) : Prop :=
  is_ok r = false /\ n_posts s' = n_posts s /\ n_dlq s' = n_dlq s /\ n_redis s' = n_redis s /\ n_committed s' = n_committed s.

Lemma wp_Deliver dlq evt e (s : Store) :
  wp (Deliver dlq evt) (fun r w' => (undeliverable evt e s /\ untouched r s (w_st w')) \/
    exists cfg body tries, delivery evt e cfg body tries s (w_st w') /\ finished evt cfg body tries r s (w_st w')) (MkWorld e s).
Proof.
  unfold Deliver. destruct (is_empty (PaymentKey evt)) eqn:Hk.
  { wp_step. left. apply is_empty_true in Hk. split; [by left|by split_and!]. }
  destruct (is_empty (e_MerchantID evt)) eqn:Hm.
  { wp_step. left. apply is_empty_true in Hm. split; [by right; left|by split_and!]. }
  do 2 wp_step. unfold on_directory. apply wp_within. apply run_wp. intros [cfg|err] [e1 d1] Hdir; cbn [w_env w_st map_err] in *.
  2: { left. split; [|by split_and!]. right. right. exists err. by rewrite Hdir. }
  set (body := json_text (webhook_value (MkWebhookBody "payment.settled" (webhook_data evt) (Format_RFC3339Nano (cur_clock e1))))).
  destruct (is_empty (wc_webhook_url cfg)) eqn:Hurl.
  { wp_step. right. exists cfg, body, []. apply is_empty_true in Hurl. split; [|by left]. constructor; [|simpl; lia|constructor|simpl; by rewrite app_nil_r|done].
    exists e1, d1. split_and!; [exact Hdir|done|constructor]. }
  wp_step. unfold buildWebhookBody. wp_step. apply wp_time_Now. cbn [w_env w_st]. wp_step. fold body.
  wp_step. eapply wp_mono; [apply wp_attempts|].
  intros o [e2 s2] (tries & (Hp & Hr & _ & Hq & Hc) & Hl & Htried & [Hsort _] & _ & Hend). cbn [w_env w_st n_posts n_redis n_dlq n_committed] in *.
  assert (Hdel : forall s', n_posts s' = n_posts s2 -> n_redis s' = n_redis s2 -> n_committed s' = n_committed s2 ->
            delivery evt e cfg body tries s s').
  { intros s' E1 E2 E3. constructor; [|done|done|by rewrite E1|by rewrite E2, E3].
    exists e1, d1. split_and!; [exact Hdir|done|]. eapply Forall_impl; [exact Htried|]. intros x. apply tried_later, later_bump. }
  destruct o as [|lastErr|err]; simpl in Hend.
  - wp_step. right. exists cfg, body, tries. split; [by apply Hdel|]. destruct Hend as (pre & x & -> & Hpre & Hx).
    right. left. by exists pre, x.
  - destruct Hend as (Hn & Hall & x & Hlast & Hx).
    wp_step. eapply wp_mono; [apply wp_publishDLQ|]. intros r [e3 s3] (E1 & E2 & E3 & Hr3). right.
    exists cfg, body, tries. split; [by apply Hdel|]. cbn [w_st] in Hr3. rewrite Hq in Hr3.
    destruct r as [[]|err]; cbn [map_err finished].
    + right. right. destruct Hr3 as (m & Hdm & Hm'). exists x, lastErr, m. by split_and!.
    + destruct Hr3 as [Hr3|(m & Hdm & Hm')]; [by left|]. right. exists x, lastErr, m. by split_and!.
  - wp_step. right. exists cfg, body, tries. split; [by apply Hdel|]. left. by split.
Qed.

(* ------------------------------------------------------------------ *)
(** ** What the merchant checks *)

(** A receiver that reads the timestamp header and verifies the signature with
its secret, [now] being its clock. *)
Definition verify_request (secret : string) (now : Z) (p : PostRequest) : bool :=
  match Atoi (pq_timestamp p) with
  | Some sec => Verify secret (pq_signature p) (sec * second) (pq_body p) now
  | None => false
  end.

Lemma signed_verifies url secret body ts now :
  in_int64 ts -> Z.abs (now - ts) <= DefaultMaxAge - second ->
  verify_request secret now (post_request url secret body ts) = true.
Proof.
  unfold in_int64, min_int64, max_int64, DefaultMaxAge, minute, second, millisecond. intros Hts Hnow. unfold verify_request, post_request. simpl.
  assert (Hsec : in_int64 (ts / second)) by
    (unfold in_int64, min_int64, max_int64, second, millisecond; Z.to_euclidean_division_equations; lia).
  assert (Hu : Unix ts = ts / second) by (by apply int64_id).
  unfold TimestampHeader. rewrite Hu, (Atoi_itoa _ Hsec). unfold Verify.
  apply (VerifyWithTolerance_spec secret _ _ _ _ _); [done|]. split.
  - assert (Unix (ts / second * second) = ts / second) as E by (unfold Unix; rewrite Z.div_mul by done; by apply int64_id).
    unfold Sign, signed_message. by rewrite Hu, E.
  - right. left. unfold DefaultMaxAge, minute, second, millisecond. Z.to_euclidean_division_equations; lia.
Qed.

(* ------------------------------------------------------------------ *)
(** ** Theorems *)

(** C22.  What a delivery does, whatever fails and whenever: when the event is not
complete or the directory does not tell the webhook, it ends in an error and
leaves everything alone; else there are at most three tries, one after the other,
all to the configured URL with the same body, which tells this event, and each
request is signed so that the holder of the configured secret accepts it for five
minutes less the second the header drops.  Success means that the last try, and
only that, was answered 2xx, or that there is no URL, or that three tries failed
and the body went to the dead-letter topic with the error of the last; an error
leaves only failed tries and at most that dead letter. *)
Theorem delivery_outcome dlq evt e (s : Store) r w' :
  Deliver dlq evt (MkWorld e s) = (r, w') ->
  (undeliverable evt e s /\ untouched r s (w_st w')) \/
  exists cfg body tries,
    delivery evt e cfg body tries s (w_st w') /\ finished evt cfg body tries r s (w_st w') /\
    forall p, p ∈ sent_by tries -> exists ts, p = post_request (wc_webhook_url cfg) (wc_hmac_secret cfg) body ts /\
      forall now, in_int64 ts -> Z.abs (now - ts) <= DefaultMaxAge - second ->
        verify_request (wc_hmac_secret cfg) now p = true.
Proof.
  intros Hrun. destruct (wp_run _ _ _ _ _ Hrun (wp_Deliver dlq evt e s)) as [Hu|(cfg & body & tries & Hd & Hf)]; [by left|].
  right. exists cfg, body, tries. split_and!; [done..|]. intros p Hp.
  destruct Hd as [(e1 & d1 & _ & _ & Htried) _ _ _ _]. unfold sent_by in Hp. apply list_elem_of_In, in_concat in Hp as (ps & Hps & Hp).
  apply in_map_iff in Hps as (x & <- & Hx). apply list_elem_of_In in Hx, Hp. rewrite Forall_forall in Htried.
  destruct (tried_sent _ _ _ _ _ _ (Htried x Hx) Hp) as [ts ->]. exists ts. split; [done|]. intros now Hts Hnow. by apply signed_verifies.
Qed.

(** A message for a settled payment. *)
Definition settled_event (msg : KafkaMessage) (evt : PaymentEvent) : Prop :=
  event_Unmarshal (km_Value msg) = Some evt /\ PaymentKey evt <> "" /\
  (e_EventType evt = "" \/ e_EventType evt = "payment.settled").

Context `{!RedisLaws R}.

(** A live mark stops a delivery, also when Redis does not answer. *)
Lemma handle_marked dlq msg evt e (s : Store) :
  settled_event msg evt -> is_Some (live (n_redis s) (cur_clock e) (deliveredKey (PaymentKey evt))) ->
  n_posts (w_st (snd (handle dlq msg (MkWorld e s)))) = n_posts s.
Proof.
  intros (Hu & Hk & Ht) [v Hv]. change (wp (handle dlq msg) (fun _ w => n_posts (w_st w) = n_posts s) (MkWorld e s)).
  unfold handle. rewrite Hu. cbv zeta. wp_step; [by wp_step|]. wp_step; [by wp_step|]. do 2 wp_step.
  unfold alreadyDelivered, on_redis. wp_step. apply wp_within. apply wp_exec; [done|..]; intros r r1; rewrite Exists_law, Hv.
  - intros [= <- <-]. simpl. by repeat wp_step.
  - by intros err [= _ <-].
Qed.

(** The last reading of the clock in a run that ended at [w]. *)
Definition last_reading (w : world Store) : Z := clock (w_env w) (pred (tick (w_env w))).

(** C21.  A payment that was announced is not announced again for 24 hours: if
handling a message sent a request and succeeded, then handling a message about
the same payment, from a store with the same Redis, sends nothing, whatever fails,
when it starts at or after the last clock reading of the first handling (which
comes after the request) and less than 24 hours after it. *)
Theorem announced_once dlq msg msg2 evt evt2 e (s : Store) w1 :
  settled_event msg evt -> settled_event msg2 evt2 -> PaymentKey evt2 = PaymentKey evt ->
  handle dlq msg (MkWorld e s) = (Ok tt, w1) -> n_posts (w_st w1) <> n_posts s ->
  forall e2 (s2 : Store), n_redis s2 = n_redis (w_st w1) ->
    last_reading w1 <= cur_clock e2 < last_reading w1 + deliveredKeyTTL ->
    n_posts (w_st (snd (handle dlq msg2 (MkWorld e2 s2)))) = n_posts s2.
Proof.
  intros Hev Hev2 Hkey Hrun Hposts.
  assert (Hmark : forall t2, last_reading w1 <= t2 < last_reading w1 + deliveredKeyTTL ->
            is_Some (live (n_redis (w_st w1)) t2 (deliveredKey (PaymentKey evt)))).
  { revert Hposts. pattern (Ok tt : result error unit), w1. refine (wp_run (handle dlq msg) (fun r w =>
      r = Ok tt -> n_posts (w_st w) <> n_posts s -> forall t2, last_reading w <= t2 < last_reading w + deliveredKeyTTL ->
        is_Some (live (n_redis (w_st w)) t2 (deliveredKey (PaymentKey evt)))) _ _ _ Hrun _ eq_refl).
    clear Hrun w1. destruct Hev as (Hu & Hk & Ht). unfold handle. rewrite Hu. cbv zeta.
    wp_step; [by wp_step|]. wp_step; [by wp_step|]. do 2 wp_step.
    unfold alreadyDelivered, on_redis. wp_step. apply wp_within. apply wp_exec; [done|..]; intros r r1; rewrite Exists_law; [|done].
    intros [= <- <-]. simpl. wp_step. simpl. wp_step; [by wp_step|]. wp_step.
    destruct s as [red dir posts dl com]. simpl.
    apply run_wp. intros [[]|err] [e1 s1] _; [|done]. wp_step.
    unfold markDelivered, on_redis. apply wp_within. apply wp_exec; [done| |done].
    intros rr r2 Hset _ _ t2. unfold last_reading. cbn [w_env tick clock bump pred]. intros Ht2.
    pose proof (Set_law (deliveredKey (PaymentKey evt)) "1" deliveredKeyTTL (cur_clock e1) (cur_uuid e1) (n_redis s1)) as Hl.
    simpl in Hset. rewrite Hset in Hl. destruct Hl as (_ & Hl & _). unfold cur_clock in Hl.
    simpl. rewrite Hl by lia. destruct (Z.ltb_spec t2 (clock e1 (tick e1) + deliveredKeyTTL)); [eauto|lia]. }
  intros e2 s2 Hr Hclock. apply (handle_marked dlq msg2 evt2); [done|]. rewrite Hr, Hkey. by apply Hmark.
Qed.

(** C37.  A message that could not be handled is lost when a later one is: [Run]
passes over it, the commit of the later message covers it, and a restarted
consumer does not get it again. *)
Theorem later_commit_covers_failure dlq (log : list KafkaMessage) m1 m2 e (s : Store) err w1 w2 w' :
  km_Offset m1 < km_Offset m2 -> fault_at e (tick e) = NoFault ->
  handle dlq m1 (MkWorld (bump e) s) = (Err err, w1) ->
  fault_at (w_env w1) (tick (w_env w1)) = NoFault ->
  handle dlq m2 (MkWorld (bump (w_env w1)) (w_st w1)) = (Ok tt, w2) ->
  Run dlq [m1; m2] (MkWorld e s) = (Ok tt, w') ->
  m1 ∉ resumed log (w_st w') /\ n_posts (w_st w') = n_posts (w_st w2) /\ n_dlq (w_st w') = n_dlq (w_st w2).
Proof.
  intros Hoff He Hm1 He1 Hm2 Hrun.
  assert (Hstep : Run dlq [m1; m2] (MkWorld e s) =
            gtry (gmap_err (WrapError "commit") (CommitMessages m2)) (fun _ => Run dlq []) w2).
  { cbn [Run]. unfold gbind at 1, draw at 1, cur_fault at 1. cbn [w_env w_st]. rewrite He.
    unfold gbind at 1. rewrite Hm1. unfold gbind at 1, draw at 1, cur_fault at 1. rewrite He1.
    unfold gbind at 1. by rewrite Hm2. }
  rewrite Hstep in Hrun. destruct w2 as [e2 s2].
  refine (wp_run _ (fun r w => r = Ok tt -> m1 ∉ resumed log (w_st w) /\ n_posts (w_st w) = n_posts s2 /\
    n_dlq (w_st w) = n_dlq s2) _ _ _ Hrun _ eq_refl).
  do 2 wp_step. unfold CommitMessages. apply wp_exec; [done| |done].
  intros r s3 [= <- <-]. simpl. wp_step. intros _. split_and!; try done. unfold resumed. simpl.
  intros [_ Hle%Z.leb_le]%elem_of_where. simpl in Hle. lia.
Qed.
End Props.
