(* ===== verification/WebhookFlow.v ===== *)
(** * From a settled payment to the merchant's web server.

The composition of three models: the payload the payment service writes to its
outbox ([PaymentRepo.buildSettledPayload]), the consumer that reads it back
([Notification.handle]), and the merchant service that knows where to send it
([MerchantHandler.GetWebhookConfig], reached over gRPC). *)
From S2P Require Import Prelude GoStrings Utf8 DomainErr World Proto Uuid Redis Idempotency GoTime Sha256 GoJson JsonParse JsonStruct Webhook Auth.
From S2P Require Import MerchantRepo MerchantService MerchantHandler MerchantProps PaymentRepo Deliver Notification EventDecode NotificationProps.
From Stdlib Require Import Ascii.
Local Open Scope Z_scope.
Local Open Scope go_scope.

Section Flow.
Context `{UuidLib} `{Unicode} `{Entropy} `{Bcrypt} `{GrpcLib} `{Endpoint} `{JsonbLaw}.
Context {R : Type} `{Redis R} `{!RedisLaws R}.

#[export] Instance merchant_directory : Directory MerchantDB := fun id => remote (MerchantHandler.GetWebhookConfig id).

Abbreviation Store := (Notifier R MerchantDB).

(** The event the consumer makes of the payload. *)
Definition settled_payment_event (p : Payment) (settledAt : Z) : PaymentEvent :=
  MkPaymentEvent "payment.settled" "" (p_ID p) (p_MerchantID p) (p_ConsentID p) (p_ConsumerID p)
    (p_AmountPence p) (p_Currency p) StatusSettled (p_BankPaymentRef p) (p_Description p)
    (default 0 (p_RiskScore p)) (p_RiskDecision p) (Format_RFC3339Nano (p_InitiatedAt p)) (Format_RFC3339Nano settledAt).

Definition in_int32 (z : Z) : Prop := - 2 ^ 31 <= z < 2 ^ 31.

Lemma in_range_check bits z : 0 < bits -> - 2 ^ (bits - 1) <= z < 2 ^ (bits - 1) ->
  (- 2 ^ (bits - 1) <=? z) && (z <? 2 ^ (bits - 1)) = true.
Proof. intros _ Hz. apply andb_true_iff. rewrite Z.leb_le, Z.ltb_lt. lia. Qed.

(** A payment as its table holds it: the text columns are texts. *)
Definition stored_texts (p : Payment) : Prop :=
  Forall pg_text [p_ID p; p_IdempotencyKey p; p_MerchantID p; p_ConsentID p; p_ConsumerID p; p_Currency p;
                  p_BankPaymentRef p; p_RiskDecision p; p_Description p].

Lemma payload_texts p t k s : stored_texts p -> (k, JStr s) ∈ buildSettledPayload p t -> pg_text s.
Proof.
  intros Hp Hin. unfold stored_texts in Hp. rewrite !Forall_cons in Hp. destruct Hp as (Hp1 & Hp2 & Hp3 & Hp4 & Hp5 & Hp6 & Hp7 & Hp8 & Hp9 & _).
  assert (Hconst : pg_text EventPaymentSettled /\ pg_text StatusSettled) by (split; split; [reflexivity|set_solver|reflexivity|set_solver]).
  destruct Hconst as [Hc1 Hc2]. unfold buildSettledPayload in Hin.
  repeat (apply elem_of_cons in Hin as [E|Hin]; [first [injection E as _ ->; assumption|injection E as _ E; by destruct (p_RiskScore p)|discriminate E]|]).
  by apply elem_of_nil in Hin.
Qed.

Lemma payload_event p t : stored_texts p -> in_int64 (p_AmountPence p) -> in_int32 (default 0 (p_RiskScore p)) ->
  event_Unmarshal (jsonb_text (buildSettledPayload p t)) = Some (settled_payment_event p t).
Proof.
  intros Hp Ha Hs. apply payload_text_decodes.
  - apply (bool_decide_unpack _). vm_compute. exact I.
  - vm_compute. reflexivity.
  - intros k s. by apply payload_texts.
  - assert (Hint : int_field 64 "amount_pence" (buildSettledPayload p t) = Some (p_AmountPence p)).
    { unfold int_field. change (obj_member "amount_pence" _) with (Some (JInt (p_AmountPence p))). cbn iota.
      rewrite in_range_check; [done|lia|]. unfold in_int64, min_int64, max_int64 in Ha. simpl in *. lia. }
    assert (Hscore : int_field 32 "risk_score" (buildSettledPayload p t) = Some (default 0 (p_RiskScore p))).
    { unfold int_field. change (obj_member "risk_score" (buildSettledPayload p t)) with
        (Some (match p_RiskScore p with Some n => JInt n | None => JNull end)).
      destruct (p_RiskScore p) as [n|]; [|done]. cbn iota. rewrite in_range_check; [done|lia|].
      unfold in_int32 in Hs. simpl in *. lia. }
    unfold event_of. rewrite Hint, Hscore. reflexivity.
Qed.

(** The web server of the merchant takes every webhook it is sent. *)
Definition server_accepts (url : string) : Prop :=
  http_NewRequest_err url = None /\ forall n req, pq_url req = url -> 200 <= http_reply n req < 300.

Lemma wp_remote_config id e db m : calm e -> pg_uuid id = Some id -> TrimSpace id = id -> id <> "" ->
  find_merchant id db = Some m ->
  wp (dir_GetWebhookConfig id) (fun r w' =>
    r = Ok (MkWebhookConfig (m_ID m) (m_WebhookURL m) (m_HMACSecret m)) /\ calm (w_env w') /\ w_st w' = db)
    (MkWorld e db).
Proof.
  intros Hc Hu Ht Hne Hf. unfold dir_GetWebhookConfig, merchant_directory, wp, remote, cur_fault. cbn [w_env w_st].
  rewrite (calm_now e Hc). change (wp (MerchantHandler.GetWebhookConfig id) (fun r w' =>
    r = Ok (MkWebhookConfig (m_ID m) (m_WebhookURL m) (m_HMACSecret m)) /\ calm (w_env w') /\ w_st w' = db) (MkWorld (bump e) db)).
  unfold MerchantHandler.GetWebhookConfig, answer, MerchantService.GetWebhookConfig. wp_step. cbv zeta. rewrite Ht.
  rewrite (proj2 (is_empty_false id) Hne). unfold MerchantRepo.GetWebhookConfig. wp_step. unfold row. wp_step.
  eapply wp_exec_calm; [done|unfold uuid_arg, query; rewrite Hu; reflexivity|]. rewrite Hf. by repeat wp_step.
Qed.

Lemma wp_postWebhook_calm url secret body e (s : Store) : calm e -> server_accepts url ->
  wp (postWebhook url secret body) (fun r w' => r = Ok tt /\ calm (w_env w') /\ exists ts,
    w_st w' = MkNotifier (n_redis s) (n_directory s) (n_posts s ++ [post_request url secret body ts]) (n_dlq s) (n_committed s))
    (MkWorld e s).
Proof.
  intros Hc [Hurl Hrep]. unfold postWebhook. wp_step. apply wp_time_Now. simpl. rewrite Hurl. do 2 wp_step.
  apply wp_http_Do_calm; [done|]. cbn.
  destruct (Hrep (S (tick e)) (post_request url secret body (cur_clock e)) eq_refl) as [H200 H300].
  replace (_ <? 200) with false by lia. replace (300 <=? _) with false by lia. cbv iota beta delta [orb]. wp_step. split_and!; [done|done|by eexists].
Qed.

Lemma wp_alreadyDelivered_calm pid e (s : Store) : calm e ->
  live (n_redis s) (cur_clock e) (deliveredKey pid) = None ->
  wp (alreadyDelivered pid) (fun r w' => r = Ok false /\ calm (w_env w') /\ w_st w' = s) (MkWorld e s).
Proof.
  intros Hc Hlive. unfold alreadyDelivered, on_redis. wp_step. apply wp_within.
  eapply wp_exec_calm; [done|by rewrite Exists_law, Hlive|]. cbn. wp_step. by destruct s.
Qed.

Lemma wp_markDelivered_calm pid e (s : Store) : calm e ->
  wp (markDelivered pid) (fun r w' => r = Ok tt /\ n_posts (w_st w') = n_posts s /\ n_dlq (w_st w') = n_dlq s /\
    exists t, live (n_redis (w_st w')) t (deliveredKey pid) = Some "1") (MkWorld e s).
Proof.
  intros Hc. unfold markDelivered, on_redis. apply wp_within.
  pose proof (Set_law (deliveredKey pid) "1" deliveredKeyTTL (cur_clock e) (cur_uuid e) (n_redis s)) as Hset.
  destruct (r_Set _ _ _ _ _ _) as [a r'] eqn:Er. destruct Hset as (-> & Hl & _).
  eapply wp_exec_calm; [done|exact Er|]. cbn. split_and!; [done..|]. exists (cur_clock e). rewrite Hl by lia.
  destruct (Z.ltb_spec (cur_clock e) (cur_clock e + deliveredKeyTTL)); [done|].
  unfold deliveredKeyTTL, hour, minute, second, millisecond in *. lia.
Qed.

(** The request of a delivery that goes well. *)
Definition announcement (evt : PaymentEvent) (m : MerchantRow) (req : PostRequest) : Prop :=
  exists ts delivered_at,
    req = post_request (m_WebhookURL m) (m_HMACSecret m) (pq_body req) ts /\
    pq_body req = json_text (webhook_value (MkWebhookBody "payment.settled" (webhook_data evt) delivered_at)).

Lemma wp_Deliver_calm dlq evt m e (s : Store) : calm e -> PaymentKey evt <> "" ->
  pg_uuid (e_MerchantID evt) = Some (e_MerchantID evt) -> TrimSpace (e_MerchantID evt) = e_MerchantID evt ->
  e_MerchantID evt <> "" -> find_merchant (e_MerchantID evt) (n_directory s) = Some m ->
  m_WebhookURL m <> "" -> server_accepts (m_WebhookURL m) ->
  wp (Deliver dlq evt) (fun r w' => r = Ok tt /\ calm (w_env w') /\ exists req, announcement evt m req /\
    w_st w' = MkNotifier (n_redis s) (n_directory s) (n_posts s ++ [req]) (n_dlq s) (n_committed s)) (MkWorld e s).
Proof.
  intros Hc Hk Hu Ht Hmne Hf Hurlne Hsrv. unfold Deliver.
  apply is_empty_false in Hk, Hmne as Hmne', Hurlne. rewrite Hk, Hmne'. do 2 wp_step. unfold on_directory. apply wp_within.
  eapply wp_mono; [by apply (wp_remote_config _ _ _ m)|]. intros r [e1 d] (-> & Hc1 & Hd). cbn in Hc1, Hd. subst d.
  cbn [map_err wc_webhook_url wc_hmac_secret w_env w_st]. rewrite Hurlne.
  wp_step. unfold buildWebhookBody. wp_step. apply wp_time_Now. wp_step.
  remember (json_text _) as body eqn:Hbody.
  wp_step. change (maxAttempts - 1)%nat with 2%nat. cbn [attempts]. wp_step. apply wp_draw_calm; [done|]. wp_step.
  eapply wp_mono; [by apply wp_postWebhook_calm|]. intros r [e2 s2] (-> & Hc2 & ts & Hs2). cbn [w_env w_st] in Hc2, Hs2. subst s2.
  do 2 wp_step. split; [done|]. split; [done|]. eexists. split; [|reflexivity]. exists ts, (Format_RFC3339Nano (cur_clock e1)).
  split; [done|exact Hbody].
Qed.

(** C12.  A settled payment reaches the merchant: when nothing fails, the payment
holds texts that the database can store, the merchant is registered with a URL its server answers 2xx at, and the payment has not been
announced, handling the outbox message of the settled payment succeeds with one
request, to that URL, whose body tells the payment's identifier, amount and
status, and which the merchant verifies with the secret of its registration for
five minutes less a second; and the announcement is marked. *)
Theorem settlement_reaches_merchant dlq p t off e (s : Store) m :
  calm e -> stored_texts p -> in_int64 (p_AmountPence p) -> in_int32 (default 0 (p_RiskScore p)) -> p_ID p <> "" ->
  pg_uuid (p_MerchantID p) = Some (p_MerchantID p) -> TrimSpace (p_MerchantID p) = p_MerchantID p -> p_MerchantID p <> "" ->
  find_merchant (p_MerchantID p) (n_directory s) = Some m -> m_WebhookURL m <> "" -> server_accepts (m_WebhookURL m) ->
  live (n_redis s) (cur_clock e) (deliveredKey (p_ID p)) = None ->
  exists w' ts req delivered_at,
    handle dlq (MkKafkaMessage off (jsonb_text (buildSettledPayload p t))) (MkWorld e s) = (Ok tt, w') /\
    n_posts (w_st w') = n_posts s ++ [req] /\ n_dlq (w_st w') = n_dlq s /\
    req = post_request (m_WebhookURL m) (m_HMACSecret m) (pq_body req) ts /\
    pq_body req = json_text (webhook_value (MkWebhookBody "payment.settled"
      (MkWebhookPaymentData (p_ID p) (p_MerchantID p) (p_ConsentID p) (p_ConsumerID p) (p_AmountPence p)
         (if is_empty (p_Currency p) then "GBP" else p_Currency p) "SETTLED" (p_BankPaymentRef p)
         (default 0 (p_RiskScore p)) (p_RiskDecision p) (Format_RFC3339Nano t) (p_Description p)) delivered_at)) /\
    (forall now, in_int64 ts -> Z.abs (now - ts) <= DefaultMaxAge - second ->
       verify_request (m_HMACSecret m) now req = true) /\
    exists t', live (n_redis (w_st w')) t' (deliveredKey (p_ID p)) = Some "1".
Proof.
  intros Hc Htexts Ha Hs Hid Hu Ht Hmne Hf Hurlne Hsrv Hlive.
  set (msg := MkKafkaMessage off (jsonb_text (buildSettledPayload p t))). set (evt := settled_payment_event p t).
  assert (Hw : wp (handle dlq msg) (fun r w' => r = Ok tt /\ exists req, announcement evt m req /\
    n_posts (w_st w') = n_posts s ++ [req] /\ n_dlq (w_st w') = n_dlq s /\
    exists t', live (n_redis (w_st w')) t' (deliveredKey (p_ID p)) = Some "1") (MkWorld e s)).
  { unfold handle. cbn [km_Value msg]. rewrite payload_event by done. fold evt. cbv zeta.
    change (PaymentKey evt) with (p_ID p). rewrite (proj2 (is_empty_false _) Hid).
    change (negb (is_empty (e_EventType evt)) && negb (bool_decide (e_EventType evt = "payment.settled"))) with false.
    cbv iota. do 2 wp_step. eapply wp_mono; [by apply wp_alreadyDelivered_calm|]. intros r [e1 s1] (-> & Hc1 & Hs1). cbn in Hc1, Hs1. subst s1.
    cbn [map_err]. wp_step. eapply wp_mono; [by apply (wp_Deliver_calm dlq evt m)|].
    intros r [e2 s2] (-> & Hc2 & req & Hreq & Hs2). cbn in Hc2, Hs2. subst s2. wp_step.
    eapply wp_mono; [by apply wp_markDelivered_calm|]. intros r w' (-> & Hp & Hq & Hl). split; [done|].
    exists req. by split_and!. }
  unfold wp in Hw. destruct (handle dlq msg (MkWorld e s)) as [r w'] eqn:Erun.
  destruct Hw as (Hr & req & (ts & at_ & Hreq & Hbody) & Hp & Hq & Hl). cbn [fst snd] in *. subst r.
  exists w', ts, req, at_. split_and!; try done. intros now Hts Hnow. rewrite Hreq. by apply signed_verifies.
Qed.
End Flow.

(* ------------------------------------------------------------------ *)
(** ** Examples *)

(** A web server that takes what is sent to one URL. *)
Definition shop_server : Endpoint := {|
  http_NewRequest_err url := if bool_decide (url = "https://shop.example/hook") then None else Some (PlainError "parse url");
  http_reply _ req := if bool_decide (pq_url req = "https://shop.example/hook") then 204 else 500;
|}.

#[local] Existing Instances text_uuids ascii_tables simple_grpc demo_entropy demo_bcrypt compact_text compact_text_law shop_server.

Definition shop_payment : Payment :=
  MkPayment "pay1" "key1" "m4" "consent1" "alice" 5000 "GBP" StatusSettled "bank1" None (Some 10) "APPROVE" "" ""
    1700000000000000000 None 1700000000000000000.
Definition shop_message : KafkaMessage := MkKafkaMessage 7 (jsonb_text (buildSettledPayload shop_payment 1700000001000000000)).
Definition shop_notifier : Notifier Memory MerchantDB := MkNotifier empty_memory shop_db [] [] 0.

Example shop_announced :
  let '(r, w) := handle true shop_message (MkWorld (shop_env 50) shop_notifier) in
  r = Ok tt /\ map pq_url (n_posts (w_st w)) = ["https://shop.example/hook"] /\
  map (verify_request (hex_Encode (rand_at 2 32)) 100) (n_posts (w_st w)) = [true] /\
  let '(r2, w2) := handle true shop_message (MkWorld (shop_env 80) (w_st w)) in
  r2 = Ok tt /\ length (n_posts (w_st w2)) = 1%nat.
Proof. vm_compute. auto 10. Qed.

Definition shop_evt : PaymentEvent := settled_payment_event shop_payment 1700000001000000000.

Lemma delivery_outcome_witness :
  let '(r, w') := Deliver true shop_evt (MkWorld (shop_env 50) shop_notifier) in
  length (n_posts (w_st w')) = 1%nat /\
  exists cfg body tries, delivery shop_evt (shop_env 50) cfg body tries shop_notifier (w_st w') /\
    finished shop_evt cfg body tries r shop_notifier (w_st w').
Proof.
  destruct (Deliver true shop_evt (MkWorld (shop_env 50) shop_notifier)) as [r w'] eqn:Hrun.
  assert (Hl : length (n_posts (w_st w')) = 1%nat) by (apply (f_equal (fun x => length (n_posts (w_st x.2)))) in Hrun;
    cbn [snd] in Hrun; rewrite <- Hrun; vm_compute; reflexivity).
  split; [exact Hl|].
  destruct (delivery_outcome true shop_evt (shop_env 50) shop_notifier r w' Hrun) as [(_ & _ & Hp & _)|(cfg & body & tries & Hd & Hf & _)].
  - by rewrite Hp in Hl.
  - exists cfg, body, tries. by split.
Defined.

Lemma shop_texts : stored_texts shop_payment.
Proof. unfold stored_texts. repeat constructor; first [reflexivity|by apply (bool_decide_unpack _)]. Qed.

Lemma shop_settled : settled_event shop_message shop_evt.
Proof.
  split; [apply payload_event; [apply shop_texts|vm_compute; split; congruence..]|]. split; [done|by right].
Qed.

Lemma announced_once_witness :
  exists w1, handle true shop_message (MkWorld (shop_env 50) shop_notifier) = (Ok tt, w1) /\ last_reading w1 = 57 /\
  forall e2 (s2 : Notifier Memory MerchantDB), n_redis s2 = n_redis (w_st w1) -> 57 <= cur_clock e2 < 57 + 24 * hour ->
    n_posts (w_st (snd (handle true shop_message (MkWorld e2 s2)))) = n_posts s2.
Proof.
  destruct (handle true shop_message (MkWorld (shop_env 50) shop_notifier)) as [r w1] eqn:Hrun.
  assert ((r, length (n_posts (w_st w1)), last_reading w1) = (Ok tt, 1%nat, 57)) as [= -> Hl Ht].
  { transitivity ((fun x => (x.1, length (n_posts (w_st x.2)), last_reading x.2)) (handle true shop_message (MkWorld (shop_env 50) shop_notifier)));
      [by rewrite Hrun|vm_compute; reflexivity]. }
  exists w1. split; [reflexivity|]. split; [exact Ht|]. intros e2 s2 Hr Hclock.
  apply (announced_once true shop_message shop_message shop_evt shop_evt (shop_env 50) shop_notifier w1).
  - apply shop_settled.
  - apply shop_settled.
  - reflexivity.
  - exact Hrun.
  - intros E. by rewrite E in Hl.
  - exact Hr.
  - rewrite Ht. exact Hclock.
Defined.

(** The merchant service does not answer the first time: the first of two
announcements is never made, and a restart does not bring it back. *)
Definition outage_env : env :=
  MkEnv 50 Z.of_nat (fun n => "m" +:+ pretty (N.of_nat n)) (fun n => if Nat.eqb n 52 then Refused (PlainError "unavailable") else NoFault).
Definition second_payment : Payment :=
  MkPayment "pay2" "key2" "m4" "consent1" "alice" 900 "GBP" StatusSettled "bank2" None None "APPROVE" "" ""
    1700000002000000000 None 1700000002000000000.
Definition second_message : KafkaMessage := MkKafkaMessage 8 (jsonb_text (buildSettledPayload second_payment 1700000003000000000)).

Lemma later_commit_covers_failure_witness :
  let w' := snd (Run true [shop_message; second_message] (MkWorld outage_env shop_notifier)) in
  length (n_posts (w_st w')) = 1%nat /\ n_dlq (w_st w') = [] /\
  shop_message ∉ resumed [shop_message; second_message] (w_st w').
Proof.
  intros w'. split; [vm_compute; reflexivity|]. split; [vm_compute; reflexivity|].
  set (w1 := snd (handle true shop_message (MkWorld (bump outage_env) shop_notifier))).
  set (w2 := snd (handle true second_message (MkWorld (bump (w_env w1)) (w_st w1)))).
  refine (proj1 (later_commit_covers_failure true [shop_message; second_message] shop_message second_message outage_env
    shop_notifier (WrapError "get webhook config" (PlainError "unavailable")) w1 w2 w' _ _ _ _ _ _));
    vm_compute; reflexivity.
Defined.

Lemma settlement_reaches_merchant_witness :
  exists w' req, handle true shop_message (MkWorld (shop_env 50) shop_notifier) = (Ok tt, w') /\
    n_posts (w_st w') = [req] /\ pq_url req = "https://shop.example/hook".
Proof.
  destruct (settlement_reaches_merchant true shop_payment 1700000001000000000 7 (shop_env 50) shop_notifier
    (MkMerchantRow "m4" "Shop" "https://shop.example/hook" "" "ACTIVE" "ACTIVE" (hex_Encode (rand_at 2 32)) 3 3))
    as (w' & ts & req & at_ & Hrun & Hp & _ & Hreq & _).
  - done.
  - exact shop_texts.
  - vm_compute. split; congruence.
  - vm_compute. split; congruence.
  - done.
  - reflexivity.
  - vm_compute. reflexivity.
  - done.
  - vm_compute. reflexivity.
  - done.
  - split; [reflexivity|]. intros n r Hr. unfold http_reply, shop_server. rewrite Hr. by vm_compute.
  - reflexivity.
  - exists w', req. split_and!; [exact Hrun|exact Hp|by rewrite Hreq].
Defined.
