(* ===== verification/SagaTrace.v ===== *)
(** * The calls of a saga, recorded.

[traced] wraps any repository, store and clients so that each call and its
outcome is appended to a log.  [follows p log] is the protocol a saga must keep
with the other services: it says, for each call, what must have happened before
it.  [RepoLaws] is what the orchestrator relies on of its repository (which
fields of the payment a method changes); the SQL repository satisfies it. *)
From S2P Require Import Prelude GoStrings DomainErr World Proto Uuid Idempotency PaymentRepo Saga.
Local Open Scope Z_scope.

Inductive call : Type :=
| CReserve (req : ReserveRequest) (r : result error ReserveResponse)
| CConfirm (req : ConfirmRequest) (r : result error unit)
| CRelease (req : ReleaseRequest) (r : result error unit)
| CScore (req : ScoreRequest) (r : result error ScoreResponse)
| CBank (req : InitiateRequest) (r : result error InitiateResponse)
| CStatus (ref : string) (r : result error StatusResponse)
| CReverse (req : BankReverseRequest) (r : result error ReverseResponse)
| CPost (req : PostEntryRequest) (r : result error JournalEntry)
| CUnpost (req : LedgerReverseRequest) (r : result error unit)
| CSaveConsent (p : Payment) (o : outcome)
| CSaveRisk (p : Payment) (o : outcome)
| CSaveBank (p : Payment) (ref : string) (o : outcome)
| CSettle (p : Payment) (o : outcome)
| CFailed (p : Payment) (reason : string) (o : outcome)
| CReview (p : Payment) (reason : string) (o : outcome)
| COther.

Section Traced.
Context {W : Type}.

(** Run a call and record it. *)
Definition logged {A} (m : M W A) (c : A -> call) : M (W * list call) A :=
  fun wl => let '(a, w') := m (fst wl) in (a, (w', snd wl ++ [c a])).

Lemma wp_logged {A} (m : M W A) (c : A -> call) (Q : A -> W * list call -> Prop) w l :
  (forall a w', m w = (a, w') -> Q a (w', l ++ [c a])) -> wp (logged m c) Q (w, l).
Proof. unfold wp, logged. simpl. destruct (m w) as [a w']. intros HQ. by apply HQ. Qed.

Context `{paymentRepo W} `{IdemStore W} `{Clients W}.

#[export] Instance traced_repo : paymentRepo (W * list call) := {|
  repo_CreatePayment p := logged (repo_CreatePayment p) (fun _ => COther);
  repo_GetByID id := logged (repo_GetByID id) (fun _ => COther);
  repo_GetByIdempotencyKey k := logged (repo_GetByIdempotencyKey k) (fun _ => COther);
  repo_UpdateAfterConsent p rid c := logged (repo_UpdateAfterConsent p rid c) (CSaveConsent p);
  repo_UpdateAfterRisk p s d := logged (repo_UpdateAfterRisk p s d) (CSaveRisk p);
  repo_UpdateAfterBank p ref := logged (repo_UpdateAfterBank p ref) (CSaveBank p ref);
  repo_SettleWithOutbox p := logged (repo_SettleWithOutbox p) (CSettle p);
  repo_MarkFailed p reason := logged (repo_MarkFailed p reason) (CFailed p reason);
  repo_MarkManualReview p reason := logged (repo_MarkManualReview p reason) (CReview p reason);
  repo_ResetForRetry p := logged (repo_ResetForRetry p) (fun _ => COther);
|}.

#[export] Instance traced_idem : IdemStore (W * list call) := {|
  idem_Begin k := logged (idem_Begin k) (fun _ => COther);
  idem_Complete k v := logged (idem_Complete k v) (fun _ => COther);
  idem_Release k := logged (idem_Release k) (fun _ => COther);
  idem_WaitForCompletion k t := logged (idem_WaitForCompletion k t) (fun _ => COther);
|}.

#[export] Instance traced_clients : Clients (W * list call) := {|
  consent_ValidateAndReserve r := logged (consent_ValidateAndReserve r) (CReserve r);
  consent_ConfirmReservation r := logged (consent_ConfirmReservation r) (CConfirm r);
  consent_ReleaseReservation r := logged (consent_ReleaseReservation r) (CRelease r);
  risk_Score r := logged (risk_Score r) (CScore r);
  bank_InitiatePayment r := logged (bank_InitiatePayment r) (CBank r);
  bank_GetPaymentStatus r := logged (bank_GetPaymentStatus r) (CStatus r);
  bank_ReversePayment r := logged (bank_ReversePayment r) (CReverse r);
  ledger_PostDoubleEntry r := logged (ledger_PostDoubleEntry r) (CPost r);
  ledger_ReverseEntry r := logged (ledger_ReverseEntry r) (CUnpost r);
|}.
End Traced.

(* ------------------------------------------------------------------ *)
(** ** What the orchestrator relies on of its repository *)

Class RepoLaws (W : Type) `{paymentRepo W} := {
  law_consent : forall p rid c w, let '(r, q) := fst (repo_UpdateAfterConsent p rid c w) in
    match r with
    | Err _ => q = p
    | Ok _ => exists now, q = with_status StatusConsentReserved now (with_consent (Some rid) c p)
    end;
  law_risk : forall p s d w, let '(r, q) := fst (repo_UpdateAfterRisk p s d w) in
    match r with
    | Err _ => q = p
    | Ok _ => exists now, q = with_status StatusRiskPassed now (with_risk (Some s) d p)
    end;
  law_bank : forall p ref w, let '(r, q) := fst (repo_UpdateAfterBank p ref w) in
    match r with
    | Err _ => q = p
    | Ok _ => exists now, q = with_status StatusAuthorising now (with_bank ref p)
    end;
  law_settle : forall p w, let '(r, q) := fst (repo_SettleWithOutbox p w) in
    match r with Err _ => q = p | Ok _ => exists now, q = settle_row now p end;
}.

Lemma update_with_event_law p msg to reason meta f w :
  let '(r, q) := fst (update_with_event p msg to reason meta f w) in
  match r with Err _ => q = p | Ok _ => exists now, q = f now p end.
Proof.
  assert (wp (update_with_event p msg to reason meta f) (fun o _ => let '(r, q) := o in
    match r with Err _ => q = p | Ok _ => exists now, q = f now p end) w) as Hwp; [|exact Hwp].
  destruct w as [e s]. unfold update_with_event. wp_step. apply wp_time_Now. wp_step. apply run_wp.
  intros [n|err] w1 _; [|by wp_step]. wp_step. apply run_wp. intros [[]|err] w2 _; wp_step; eauto.
Qed.

#[export] Instance sql_repo_laws `{GrpcLib} : RepoLaws (world PaymentDB).
Proof.
  constructor; intros; simpl; unfold UpdateAfterConsent, UpdateAfterRisk, UpdateAfterBank.
  1-3: match goal with
       | |- context [update_with_event ?p ?a ?b ?c ?d ?f ?w] => exact (update_with_event_law p a b c d f w)
       end.
  unfold SettleWithOutbox, gbind. destruct (manual_tx _ _ (settle_tx p) w) as [[now|err] w']; simpl; eauto.
Qed.

(* ------------------------------------------------------------------ *)
(** ** The protocol *)

Section Protocol.
Context `{UuidLib}.

(** What a log says has happened. *)
Definition f_reserved (c : call) : option string :=
  match c with CReserve _ (Ok resp) => uuid_Parse (rs_reservation_id resp) | _ => None end.
Definition f_passed (c : call) : option Z :=
  match c with
  | CScore _ (Ok resp) => if bool_decide (ss_decision resp = RiskDecision_DECLINE) then None else Some (ss_score resp)
  | _ => None
  end.
Definition f_bank (c : call) : option string :=
  match c with
  | CBank _ (Ok resp) => if bool_decide (is_status resp = Bank_REJECTED) then None else Some (is_bank_payment_ref resp)
  | _ => None
  end.
Definition f_saved_bank (c : call) : option string :=
  match c with CSaveBank _ ref (Ok _, _) => Some ref | _ => None end.
Definition f_posted (c : call) : option string :=
  match c with CPost req (Ok _) => Some (per_payment_id req) | _ => None end.
Definition f_unposted (c : call) : option string :=
  match c with CUnpost req (Ok _) => Some (lrr_payment_id req) | _ => None end.
Definition f_settled (c : call) : option string :=
  match c with CSettle p (Ok _, _) => Some (p_ID p) | _ => None end.
Definition f_released (c : call) : option string :=
  match c with CRelease req (Ok _) => Some (rl_reservation_id req) | _ => None end.
Definition f_reversed (c : call) : option string :=
  match c with CReverse req (Ok _) => Some (bv_bank_payment_ref req) | _ => None end.
(** A compensation that failed. *)
Definition f_stuck (c : call) : option unit :=
  match c with
  | CRelease _ (Err _) | CReverse _ (Err _) | CUnpost _ (Err _) => Some tt
  | _ => None
  end.

Definition same_pay (p q : Payment) : Prop :=
  p_ID q = p_ID p /\ p_ConsentID q = p_ConsentID p /\ p_MerchantID q = p_MerchantID p /\
  p_AmountPence q = p_AmountPence p /\ p_Currency q = p_Currency p.

Definition pay_money (p : Payment) : option PMoney := Some (MkPMoney (p_AmountPence p) (p_Currency p)).

(** What must have happened before a call. *)
Definition allowed (p : Payment) (seen : list call) (c : call) : Prop :=
  match c with
  | CReserve req _ => req = MkReserveRequest (p_ConsentID p) (p_ID p) (pay_money p)
  | CScore req _ => sr_payment_id req = p_ID p /\ sr_amount req = pay_money p /\ omap f_reserved seen <> []
  | CBank req _ => ir_payment_id req = p_ID p /\ ir_amount req = pay_money p /\
      omap f_reserved seen <> [] /\ omap f_passed seen <> []
  | CPost req _ => per_payment_id req = p_ID p /\ omap f_bank seen <> [] /\
      exists q, same_pay p q /\ per_lines req = settlement_lines q
  | CSettle q _ => same_pay p q /\ omap f_posted seen <> []
  | CConfirm req _ => cf_payment_id req = p_ID p /\ cf_reservation_id req ∈ omap f_reserved seen /\
      omap f_settled seen <> []
  | CRelease req _ => rl_reservation_id req ∈ omap f_reserved seen /\ omap f_settled seen = []
  | CReverse req _ => bv_bank_payment_ref req ∈ omap f_bank seen /\ omap f_settled seen = []
  | CUnpost req _ => lrr_payment_id req = p_ID p /\ omap f_posted seen <> [] /\ omap f_settled seen = []
  | CFailed _ _ _ => omap f_settled seen = [] /\
      (forall rid, rid ∈ omap f_reserved seen -> rid ∈ omap f_released seen) /\
      (forall ref, ref ∈ omap f_saved_bank seen -> ref = "" \/ ref ∈ omap f_reversed seen) /\
      (omap f_posted seen <> [] -> omap f_unposted seen <> [])
  | CReview _ _ _ => omap f_settled seen = [] /\ omap f_stuck seen <> []
  | _ => True
  end.

Definition follows (p : Payment) (log : list call) : Prop :=
  forall pre c post, log = pre ++ c :: post -> allowed p pre c.

Lemma follows_nil p : follows p [].
Proof. intros pre c post Heq. by destruct pre. Qed.

Lemma follows_snoc p log c : follows p log -> allowed p log c -> follows p (log ++ [c]).
Proof.
  intros Hf Ha pre c' post Heq. destruct post as [|x post] using rev_ind.
  - apply app_inj_tail in Heq as [-> ->]. done.
  - clear IHpost. rewrite app_comm_cons, (assoc_L (++)) in Heq. apply app_inj_tail in Heq as [-> _].
    by eapply Hf.
Qed.

(** The saga has closed the payment: FAILED or MANUAL_REVIEW was the last call. *)
Definition closed (log : list call) : Prop :=
  exists pre q reason o, log = pre ++ [CFailed q reason o] \/ log = pre ++ [CReview q reason o].
End Protocol.
