(* ===== verification/SagaProofs.v ===== *)
(** * The saga keeps its protocol.

[runSaga] is executed symbolically against arbitrary clients; every branch is
shown to keep [follows] and to end settled or closed. *)
From S2P Require Import Prelude GoStrings DomainErr World Proto Uuid Idempotency PaymentRepo Saga SagaTrace.
Local Open Scope Z_scope.
Local Open Scope go_scope.

Section Proofs.
Context {W : Type} `{RepoLaws W} `{IdemStore W} `{Clients W}.
Context `{GrpcLib} `{UuidLib} `{Unicode}.
Abbreviation T := (W * list call)%type.

(** The compensating calls. *)
Definition is_comp (c : call) : Prop :=
  match c with CRelease _ _ | CReverse _ _ | CUnpost _ _ => True | _ => False end.

Lemma omap_silent {A} (f : call -> option A) l ext :
  (forall c, is_comp c -> f c = None) -> Forall is_comp ext -> omap f (l ++ ext) = omap f l.
Proof.
  intros Hf Hext. rewrite omap_app. assert (omap f ext = []) as ->; [|apply app_nil_r].
  induction Hext as [|c ext Hc _ IH]; [done|]. simpl. by rewrite (Hf c Hc).
Qed.

Lemma omap_snoc {A} (f : call -> option A) l c :
  omap f (l ++ [c]) = omap f l ++ match f c with Some a => [a] | None => [] end.
Proof. rewrite omap_app. simpl. by destruct (f c). Qed.

Ltac silent := first [done | by intros []].

(** The log after compensations, and what they achieved. *)
Definition compensated (p q : Payment) (rc rb : bool) (l : list call) (r : option error) (l' : list call) : Prop :=
  exists ext, l' = l ++ ext /\ Forall is_comp ext /\ follows p l' /\
    match r with
    | None => (rc = true -> forall rid, p_ReservationID q = Some rid -> rid ∈ omap f_released l') /\
              (rb = true -> p_BankPaymentRef q = "" \/ p_BankPaymentRef q ∈ omap f_reversed l')
    | Some _ => omap f_stuck l' <> []
    end.

Lemma wp_compensate p q reason rc rb (w : W) l :
  follows p l -> omap f_settled l = [] ->
  (forall rid, p_ReservationID q = Some rid -> rid ∈ omap f_reserved l) ->
  (rb = true -> p_BankPaymentRef q = "" \/ p_BankPaymentRef q ∈ omap f_bank l) ->
  wp (compensate q reason rc rb) (fun r (wl : T) => compensated p q rc rb l r (snd wl)) (w, l).
Proof.
  intros Hf Hs Hres Hbank. unfold compensate. wp_step.
  (* the state between the two calls *)
  assert (Hstep2 : forall (w1 : W) l1 e1,
    (exists ext, l1 = l ++ ext /\ Forall is_comp ext) -> follows p l1 ->
    (e1 = [] -> rb = true -> p_BankPaymentRef q = "" \/ p_BankPaymentRef q ∈ omap f_reversed l1) ->
    (e1 <> [] -> omap f_stuck l1 <> []) ->
    wp (e2 <- match p_ReservationID q with
        | Some rid =>
            if rc
            then r <- consent_ReleaseReservation (MkReleaseRequest rid reason) ;; gret (note "consent: " r)
            else gret []
        | None => gret []
        end ;; gret (joined (e1 ++ e2))) (fun r (wl : T) => compensated p q rc rb l r (snd wl)) (w1, l1)).
  { intros w1 l1 e1 (ext & -> & Hext) Hf1 Hrev Hstuck. wp_step.
    assert (Hnone : (rc = true -> forall rid, p_ReservationID q = Some rid -> rid ∈ omap f_released (l ++ ext)) ->
      compensated p q rc rb l (joined (e1 ++ [])) (l ++ ext)).
    { intros Hrel. rewrite app_nil_r. exists ext. split_and!; try done. destruct e1; simpl; auto. }
    destruct (p_ReservationID q) as [rid|] eqn:Hq; [|do 2 wp_step; apply Hnone; congruence].
    destruct rc; [|do 2 wp_step; by apply Hnone].
    wp_step. apply wp_logged. intros r w2 _. wp_step. wp_step. simpl.
    exists (ext ++ [CRelease (MkReleaseRequest rid reason) r]). rewrite !(assoc_L (++)).
    split_and!; [done|by apply Forall_app; split; [|repeat constructor]| |].
    { apply follows_snoc; [done|]. simpl. rewrite (omap_silent f_reserved), (omap_silent f_settled) by silent.
      split; [by apply Hres|done]. }
    destruct r as [[]|err]; simpl.
    - rewrite app_nil_r, !omap_snoc. simpl. destruct e1 as [|x e1]; simpl.
      + split; [intros _ ? Hr; rewrite Hq in Hr; injection Hr as <-; set_solver|]. intros Hrb. rewrite app_nil_r. by apply Hrev.
      + rewrite app_nil_r. by apply Hstuck.
    - destruct e1 as [|x e1]; simpl; rewrite omap_snoc; simpl; by destruct (omap f_stuck (l ++ ext)). }
  destruct (rb && negb (is_empty (p_BankPaymentRef q))) eqn:Hrb.
  - apply andb_true_iff in Hrb as [-> Hne]. apply negb_true_iff, is_empty_false in Hne.
    wp_step. apply wp_logged. intros r w1 _. wp_step. apply Hstep2.
    + eexists. split; [done|]. by repeat constructor.
    + apply follows_snoc; [done|]. simpl. destruct (Hbank eq_refl); [done|]. auto.
    + destruct r; [|done]. intros _ _. right. rewrite omap_snoc. simpl. set_solver.
    + destruct r; [done|]. intros _. rewrite omap_snoc. simpl. by destruct (omap f_stuck l).
  - wp_step. apply Hstep2; [exists []; by rewrite app_nil_r|done| |done]. intros _ ->. left.
    simpl in Hrb. apply negb_false_iff, is_empty_true in Hrb. done.
Qed.

(** A payment on its way, with its reservation. *)
Record going (p q : Payment) (l : list call) (rid : string) : Prop := {
  g_same : same_pay p q;
  g_res : p_ReservationID q = Some rid;
  g_follows : follows p l;
  g_unsettled : omap f_settled l = [];
  g_reserved : omap f_reserved l = [rid];
}.

Lemma going_reserved p q l rid rid' :
  going p q l rid -> p_ReservationID q = Some rid' -> rid' ∈ omap f_reserved l.
Proof. intros [_ Hres _ _ ->] Hq. rewrite Hres in Hq. injection Hq as <-. by constructor. Qed.

(** How a saga may end. *)
Definition ended (p : Payment) (r : option error * Payment) (wl : T) : Prop :=
  follows p (snd wl) /\
  match fst r with None => omap f_settled (snd wl) <> [] | Some _ => closed (snd wl) end.

Lemma mark_closed p l q reason o : follows p l ->
  (allowed p l (CFailed q reason o) -> follows p (l ++ [CFailed q reason o]) /\ closed (l ++ [CFailed q reason o])) /\
  (allowed p l (CReview q reason o) -> follows p (l ++ [CReview q reason o]) /\ closed (l ++ [CReview q reason o])).
Proof. intros Hf. split; intros Ha; (split; [by apply follows_snoc|]); repeat eexists; eauto. Qed.

(** What a compensated log still says. *)
Lemma compensated_facts p q rc rb l r l' :
  compensated p q rc rb l r l' ->
  omap f_settled l' = omap f_settled l /\ omap f_reserved l' = omap f_reserved l /\
  omap f_saved_bank l' = omap f_saved_bank l /\ omap f_posted l' = omap f_posted l /\ follows p l'.
Proof.
  intros (ext & -> & Hext & Hf & _). split_and!; [by apply omap_silent; silent..|done].
Qed.

Lemma wp_failAndCompensate p q reason rb retErr (w : W) l rid :
  going p q l rid -> omap f_posted l = [] ->
  (forall ref, ref ∈ omap f_saved_bank l -> rb = true /\ ref = p_BankPaymentRef q) ->
  (rb = true -> p_BankPaymentRef q = "" \/ p_BankPaymentRef q ∈ omap f_bank l) ->
  wp (failAndCompensate q reason true rb retErr) (ended p) (w, l).
Proof.
  intros Hg Hpost Hsaved Hbank. pose proof Hg as [Hsame Hres Hf Hs Hr]. unfold failAndCompensate. wp_step.
  eapply wp_mono; [apply (wp_compensate p); [done|done|intros rid'; by apply (going_reserved p q _ rid)|done]|].
  intros c [w1 l1] Hc. simpl in Hc.
  pose proof (compensated_facts _ _ _ _ _ _ _ Hc) as (Es & Er & Eb & Ep & Hf1).
  destruct Hc as (ext & _ & _ & _ & Hc).
  destruct c as [err|]; wp_step; apply wp_logged; intros o w2 _; wp_step.
  - apply mark_closed; [done|]. split; [congruence|done].
  - destruct Hc as [Hrel Hrev]. apply mark_closed; [done|]. simpl. rewrite Es, Er, Eb, Ep, Hr, Hpost. split_and!; [done| | |done].
    + intros rid' ->%list_elem_of_singleton. by apply Hrel.
    + intros ref Href. destruct (Hsaved ref Href) as [Hrb ->]. by apply Hrev.
Qed.

(** [compensateFull] after a failed settlement. *)
Lemma wp_compensateFull p q reason (w : W) l rid :
  going p q l rid -> omap f_posted l <> [] ->
  p_BankPaymentRef q = "" \/ p_BankPaymentRef q ∈ omap f_bank l ->
  wp (compensateFull q reason) (fun r (wl : T) => exists l1, compensated p q true true l1 r (snd wl) /\
      going p q l1 rid /\ omap f_posted l1 = omap f_posted l /\ omap f_saved_bank l1 = omap f_saved_bank l /\
      (r = None -> omap f_unposted (snd wl) <> [])) (w, l).
Proof.
  intros [Hsame Hres Hf Hs Hr] Hpost Hbank. unfold compensateFull. wp_step. apply wp_logged. intros r w1 _.
  set (c0 := CUnpost _ r). destruct Hsame as (Hid & Hrest).
  assert (going p q (l ++ [c0]) rid) as Hg.
  { constructor; [by split| done| |rewrite omap_snoc; simpl; by rewrite app_nil_r..].
    apply follows_snoc; [done|]. done. }
  wp_step. eapply wp_mono; [apply (wp_compensate p)|].
  - apply Hg.
  - apply Hg.
  - intros rid'. by apply (going_reserved p q _ rid).
  - intros _. rewrite omap_snoc. simpl. rewrite app_nil_r. done.
  - intros c [w2 l2] Hc. wp_step. simpl in *. exists (l ++ [c0]).
    assert (Hsil : omap f_posted (l ++ [c0]) = omap f_posted l /\ omap f_saved_bank (l ++ [c0]) = omap f_saved_bank l).
    { rewrite !omap_snoc. simpl. by rewrite !app_nil_r. }
    destruct Hsil as [Hp1 Hb1]. destruct Hc as (ext & -> & Hext & Hf2 & Hc).
    destruct r as [[]|err]; simpl.
    + split_and!; [|done..|].
      * exists ext. split_and!; [done..|]. by destruct c.
      * intros _. rewrite omap_app, omap_snoc. simpl. by destruct (omap f_unposted l).
    + split_and!; [|done..|by intros [=]]. exists ext. split_and!; [done..|].
      rewrite omap_app, omap_snoc. simpl. by destruct (omap f_stuck l).
Qed.

Lemma wp_settle_and_confirm p q why (w : W) l rid :
  going p q l rid -> omap f_posted l <> [] ->
  p_BankPaymentRef q = "" \/ p_BankPaymentRef q ∈ omap f_bank l ->
  (forall ref, ref ∈ omap f_saved_bank l -> ref = p_BankPaymentRef q) ->
  wp (settle_and_confirm q why) (ended p) (w, l).
Proof.
  intros Hg Hpost Hbank Hsaved. pose proof Hg as [Hsame Hres Hf Hs Hr]. unfold settle_and_confirm. wp_step.
  apply wp_logged. intros [r q'] w1 Hq. pose proof (law_settle q w) as Hlaw. rewrite Hq in Hlaw. simpl in Hlaw.
  destruct r as [[]|err].
  - destruct Hlaw as [now ->]. cbn [p_ReservationID settle_row with_status with_outcome]. rewrite Hres.
    assert (follows p (l ++ [CSettle q (Ok tt, settle_row now q)])) as Hf1
      by (apply follows_snoc; [done|]; by split).
    wp_step. apply wp_logged. intros r w2 _. wp_step. split; simpl.
    + apply follows_snoc; [done|]. simpl. rewrite !omap_snoc. simpl. rewrite Hr. split_and!; [by apply Hsame|by constructor|].
      by destruct (omap f_settled l).
    + rewrite !omap_snoc. simpl. by destruct (omap f_settled l).
  - subst q'. set (l1 := l ++ _).
    assert (going p q l1 rid) as Hg1.
    { constructor; try done; unfold l1; [apply follows_snoc; [done|by split]|rewrite omap_snoc; simpl; by rewrite app_nil_r..]. }
    assert (omap f_posted l1 = omap f_posted l /\ omap f_saved_bank l1 = omap f_saved_bank l /\ omap f_bank l1 = omap f_bank l)
      as (Ep & Eb & Ek) by (unfold l1; rewrite !omap_snoc; simpl; by rewrite !app_nil_r).
    wp_step. eapply wp_mono; [apply (wp_compensateFull p q why w1 l1 rid); [done|congruence|by rewrite Ek]|].
    intros c [w2 l2] (l3 & Hc & Hg3 & Ep3 & Eb3 & Hun). simpl in *.
    pose proof (compensated_facts _ _ _ _ _ _ _ Hc) as (Fs & Fr & Fb & Fp & Hf2).
    destruct Hc as (ext & _ & _ & _ & Hc).
    destruct c as [cerr|]; wp_step; apply wp_logged; intros o w3 _; wp_step.
    + apply mark_closed; [done|]. split; [rewrite Fs; apply Hg3|done].
    + destruct Hc as [Hrel Hrev]. apply mark_closed; [done|]. simpl.
      rewrite Fs, Fr, Fb, Eb3, Eb, (g_reserved _ _ _ _ Hg3). split_and!; [apply Hg3| | |by intros _; apply Hun].
      * intros rid' ->%list_elem_of_singleton. by apply Hrel.
      * intros ref Href. rewrite (Hsaved ref Href). by apply Hrev.
Qed.

Lemma wp_run_from_ledger p q desc lerr why (w : W) l rid :
  going p q l rid -> omap f_posted l = [] -> omap f_bank l <> [] ->
  p_BankPaymentRef q = "" \/ p_BankPaymentRef q ∈ omap f_bank l ->
  (forall ref, ref ∈ omap f_saved_bank l -> ref = p_BankPaymentRef q) ->
  wp (run_from_ledger q desc lerr why) (ended p) (w, l).
Proof.
  intros Hg Hpost Hb Hbank Hsaved. pose proof Hg as [Hsame Hres Hf Hs Hr]. unfold run_from_ledger. wp_step.
  apply wp_logged. intros r w1 _. set (l1 := l ++ _).
  assert (going p q l1 rid) as Hg1.
  { constructor; try done; unfold l1; [|rewrite omap_snoc; simpl; by rewrite app_nil_r..].
    apply follows_snoc; [done|]. split_and!; [apply Hsame|done|]. exists q. done. }
  assert (omap f_saved_bank l1 = omap f_saved_bank l /\ omap f_bank l1 = omap f_bank l) as (Eb & Ek)
    by (unfold l1; rewrite !omap_snoc; simpl; by rewrite !app_nil_r).
  destruct r as [je|err].
  - apply (wp_settle_and_confirm p q why w1 l1 rid); [done| |by rewrite Ek|by rewrite Eb].
    unfold l1. rewrite omap_snoc. simpl. by destruct (omap f_posted l).
  - apply (wp_failAndCompensate p q _ true _ w1 l1 rid); [done| |rewrite Eb; auto|by rewrite Ek].
    unfold l1. rewrite omap_snoc. simpl. by rewrite app_nil_r.
Qed.

(** Extend the log by a call that changes nothing the invariant speaks of. *)
Lemma going_snoc p q q' l rid c :
  going p q l rid -> same_pay p q' -> p_ReservationID q' = p_ReservationID q ->
  f_settled c = None -> f_reserved c = None -> allowed p l c -> going p q' (l ++ [c]) rid.
Proof.
  intros [Hsame Hres Hf Hs Hr] Hsame' Hres' Hc1 Hc2 Ha. constructor; [done|congruence|by apply follows_snoc|..].
  - by rewrite omap_snoc, Hc1, app_nil_r.
  - by rewrite omap_snoc, Hc2, app_nil_r.
Qed.

Lemma omap_snoc_none {A} (f : call -> option A) l c : f c = None -> omap f (l ++ [c]) = omap f l.
Proof. intros E. by rewrite omap_snoc, E, app_nil_r. Qed.

Lemma wp_run_from_bank p q ref0 (w : W) l rid :
  going p q l rid -> omap f_posted l = [] -> omap f_saved_bank l = [] -> omap f_passed l <> [] ->
  p_BankPaymentRef q = "" ->
  wp (run_from_bank q ref0) (ended p) (w, l).
Proof.
  intros Hg Hpost Hsaved Hpass Href. pose proof Hg as [Hsame Hres Hf Hs Hr]. pose proof Hsame as (Hid & _ & _ & Ham & Hcur).
  unfold run_from_bank. wp_step. apply wp_logged. intros r w1 _. set (c1 := CBank _ r).
  assert (Hg1 : going p q (l ++ [c1]) rid).
  { eapply going_snoc; [done..|]. simpl. unfold pay_money. rewrite Ham, Hcur, Hr. auto. }
  assert (Hb1 : omap f_saved_bank (l ++ [c1]) = []) by by rewrite omap_snoc_none.
  assert (Hp1 : omap f_posted (l ++ [c1]) = []) by by rewrite omap_snoc_none.
  assert (Hfail : forall reason e, wp (failAndCompensate q reason true false (Some e)) (ended p) (w1, l ++ [c1])).
  { intros reason e. apply (wp_failAndCompensate p q reason false (Some e) w1 _ rid); [done|done| |done].
    rewrite Hb1. intros ref []%elem_of_nil. }
  destruct r as [resp|err]; [|apply Hfail]. wp_step; [apply Hfail|].
  wp_step. apply wp_logged. intros [r2 q2] w2 Hq2. pose proof (law_bank q (is_bank_payment_ref resp) w1) as Hlaw.
  rewrite Hq2 in Hlaw. simpl in Hlaw. set (c2 := CSaveBank _ _ _).
  assert (Hbank : is_bank_payment_ref resp ∈ omap f_bank ((l ++ [c1]) ++ [c2])).
  { rewrite (omap_snoc_none f_bank) by done. rewrite omap_snoc. simpl. rewrite Hif. apply elem_of_app. right. by constructor. }
  assert (Hp2 : omap f_posted ((l ++ [c1]) ++ [c2]) = []) by by rewrite omap_snoc_none.
  destruct r2 as [[]|err].
  - destruct Hlaw as [now ->].
    assert (Hg2 : going p (with_status StatusAuthorising now (with_bank (is_bank_payment_ref resp) q)) ((l ++ [c1]) ++ [c2]) rid)
      by (eapply going_snoc; done).
    eapply (wp_run_from_ledger p _ _ _ _ w2 _ rid); [done|done|by intros E; rewrite E in Hbank; apply elem_of_nil in Hbank|by right|].
    simpl. rewrite omap_snoc, Hb1. simpl. by intros ref ->%list_elem_of_singleton.
  - subst q2. assert (Hg2 : going p q ((l ++ [c1]) ++ [c2]) rid) by (eapply going_snoc; done).
    (* the reference was never stored in the payment *)
    assert (Hsv : omap f_saved_bank ((l ++ [c1]) ++ [c2]) = []) by by rewrite omap_snoc_none.
    apply (wp_failAndCompensate p q _ true _ w2 _ rid); [done|done| |by left].
    rewrite Hsv. intros ref []%elem_of_nil.
Qed.

Lemma wp_run_from_risk p q ref0 (w : W) l rid :
  going p q l rid -> omap f_posted l = [] -> omap f_saved_bank l = [] -> p_BankPaymentRef q = "" ->
  wp (run_from_risk q ref0) (ended p) (w, l).
Proof.
  intros Hg Hpost Hsaved Href. pose proof Hg as [Hsame Hres Hf Hs Hr]. pose proof Hsame as (Hid & _ & _ & Ham & Hcur).
  unfold run_from_risk. wp_step. apply wp_logged. intros r w1 _. set (c1 := CScore _ r).
  assert (Hg1 : forall q', same_pay p q' -> p_ReservationID q' = p_ReservationID q -> going p q' (l ++ [c1]) rid).
  { intros q' Hs' Hr'. eapply going_snoc; [done..|]. simpl. unfold pay_money. rewrite Ham, Hcur, Hr. auto. }
  assert (Hb1 : omap f_saved_bank (l ++ [c1]) = []) by by rewrite omap_snoc_none.
  assert (Hp1 : omap f_posted (l ++ [c1]) = []) by by rewrite omap_snoc_none.
  assert (Hfail : forall l' q' w' reason e, going p q' l' rid -> omap f_posted l' = [] -> omap f_saved_bank l' = [] ->
    wp (failAndCompensate q' reason true false (Some e)) (ended p) (w', l')).
  { intros l' q' w' reason e Hg' Hp' Hb'. apply (wp_failAndCompensate p q' reason false (Some e) w' _ rid); [done|done| |done].
    rewrite Hb'. intros ref []%elem_of_nil. }
  destruct r as [resp|err]; [|by apply Hfail; [apply Hg1|..]].
  wp_step; [by apply Hfail; [apply Hg1|..]|]. wp_step. apply wp_logged. intros [r2 q2] w2 Hq2.
  pose proof (law_risk q (ss_score resp) (decision_String (ss_decision resp)) w1) as Hlaw.
  rewrite Hq2 in Hlaw. simpl in Hlaw. set (c2 := CSaveRisk _ _).
  assert (Hp2 : omap f_posted ((l ++ [c1]) ++ [c2]) = []) by by rewrite omap_snoc_none.
  assert (Hb2 : omap f_saved_bank ((l ++ [c1]) ++ [c2]) = []) by by rewrite omap_snoc_none.
  destruct r2 as [[]|err].
  - destruct Hlaw as [now ->]. apply (wp_run_from_bank p _ _ w2 _ rid); [|done|done| |done].
    + eapply going_snoc; [apply (Hg1 q); done|done..].
    + rewrite (omap_snoc_none f_passed) by done. rewrite omap_snoc. simpl. rewrite Hif. by destruct (omap f_passed l).
  - subst q2. apply Hfail; [|done|done]. eapply going_snoc; [apply (Hg1 q); done|done..].
Qed.

Lemma wp_runSaga p (w : W) :
  p_BankPaymentRef p = "" -> wp (runSaga p) (ended p) (w, []).
Proof.
  intros Href. unfold runSaga. wp_step. apply wp_logged. intros r w1 _. set (c1 := CReserve _ r).
  assert (Hf1 : follows p [c1]) by (apply (follows_snoc p []); [apply follows_nil|done]).
  assert (Hclean : forall w' q reason e, f_reserved c1 = None ->
    wp (o <- repo_MarkFailed q reason ;; gret (Some e, snd o)) (ended p) (w', [c1])).
  { intros w' q reason e Hn. wp_step. apply wp_logged. intros o w2 _. wp_step.
    assert (omap f_reserved [c1] = []) as Hn' by (cbn -[f_reserved]; by rewrite Hn).
    apply mark_closed; [done|]. unfold allowed. rewrite Hn'. split_and!; [done|by intros ? []%elem_of_nil..|done]. }
  destruct r as [resp|err].
  - destruct (uuid_Parse (rs_reservation_id resp)) as [rid|] eqn:Hrid; [|by apply Hclean].
    wp_step. apply wp_logged. intros [r2 q2] w2 Hq2. pose proof (law_consent p rid (rs_consumer_id resp) w1) as Hlaw.
    rewrite Hq2 in Hlaw. simpl in Hlaw. set (c2 := CSaveConsent _ _). change ([] ++ [c1]) with [c1].
    assert (Hgo : forall q, same_pay p q -> p_ReservationID q = Some rid -> going p q ([c1] ++ [c2]) rid).
    { intros q Hsame Hres. constructor; [done|done|by apply follows_snoc|done|]. simpl. by rewrite Hrid. }
    destruct r2 as [[]|err].
    + destruct Hlaw as [now ->]. by apply (wp_run_from_risk p _ _ w2 _ rid); [apply Hgo|..].
    + subst q2. set (q := with_consent (Some rid) (p_ConsumerID p) p).
      assert (Hg : going p q ([c1] ++ [c2]) rid) by by apply Hgo.
      wp_step. eapply wp_mono; [apply (wp_compensate p q)|].
      * apply Hg.
      * apply Hg.
      * intros rid'. by apply (going_reserved p q _ rid).
      * done.
      * intros c [w3 l3] Hc. cbn [snd] in Hc. pose proof (compensated_facts _ _ _ _ _ _ _ Hc) as (Es & Er & Eb & Ep & Hf3).
        destruct Hc as (ext & _ & _ & _ & Hc). rewrite (g_reserved _ _ _ _ Hg) in Er. rewrite (g_unsettled _ _ _ _ Hg) in Es.
        destruct c as [cerr|]; wp_step; apply wp_logged; intros o w4 _; wp_step; apply mark_closed; try done.
        unfold allowed. rewrite Es, Er, Eb, Ep. split_and!; [done| |by intros ? []%elem_of_nil|done].
        intros rid' ->%list_elem_of_singleton. by apply Hc.
  - wp_step; by apply Hclean.
Qed.
End Proofs.
