(* ===== verification/SagaProps.v ===== *)
(** * What the payment service promises. *)
From S2P Require Import Prelude GoStrings DomainErr World Proto Uuid Idempotency LedgerStore LedgerTheory LedgerProps LedgerServer PaymentRepo Saga PaymentHandler Reconciliation SagaTrace SagaProofs.
Local Open Scope Z_scope.
Local Open Scope go_scope.

Section SagaClaims.
Context {W : Type} `{RepoLaws W} `{IdemStore W} `{Clients W}.
Context `{GrpcLib} `{UuidLib} `{Unicode}.

(** C1.  The saga keeps its protocol, whatever the other services answer or
fail to answer: the bank is asked only after a reservation and a risk score
other than DECLINE, the ledger only after the bank accepted, the payment is
settled only after the ledger posted and confirmed only after it settled; a
payment is marked FAILED only when every reservation was released, every stored
bank payment reversed and every posted entry reversed (each of these calls
answered without an error), and MANUAL_REVIEW only when such a call failed; and the saga ends settled, or with one of those two
marks as its last call. *)
Theorem saga_follows_protocol p (w : W) :
  p_BankPaymentRef p = "" ->
  let '(r, wl) := runSaga p (w, []) in
  follows p (snd wl) /\
  match fst r with None => omap f_settled (snd wl) <> [] | Some _ => closed (snd wl) end.
Proof.
  intros Href. pose proof (wp_runSaga p w Href) as Hwp. unfold wp in Hwp.
  by destruct (runSaga p (w, [])) as [r wl].
Qed.

(** C31.  When the bank accepted a payment and the reference could not be
stored, the saga does not reverse it: [compensate] looks for the reference in
the payment, which does not have it, so no call to the bank follows (although
the code means to compensate bank and consent there). *)
Theorem unsaved_bank_payment_is_not_reversed q ref0 (w : W) l resp w1 err q2 w2 :
  p_BankPaymentRef q = "" ->
  bank_InitiatePayment (MkInitiateRequest (p_ID q) ref0 (p_ConsumerID q)
     (Some (MkPMoney (p_AmountPence q) (p_Currency q))) (p_Description q)) w = (Ok resp, w1) ->
  is_status resp <> Bank_REJECTED ->
  repo_UpdateAfterBank q (is_bank_payment_ref resp) w1 = ((Err err, q2), w2) ->
  forall req r, CReverse req r ∈ snd (snd (run_from_bank q ref0 (w, l))) -> CReverse req r ∈ l.
Proof.
  intros Href Hb Hst Hu.
  assert (wp (run_from_bank q ref0) (fun _ wl => forall req r, CReverse req r ∈ snd wl -> CReverse req r ∈ l) (w, l))
    as Hwp; [|exact Hwp].
  unfold run_from_bank. wp_step. apply wp_logged. intros b w1' Hb'. rewrite Hb in Hb'. injection Hb' as <- <-.
  rewrite bool_decide_eq_false_2 by done. wp_step. apply wp_logged. intros o w2' Hu'. rewrite Hu in Hu'.
  injection Hu' as <- <-. pose proof (law_bank q (is_bank_payment_ref resp) w1) as Hlaw. rewrite Hu in Hlaw.
  simpl in Hlaw. subst q2.
  assert (Hskip : forall req r l' ext, Forall (fun c => match c with CReverse _ _ => False | _ => True end) ext ->
    CReverse req r ∈ l' ++ ext -> CReverse req r ∈ l').
  { intros req r l' ext Hext [?|Hin]%elem_of_app; [done|]. rewrite Forall_forall in Hext. by specialize (Hext _ Hin). }
  unfold failAndCompensate, compensate. do 2 wp_step. rewrite Href. simpl. wp_step. wp_step.
  destruct (p_ReservationID q) as [rid|]; [wp_step; apply wp_logged; intros r1 w3 _; wp_step|wp_step];
    wp_step; (destruct (joined _); wp_step; apply wp_logged; intros o w4 _; wp_step);
    simpl; intros req r Hin; repeat (apply Hskip in Hin; [|by repeat constructor]); done.
Qed.
End SagaClaims.

(* ------------------------------------------------------------------ *)
(** ** The fee and the settlement entry *)

Lemma platformFee_spec amount :
  0 < amount -> amount * platformFeeRateBPS <= max_int64 ->
  platformFee amount = Z.max 1 (amount / 100) /\ 1 <= platformFee amount <= amount /\
  (2 <= amount -> platformFee amount < amount).
Proof.
  unfold platformFeeRateBPS, platformFee. intros Hpos Hmax.
  rewrite int64_id by (unfold in_int64, min_int64; unfold platformFeeRateBPS; lia).
  assert (Z.quot (amount * platformFeeRateBPS) 10000 = amount / 100) as ->.
  { unfold platformFeeRateBPS. rewrite Z.quot_div_nonneg by lia.
    replace 10000 with (100 * 100) by lia. rewrite Z.div_mul_cancel_r; lia. }
  unfold minPlatformFeePence. assert (0 <= amount / 100 <= amount / 2).
  { split; [apply Z.div_pos; lia|]. apply Z.div_le_compat_l; lia. }
  pose proof (Z.div_lt_upper_bound amount 2 amount ltac:(lia) ltac:(lia)).
  destruct (Z.ltb_spec (amount / 100) 1); cbv zeta.
  - destruct (Z.ltb_spec amount 1); lia.
  - destruct (Z.ltb_spec amount (amount / 100)); lia.
Qed.

(** The platform fee is 1% rounded down and at least one penny: for every
positive amount whose product with the rate fits 64 bits it is between 1 and
the amount, and smaller than the amount from two pence on. *)
Theorem platformFee_bounds amount :
  0 < amount -> amount * platformFeeRateBPS <= max_int64 ->
  platformFee amount = Z.max 1 (amount / 100) /\ 1 <= platformFee amount <= amount /\
  (2 <= amount -> platformFee amount < amount).
Proof. apply platformFee_spec. Qed.

Section Settlement.
Context `{Unicode} `{GrpcLib}.

Definition settlement_request (p : Payment) (desc : string) : PostEntryRequest :=
  MkPostEntryRequest (p_ID p) desc (settlement_lines p).

(** The store's view of the three lines. *)
Definition settlement_inputs (p : Payment) (currency : string) : list lineInput :=
  let fee := platformFee (p_AmountPence p) in
  [ MkLineInput "CONSUMER_ESCROW" (p_ConsumerID p) "DR" (p_AmountPence p) currency;
    MkLineInput "MERCHANT_ESCROW" (p_MerchantID p) "CR" (int64 (p_AmountPence p - fee)) currency;
    MkLineInput "PLATFORM_FEE" platformOwnerRef "CR" fee currency ].

Lemma convert_settlement p : convert_lines (settlement_lines p) = Ok (settlement_inputs p (p_Currency p)).
Proof. reflexivity. Qed.

(** A payment the ledger takes. *)
Definition settleable (p : Payment) : Prop :=
  is_empty (p_ID p) = false /\ 2 <= p_AmountPence p /\ p_AmountPence p * platformFeeRateBPS <= max_int64 /\
  is_empty (TrimSpace (p_ConsumerID p)) = false /\ is_empty (TrimSpace (p_MerchantID p)) = false /\
  str_len (ToUpper (TrimSpace (p_Currency p))) = 3.

Lemma merchant_amount p : settleable p ->
  int64 (p_AmountPence p - platformFee (p_AmountPence p)) = p_AmountPence p - platformFee (p_AmountPence p) /\
  1 <= platformFee (p_AmountPence p) < p_AmountPence p.
Proof.
  intros (_ & H2 & Hmax & _). unfold platformFeeRateBPS in Hmax.
  destruct (platformFee_spec (p_AmountPence p)) as (_ & Hb & Hlt); [lia|unfold platformFeeRateBPS; lia|].
  specialize (Hlt H2). split; [|lia]. apply int64_id. unfold in_int64, min_int64. lia.
Qed.

Lemma platform_owner_ok : is_empty (TrimSpace platformOwnerRef) = false.
Proof. reflexivity. Qed.

Lemma one_penny_fee : platformFee 1 = 1 /\ int64 (1 - 1) = 0.
Proof. split; reflexivity. Qed.

#[local] Opaque ToUpper TrimSpace str_len int64 platformFee itoa.

Lemma check_settlement p : settleable p ->
  let cur := ToUpper (TrimSpace (p_Currency p)) in
  exists d c, check_lines 0 (settlement_inputs p (p_Currency p)) 0 0 "" = Ok (settlement_inputs p cur, d, c) /\
    net (settlement_inputs p (p_Currency p)) = 0.
Proof.
  intros Hs cur. pose proof (merchant_amount p Hs) as [Hm Hf]. destruct Hs as (_ & H2 & _ & Hc & Hmer & Hcur).
  unfold settlement_inputs, net. simpl. rewrite Hm, Hc, Hmer.
  rewrite platform_owner_ok.
  destruct (Z.leb_spec (p_AmountPence p) 0); [lia|].
  destruct (Z.leb_spec (p_AmountPence p - platformFee (p_AmountPence p)) 0); [lia|].
  destruct (Z.leb_spec (platformFee (p_AmountPence p)) 0); [lia|].
  fold cur in Hcur |- *. rewrite Hcur. simpl.
  assert (is_empty cur = false) as ->.
  { apply is_empty_false. intros ->. discriminate. }
  rewrite bool_decide_eq_true_2 by done. simpl. rewrite andb_false_r. simpl. do 2 eexists. split; [done|].
  rewrite !sumZ_cons, sumZ_nil. simpl. lia.
Qed.

Lemma run_settlement p desc e db :
  settleable p -> calm e -> fresh (bump e) (all_ids db) -> ledger_inv db ->
  let a := LedgerServer.PostDoubleEntry (Some (settlement_request p desc)) (MkWorld e db) in
  exists out, fst a = Ok out /\
    (find_entry (p_ID p) db = None ->
     stored (p_ID p) (settlement_inputs p (ToUpper (TrimSpace (p_Currency p)))) db (jen_id out) (w_st (snd a))).
Proof.
  intros Hs Hc Hfr Hinv. destruct (check_settlement p Hs) as (d & c & Hcl & Hnet).
  pose proof (run_PostDoubleEntry (p_ID p) desc (settlement_inputs p (p_Currency p)) e db Hc Hfr Hinv
    ltac:(apply Hs) ltac:(simpl; lia) ltac:(by rewrite Hcl) Hnet) as Hok.
  destruct (wp_PostDoubleEntry (p_ID p) desc (settlement_inputs p (p_Currency p)) e db Hinv) as (_ & _ & Hout).
  unfold LedgerServer.PostDoubleEntry, settlement_request. simpl. unfold gmap_err, gbind.
  change (convert_lines (settlement_lines p)) with (Ok (E := error) (settlement_inputs p (p_Currency p))).
  cbv beta iota. destruct (LedgerStore.PostDoubleEntry _ _ _ _) as [[out|err] w'] eqn:Hp; [|done].
  exists out. split; [done|]. intros Hnone. simpl in *. destruct (Hout out eq_refl) as (ls' & n & Hcl' & Hst).
  rewrite Hcl in Hcl'. simplify_eq. by rewrite Hnone in Hst.
Qed.

(** Settlement entries are accepted: for a payment of at least two pence
(and at most 2^63/100) with a three-letter currency, the entry that the saga
asks for is well formed and balanced, so the ledger posts it when the database
answers, and a payment without an entry gets exactly the three lines: the
consumer debited by the amount, the merchant credited with the amount less the
fee, the platform credited with the fee. *)
Theorem settlement_is_posted p desc e db :
  settleable p -> calm e -> fresh (bump e) (all_ids db) -> ledger_inv db ->
  let a := LedgerServer.PostDoubleEntry (Some (settlement_request p desc)) (MkWorld e db) in
  exists out, fst a = Ok out /\
    (find_entry (p_ID p) db = None ->
     stored (p_ID p) (settlement_inputs p (ToUpper (TrimSpace (p_Currency p)))) db (jen_id out) (w_st (snd a))).
Proof. apply run_settlement. Qed.

(** What the ledger answers for a balance. *)
Definition balance_of (t : AccountType) (owner currency : string) (e : env) (db : LedgerDB) : option Z :=
  match fst (LedgerServer.GetBalance (Some (MkBalanceRequest t owner currency)) (MkWorld e db)) with
  | Ok r => Some (pm_amount_pence (brs_balance r))
  | Err _ => None
  end.

Lemma balance_of_query t name owner currency e db :
  calm e -> accountTypeToDB t = Ok name -> is_empty name = false -> is_empty (TrimSpace owner) = false ->
  str_len (ToUpper (TrimSpace currency)) = 3 ->
  balance_of t owner currency e db =
  let b := balance_query name owner (ToUpper (TrimSpace currency)) db in
  if bool_decide (min_int64 <= b <= max_int64) then Some b else None.
Proof.
  intros Hc Ht Hn Ho Hcur. unfold balance_of, LedgerServer.GetBalance. simpl. rewrite Ht.
  unfold gmap_err, gbind, LedgerStore.GetBalance. rewrite Hn, Ho.
  assert (is_empty (ToUpper (TrimSpace currency)) = false) as -> by (apply is_empty_false; intros E; by rewrite E in Hcur).
  rewrite Hcur. simpl. unfold gbind, exec, cur_fault. simpl. rewrite (calm_now e Hc). simpl.
  by case_bool_decide.
Qed.

(** C6.  A settlement moves the money it says: after the ledger posted the entry
of a payment that had none, the consumer's escrow balance that [GetBalance]
answers is lower by the amount, the merchant's higher by the amount less the
fee and the platform's higher by the fee, as long as the sums fit 64 bits. *)
Theorem settlement_moves_balances p desc e e0 e1 db :
  settleable p -> calm e -> calm e0 -> calm e1 -> fresh (bump e) (all_ids db) -> ledger_inv db ->
  find_entry (p_ID p) db = None ->
  let db' := w_st (snd (LedgerServer.PostDoubleEntry (Some (settlement_request p desc)) (MkWorld e db))) in
  let fee := platformFee (p_AmountPence p) in
  let moves t o d := forall b, balance_of t o (p_Currency p) e0 db = Some b -> in_int64 (b + d) ->
                               balance_of t o (p_Currency p) e1 db' = Some (b + d) in
  moves AccountType_CONSUMER_ESCROW (p_ConsumerID p) (- p_AmountPence p) /\
  moves AccountType_MERCHANT_ESCROW (p_MerchantID p) (p_AmountPence p - fee) /\
  moves AccountType_PLATFORM_FEE platformOwnerRef fee.
Proof.
  intros Hs Hc H0c H1c Hfr Hinv Hnone db' fee. pose proof (merchant_amount p Hs) as [Hm _].
  destruct (run_settlement p desc e db Hs Hc Hfr Hinv) as (out & _ & Hst).
  destruct (Hst Hnone) as (en & He & Hp & _ & Hid & Hpid & Hg). fold db' in Hg.
  assert (schema (MkLedgerDB (accounts db) (entries db ++ [en]) (lines db))) as Hs1.
  { apply schema_add_entry; [apply Hinv|by rewrite He|by rewrite Hp]. }
  destruct Hs as (_ & _ & _ & Hcon & Hmer & Hcur).
  assert (Hmove : forall t name o d, accountTypeToDB t = Ok name -> is_empty name = false -> is_empty (TrimSpace o) = false ->
    sumZ (credit name o (ToUpper (TrimSpace (p_Currency p)))) (map input_spec (settlement_inputs p (ToUpper (TrimSpace (p_Currency p))))) = d ->
    forall b, balance_of t o (p_Currency p) e0 db = Some b -> in_int64 (b + d) ->
    balance_of t o (p_Currency p) e1 db' = Some (b + d)).
  { intros t name o d Ht Hn Ho <- b. rewrite !(balance_of_query t name) by done. cbv zeta.
    rewrite (balance_after_growth _ _ _ _ _ _ _ Hs1 Hg).
    change (balance_query _ _ _ (MkLedgerDB _ _ _)) with (balance_query name o (ToUpper (TrimSpace (p_Currency p))) db).
    case_bool_decide as Hb; intros [= <-] Hr. by rewrite bool_decide_eq_true_2. }
  unfold settlement_inputs in Hmove. rewrite Hm in Hmove. fold fee in Hmove.
  split_and!; (eapply Hmove; [reflexivity|reflexivity|first [done|apply platform_owner_ok]|]); 
    simpl; rewrite !sumZ_cons, sumZ_nil; unfold credit; simpl; rewrite bool_decide_eq_true_2 by done; lia.
Qed.

(** C35.  A payment of one penny cannot settle: its fee is one penny, so the
merchant's line is zero and the ledger refuses the entry in every state, after
the bank has accepted the payment. *)
Theorem one_penny_is_refused p desc (w : world LedgerDB) :
  p_AmountPence p = 1 ->
  exists err, LedgerServer.PostDoubleEntry (Some (settlement_request p desc)) w = (Err err, w).
Proof.
  intros Ham. unfold LedgerServer.PostDoubleEntry, settlement_request. simpl.
  change (convert_lines (settlement_lines p)) with (Ok (E := error) (settlement_inputs p (p_Currency p))).
  unfold LedgerStore.PostDoubleEntry, settlement_inputs. simpl. rewrite Ham, (proj1 one_penny_fee), (proj2 one_penny_fee).
  destruct (is_empty (p_ID p)); [eexists; reflexivity|]. simpl.
  destruct (is_empty (TrimSpace (p_ConsumerID p))); [eexists; reflexivity|]. simpl.
  destruct (str_len _ =? 3); [|eexists; reflexivity]. simpl.
  destruct (is_empty (TrimSpace (p_MerchantID p))); eexists; reflexivity.
Qed.
End Settlement.

(* ------------------------------------------------------------------ *)
(** ** Idempotency, settlement, reconciliation *)

Section Entry.
Context {W : Type} `{paymentRepo W} `{IdemStore W} `{Clients W}.
Context `{GrpcLib} `{UuidLib} `{Unicode}.

Definition quiet (l : list call) : Prop := Forall (eq COther) l.

Lemma quiet_snoc l : quiet l -> quiet (l ++ [COther]).
Proof. intros Hl. apply Forall_app. split; [done|by constructor]. Qed.

(** A call that is not one of the saga's. *)
Lemma wp_other {A} (m : M W A) (Q : A -> W * list call -> Prop) w l :
  quiet l -> (forall a w' l', quiet l' -> Q a (w', l')) -> wp (logged m (fun _ => COther)) Q (w, l).
Proof. intros Hl HQ. apply wp_logged. intros a w' _. apply HQ. by apply quiet_snoc. Qed.

(** A caller who does not own the idempotency key moves no money: when
[Begin] answers that somebody else has the key, [Initiate] only reads, makes no
call to the consent, risk, bank or ledger service and writes no payment. *)
Theorem second_caller_only_reads uuid_new inp (w : W) completed w1 :
  in_SkipIdempotency inp = false ->
  idem_Begin (in_IdempotencyKey inp) w = (Ok (false, completed), w1) ->
  quiet (snd (snd (Initiate (W := W * list call) uuid_new inp (w, [])))).
Proof.
  intros Hskip Hb. assert (wp (Initiate (W := W * list call) uuid_new inp) (fun _ wl => quiet (snd wl)) (w, [])) as Hwp; [|exact Hwp].
  unfold Initiate. rewrite Hskip. wp_step; [wp_step; constructor|].
  destruct (validateInitiate inp) as [e|]; [wp_step; constructor|].
  wp_step. apply wp_logged. intros b w' Hb'. rewrite Hb in Hb'. injection Hb' as <- <-.
  assert (Hq : quiet ([] ++ [COther])) by by apply quiet_snoc; constructor.
  unfold join_other. wp_step.
  - destruct (uuid_Parse completed); wp_step; (apply wp_other; [done|]); intros; by wp_step.
  - wp_step. apply wp_other; [done|]. intros v w2 l2 Hl2. destruct v as [[val done]|err]; [|by wp_step].
    wp_step; [destruct (uuid_Parse val)|]; wp_step; (apply wp_other; [done|]); intros; by wp_step.
Qed.

Definition no_post (c : call) : Prop := match c with CPost _ _ => False | _ => True end.

Definition is_mark (c : call) : Prop := match c with CFailed _ _ _ | CReview _ _ _ => True | _ => False end.

(** The log grows by calls that post nothing, the last of them the mark. *)
Definition gives_up (l l' : list call) : Prop :=
  exists ext, l' = l ++ ext /\ Forall no_post ext /\ closed ext.

Lemma gives_up_mark l ext c : Forall no_post ext -> is_mark c -> gives_up l ((l ++ ext) ++ [c]).
Proof.
  intros Hext Hc. exists (ext ++ [c]). rewrite (assoc_L (++)). split_and!; [done| |].
  - apply Forall_app. split; [done|]. repeat constructor. by destruct c.
  - exists ext. destruct c; try done; repeat eexists; eauto.
Qed.

Lemma wp_fail_no_post p reason rc rb retErr (w : W) l :
  wp (failAndCompensate p reason rc rb retErr) (fun _ (wl : W * list call) => gives_up l (snd wl)) (w, l).
Proof.
  assert (Hrest : forall e1 (w1 : W) ext, Forall no_post ext ->
    wp (c <- (e2 <- match p_ReservationID p with
        | Some rid => if rc then r <- consent_ReleaseReservation (MkReleaseRequest rid reason) ;; gret (note "consent: " r)
                      else gret []
        | None => gret [] end ;; gret (joined (e1 ++ e2))) ;;
      match c with
      | Some err => o <- repo_MarkManualReview p (reason +:+ "; compensate failed: " +:+ Error_ err) ;;
          gret (Some (match retErr with Some e => e | None => DomainErr.New CodeInternal "compensation failed" end), snd o)
      | None => o <- repo_MarkFailed p reason ;;
          gret (Some (match retErr with Some e => e | None => DomainErr.New CodeInternal reason end), snd o)
      end) (fun _ (wl : W * list call) => gives_up l (snd wl)) (w1, l ++ ext)).
  { intros e1 w1 ext Hext. do 3 wp_step.
    - wp_step; [|do 2 wp_step; destruct (joined _); wp_step; apply wp_logged; intros; wp_step; by apply gives_up_mark].
      wp_step. apply wp_logged. intros r w2 _. do 2 wp_step. rewrite <- (assoc_L (++)).
      assert (Forall no_post (ext ++ [CRelease (MkReleaseRequest s reason) r])) by (apply Forall_app; by repeat constructor).
      destruct (joined _); wp_step; apply wp_logged; intros; wp_step; by apply gives_up_mark.
    - do 2 wp_step. destruct (joined _); wp_step; apply wp_logged; intros; wp_step; by apply gives_up_mark. }
  unfold failAndCompensate, compensate. do 2 wp_step. destruct (rb && _).
  - wp_step. apply wp_logged. intros r w1 _. wp_step.
    apply (wp_bind_inv _ _ _ _ (Hrest (note "bank: " r) w1 [CReverse (MkBankReverseRequest (p_BankPaymentRef p) reason) r] ltac:(by repeat constructor))).
  - wp_step. pose proof (Hrest [] w [] ltac:(constructor)) as Hr. rewrite app_nil_r in Hr. by apply wp_bind_inv in Hr.
Qed.

(** A program whose log only grows. *)
Definition grows {A} (m : M (W * list call) A) : Prop :=
  forall w l, wp m (fun _ wl => exists rest, snd wl = l ++ rest) (w, l).

Lemma grows_ret {A} (a : A) : grows (gret a).
Proof. intros w l. wp_step. exists []. by rewrite app_nil_r. Qed.

Lemma grows_bind {A B} (m : M (W * list call) A) (k : A -> M (W * list call) B) :
  grows m -> (forall a, grows (k a)) -> grows (gbind m k).
Proof.
  intros Hm Hk w l. wp_step. eapply wp_mono; [apply Hm|]. intros a [w1 l1] [rest Heq]. simpl in Heq. subst l1.
  eapply wp_mono; [apply Hk|]. intros b wl [rest2 ->]. exists (rest ++ rest2). by rewrite (assoc_L (++)).
Qed.

Lemma grows_logged {A} (m : M W A) c : grows (logged m c).
Proof. intros w l. apply wp_logged. intros a w' _. by eexists. Qed.

Ltac grow :=
  repeat first
    [ apply grows_ret | apply grows_logged
    | apply grows_bind; [|intros ?]
    | lazymatch goal with |- grows (match ?x with _ => _ end) => destruct x end ].

Lemma grows_settle_and_confirm p why : grows (settle_and_confirm p why).
Proof. unfold settle_and_confirm, compensateFull, compensate. grow. Qed.

Lemma grows_failAndCompensate p reason rc rb retErr : grows (failAndCompensate p reason rc rb retErr).
Proof. unfold failAndCompensate, compensate. grow. Qed.

Lemma wp_ResumeFromLedger_posts p (w : W) l :
  wp (ResumeFromLedger p) (fun _ (wl : W * list call) => exists desc r rest,
    snd wl = l ++ CPost (MkPostEntryRequest (p_ID p) desc (settlement_lines p)) r :: rest) (w, l).
Proof.
  unfold ResumeFromLedger, run_from_ledger. do 2 wp_step. apply wp_logged. intros r w1 _.
  assert (Hg : grows match r with
    | Ok _ => settle_and_confirm p "reconciled settle failed"
    | Err err => failAndCompensate p ("RECONCILIATION_LEDGER_ERROR: " +:+ Error_ err) true true (Some (mapDownstreamErr err))
    end) by (destruct r; [apply grows_settle_and_confirm|apply grows_failAndCompensate]).
  eapply wp_mono; [apply Hg|]. intros o [w2 l2] [rest Heq]. simpl in Heq. subst l2. rewrite <- (assoc_L (++)).
  destruct (fst o); [wp_step; repeat eexists|]. wp_step. apply wp_logged. intros c w3 _. wp_step.
  rewrite <- (assoc_L (++)). repeat eexists.
Qed.

(** What the worker's calls may be: without a bank reference it gives up, else by
the bank's answer. *)
Definition reconciled (p : Payment) (log : list call) : Prop :=
  if is_empty (p_BankPaymentRef p) then Forall no_post log /\ closed log
  else exists r rest, log = CStatus (p_BankPaymentRef p) r :: rest /\
    match r with
    | Err _ => rest = []
    | Ok resp =>
        if bool_decide (sp_status resp = Bank_SETTLED)
        then exists desc r' rest', rest = CPost (MkPostEntryRequest (p_ID p) desc (settlement_lines p)) r' :: rest'
        else Forall no_post rest /\ closed rest
    end.

Lemma wp_CompensateStale p reason (w : W) l :
  wp (CompensateStale p reason) (fun _ (wl : W * list call) => gives_up l (snd wl)) (w, l).
Proof. apply wp_fail_no_post. Qed.

(** C18.  The reconciliation worker asks the bank before it moves money, and
believes it: a payment without a bank reference is closed without a posting; any
other is first asked for at the bank, and when the bank does not answer, the
payment is left alone; when the bank says SETTLED, the settlement entry is posted
next; when it says anything else, no entry is posted and the payment is closed.
(Closed is FAILED, or MANUAL_REVIEW when a compensation failed.) *)
Theorem reconcile_asks_the_bank p (w : W) : reconciled p (snd (snd (reconcile_one p (w, [])))).
Proof.
  change (wp (reconcile_one p) (fun _ (wl : W * list call) => reconciled p (snd wl)) (w, [])).
  unfold reconcile_one, reconciled. destruct (is_empty (p_BankPaymentRef p)); simpl; wp_step.
  { eapply wp_mono; [apply wp_CompensateStale|]. intros _ [w1 l1] (ext & Heq & Hext & Hcl). simpl in Heq. subst l1. by wp_step. }
  apply wp_logged. intros r w1 _. destruct r as [resp|err]; [|wp_step; by repeat eexists].
  destruct (bool_decide _) eqn:Hst; wp_step.
  - eapply wp_mono; [apply wp_ResumeFromLedger_posts|]. intros _ [w2 l2] (d & r0 & rest & Heq). wp_step.
    exists (Ok resp). eexists. split; [exact Heq|]. rewrite Hst. by repeat eexists.
  - eapply wp_mono; [apply wp_CompensateStale|]. intros _ [w2 l2] (ext & Heq & Hext & Hcl). wp_step.
    exists (Ok resp). eexists. split; [exact Heq|]. by rewrite Hst.
Qed.
End Entry.

(* ------------------------------------------------------------------ *)
(** ** The settlement transaction *)

Section Settle.
Context `{GrpcLib}.

(** Row, event and outbox message of one settlement, all written. *)
Definition settled_in (p : Payment) (now : Z) (db db' : PaymentDB) : Prop :=
  exists evid evt obid,
    existsb (is_payment (p_ID p)) (payments db) = true /\
    payments db' = update_where (is_payment (p_ID p)) (settle_row now) (payments db) /\
    events db' = events db ++ [MkEvent evid (p_ID p) (p_Status p) StatusSettled "payment settled" [] evt] /\
    outbox db' = outbox db ++ [MkOutbox obid TopicPaymentEvents (p_ID p) (buildSettledPayload p now) now].

Lemma is_payment_settle id now p : is_payment id (settle_row now p) = is_payment id p.
Proof. done. Qed.

Lemma update_payment_settle p now t u db a db' :
  update_payment (p_ID p) any_row (settle_row now) t u db = (Ok a, db') ->
  db' = set_payments (update_where (is_payment (p_ID p)) (settle_row now) (payments db)) db /\
  existsb (is_payment (p_ID p)) (payments db') = existsb (is_payment (p_ID p)) (payments db).
Proof.
  intros [= _ <-]. simpl.
  assert (E : forall l, update_where (fun x => is_payment (p_ID p) x && any_row x) (settle_row now) l =
    update_where (is_payment (p_ID p)) (settle_row now) l).
  { intros l. apply map_ext. intros x. unfold any_row. by rewrite andb_true_r. }
  rewrite E. split; [done|]. clear E. induction (payments db) as [|x l IH]; [done|]. simpl. rewrite IH.
  destruct (is_payment (p_ID p) x) eqn:Hx; [by rewrite is_payment_settle, Hx|by rewrite Hx].
Qed.

Lemma wp_settle_tx p e t db :
  wp (settle_tx p) (fun r w => forall now, r = Ok now -> settled_in p now db (tx_db (w_st w)))
    (MkWorld e (MkTx t db false)).
Proof.
  unfold settle_tx. wp_go. apply wp_tx_exec; [done|]. intros n s _ (-> & Hex)%update_payment_settle. simpl in *.
  wp_go. unfold insertEvent. wp_go. apply wp_tx_exec; [done|]. simpl. intros [] s _ Hev. wp_go.
  apply wp_tx_exec; [done|]. simpl. intros [] s' _ Hob. wp_go. intros now [= <-]. simpl.
  unfold insert_event, insert_outbox in *. repeat case_match; simplify_eq; simpl in *.
  do 3 eexists. split_and!; try done. rewrite <- Hex. by apply negb_false_iff.
Qed.

(** C14.  Settling is atomic: when [SettleWithOutbox] returns no error the row is
SETTLED, the audit event is written and exactly one outbox message, carrying
the payment's key and data, is queued; when it returns an error none of the
three is written, or (the commit went through and its reply was lost) all of
them are. *)
Theorem settlement_is_atomic p (w : world PaymentDB) :
  let '(r, q, w') := SettleWithOutbox p w in
  match r with
  | Ok _ => exists now, q = settle_row now p /\ settled_in p now (w_st w) (w_st w')
  | Err _ => q = p /\ (w_st w' = w_st w \/ exists now, settled_in p now (w_st w) (w_st w'))
  end.
Proof.
  assert (wp (SettleWithOutbox p) (fun o w' => match fst o with
  | Ok _ => exists now, snd o = settle_row now p /\ settled_in p now (w_st w) (w_st w')
  | Err _ => snd o = p /\ (w_st w' = w_st w \/ exists now, settled_in p now (w_st w) (w_st w'))
  end) w) as Hwp.
  { destruct w as [e db]. unfold SettleWithOutbox. wp_step.
    apply (wp_manual_tx _ _ _ _ (fun now s => settled_in p now db s)).
    - intros err e'. wp_step. simpl. auto.
    - eapply wp_mono; [apply wp_settle_tx|]. simpl. auto.
    - intros now e' s' Hs. wp_step. simpl. eauto.
    - intros now e' s' err Hs. wp_step. simpl. eauto. }
  unfold wp in Hwp. destruct (SettleWithOutbox p w) as [[r q] w']. exact Hwp.
Qed.
(* ------------------------------------------------------------------ *)
(** ** A saga in which everything works *)

(** The payment's row exists, the database answers, and new ids are new. *)
Definition ready (id : string) (e : env) (db : PaymentDB) : Prop :=
  calm e /\ fresh e (map ev_id (events db) ++ map ob_ID (outbox db)) /\
  existsb (is_payment id) (payments db) = true.

Lemma update_any id f l :
  update_where (fun x => is_payment id x && any_row x) f l = update_where (is_payment id) f l.
Proof. apply map_ext. intros x. unfold any_row. by rewrite andb_true_r. Qed.

Lemma existsb_update id f l : (forall x, p_ID (f x) = p_ID x) ->
  existsb (is_payment id) (update_where (is_payment id) f l) = existsb (is_payment id) l.
Proof.
  intros Hf. assert (forall x, is_payment id (f x) = is_payment id x) as Hp by (intros; unfold is_payment; by rewrite Hf).
  induction l as [|x l IH]; [done|]. simpl. rewrite IH.
  destruct (is_payment id x) eqn:Hx; [by rewrite Hp, Hx|by rewrite Hx].
Qed.

Lemma update_where_compose id f g (l : list Payment) : (forall x, p_ID (g x) = p_ID x) ->
  update_where (is_payment id) f (update_where (is_payment id) g l) =
  update_where (is_payment id) (fun x => f (g x)) l.
Proof.
  intros Hg. unfold update_where. rewrite map_map. apply map_ext. intros x.
  destruct (is_payment id x) eqn:Hx; [|by rewrite Hx].
  assert (is_payment id (g x) = true) as ->; [|done]. unfold is_payment in *. by rewrite Hg.
Qed.

Lemma fresh_not_in {A} (g : A -> string) e ids l : fresh e ids -> (forall x, x ∈ l -> g x ∈ ids) ->
  existsb (fun x => bool_decide (g x = cur_uuid e)) l = false.
Proof.
  intros Hf Hsub. apply not_true_is_false. intros (x & Hin & Heq)%existsb_exists.
  apply bool_decide_eq_true in Heq. apply (fresh_cur _ _ Hf). rewrite <- Heq. apply Hsub. by apply list_elem_of_In.
Qed.

Lemma fresh_bump_same e ids : fresh e ids -> fresh (bump e) ids.
Proof. intros Hf. apply (fresh_bump e _ _ Hf). auto. Qed.

Lemma ready_bump id e db : ready id e db -> ready id (bump e) db.
Proof. intros (Hc & Hf & Hx). split_and!; [auto|by apply fresh_bump_same|done]. Qed.

Lemma ready_update id e db f : (forall x, p_ID (f x) = p_ID x) -> ready id e db ->
  ready id e (set_payments (update_where (is_payment id) f (payments db)) db).
Proof. intros Hp (Hc & Hf & Hx). split_and!; [done|done|]. simpl. by rewrite existsb_update. Qed.

Lemma wp_update_calm p msg to reason meta f e db (Q : outcome -> world PaymentDB -> Prop) :
  ready (p_ID p) e db -> (forall n x, p_ID (f n x) = p_ID x) ->
  (forall n e' ev, ev_to ev = to -> ev_payment_id ev = p_ID p ->
     let db' := MkPaymentDB (update_where (is_payment (p_ID p)) (f n) (payments db)) (events db ++ [ev]) (outbox db) in
     ready (p_ID p) e' db' -> Q (Ok tt, f n p) (MkWorld e' db')) ->
  wp (update_with_event p msg to reason meta f) Q (MkWorld e db).
Proof.
  intros Hr Hid HQ. unfold update_with_event. wp_go. set (now := cur_clock e).
  apply ready_bump in Hr. pose proof (ready_bump _ _ _ Hr) as Hr2. apply (ready_update _ _ _ (f now) (Hid now)) in Hr2.
  eapply wp_exec_calm; [by destruct Hr; auto|reflexivity|]. rewrite update_any. wp_step. unfold insertEvent. wp_go.
  destruct Hr2 as (Hc & Hf & Hx).
  assert (Hn : existsb (fun x => bool_decide (ev_id x = cur_uuid (bump (bump e)))) (events db) = false).
  { apply (fresh_not_in ev_id _ _ _ Hf). intros x Hin. apply elem_of_app. left. by apply list_elem_of_fmap_2. }
  eapply wp_exec_calm; [auto| |].
  { unfold insert_event. simpl in *. rewrite Hn, Hx. reflexivity. }
  simpl. wp_step. apply HQ; [done|done|]. split_and!; [auto| |done]. do 2 apply fresh_bump_same.
  eapply fresh_bump; [exact Hf|]. simpl. intros i. rewrite map_app, !elem_of_app. simpl.
  rewrite list_elem_of_singleton. tauto.
Qed.
Lemma wp_settle_calm p e db (Q : outcome -> world PaymentDB -> Prop) :
  ready (p_ID p) e db ->
  (forall n e' ev ob, ev_to ev = StatusSettled -> ev_payment_id ev = p_ID p ->
     ob_Topic ob = TopicPaymentEvents -> ob_Key ob = p_ID p -> ob_Payload ob = buildSettledPayload p n ->
     Q (Ok tt, settle_row n p)
       (MkWorld e' (MkPaymentDB (update_where (is_payment (p_ID p)) (settle_row n) (payments db))
                      (events db ++ [ev]) (outbox db ++ [ob])))) ->
  wp (SettleWithOutbox p) Q (MkWorld e db).
Proof.
  intros Hr HQ. unfold SettleWithOutbox. wp_step. apply wp_manual_tx_calm; [apply Hr|].
  unfold settle_tx. wp_go. set (now := clock e _). do 2 apply ready_bump in Hr.
  eapply wp_tx_exec_calm; [by destruct Hr; auto|reflexivity|]. rewrite update_any. simpl. unfold insertEvent. wp_go.
  apply ready_bump, (ready_update _ _ _ (settle_row now)) in Hr as (Hc & Hf & Hx); [|done].
  assert (Hn : existsb (fun x => bool_decide (ev_id x = cur_uuid (bump (bump (bump e))))) (events db) = false).
  { apply (fresh_not_in ev_id _ _ _ Hf). intros x Hin. apply elem_of_app. left. by apply list_elem_of_fmap_2. }
  eapply wp_tx_exec_calm; [auto| |].
  { unfold insert_event. simpl in *. rewrite Hn, Hx. reflexivity. }
  simpl. wp_go. do 3 apply fresh_bump_same in Hf.
  assert (Ho : existsb (fun x => bool_decide (ob_ID x = cur_uuid (bump (bump (bump (bump (bump (bump e)))))))) (outbox db) = false).
  { apply (fresh_not_in ob_ID _ _ _ Hf). intros x Hin. apply elem_of_app. right. by apply list_elem_of_fmap_2. }
  eapply wp_tx_exec_calm; [auto| |].
  { unfold insert_outbox. simpl in *. rewrite Ho. reflexivity. }
  simpl. wp_go. eexists. split_and!; [done|auto|done|]. simpl. wp_step. by apply HQ.
Qed.
End Settle.

(** The answers of the four services, as functions of the requests. *)
Record Services := MkServices {
  sv_reserve : ReserveRequest -> result error ReserveResponse;
  sv_confirm : ConfirmRequest -> result error unit;
  sv_release : ReleaseRequest -> result error unit;
  sv_score : ScoreRequest -> result error ScoreResponse;
  sv_bank : InitiateRequest -> result error InitiateResponse;
  sv_status : string -> result error StatusResponse;
  sv_reverse : BankReverseRequest -> result error ReverseResponse;
  sv_post : PostEntryRequest -> result error JournalEntry;
  sv_unpost : LedgerReverseRequest -> result error unit;
}.

Definition answering {W} (s : Services) : Clients W := {|
  consent_ValidateAndReserve r := gret (sv_reserve s r);
  consent_ConfirmReservation r := gret (sv_confirm s r);
  consent_ReleaseReservation r := gret (sv_release s r);
  risk_Score r := gret (sv_score s r);
  bank_InitiatePayment r := gret (sv_bank s r);
  bank_GetPaymentStatus r := gret (sv_status s r);
  bank_ReversePayment r := gret (sv_reverse s r);
  ledger_PostDoubleEntry r := gret (sv_post s r);
  ledger_ReverseEntry r := gret (sv_unpost s r);
|}.

Section Happy.
Context `{GrpcLib} `{UuidLib} `{Unicode}.

(** Each service takes the request that the saga makes of it. *)
Record accepts (s : Services) (p : Payment) (resv : ReserveResponse) (rid : string)
    (scr : ScoreResponse) (bnk : InitiateResponse) : Prop := {
  ac_reserve : sv_reserve s (MkReserveRequest (p_ConsentID p) (p_ID p) (pay_money p)) = Ok resv;
  ac_rid : uuid_Parse (rs_reservation_id resv) = Some rid;
  ac_score : sv_score s (MkScoreRequest (p_MerchantID p) (rs_consumer_id resv) (p_ConsentID p) (p_ID p)
               (pay_money p) "" "") = Ok scr;
  ac_allow : ss_decision scr <> RiskDecision_DECLINE;
  ac_bank : sv_bank s (MkInitiateRequest (p_ID p) (rs_bank_consent_ref resv) (rs_consumer_id resv)
              (pay_money p) (p_Description p)) = Ok bnk;
  ac_taken : is_status bnk <> Bank_REJECTED;
  ac_post : exists entry, sv_post s (MkPostEntryRequest (p_ID p) ("VRP settlement " +:+ p_ID p)
              (settlement_lines (with_consent (Some rid) (rs_consumer_id resv) p))) = Ok entry;
}.

(** The row after the four updates. *)
Definition settled_row (resv : ReserveResponse) (rid : string) (scr : ScoreResponse) (bnk : InitiateResponse)
    (n1 n2 n3 n4 : Z) (x : Payment) : Payment :=
  settle_row n4 (with_status StatusAuthorising n3 (with_bank (is_bank_payment_ref bnk)
    (with_status StatusRiskPassed n2 (with_risk (Some (ss_score scr)) (decision_String (ss_decision scr))
      (with_status StatusConsentReserved n1 (with_consent (Some rid) (rs_consumer_id resv) x)))))).

(** What a settled payment leaves behind. *)
Definition went_through (p : Payment) (row : Z -> Z -> Z -> Z -> Payment -> Payment) (db : PaymentDB)
    (o : option error * Payment) (w : world PaymentDB) : Prop :=
  exists n1 n2 n3 n4 evs ob,
    o = (None, row n1 n2 n3 n4 p) /\
    payments (w_st w) = update_where (is_payment (p_ID p)) (row n1 n2 n3 n4) (payments db) /\
    events (w_st w) = events db ++ evs /\
    map ev_to evs = [StatusConsentReserved; StatusRiskPassed; StatusAuthorising; StatusSettled] /\
    Forall (fun ev => ev_payment_id ev = p_ID p) evs /\
    outbox (w_st w) = outbox db ++ [ob] /\ ob_Key ob = p_ID p.

(** When the four services accept and the database answers, the saga
settles the payment: it returns no error, the row of the payment (and no other)
goes through the four updates to SETTLED with the reservation, the score and the
bank reference on it, the audit trail grows by CONSENT_RESERVED, RISK_PASSED,
AUTHORISING and SETTLED in that order, and one message is queued.  The consumer
that the consent names is the one sent to the bank and debited in the ledger. *)
Theorem saga_settles s p resv rid scr bnk e db :
  accepts s p resv rid scr bnk -> ready (p_ID p) e db ->
  let a := runSaga (clients := answering s) p (MkWorld e db) in
  went_through p (settled_row resv rid scr bnk) db (fst a) (snd a).
Proof.
  intros [Hr Hrid Hs Hal Hb Htk (en & Hp)] Hrdy.
  change (wp (runSaga (clients := answering s) p) (went_through p (settled_row resv rid scr bnk) db) (MkWorld e db)).
  unfold runSaga. wp_step. cbn. wp_step. fold (pay_money p). rewrite Hr, Hrid. wp_step.
    apply wp_update_calm; [done|done|]. intros n1 e1 ev1 T1 P1 db1 R1. subst db1.
    unfold run_from_risk. wp_step. cbn -[update_where]. wp_step. fold (pay_money p). rewrite Hs, bool_decide_eq_false_2 by done. wp_step.
    apply wp_update_calm; [done|done|]. intros n2 e2 ev2 T2 P2 db2 R2. subst db2.
    unfold run_from_bank. wp_step. cbn -[update_where]. wp_step. fold (pay_money p). rewrite Hb, bool_decide_eq_false_2 by done. wp_step.
    apply wp_update_calm; [done|done|]. intros n3 e3 ev3 T3 P3 db3 R3. subst db3.
    unfold run_from_ledger. wp_step. cbn -[update_where]. wp_step.
    change (settlement_lines _) with (settlement_lines (with_consent (Some rid) (rs_consumer_id resv) p)).
    rewrite Hp. unfold settle_and_confirm. wp_step.
    apply wp_settle_calm; [done|]. intros n4 e4 ev4 ob T4 P4 To Ko Po. cbn -[update_where]. do 3 wp_step.
    exists n1, n2, n3, n4, [ev1; ev2; ev3; ev4], ob. cbn -[update_where]. rewrite !update_where_compose by done.
    rewrite T1, T2, T3, T4. split_and!; try done; [by rewrite <- !(assoc_L (++))|by repeat constructor].
Qed.
End Happy.
