(* ===== verification/SagaExamples.v ===== *)
(** * A payment run through the saga, and the claims of the payment service on it.

One payment of 25.00 GBP, services that accept it, services that decline it, a
store whose key is taken, and a database that fails at one call. *)
From S2P Require Import Prelude GoStrings DomainErr World Proto Uuid Idempotency LedgerStore LedgerTheory LedgerProps LedgerServer PaymentRepo Saga PaymentHandler Reconciliation SagaTrace SagaProofs SagaProps.
Local Open Scope Z_scope.
Local Open Scope go_scope.

#[local] Existing Instance ascii_tables.
#[local] Existing Instance text_uuids.
#[local] Existing Instance simple_grpc.

Definition demo_payment : Payment :=
  MkPayment "p1" "key1" "shop" "c1" "" 2500 "GBP" StatusInitiated "" None None "" "" "book" 0 None 0.
Definition demo_tables : PaymentDB := MkPaymentDB [demo_payment] [] [].

Definition resv1 : ReserveResponse := MkReserveResponse "r1" (MkPMoney 7500 "GBP") "alice" "bc1".
Definition score1 (d : RiskDecision) : ScoreResponse := MkScoreResponse 10 d "" [].
Definition bank1 : InitiateResponse := MkInitiateResponse "b1" Bank_AUTHORISED "" 0.

Definition demo_services (d : RiskDecision) (st : BankPaymentStatus) : Services := {|
  sv_reserve _ := Ok resv1;
  sv_confirm _ := Ok tt;
  sv_release _ := Ok tt;
  sv_score _ := Ok (score1 d);
  sv_bank _ := Ok bank1;
  sv_status ref := Ok (MkStatusResponse ref st 0);
  sv_reverse r := Ok (MkReverseResponse (bv_bank_payment_ref r) "rev1" Bank_REVERSED);
  sv_post r := Ok (MkJournalEntry "j1" (per_payment_id r) (per_description r) (per_lines r) 0);
  sv_unpost _ := Ok tt;
|}.

(** A store that says somebody else has the key. *)
#[local] Instance busy_store : IdemStore (world PaymentDB) := {|
  idem_Begin _ := gret (Ok (false, ""));
  idem_Complete _ _ := gret (Ok tt);
  idem_Release _ := gret (Ok tt);
  idem_WaitForCompletion _ _ := gret (Ok ("p1", true));
|}.

#[local] Instance declining : Clients (world PaymentDB) :=
  answering (demo_services RiskDecision_DECLINE Bank_SETTLED).

Lemma saga_follows_protocol_witness :
  let '(r, wl) := runSaga demo_payment (MkWorld demo_env demo_tables, []) in
  (follows demo_payment (snd wl) /\
   match fst r with None => omap f_settled (snd wl) <> [] | Some _ => closed (snd wl) end) /\
  length (snd wl) = 5%nat.
Proof.
  pose proof (saga_follows_protocol demo_payment (MkWorld demo_env demo_tables) eq_refl) as Hc.
  assert (Hl : length (snd (snd (runSaga demo_payment (MkWorld demo_env demo_tables, [])))) = 5%nat)
    by (vm_compute; reflexivity).
  destruct (runSaga demo_payment _) as [r wl]. split; [exact Hc|exact Hl].
Defined.

(** The database refuses its second call. *)
Definition failing_env : env :=
  MkEnv 0 Z.of_nat (fun n => pretty (N.of_nat n))
    (fun n => if Nat.eqb n 1 then Refused (PlainError "connection refused") else NoFault).

Lemma unsaved_bank_payment_witness :
  let log := snd (snd (run_from_bank demo_payment "bc1" (MkWorld failing_env demo_tables, []))) in
  omap f_bank log = ["b1"] /\ omap f_reversed log = [] /\
  forall req r, CReverse req r ∈ log -> CReverse req r ∈ [].
Proof.
  split; [vm_compute; reflexivity|]. split; [vm_compute; reflexivity|].
  eapply (unsaved_bank_payment_is_not_reversed demo_payment "bc1" (MkWorld failing_env demo_tables) []).
  - reflexivity.
  - reflexivity.
  - discriminate.
  - vm_compute. reflexivity.
Defined.

Lemma platformFee_bounds_witness : platformFee 2500 = Z.max 1 (2500 / 100) /\ 1 <= platformFee 2500 <= 2500.
Proof.
  destruct (platformFee_bounds 2500) as (Heq & Hb & _); [lia|vm_compute; discriminate|]. split; [exact Heq|exact Hb].
Defined.

Definition demo_named : Payment := with_consent (Some "r1") "alice" demo_payment.

Lemma settlement_is_posted_witness :
  let a := LedgerServer.PostDoubleEntry (Some (settlement_request demo_named "")) (MkWorld demo_env empty_ledger) in
  exists out, fst a = Ok out /\
    (find_entry "p1" empty_ledger = None ->
     stored "p1" (settlement_inputs demo_named (ToUpper (TrimSpace "GBP"))) empty_ledger (jen_id out) (w_st (snd a))).
Proof.
  apply (settlement_is_posted demo_named "" demo_env empty_ledger).
  - split_and!; try reflexivity; vm_compute; discriminate.
  - intros n. reflexivity.
  - exact (demo_fresh 1).
  - apply empty_inv.
Defined.

Lemma settlement_moves_witness :
  let db' := w_st (snd (LedgerServer.PostDoubleEntry (Some (settlement_request demo_named ""))
                          (MkWorld demo_env empty_ledger))) in
  balance_of AccountType_MERCHANT_ESCROW "shop" "GBP" (demo_env_at 90) db' = Some 2475.
Proof.
  assert (Hs : settleable demo_named) by (split_and!; try reflexivity; vm_compute; discriminate).
  destruct (settlement_moves_balances demo_named "" demo_env (demo_env_at 80) (demo_env_at 90) empty_ledger
    Hs (fun _ _ => eq_refl) (fun _ _ => eq_refl) (fun _ _ => eq_refl) (demo_fresh 1) empty_inv eq_refl) as (_ & Hm & _).
  apply (Hm 0); [vm_compute; reflexivity|split; vm_compute; discriminate].
Defined.

Definition penny : Payment :=
  MkPayment "p2" "key2" "shop" "c1" "alice" 1 "GBP" StatusAuthorising "b2" (Some "r2") None "" "" "" 0 None 0.

Lemma one_penny_witness :
  exists err, LedgerServer.PostDoubleEntry (Some (settlement_request penny "")) (MkWorld demo_env empty_ledger) =
    (Err err, MkWorld demo_env empty_ledger).
Proof. apply (one_penny_is_refused penny "" (MkWorld demo_env empty_ledger)). reflexivity. Defined.

Definition demo_input : InitiateInput := MkInitiateInput "key1" "shop" "c1" 2500 "GBP" "book" false None.

Lemma second_caller_witness :
  quiet (snd (snd (Initiate (W := world PaymentDB * list call) (gret "p9") demo_input (MkWorld demo_env demo_tables, [])))).
Proof.
  apply (second_caller_only_reads (gret "p9") demo_input (MkWorld demo_env demo_tables) "" (MkWorld demo_env demo_tables));
    reflexivity.
Defined.

Definition stale_payment : Payment := with_status StatusAuthorising 0 (with_bank "b1" demo_named).

Lemma reconcile_asks_the_bank_witness :
  reconciled stale_payment (snd (snd (reconcile_one stale_payment (MkWorld demo_env demo_tables, [])))).
Proof. apply (reconcile_asks_the_bank stale_payment (MkWorld demo_env demo_tables)). Defined.

Lemma saga_settles_witness :
  let a := runSaga (clients := answering (demo_services RiskDecision_ALLOW Bank_SETTLED)) demo_payment
             (MkWorld demo_env demo_tables) in
  went_through demo_payment (settled_row resv1 "r1" (score1 RiskDecision_ALLOW) bank1) demo_tables (fst a) (snd a) /\
  map p_Status (payments (w_st (snd a))) = [StatusSettled].
Proof.
  split; [|vm_compute; reflexivity].
  apply (saga_settles (demo_services RiskDecision_ALLOW Bank_SETTLED) demo_payment resv1 "r1"
           (score1 RiskDecision_ALLOW) bank1 demo_env demo_tables).
  - constructor; try reflexivity; try discriminate. eexists. reflexivity.
  - split_and!; [intros n; reflexivity|exact (demo_fresh 0)|reflexivity].
Defined.
