(* ===== verification/Platform.v ===== *)
(** * The services in one system.

[Platform] is the state of the payment, consent, risk, ledger and bank services
together: a database each, the bank behind its adapter, and the one Redis server
that the consent cache, the risk rules and the idempotency store share.  They
share an environment too, so a run of the system has one clock and one schedule
of faults.  The instances make the orchestrator's interfaces ([paymentRepo],
[IdemStore], [Clients]) calls of the services' own handlers; a call of another
service is [remote], so it may get lost on the way or its reply may. *)
From S2P Require Import Prelude GoStrings DomainErr World Advance Proto Uuid Redis Idempotency.
From S2P Require Import LedgerStore LedgerServer ConsentRepo ConsentService ConsentHandler RiskRules RiskHandler.
From S2P Require Import BankAdapter MockBank BankProps BankRoutes PaymentRepo Saga PaymentHandler.
From Stdlib Require Import QArith.
Local Open Scope Z_scope.
Local Open Scope go_scope.

Record Platform (R : Type) := MkPlatform {
  pf_payments : PaymentDB;
  pf_consents : ConsentDB;
  pf_ledger : LedgerDB;
  pf_bank : Bank;
  pf_redis : R;
}.
Arguments MkPlatform {R}.
Arguments pf_payments {R}.
Arguments pf_consents {R}.
Arguments pf_ledger {R}.
Arguments pf_bank {R}.
Arguments pf_redis {R}.

Section Platform.
Context {R : Type} `{Redis R} `{UuidLib} `{Unicode} `{GrpcLib} `{GoFmt} `{JsonErrors}.
Context (draws : nat -> Draws) (fallback : string -> string -> option string -> M (world Bank) http_outcome).
Abbreviation St := (world (Platform R)).

Definition on_payments {A} (m : M (world PaymentDB) A) : M St A :=
  within pf_payments (fun x s => MkPlatform x (pf_consents s) (pf_ledger s) (pf_bank s) (pf_redis s)) m.
Definition on_consents {A} (m : M (world (Service R)) A) : M St A :=
  within (fun s => MkService (pf_consents s) (Some (pf_redis s)))
    (fun x s => MkPlatform (pf_payments s) (s_db x) (pf_ledger s) (pf_bank s) (default (pf_redis s) (s_rdb x))) m.
Definition on_ledger {A} (m : M (world LedgerDB) A) : M St A :=
  within pf_ledger (fun x s => MkPlatform (pf_payments s) (pf_consents s) x (pf_bank s) (pf_redis s)) m.
Definition on_bank {A} (m : M (world Bank) A) : M St A :=
  within pf_bank (fun x s => MkPlatform (pf_payments s) (pf_consents s) (pf_ledger s) x (pf_redis s)) m.
Definition on_redis {A} (m : M (world R) A) : M St A :=
  within pf_redis (fun x s => MkPlatform (pf_payments s) (pf_consents s) (pf_ledger s) (pf_bank s) x) m.

#[export] Instance platform_repo : paymentRepo St := {|
  repo_CreatePayment p := on_payments (CreatePayment p);
  repo_GetByID id := on_payments (GetByID id);
  repo_GetByIdempotencyKey k := on_payments (GetByIdempotencyKey k);
  repo_UpdateAfterConsent p rid c := on_payments (UpdateAfterConsent p rid c);
  repo_UpdateAfterRisk p s d := on_payments (UpdateAfterRisk p s d);
  repo_UpdateAfterBank p ref := on_payments (UpdateAfterBank p ref);
  repo_SettleWithOutbox p := on_payments (SettleWithOutbox p);
  repo_MarkFailed p reason := on_payments (MarkFailed p reason);
  repo_MarkManualReview p reason := on_payments (MarkManualReview p reason);
  repo_ResetForRetry p := on_payments (ResetForRetry p);
|}.

(** [wait_terminates] shows the rounds are enough on a clock that advances. *)
#[export] Instance platform_store : IdemStore St := {|
  idem_Begin k := on_redis (Begin k);
  idem_Complete k v := on_redis (Complete k v);
  idem_Release k := on_redis (Release k);
  idem_WaitForCompletion k t :=
    r <- on_redis (WaitForCompletion (rounds t) k t) ;;
    gret (match r with Some a => a | None => Err (PlainError "still waiting") end);
|}.

#[local] Existing Instance routed_breaker.
#[local] Existing Instance routed_retry.
#[local] Instance platform_wire : Wire (world Bank) := routed_wire draws fallback.

#[export] Instance platform_clients : Clients St := {|
  consent_ValidateAndReserve req := remote (on_consents (ConsentHandler.ValidateAndReserve req));
  consent_ConfirmReservation req := remote (on_consents (ConsentHandler.ConfirmReservation req));
  consent_ReleaseReservation req := remote (on_consents (ConsentHandler.ReleaseReservation req));
  risk_Score req := remote (on_redis (RiskHandler.Score NewEngine (Some req)));
  bank_InitiatePayment req := remote (on_bank (BankAdapter.InitiatePayment time_Now (Some req)));
  bank_GetPaymentStatus ref := remote (on_bank (BankAdapter.GetPaymentStatus time_Now ref));
  bank_ReversePayment req := remote (on_bank (BankAdapter.ReversePayment (bv_bank_payment_ref req) (bv_reason req)));
  ledger_PostDoubleEntry req := remote (on_ledger (LedgerServer.PostDoubleEntry (Some req)));
  ledger_ReverseEntry req := remote (on_ledger (LedgerServer.ReverseEntry (Some req)));
|}.

(** The RPCs of the payment service on the platform. *)
Definition platform_InitiatePayment (req : InitiatePaymentRequest) : M St (result error PPayment) :=
  PaymentHandler.InitiatePayment uuid_New (Some req).
Definition platform_RetryPayment (req : GetPaymentRequest) : M St (result error PPayment) :=
  PaymentHandler.RetryPayment uuid_New (fun id m => on_payments (GetByIDAndMerchant id m)) (Some req).
End Platform.
