(* ===== verification/PlatformCalls.v ===== *)
(** * The calls of a payment that goes well, service by service.

For each service the call that the saga makes of it, in an environment without
failures: what it needs, what it answers and what it leaves behind. *)
From S2P Require Import Prelude GoStrings DomainErr World Advance Proto Uuid Redis Idempotency.
From S2P Require Import LedgerStore LedgerTheory LedgerProps LedgerServer ConsentRepo ConsentService ConsentTheory ConsentProps ConsentHandler.
From S2P Require Import RiskRules RiskHandler BankAdapter MockBank BankProps BankRoutes PaymentRepo Saga SagaProps.
Local Open Scope Z_scope.
Local Open Scope go_scope.

(* ------------------------------------------------------------------ *)
(** ** Consents *)

Section Consents.
Context {R : Type} `{Redis R} `{UuidLaws} `{Unicode} `{GrpcLib}.

#[export] Instance adv_reserve req : Advances (ConsentHandler.ValidateAndReserve (R := R) req).
Proof.
  unfold ConsentHandler.ValidateAndReserve, ConsentService.ValidateAndReserve, in_tx, on_db, reserve_tx, reserve_existing,
    reserve_new, check_status, tx_row. advance.
Qed.

#[export] Instance adv_confirm req : Advances (ConsentHandler.ConfirmReservation (R := R) req).
Proof.
  unfold ConsentHandler.ConfirmReservation, ConsentService.ConfirmReservation, in_tx, on_db, confirm_tx, tx_row. advance.
Qed.

(** The consent [c] has room for [amount] at every instant from [e] on. *)
Record has_room (db : ConsentDB) (c : ConsentRow) (amount : Z) (e : env) : Prop := {
  room_active : c_Status c = StatusActive;
  room_each : 0 < amount <= c_MaxAmountPence c;
  room_valid : forall n, (tick e <= n)%nat -> clock e n < c_ValidUntil c;
  room_month : forall n, (tick e <= n)%nat ->
    0 <= used_sum (c_ID c) (clock e n) db /\ 0 <= held_sum (c_ID c) (clock e n) db /\
    used_sum (c_ID c) (clock e n) db + held_sum (c_ID c) (clock e n) db + amount <= c_MaxMonthlyPence c;
  room_bound : c_MaxMonthlyPence c <= max_int64;
}.

Lemma has_room_later db c amount e e' : later e e' -> has_room db c amount e -> has_room db c amount e'.
Proof.
  intros [Ht Hck _ _] [? ? Hv Hm ?]. constructor; try done; rewrite Hck; intros n Hn; [apply Hv|apply Hm]; lia.
Qed.

Definition held_row (rid cid pid : string) (amount now : Z) : ReservationRow :=
  MkReservationRow rid cid pid amount ResHeld (now + 10 * minute) now.

Lemma money_ok amount cur : 0 < amount -> ToUpper (TrimSpace cur) = cur -> str_len cur = 3 ->
  moneyFromProto (Some (MkPMoney amount cur)) = Ok (amount, cur).
Proof.
  intros Ha Hcur Hlen. unfold moneyFromProto. cbn [pm_currency pm_amount_pence]. rewrite Hcur.
  assert (is_empty cur = false) as -> by (apply is_empty_false; by intros ->).
  cbv zeta. rewrite Hlen. simpl. destruct (Z.leb_spec amount 0); [lia|done].
Qed.

Lemma rolling_room cid now u db amount max : pg_uuid cid = Some cid -> max <= max_int64 -> 0 < amount ->
  0 <= used_sum cid now db -> 0 <= held_sum cid now db -> used_sum cid now db + held_sum cid now db + amount <= max ->
  RollingUsage cid now u db = (Ok (used_sum cid now db, held_sum cid now db), db) /\
  max <? int64 (used_sum cid now db + held_sum cid now db + amount) = false.
Proof.
  intros Hid Hmax Ha Hu Hh Hsum. unfold RollingUsage. rewrite (uuid_arg_run _ _ _ _ _ _ Hid). cbv zeta.
  unfold fits_int64. rewrite !bool_decide_eq_true_2 by (unfold min_int64; lia). split; [done|].
  rewrite int64_id by (unfold in_int64, min_int64; lia). apply Z.ltb_ge. lia.
Qed.

Lemma run_reserve cid pid amount cur c e (s : Service R) :
  calm e -> pg_uuid cid = Some cid -> pg_uuid pid = Some pid -> is_empty cid = false -> is_empty pid = false ->
  find_consent cid (s_db s) = Some c -> has_room (s_db s) c amount e ->
  c_Currency c = cur -> ToUpper (TrimSpace cur) = cur -> str_len cur = 3 ->
  find_by_payment pid (s_db s) = None -> fresh e (map r_ID (reservations (s_db s))) ->
  wp (ConsentHandler.ValidateAndReserve (MkReserveRequest cid pid (Some (MkPMoney amount cur))))
    (fun r w => exists n now rem, (tick e <= n)%nat /\
       r = Ok (MkReserveResponse (uuid_at e n) rem (c_ConsumerID c) (c_BankConsentRef c)) /\
       w_st w = MkService (set_reservations (reservations (s_db s) ++ [held_row (uuid_at e n) cid pid amount now]) (s_db s)) (s_rdb s))
    (MkWorld e s).
Proof.
  intros Hc Hcid Hpid Hce Hpe Hf [Hact Ham Hv Hroom Hmax] Hcc Hcur Hlen Hnone Hfr.
  pose proof (find_consent_spec _ _ _ Hf) as [Hin Hid].
  unfold ConsentHandler.ValidateAndReserve. cbn [rr_amount rr_consent_id rr_payment_id]. rewrite (money_ok amount cur) by (done || lia).
  wp_step. unfold ConsentService.ValidateAndReserve. cbn [ri_ConsentID ri_PaymentID ri_AmountPence]. rewrite Hce, Hpe.
  destruct (Z.leb_spec amount 0); [lia|]. apply run_in_tx; [done|].
  unfold reserve_tx. wp_step. cbn [ri_PaymentID ri_ConsentID ri_Currency ri_AmountPence].
  eapply run_tx_row; [done|by unfold GetReservationByPaymentID; rewrite (uuid_arg_run _ pid)|]. rewrite Hnone.
  cbn [scan_row]. change (errors_Is_NoRows ErrNoRows) with true. cbn [negb]. cbv iota. unfold reserve_new. wp_step. cbn [ri_PaymentID ri_ConsentID ri_Currency ri_AmountPence].
  eapply run_tx_row; [done|by unfold LockConsent, ConsentRepo.GetConsent; rewrite (uuid_arg_run _ cid)|]. rewrite Hf. cbn [scan_row].
  wp_step. unfold check_status. rewrite Hact. cbn [negb]. rewrite (bool_decide_eq_false_2 (StatusActive = StatusRevoked)) by done.
  rewrite (bool_decide_eq_false_2 (StatusActive = StatusExpired)) by done. cbv iota. wp_step. apply wp_time_Now. cbn [w_env w_st].
  assert (cur_clock (bump (bump (bump e))) <? c_ValidUntil c = true) as ->
    by (apply Z.ltb_lt, (Hv (tick (bump (bump (bump e))))); simpl; lia).
  rewrite bool_decide_eq_true_2 by done. cbn [negb]. cbv iota. wp_step.
  rewrite Hcc, (bool_decide_eq_true_2 (cur = cur)) by done. rewrite andb_false_r. cbv iota.
  destruct (Z.ltb_spec (c_MaxAmountPence c) amount); [lia|]. do 2 wp_step. rewrite Hid.
  destruct (Hroom (tick e) ltac:(lia)) as (Hu & Hh & Hsum). rewrite Hid in Hu, Hh, Hsum.
  destruct (rolling_room cid (cur_clock e) (cur_uuid (bump (bump (bump (bump e))))) (s_db s) amount (c_MaxMonthlyPence c)) as [Hroll Hlim]; [done..|lia|done|done|done|].
  eapply wp_tx_exec_calm; [done|exact Hroll|]. cbn [map_err]. rewrite Hlim. wp_step. unfold tx_row. wp_step.
  set (e5 := bump (bump (bump (bump (bump e))))).
  eapply wp_tx_exec_calm; [done| |].
  { unfold InsertReservation. rewrite (uuid_arg_run _ cid), (uuid_arg_run _ pid) by done. cbv zeta.
    assert (existsb (fun r => bool_decide (r_PaymentID r = pid) || bool_decide (r_ID r = cur_uuid e5)) (reservations (s_db s)) = false) as ->.
    { apply not_true_is_false. intros (x & Hx & Hor)%existsb_exists. apply list_elem_of_In in Hx.
      apply orb_true_iff in Hor as [Heq|Heq]; apply bool_decide_eq_true in Heq.
      - apply (find_by_payment_none pid (s_db s) Hnone). rewrite <- Heq. by apply list_elem_of_fmap_2.
      - destruct Hfr as [Hfr _]. apply (Hfr (tick e5)); [simpl; lia|]. change (uuid_at e (tick e5)) with (cur_uuid e5).
        rewrite <- Heq. by apply list_elem_of_fmap_2. }
    assert (existsb (fun c => bool_decide (c_ID c = cid)) (consents (s_db s)) = true) as ->.
    { apply existsb_exists. exists c. split; [by apply list_elem_of_In|by apply bool_decide_eq_true]. }
    reflexivity. }
  cbn [scan_row negb]. wp_step. cbn [scan_row]. wp_step. split_and!; [done|done|]. intros e'. wp_step.
  exists (tick e5), (cur_clock e). eexists. split_and!; [simpl; lia|reflexivity|reflexivity].
Qed.

Definition confirmed_row (rid cid pid : string) (amount now : Z) : ReservationRow :=
  ConsentRepo.with_status ResConfirmed (held_row rid cid pid amount now).

Lemma run_confirm rid cid pid amount now rows e (s : Service R) :
  calm e -> pg_uuid rid = Some rid -> pg_uuid cid = Some cid -> pg_uuid pid = Some pid ->
  is_empty rid = false -> is_empty pid = false ->
  reservations (s_db s) = rows ++ [held_row rid cid pid amount now] -> rid ∉ map r_ID rows ->
  cid ∈ map c_ID (consents (s_db s)) -> pid ∉ map u_payment_id (usages (s_db s)) ->
  fresh e (map u_id (usages (s_db s))) ->
  wp (ConsentHandler.ConfirmReservation (MkConfirmRequest rid pid))
    (fun r w => r = Ok tt /\ exists uid t, w_st w = MkService (MkConsentDB (consents (s_db s))
       (rows ++ [confirmed_row rid cid pid amount now]) (usages (s_db s) ++ [MkUsageRow uid cid pid amount t])) (s_rdb s))
    (MkWorld e s).
Proof.
  intros Hc Hrid Hcid Hpid Hre Hpe Hrows Hnew Hcon Huse Hfr.
  unfold ConsentHandler.ConfirmReservation. cbn [cf_reservation_id cf_payment_id]. wp_step.
  unfold ConsentService.ConfirmReservation. rewrite Hre. apply run_in_tx; [done|]. unfold confirm_tx. wp_step.
  pose proof (notin_existsb r_ID rid rows Hnew) as Hno.
  eapply run_tx_row; [done|by unfold GetReservation; rewrite (uuid_arg_run _ rid)|].
  unfold find_reservation. rewrite Hrows, (find_last _ rows) by (done || by apply bool_decide_eq_true). cbn [scan_row].
  cbn [r_PaymentID r_Status held_row]. rewrite (bool_decide_eq_true_2 (pid = pid)) by done. rewrite andb_false_r.
  rewrite (bool_decide_eq_true_2 (ResHeld = ResHeld)), !bool_decide_eq_false_2 by done. cbn [negb]. cbv iota. wp_step.
  unfold tx_row. wp_step. unfold ConsentRepo.ConfirmReservation.
  eapply wp_tx_exec_calm; [done| |].
  { rewrite (uuid_arg_run _ rid) by done. rewrite Hpe, (uuid_arg_run _ pid) by done. unfold move_held. cbv zeta. rewrite Hrows.
    set (p := fun r => bool_decide (r_ID r = rid) && _ && _).
    assert (Hp : existsb p rows = false).
    { eapply existsb_weaken; [|exact Hno]. unfold p. by intros x [[Hx _]%andb_true_iff _]%andb_true_iff. }
    assert (Hp1 : p (held_row rid cid pid amount now) = true) by (unfold p; simpl; by rewrite !bool_decide_eq_true_2).
    rewrite (find_last p), (update_last p) by done. reflexivity. }
  cbn [scan_row fmap option_fmap option_map]. wp_step. cbn [scan_row]. wp_step.
  assert (Hid : forall n, (tick e <= n)%nat -> uuid_at e n ∉ map u_id (usages (s_db s))) by apply Hfr.
  eapply wp_tx_exec_calm; [done| |].
  { unfold InsertUsage. cbn [r_ConsentID r_PaymentID r_AmountPence ConsentRepo.with_status held_row set_reservations usages consents].
    rewrite (uuid_arg_run _ cid), (uuid_arg_run _ pid) by done. cbn [set_reservations usages consents].
    rewrite (notin_existsb u_payment_id pid _ Huse).
    rewrite (notin_existsb u_id) by (apply (Hid (S (S (S (tick e))))); lia).
    assert (existsb (fun c => bool_decide (c_ID c = cid)) (consents (s_db s)) = true) as ->.
    { apply list_elem_of_fmap in Hcon as (c & -> & Hc1). apply existsb_exists. exists c.
      split; [by apply list_elem_of_In|by apply bool_decide_eq_true]. }
    reflexivity. }
  cbn [map_err]. split_and!; [done|done|]. intros e'. split; [done|]. eexists _, _. reflexivity.
Qed.
End Consents.

(* ------------------------------------------------------------------ *)
(** ** Risk *)

Section Risk.
Context {R : Type} `{RedisLaws R} `{Unicode} `{GoFmt} `{GrpcLib}.

Lemma adv_blocklist checks : Advances (blocklist_checks (R := R) checks).
Proof. induction checks as [|[typ value] checks IH]; simpl; [advance|]. destruct (is_empty value); [done|]. advance. Qed.

#[export] Instance adv_score req : Advances (RiskHandler.Score (R := R) NewEngine req).
Proof.
  unfold RiskHandler.Score, RiskRules.Score, BlocklistRule, HighValueRule, VelocityRule. cbn [run_rules NewEngine eng_Rules app].
  advance; apply adv_blocklist.
Qed.

Lemma merge_not_decline rs : Forall (fun x => rule_Decision x <> DecisionDecline) rs ->
  sc_Decision (mergeResults rs) <> DecisionDecline.
Proof.
  intros Hrs. unfold mergeResults. destruct (fold_left _ _ _) as [[[score dec] names] reasons] eqn:Hf.
  destruct (merge_fold _ _ _ _ _ _ _ _ _ Hf) as (_ & _ & [->|(x & Hx & ->)]); [done|].
  rewrite Forall_forall in Hrs. by apply Hrs.
Qed.

(** A velocity rule that Redis serves asks at most for a review. *)
Lemma run_velocity req e (r : R) : calm e ->
  wp (VelocityRule req) (fun a _ => exists v, a = Ok v /\ rule_Decision v <> DecisionDecline) (MkWorld e r).
Proof.
  intros Hc. unfold VelocityRule. wp_step; [wp_step; by exists no_signal|]. do 2 wp_step.
  pose proof (Incr_law (velocityKey (si_ConsumerID req)) (cur_clock e) (cur_uuid e) r) as Hi.
  destruct (r_Incr _ _ _ r) as [a r1] eqn:Hq. destruct Hi as (-> & _). eapply wp_exec_calm; [done|exact Hq|].
  cbn [map_err]. wp_step.
  assert (Hend : forall n (w : world R), wp (if velocityThreshold <? n
    then gret (Ok (E := error) (MkRuleResult velocityScoreDelta DecisionReview "VELOCITY_EXCEEDED"
      ("consumer exceeded " +:+ itoa velocityThreshold +:+ " payments in 1m0s (count=" +:+ itoa n +:+ ")")))
    else gret (Ok no_signal)) (fun a _ => exists v, a = Ok v /\ rule_Decision v <> DecisionDecline) w)
    by (intros n w; wp_step; wp_step; by eexists).
  wp_step; wp_step; [|apply Hend].
  pose proof (Expire_law (velocityKey (si_ConsumerID req)) velocityWindow (cur_clock (bump e)) (cur_uuid (bump e)) r1) as Hx.
  destruct (r_Expire _ _ _ _ r1) as [a r2] eqn:Hq2. destruct Hx as (-> & _).
  eapply wp_exec_calm; [done|exact Hq2|]. apply Hend.
Qed.

Lemma run_Score_allowed req e (r : R) : calm e -> ~ blocked r req ->
  wp (RiskRules.Score NewEngine req) (fun a _ => exists out, a = Ok out /\ sc_Decision out <> DecisionDecline) (MkWorld e r).
Proof.
  intros Hc Hnb. unfold RiskRules.Score. wp_step. cbn [run_rules NewEngine eng_Rules app]. wp_step.
  eapply wp_mono; [by apply run_blocklist|]. intros a [e1 r1] (Hs & Hc1 & x & -> & Hx). simpl in Hs, Hc1. subst r1.
  destruct Hx as [[-> _]|(_ & _ & _ & Hb)]; [|by destruct Hnb]. do 2 wp_step. apply run_high_value. intros y Hy. do 4 wp_step.
  change (signals no_signal) with false. cbv iota. set (rs := if signals y then [y] else []).
  assert (Hrs : Forall (fun x => rule_Decision x <> DecisionDecline) rs).
  { unfold rs. destruct (signals y); repeat constructor. by destruct Hy as [[_ ->]|[_ ->]]. }
  pose proof (merge_not_decline rs Hrs) as Hm. rewrite bool_decide_eq_false_2 by done. cbn [negb andb].
  change (eng_Velocity NewEngine) with true. cbv iota zeta. wp_step. eapply wp_mono; [by apply run_velocity|]. intros a w (v & -> & Hv). wp_step.
  assert (Hm' : sc_Decision (if signals v then mergeResults (rs ++ [v]) else mergeResults rs) <> DecisionDecline).
  { destruct (signals v); [|done]. apply merge_not_decline, Forall_app. by repeat constructor. }
  eexists. split; [reflexivity|]. by destruct (is_empty _).
Qed.

Lemma run_score req e (r : R) : calm e -> is_empty (TrimSpace (sr_consumer_id req)) = false ->
  is_empty (TrimSpace (sr_merchant_id req)) = false -> ~ blocked r (scoreInputFromProto (Some req)) ->
  wp (RiskHandler.Score NewEngine (Some req)) (fun a _ => exists out, a = Ok out /\ ss_decision out <> RiskDecision_DECLINE)
    (MkWorld e r).
Proof.
  intros Hc Hcon Hmer Hnb. unfold RiskHandler.Score. rewrite Hcon, Hmer. wp_step.
  eapply wp_mono; [by apply run_Score_allowed|]. intros a w (out & -> & Ho). wp_step. eexists. split; [reflexivity|].
  simpl. unfold DecisionToProto. case_bool_decide; [done|]. by rewrite bool_decide_eq_false_2.
Qed.
End Risk.

(* ------------------------------------------------------------------ *)
(** ** Ledger *)

Section Ledger.
Context `{Unicode} `{GrpcLib}.

Lemma adv_load pid : Advances (loadEntryByPaymentID (W := world (tx LedgerDB)) pid).
Proof. unfold loadEntryByPaymentID, q_exec, tx_querier. advance. Qed.

Lemma adv_post_lines eid ls : Advances (post_lines eid ls).
Proof. induction ls as [|l ls IH]; simpl; unfold ensureAccount, tx_row; [advance|]. advance. Qed.

Lemma adv_serializable {A} (fn : M (world (tx LedgerDB)) (result error A)) n :
  Advances fn -> forall last, Advances (serializable_attempts n last fn).
Proof. intros Hf. induction n as [|n IH]; intros last; simpl; [advance|]. advance. Qed.

#[export] Instance adv_post req : Advances (LedgerServer.PostDoubleEntry req).
Proof.
  unfold LedgerServer.PostDoubleEntry, LedgerStore.PostDoubleEntry. advance. apply adv_serializable.
  unfold post_tx, tx_row. advance; first [apply adv_load|apply adv_post_lines].
Qed.
End Ledger.

(* ------------------------------------------------------------------ *)
(** ** Payments *)

Section Payments.
Context `{GrpcLib}.

#[export] Instance adv_update p msg to reason meta f : Advances (update_with_event p msg to reason meta f).
Proof. unfold update_with_event, insertEvent, conn_exec, conn_pool. advance. Qed.

#[export] Instance adv_settle p : Advances (SettleWithOutbox p).
Proof. unfold SettleWithOutbox, settle_tx, insertEvent, conn_exec, conn_tx. advance. Qed.

#[export] Instance adv_create p : Advances (CreatePayment p).
Proof. unfold CreatePayment, insertEvent, conn_exec, conn_pool. advance. Qed.

#[export] Instance adv_get id : Advances (GetByID id).
Proof. unfold GetByID, scanOne, row. advance. Qed.

Lemma ready_later id e e' db : later e e' -> ready id e db -> ready id e' db.
Proof. intros Hl (Hc & Hf & Hx). split_and!; [by eapply later_calm|by eapply later_fresh|done]. Qed.

Lemma run_get p l e db : calm e -> payments db = l ++ [p] -> p_ID p ∉ map p_ID l ->
  wp (GetByID (p_ID p)) (fun r w => r = Ok p /\ w_st w = db) (MkWorld e db).
Proof.
  intros Hc Hl Hn. unfold GetByID, scanOne, row. do 2 wp_step. eapply wp_exec_calm; [done|reflexivity|].
  cbn beta. rewrite Hl, (find_last _ l) by (by apply notin_existsb || by apply bool_decide_eq_true). wp_step. cbn [scan_row]. by wp_step.
Qed.

(** The row of a new payment. *)
Definition new_payment (id key mid cid : string) (amount : Z) (cur desc : string) (now : Z) : Payment :=
  MkPayment id key mid cid "" amount cur StatusInitiated "" None None "" "" desc now None now.

Lemma run_create id key mid cid amount cur desc e db (Q : outcome -> world PaymentDB -> Prop) :
  calm e -> id <> uuid_Nil -> id ∉ map p_ID (payments db) -> key ∉ map p_IdempotencyKey (payments db) ->
  fresh e (map ev_id (events db) ++ map ob_ID (outbox db)) ->
  (forall e' now ev,
     let p := new_payment id key mid cid amount cur desc now in
     let db' := MkPaymentDB (payments db ++ [p]) (events db ++ [ev]) (outbox db) in
     ev_to ev = StatusInitiated -> ev_payment_id ev = id -> ready id e' db' -> Q (Ok tt, p) (MkWorld e' db')) ->
  wp (CreatePayment (new_payment id key mid cid amount cur desc 0)) Q (MkWorld e db).
Proof.
  intros Hc Hid Hn Hk Hf HQ. unfold CreatePayment.
  rewrite (bool_decide_eq_false_2 (p_ID (new_payment id key mid cid amount cur desc 0) = uuid_Nil)) by done. wp_go.
  set (now := cur_clock e). set (p := new_payment id key mid cid amount cur desc now).
  eapply wp_exec_calm; [done| |].
  { unfold insert_payment. cbn [p_ID p_IdempotencyKey with_outcome with_bank with_risk with_consent].
    assert (existsb _ (payments db) = false) as ->; [|reflexivity].
    apply not_true_is_false. intros (x & Hx & [Heq|Heq]%orb_true_iff)%existsb_exists;
      apply bool_decide_eq_true in Heq; apply list_elem_of_In in Hx; [apply Hn|apply Hk]; rewrite <- Heq; by apply list_elem_of_fmap_2. }
  change (with_outcome _ _ _) with p. cbn beta iota. wp_go. unfold insertEvent. wp_go.
  assert (Hne : existsb (fun x => bool_decide (ev_id x = cur_uuid (bump (bump e)))) (events db) = false).
  { apply (fresh_not_in ev_id _ _ _ (fresh_bump_same _ _ (fresh_bump_same _ _ Hf))). intros x Hin.
    apply elem_of_app. left. by apply list_elem_of_fmap_2. }
  assert (Hrow : existsb (is_payment id) (payments db ++ [p]) = true).
  { rewrite existsb_app. simpl. unfold is_payment at 2. rewrite (bool_decide_eq_true_2 (p_ID p = id)) by done. by rewrite orb_true_r. }
  eapply wp_exec_calm; [done| |].
  { unfold insert_event. simpl in *. rewrite Hne, Hrow. reflexivity. }
  simpl. wp_step. apply (HQ _ now); [done|done|]. split_and!; [done| |done]. do 2 apply fresh_bump_same.
  apply (fresh_bump (bump (bump e)) (map ev_id (events db) ++ map ob_ID (outbox db))); [by do 2 apply fresh_bump_same|].
  simpl. intros i. rewrite map_app, !elem_of_app. simpl. rewrite list_elem_of_singleton. tauto.
Qed.
End Payments.
