(* ===== verification/PlatformProps.v ===== *)
(** * What the services promise together.

A payment on [Platform], in an environment without failures: from the request of
the merchant to the last of the databases. *)
From S2P Require Import Prelude GoStrings Utf8 DomainErr World Advance Proto Uuid Redis Idempotency.
From S2P Require Import LedgerStore LedgerTheory LedgerProps LedgerServer ConsentRepo ConsentService ConsentTheory ConsentProps ConsentHandler.
From S2P Require Import RiskRules RiskHandler BankAdapter MockBank BankProps BankRoutes PaymentRepo Saga SagaTrace SagaProps PaymentHandler.
From S2P Require Import Platform PlatformCalls.
Local Open Scope Z_scope.
Local Open Scope go_scope.

(** A call on a part of the system, and a call of another service. *)
Lemma wp_local {S V A} (get : S -> V) set (m : M (world V) A) P (Q : A -> world S -> Prop) e s :
  Advances m -> wp m P (MkWorld e (get s)) ->
  (forall a e' v, later e e' -> P a (MkWorld e' v) -> Q a (MkWorld e' (set v s))) ->
  wp (within get set m) Q (MkWorld e s).
Proof.
  intros Hm HP HQ. apply wp_within, wp_advances; [done|]. eapply wp_mono; [exact HP|].
  intros a [e' v] Ha Hl. by apply HQ.
Qed.

Lemma wp_call {S V A} (get : S -> V) set (m : M (world V) (result error A)) P (Q : result error A -> world S -> Prop) e s :
  calm e -> Advances m -> wp m P (MkWorld (bump e) (get s)) ->
  (forall a e' v, later e e' -> P a (MkWorld e' v) -> Q a (MkWorld e' (set v s))) ->
  wp (remote (within get set m)) Q (MkWorld e s).
Proof.
  intros Hc Hm HP HQ. apply wp_remote_calm; [done|]. eapply wp_local; [done|exact HP|].
  intros a e' v Hl. apply HQ. etrans; [apply later_bump|done].
Qed.

(** Every identifier in the databases. *)
Definition platform_ids {R} (s : Platform R) : list string :=
  map p_ID (payments (pf_payments s)) ++ map ev_id (events (pf_payments s)) ++ map ob_ID (outbox (pf_payments s)) ++
  map r_ID (reservations (pf_consents s)) ++ map r_PaymentID (reservations (pf_consents s)) ++
  map u_id (usages (pf_consents s)) ++ map u_payment_id (usages (pf_consents s)) ++
  all_ids (pf_ledger s) ++ map je_payment_id (entries (pf_ledger s)).

(** The identifiers drawn from now on are UUIDs in their canonical form; the nil
UUID and the word that marks a claimed key are not among them. *)
Definition proper_ids `{UuidLib} (e : env) : Prop := forall n, (tick e <= n)%nat ->
  uuid_Parse (uuid_at e n) = Some (uuid_at e n) /\ uuid_at e n ∉ [uuid_Nil; StatusProcessing] /\ is_empty (uuid_at e n) = false.

Lemma proper_later `{UuidLib} e e' : later e e' -> proper_ids e -> proper_ids e'.
Proof. intros [Ht _ Hu _] Hp n Hn. rewrite Hu. apply Hp. lia. Qed.

Lemma fresh_part {R} (s : Platform R) e e' ids : fresh e (platform_ids s) -> later e e' ->
  (forall i, i ∈ ids -> i ∈ platform_ids s) -> fresh e' ids.
Proof. intros Hf Hl Hs. by apply (later_fresh e), (fresh_sub e (platform_ids s)). Qed.

Section Payment.
Context {R : Type} `{RedisLaws R} `{UuidLaws} `{Unicode} `{GrpcLib} `{GoFmt} `{JsonErrors}.
Context (draws : nat -> Draws) (fallback : string -> string -> option string -> M (world Bank) http_outcome).
#[local] Existing Instance platform_repo.
#[local] Existing Instance platform_store.
#[local] Instance system_clients : Clients (world (Platform R)) := platform_clients draws fallback.

(** An update of a payment that is the last row of its table. *)
Lemma step_update p msg to reason meta f old evs obs con led bank red e (Q : outcome -> world (Platform R) -> Prop) :
  ready (p_ID p) e (MkPaymentDB (old ++ [p]) evs obs) -> p_ID p ∉ map p_ID old -> (forall n x, p_ID (f n x) = p_ID x) ->
  (forall e' n ev, later e e' -> ev_to ev = to -> ev_payment_id ev = p_ID p ->
     let db := MkPaymentDB (old ++ [f n p]) (evs ++ [ev]) obs in
     ready (p_ID p) e' db -> Q (Ok tt, f n p) (MkWorld e' (MkPlatform db con led bank red))) ->
  wp (on_payments (update_with_event p msg to reason meta f)) Q
    (MkWorld e (MkPlatform (MkPaymentDB (old ++ [p]) evs obs) con led bank red)).
Proof.
  intros Hr Hn Hf HQ. unfold on_payments. eapply (wp_local _ _ _ (fun o w => exists n ev, o = (Ok tt, f n p) /\ ev_to ev = to /\
    ev_payment_id ev = p_ID p /\ ready (p_ID p) (w_env w) (w_st w) /\ w_st w = MkPaymentDB (old ++ [f n p]) (evs ++ [ev]) obs)).
  - apply _.
  - apply wp_update_calm; [done|done|]. intros n e' ev Ht Hp. cbn [payments events outbox pf_payments].
    rewrite (update_last (is_payment (p_ID p)) (f n) old) by (by apply notin_existsb || by apply bool_decide_eq_true).
    intros Hr'. by exists n, ev.
  - intros o e' v Hl (n & ev & -> & Ht & Hp & Hr' & Hv). simpl in Hr', Hv. subst v. by apply (HQ e' n ev).
Qed.

Lemma step_settle p old evs obs con led bank red e (Q : outcome -> world (Platform R) -> Prop) :
  ready (p_ID p) e (MkPaymentDB (old ++ [p]) evs obs) -> p_ID p ∉ map p_ID old ->
  (forall e' n ev ob, later e e' -> ev_to ev = StatusSettled -> ev_payment_id ev = p_ID p ->
     ob_Topic ob = TopicPaymentEvents -> ob_Key ob = p_ID p -> ob_Payload ob = buildSettledPayload p n ->
     Q (Ok tt, settle_row n p)
       (MkWorld e' (MkPlatform (MkPaymentDB (old ++ [settle_row n p]) (evs ++ [ev]) (obs ++ [ob])) con led bank red))) ->
  wp (on_payments (SettleWithOutbox p)) Q
    (MkWorld e (MkPlatform (MkPaymentDB (old ++ [p]) evs obs) con led bank red)).
Proof.
  intros Hr Hn HQ. unfold on_payments. eapply (wp_local _ _ _ (fun o w => exists n ev ob, o = (Ok tt, settle_row n p) /\
    ev_to ev = StatusSettled /\ ev_payment_id ev = p_ID p /\ ob_Topic ob = TopicPaymentEvents /\ ob_Key ob = p_ID p /\
    ob_Payload ob = buildSettledPayload p n /\ w_st w = MkPaymentDB (old ++ [settle_row n p]) (evs ++ [ev]) (obs ++ [ob]))).
  - apply _.
  - apply wp_settle_calm; [done|]. intros n e' ev ob. cbn [payments events outbox pf_payments].
    rewrite (update_last (is_payment (p_ID p)) (settle_row n) old) by (by apply notin_existsb || by apply bool_decide_eq_true).
    intros. by exists n, ev, ob.
  - intros o e' v Hl (n & ev & ob & -> & ? & ? & ? & ? & ? & Hv). simpl in Hv. subst v. by apply (HQ e' n ev ob).
Qed.

(** What a payment of [amount] under the consent [c] needs of the services. *)
Record payable (con : ConsentDB) (led : LedgerDB) (red : R) (mid : string) (amount : Z) (cur : string)
    (c : ConsentRow) (e : env) : Prop := {
  pay_consent : find_consent (c_ID c) con = Some c;
  pay_room : has_room con c amount e;
  pay_cid : uuid_Parse (c_ID c) = Some (c_ID c) /\ is_empty (c_ID c) = false /\ is_empty (TrimSpace (c_ID c)) = false;
  pay_names : is_empty (TrimSpace mid) = false /\ is_empty (TrimSpace (c_ConsumerID c)) = false /\
              is_empty (c_BankConsentRef c) = false;
  pay_amount : 2 <= amount /\ amount * platformFeeRateBPS <= max_int64;
  pay_currency : c_Currency c = cur /\ ToUpper (TrimSpace cur) = cur /\ str_len cur = 3;
  pay_listed : ~ blocked red (MkScoreInput mid (c_ConsumerID c) (c_ID c) "" None "" "");
  pay_ledger : ledger_inv led;
}.

(** The services do not know the payment, and new identifiers are new. *)
Record unknown (con : ConsentDB) (led : LedgerDB) (pid : string) (e : env) : Prop := {
  new_ids : fresh e (map r_ID (reservations con) ++ map u_id (usages con) ++ all_ids led);
  new_reservation : pid ∉ map r_PaymentID (reservations con);
  new_usage : pid ∉ map u_payment_id (usages con);
  new_entry : pid ∉ map je_payment_id (entries led);
  new_id : uuid_Parse pid = Some pid /\ is_empty pid = false;
}.

(** What the payment leaves behind: its row, its audit trail and one message;
the reservation confirmed and counted; the money taken at the bank; the entry in
the ledger.  Everything else is as it was. *)
Record paid (old : list Payment) (evs : list EventRow) (obs : list OutboxRow) (con : ConsentDB) (led : LedgerDB)
    (bank : Bank) (trail : list string) (p : Payment) (c : ConsentRow) (row : Payment) (s' : Platform R) : Prop := {
  paid_row : payments (pf_payments s') = old ++ [row];
  paid_request : (p_ID row, p_IdempotencyKey row, p_MerchantID row, p_ConsentID row, p_AmountPence row, p_Currency row,
                  p_Description row) =
                 (p_ID p, p_IdempotencyKey p, p_MerchantID p, p_ConsentID p, p_AmountPence p, p_Currency p, p_Description p);
  paid_status : p_Status row = StatusSettled /\ p_FailureReason row = "" /\ p_ConsumerID row = c_ConsumerID c;
  paid_trail : exists evs', events (pf_payments s') = evs ++ evs' /\ map ev_to evs' = trail /\
                 Forall (fun ev => ev_payment_id ev = p_ID p) evs';
  paid_notice : exists ob n, outbox (pf_payments s') = obs ++ [ob] /\ ob_Topic ob = TopicPaymentEvents /\
                  ob_Key ob = p_ID p /\ p_SettledAt row = Some n /\ ob_Payload ob = buildSettledPayload row n;
  paid_consent : exists rid t uid t', p_ReservationID row = Some rid /\ pf_consents s' =
      MkConsentDB (consents con) (reservations con ++ [confirmed_row rid (c_ID c) (p_ID p) (p_AmountPence p) t])
        (usages con ++ [MkUsageRow uid (c_ID c) (p_ID p) (p_AmountPence p) t']);
  paid_bank : exists uuid t,
      let req := MkInitiateRequest (p_ID p) (c_BankConsentRef c) (c_ConsumerID c) (pay_money p) (p_Description p) in
      p_BankPaymentRef row = new_ref "FPS-" 16 uuid /\
      pf_bank s' = <[p_BankPaymentRef row := taken req (MkPMoney (p_AmountPence p) (p_Currency p)) uuid t]> bank;
  paid_ledger : exists eid, stored (p_ID p) (settlement_inputs row (p_Currency p)) led eid (pf_ledger s');
}.

Lemma payable_later con led red mid amount cur c e e' : later e e' ->
  payable con led red mid amount cur c e -> payable con led red mid amount cur c e'.
Proof. intros Hl [? ? ? ? ? ? ? ?]. constructor; try done. by eapply has_room_later. Qed.

Lemma unknown_later con led pid e e' : later e e' -> unknown con led pid e -> unknown con led pid e'.
Proof. intros Hl [? ? ? ? ?]. constructor; try done. by eapply later_fresh. Qed.

(* ------------------------------------------------------------------ *)
(** ** The five calls *)

Lemma step_reserve pay con led bank red mid pid amount cur c e Q :
  calm e -> proper_ids e -> payable con led red mid amount cur c e -> unknown con led pid e ->
  (forall e' rid rem now, later e e' -> uuid_Parse rid = Some rid -> is_empty rid = false -> rid ∉ map r_ID (reservations con) ->
     Q (Ok (MkReserveResponse rid rem (c_ConsumerID c) (c_BankConsentRef c)))
       (MkWorld e' (MkPlatform pay (set_reservations (reservations con ++ [held_row rid (c_ID c) pid amount now]) con) led bank red))) ->
  wp (consent_ValidateAndReserve (MkReserveRequest (c_ID c) pid (Some (MkPMoney amount cur)))) Q
    (MkWorld e (MkPlatform pay con led bank red)).
Proof.
  intros Hc Hp [Hf Hroom (Hcid & Hce & _) _ _ (Hcc & Hcu & Hcl) _ _] [Hfr Hres _ _ (Hpid & Hpe)] HQ.
  eapply wp_call; [done|apply _| |].
  { apply (run_reserve (c_ID c) pid amount cur c); try done.
    - by eapply uuid_Parse_canonical.
    - by eapply uuid_Parse_canonical.
    - eapply has_room_later; [apply later_bump|done].
    - by apply find_notin.
    - apply fresh_bump_same. eapply fresh_sub; [|exact Hfr]. set_solver. }
  intros a e' v Hl (n & now & rem & Hn & -> & Hv). simpl in Hn, Hv. subst v.
  destruct (Hp n) as (Hpar & _ & Hne); [lia|]. apply (HQ e' (uuid_at e n) rem now); [done..|].
  destruct Hfr as [Hfr _]. intros Hin. apply (Hfr n); [lia|]. apply elem_of_app. by left.
Qed.

Lemma step_score pay con led bank red mid pid amount cur c e Q :
  calm e -> is_empty (TrimSpace mid) = false -> is_empty (TrimSpace (c_ConsumerID c)) = false ->
  ~ blocked red (MkScoreInput mid (c_ConsumerID c) (c_ID c) "" None "" "") ->
  (forall e' red' out, later e e' -> ss_decision out <> RiskDecision_DECLINE ->
     Q (Ok out) (MkWorld e' (MkPlatform pay con led bank red'))) ->
  wp (risk_Score (MkScoreRequest mid (c_ConsumerID c) (c_ID c) pid (Some (MkPMoney amount cur)) "" "")) Q
    (MkWorld e (MkPlatform pay con led bank red)).
Proof.
  intros Hc Hmer Hcon Hnb HQ. eapply wp_call; [done|apply _|by apply run_score|].
  intros a e' v Hl (out & -> & Ho). by apply HQ.
Qed.

Lemma step_bank pay con led bank red req amount e Q :
  calm e -> ordered req amount ->
  (forall e' uuid t t', later e e' ->
     Q (Ok (MkInitiateResponse (new_ref "FPS-" 16 uuid) Bank_SETTLED "" t'))
       (MkWorld e' (MkPlatform pay con led (<[new_ref "FPS-" 16 uuid := taken req amount uuid t]> bank) red))) ->
  wp (bank_InitiatePayment req) Q (MkWorld e (MkPlatform pay con led bank red)).
Proof.
  intros Hc Ho HQ. apply wp_remote_calm; [done|]. apply wp_within. eapply run_wp. intros a w Hrun.
  rewrite (run_initiate draws fallback req amount (bump e) bank) in Hrun by done. injection Hrun as <- <-.
  apply (HQ (bump (bump (bump e))) (cur_uuid (bump e)) (cur_clock (bump e))). do 2 (etrans; [apply later_bump|]). apply later_bump.
Qed.

Lemma step_post pay con led bank red p desc e Q :
  calm e -> settleable p -> ledger_inv led -> fresh e (all_ids led) -> p_ID p ∉ map je_payment_id (entries led) ->
  ToUpper (TrimSpace (p_Currency p)) = p_Currency p ->
  (forall e' led' out, later e e' -> stored (p_ID p) (settlement_inputs p (p_Currency p)) led (jen_id out) led' ->
     Q (Ok out) (MkWorld e' (MkPlatform pay con led' bank red))) ->
  wp (ledger_PostDoubleEntry (settlement_request p desc)) Q (MkWorld e (MkPlatform pay con led bank red)).
Proof.
  intros Hc Hs Hinv Hf Hn Hcur HQ. eapply (wp_call _ _ _ (fun a w => exists out, a = Ok out /\ (find_entry (p_ID p) led = None ->
    stored (p_ID p) (settlement_inputs p (ToUpper (TrimSpace (p_Currency p)))) led (jen_id out) (w_st w)))); [done|apply _| |].
  { apply (run_settlement p desc); try done. by do 2 apply fresh_bump_same. }
  intros a e' v Hl (out & -> & Hst). rewrite Hcur in Hst. apply HQ; [done|]. by apply Hst, find_notin.
Qed.

Lemma step_confirm pay con led bank red rid cid pid amount now rows uses e Q :
  calm e -> uuid_Parse rid = Some rid -> uuid_Parse cid = Some cid -> uuid_Parse pid = Some pid ->
  is_empty rid = false -> is_empty pid = false -> rid ∉ map r_ID rows -> cid ∈ map c_ID con ->
  pid ∉ map u_payment_id uses -> fresh e (map u_id uses) ->
  (forall e' uid t, later e e' -> Q (Ok tt) (MkWorld e' (MkPlatform pay
     (MkConsentDB con (rows ++ [confirmed_row rid cid pid amount now]) (uses ++ [MkUsageRow uid cid pid amount t])) led bank red))) ->
  wp (consent_ConfirmReservation (MkConfirmRequest rid pid)) Q
    (MkWorld e (MkPlatform pay (MkConsentDB con (rows ++ [held_row rid cid pid amount now]) uses) led bank red)).
Proof.
  intros Hc Hr Hci Hp Hre Hpe Hn Hcon Hu Hf HQ. eapply wp_call; [done|apply _| |].
  { apply (run_confirm rid cid pid amount now rows); try done; try by eapply uuid_Parse_canonical. by apply fresh_bump_same. }
  intros a e' v Hl (-> & uid & t & Hv). simpl in Hv. subst v. by apply HQ.
Qed.

(* ------------------------------------------------------------------ *)
(** ** The saga on the system *)

(** From the posting on: [p] has its reservation, its score and its bank reference. *)
Lemma run_tail p old evs obs con rows uses led bank red rid c now desc le why e Q :
  let cons := MkConsentDB con (rows ++ [held_row rid (c_ID c) (p_ID p) (p_AmountPence p) now]) uses in
  calm e -> settleable p -> ledger_inv led -> ToUpper (TrimSpace (p_Currency p)) = p_Currency p ->
  ready (p_ID p) e (MkPaymentDB (old ++ [p]) evs obs) -> p_ID p ∉ map p_ID old ->
  p_ReservationID p = Some rid -> uuid_Parse rid = Some rid -> is_empty rid = false -> rid ∉ map r_ID rows ->
  uuid_Parse (c_ID c) = Some (c_ID c) -> c_ID c ∈ map c_ID con ->
  unknown (MkConsentDB con rows uses) led (p_ID p) e ->
  (forall e' n ev ob uid t led' out, later e e' -> ev_to ev = StatusSettled -> ev_payment_id ev = p_ID p ->
     ob_Topic ob = TopicPaymentEvents -> ob_Key ob = p_ID p -> ob_Payload ob = buildSettledPayload p n ->
     stored (p_ID p) (settlement_inputs p (p_Currency p)) led (jen_id out) led' ->
     Q (None, settle_row n p) (MkWorld e' (MkPlatform (MkPaymentDB (old ++ [settle_row n p]) (evs ++ [ev]) (obs ++ [ob]))
       (MkConsentDB con (rows ++ [confirmed_row rid (c_ID c) (p_ID p) (p_AmountPence p) now])
          (uses ++ [MkUsageRow uid (c_ID c) (p_ID p) (p_AmountPence p) t])) led' bank red))) ->
  wp (run_from_ledger p desc le why) Q
    (MkWorld e (MkPlatform (MkPaymentDB (old ++ [p]) evs obs) cons led bank red)).
Proof.
  intros cons Hc Hs Hinv Hcur Hr Hn Hres Hrid Hre Hrn Hcid Hcon [Hf _ Huse Hent (Hpid & Hpe)] HQ.
  unfold run_from_ledger. wp_step. fold (settlement_request p desc).
  eapply step_post; [done..| |done|done|]; [eapply fresh_sub; [|exact Hf]; set_solver|].
  intros e1 led' out Hl1 Hst. unfold settle_and_confirm. wp_step. cbn [repo_SettleWithOutbox platform_repo].
  apply step_settle; [by eapply ready_later|done|]. intros e2 n ev ob Hl2 Hev1 Hev2 Hob1 Hob2 Hob3.
  cbn [p_ReservationID settle_row with_status with_outcome]. rewrite Hres. wp_step. unfold cons.
  eapply step_confirm; try done.
  - by do 2 (eapply later_calm; [done|]).
  - do 2 (eapply later_fresh; [done|]). eapply fresh_sub; [|exact Hf]. set_solver.
  - intros e3 uid t Hl3. wp_step. apply (HQ e3 n ev ob uid t led' out); try done. by do 2 (etrans; [done|]).
Qed.

Lemma settled_payload n n' p : buildSettledPayload (settle_row n p) n' = buildSettledPayload p n'.
Proof. reflexivity. Qed.

Lemma settled_inputs n p cur : settlement_inputs (settle_row n p) cur = settlement_inputs p cur.
Proof. reflexivity. Qed.

Definition saga_trail : list string := [StatusConsentReserved; StatusRiskPassed; StatusAuthorising; StatusSettled].

Lemma run_system_saga pid key mid amount cur desc t0 c old evs obs con led bank red e :
  let p := new_payment pid key mid (c_ID c) amount cur desc t0 in
  calm e -> proper_ids e -> ready pid e (MkPaymentDB (old ++ [p]) evs obs) -> pid ∉ map p_ID old ->
  payable con led red mid amount cur c e -> unknown con led pid e ->
  wp (runSaga p) (fun o w => exists row, o = (None, row) /\ later e (w_env w) /\
        paid old evs obs con led bank saga_trail p c row (w_st w))
    (MkWorld e (MkPlatform (MkPaymentDB (old ++ [p]) evs obs) con led bank red)).
Proof.
  intros p Hc Hpr Hr Hn Hpay Hunk. pose proof Hpay as [Hfc Hroom (Hcid & _ & _) (Hmer & Hcon & Hbref) (Ham & Hmax) (_ & Hcu & Hcl) Hnb Hinv].
  unfold runSaga. wp_step. eapply step_reserve; [done..|]. intros e1 rid rem now Hl1 Hrid Hre Hrn.
  cbn [rs_reservation_id rs_consumer_id rs_bank_consent_ref]. rewrite Hrid. wp_step. cbn [repo_UpdateAfterConsent platform_repo].
  apply step_update; [by eapply ready_later|done|done|]. intros e2 n1 ev1 Hl2 T1 P1 db1 R1. subst db1.
  unfold run_from_risk. wp_step. eapply step_score; [|done..|]; [by do 2 (eapply later_calm; [done|])|].
  intros e3 red' out Hl3 Hal. rewrite bool_decide_eq_false_2 by done. wp_step. cbn [repo_UpdateAfterRisk platform_repo].
  apply step_update; [by eapply ready_later|done|done|]. intros e4 n2 ev2 Hl4 T2 P2 db2 R2. subst db2.
  unfold run_from_bank. wp_step.
  assert (Hp : is_empty pid = false) by apply Hunk.
  eapply (step_bank _ _ _ _ _ _ (MkPMoney amount cur)); [by do 4 (eapply later_calm; [done|])| |].
  { split_and!; [exact Hp|exact Hbref|done|simpl; lia|simpl; unfold platformFeeRateBPS in Hmax; lia]. }
  intros e5 uuid t t' Hl5. cbn [is_status is_bank_payment_ref]. rewrite bool_decide_eq_false_2 by done. wp_step.
  cbn [repo_UpdateAfterBank platform_repo].
  apply step_update; [by eapply ready_later|done|done|]. intros e6 n3 ev3 Hl6 T3 P3 db3 R3. subst db3.
  assert (Hl : later e e6) by (do 5 (etrans; [done|]); done).
  match goal with |- wp (run_from_ledger ?q _ _ _) _ _ =>
    apply (run_tail q old _ _ (consents con) (reservations con) (usages con) _ _ _ rid c now); try done end.
  - by eapply later_calm.
  - split_and!; try done. change (str_len (ToUpper (TrimSpace cur)) = 3). by rewrite Hcu.
  - apply find_consent_spec in Hfc as [Hin _]. by apply list_elem_of_fmap_2.
  - destruct con. by eapply unknown_later.
  - intros e7 n4 ev4 ob uid tu led' je Hl7 T4 P4 O1 O2 O3 Hst. eexists. split; [reflexivity|]. split; [by etrans|].
    constructor; cbn [pf_payments pf_consents pf_ledger pf_bank payments events outbox]; try done.
    + exists [ev1; ev2; ev3; ev4]. rewrite <- !(assoc_L (++)). split_and!; [done|simpl; by rewrite T1, T2, T3, T4|by repeat constructor].
    + exists ob, n4. rewrite settled_payload, O3. by split_and!.
    + by exists rid, now, uid, tu.
    + by exists uuid, t.
    + exists (jen_id je). rewrite settled_inputs. exact Hst.
Qed.

(* ------------------------------------------------------------------ *)
(** ** The request *)

#[local] Instance adv_begin k : Advances (Begin (R := R) k).
Proof. unfold Begin. advance. Qed.

#[local] Instance adv_complete k v : Advances (Complete (R := R) k v).
Proof. unfold Complete. advance. Qed.

Lemma step_begin k (s : Platform R) e Q : calm e -> Redis.live (pf_redis s) (cur_clock e) (key k) = None ->
  (forall e' red, later e e' -> (forall k' m, member red k' m = member (pf_redis s) k' m) ->
     Q (Ok (true, "")) (MkWorld e' (MkPlatform (pf_payments s) (pf_consents s) (pf_ledger s) (pf_bank s) red))) ->
  wp (idem_Begin k) Q (MkWorld e s).
Proof.
  intros Hc Hl HQ. eapply wp_local; [apply _|by apply Begin_absent|].
  intros a e' v Hl' (-> & _ & _ & Hm). by apply HQ.
Qed.

Lemma step_complete k v pay con led bank red e Q : calm e ->
  (forall e' red', later e e' ->
     (forall t, cur_clock e <= t -> Redis.live red' t (key k) = if t <? cur_clock e + DefaultTTL then Some v else None) ->
     Q (Ok tt) (MkWorld e' (MkPlatform pay con led bank red'))) ->
  wp (idem_Complete k v) Q (MkWorld e (MkPlatform pay con led bank red)).
Proof.
  intros Hc HQ. eapply (wp_local _ _ _ (fun a w => a = Ok tt /\ forall t, cur_clock e <= t ->
    Redis.live (w_st w) t (key k) = if t <? cur_clock e + DefaultTTL then Some v else None)); [apply _| |].
  - unfold Complete. cbn [pf_redis]. pose proof (Set_law (key k) v DefaultTTL (cur_clock e) (cur_uuid e) red) as Hs.
    destruct (r_Set _ _ _ _ _ red) as [a r2] eqn:Hq. destruct Hs as (-> & Hlive & _). by eapply wp_exec_calm.
  - intros a e' red' Hl (-> & Hlive). by apply HQ.
Qed.

Lemma step_get p old evs obs con led bank (red : R) e Q : calm e -> p_ID p ∉ map p_ID old ->
  (forall e', later e e' -> Q (Ok p) (MkWorld e' (MkPlatform (MkPaymentDB (old ++ [p]) evs obs) con led bank red))) ->
  wp (repo_GetByID (p_ID p)) Q (MkWorld e (MkPlatform (MkPaymentDB (old ++ [p]) evs obs) con led bank red)).
Proof.
  intros Hc Hn HQ. eapply wp_local; [apply _|by apply (run_get p old)|].
  intros a e' v Hl (-> & Hv). simpl in Hv. subst v. by apply HQ.
Qed.

(** What the owner of the key answers and leaves behind; the key answers the payment for a day. *)
Definition owner_paid (s : Platform R) (key mid desc cur : string) (amount : Z) (c : ConsentRow) (row : Payment)
    (s' : Platform R) : Prop :=
  let pay := pf_payments s in
  exists pid t0 t, pid ∉ map p_ID (payments pay) /\ uuid_Parse pid = Some pid /\ pid <> StatusProcessing /\ is_empty pid = false /\
    paid (payments pay) (events pay) (outbox pay) (pf_consents s) (pf_ledger s) (pf_bank s) (StatusInitiated :: saga_trail)
      (new_payment pid key mid (c_ID c) amount cur desc t0) c row s' /\
    forall t', t <= t' -> Redis.live (pf_redis s') t' (Idempotency.key key) = if t' <? t + DefaultTTL then Some pid else None.

Lemma run_create_step pid key mid cid amount cur desc s e Q : calm e -> fresh e (platform_ids s) ->
  pid <> uuid_Nil -> pid ∉ map p_ID (payments (pf_payments s)) -> key ∉ map p_IdempotencyKey (payments (pf_payments s)) ->
  (forall e' now ev, later e e' ->
     let p := new_payment pid key mid cid amount cur desc now in
     let db := MkPaymentDB (payments (pf_payments s) ++ [p]) (events (pf_payments s) ++ [ev]) (outbox (pf_payments s)) in
     ev_to ev = StatusInitiated -> ev_payment_id ev = pid -> ready pid e' db ->
     Q (Ok tt, p) (MkWorld e' (MkPlatform db (pf_consents s) (pf_ledger s) (pf_bank s) (pf_redis s : R)))) ->
  wp (repo_CreatePayment (new_payment pid key mid cid amount cur desc 0)) Q (MkWorld e s).
Proof.
  intros Hc Hf Hid Hn Hk HQ. eapply (wp_local _ _ _ (fun o w => exists now ev,
    let p := new_payment pid key mid cid amount cur desc now in
    o = (Ok tt, p) /\ ev_to ev = StatusInitiated /\ ev_payment_id ev = pid /\ ready pid (w_env w) (w_st w) /\
    w_st w = MkPaymentDB (payments (pf_payments s) ++ [p]) (events (pf_payments s) ++ [ev]) (outbox (pf_payments s)))); [apply _| |].
  - apply run_create; try done; [eapply fresh_sub; [|exact Hf]; unfold platform_ids; set_solver|].
    intros e' now ev p db Ht Hp Hr. by exists now, ev.
  - intros o e' v Hl (now & ev & -> & Ht & Hp & Hr & Hv). simpl in Hr, Hv. subst v. by apply (HQ e' now ev).
Qed.

Lemma run_owner key mid cur0 desc amount c s e :
  let cur := ToUpper (TrimSpace cur0) in
  calm e -> proper_ids e -> fresh e (platform_ids s) -> key ∉ map p_IdempotencyKey (payments (pf_payments s)) ->
  payable (pf_consents s) (pf_ledger s) (pf_redis s) mid amount cur c e ->
  wp (own_payment uuid_New (MkInitiateInput key mid (c_ID c) amount cur0 desc false None) mid (c_ID c))
    (fun a w => exists row, a = (Some row, None) /\ owner_paid s key mid desc cur amount c row (w_st w)) (MkWorld e s).
Proof.
  intros cur Hc Hpr Hf Hk Hpay. unfold own_payment. cbn [in_IdempotencyKey in_AmountPence in_Currency in_Description].
  wp_step. apply wp_uuid_New. cbn [w_env w_st]. set (pid := cur_uuid e). fold cur.
  destruct (Hpr (tick e) (le_n _)) as (Hpp & Hpn & Hpe). fold (cur_uuid e) in Hpp, Hpn, Hpe.
  assert (Hnew : pid ∉ platform_ids s) by (apply fresh_cur, Hf). unfold platform_ids in Hnew.
  rewrite !not_elem_of_app in Hnew. destruct Hnew as (Hnp & _ & _ & _ & Hnr & _ & Hnu & _ & Hne).
  change (MkPayment pid key mid (c_ID c) "" amount cur _ _ _ _ _ _ _ _ _ _) with (new_payment pid key mid (c_ID c) amount cur desc 0).
  wp_step. eapply run_create_step; [done|by apply fresh_bump_same|set_solver|done|done|].
  intros e1 now ev Hl1 p db Ht Hp Hr. wp_step.
  assert (Hle : later e e1) by (etrans; [apply later_bump|done]).
  eapply wp_mono; [eapply (run_system_saga pid key mid amount cur desc now c); try done|].
  { by eapply later_calm. } { by eapply proper_later. } { by eapply payable_later. }
  { eapply unknown_later; [done|]. constructor; try done. eapply fresh_sub; [|exact Hf]. intros i. unfold platform_ids. rewrite !elem_of_app. tauto. }
  intros o [e2 s2] (row & -> & Hl2 & Hpaid). cbn [w_env w_st] in *. wp_step.
  pose proof (paid_request _ _ _ _ _ _ _ _ _ _ _ Hpaid) as Hreq. assert (Hid : p_ID row = pid) by (by injection Hreq).
  destruct s2 as [[pay2 evs2 obs2] con2 led2 bank2 red2].
  assert (pay2 = payments (pf_payments s) ++ [row]) as -> by apply Hpaid.
  assert (Hc2 : calm e2) by (eapply later_calm; [|done]; by etrans).
  apply step_complete; [done|]. intros e3 red3 Hl3 Hlive. wp_step. apply step_get; [by eapply later_calm|by rewrite Hid|].
  intros e4 Hl4. wp_step. exists row. split; [done|]. exists pid, now, (cur_clock e2). split_and!; [done|done|set_solver|done| |by rewrite <- Hid].
  destruct Hpaid as [? ? ? (evs' & Hev & Hto & Hall) ? ? ? ?]. constructor; try done.
  exists (ev :: evs'). cbn [pf_payments events] in *. rewrite Hev, <- (assoc_L (++)). split_and!; [done|simpl; by rewrite Ht, Hto|by constructor].
Qed.

(** A well-formed request for [amount] under the consent [c]. *)
Record ordered_payment (req : InitiatePaymentRequest) (amount : PMoney) (c : ConsentRow) : Prop := {
  op_amount : ipr_amount req = Some amount;
  op_consent : ipr_consent_id req = c_ID c;
  op_key : is_empty (TrimSpace (ipr_idempotency_key req)) = false;
  op_merchant : uuid_Parse (ipr_merchant_id req) = Some (ipr_merchant_id req);
}.

Definition as_input (req : InitiatePaymentRequest) (amount : PMoney) (c : ConsentRow) : InitiateInput :=
  MkInitiateInput (ipr_idempotency_key req) (ipr_merchant_id req) (c_ID c) (pm_amount_pence amount) (pm_currency amount)
    (ipr_description req) false None.

Lemma wp_request req amount c (P : answer -> world (Platform R) -> Prop) (Q : result error PPayment -> world (Platform R) -> Prop) w :
  ordered_payment req amount c -> wp (Initiate uuid_New (as_input req amount c)) P w ->
  (forall a w', P a w' -> Q (to_client a) w') -> wp (platform_InitiatePayment draws fallback req) Q w.
Proof.
  intros [Ha Hc _ _] HP HQ. unfold platform_InitiatePayment, PaymentHandler.InitiatePayment. rewrite Ha, Hc. wp_step.
  eapply wp_mono; [exact HP|]. intros a w' Hp. wp_step. by apply HQ.
Qed.

(** The checks of [Initiate] that come before the store is asked. *)
Lemma wp_initiate_checked req amount c con led red cur e0 w (Q : answer -> world (Platform R) -> Prop) :
  ordered_payment req amount c -> cur = ToUpper (TrimSpace (pm_currency amount)) ->
  payable con led red (ipr_merchant_id req) (pm_amount_pence amount) cur c e0 ->
  wp (idem_Begin (ipr_idempotency_key req)) (fun b w' => match b with
      | Ok (true, _) => wp (own_payment uuid_New (as_input req amount c) (ipr_merchant_id req) (c_ID c)) Q w'
      | Ok (false, completed) => wp (join_other (ipr_idempotency_key req) completed) Q w'
      | Err err => Q (refused (DomainErr.Wrap CodeInternal "idempotency begin" err)) w'
      end) w ->
  wp (Initiate uuid_New (as_input req amount c)) Q w.
Proof.
  intros [_ _ Hk Hm] -> [_ _ (Hcp & _ & Hce) (Hme & _) (Ham & _) (_ & _ & Hcl) _ _] Hwp. unfold Initiate, as_input.
  cbn [in_SkipIdempotency in_IdempotencyKey in_MerchantID in_ConsentID]. rewrite Hk. unfold validateInitiate.
  cbn [in_MerchantID in_ConsentID in_AmountPence in_Currency]. rewrite Hme, Hce, Hcl.
  destruct (Z.leb_spec (pm_amount_pence amount) 0); [lia|]. change (negb (3 =? 3)) with false. cbv iota. wp_step.
  eapply wp_mono; [exact Hwp|]. intros [[[] completed]|err] w' Hb; [|exact Hb|by wp_step]. by rewrite Hm, Hcp.
Qed.

(** Somebody paid with the key: the caller is told which payment it was. *)
Lemma step_taken k v (s : Platform R) e Q : calm e -> v <> StatusProcessing ->
  Redis.live (pf_redis s) (cur_clock e) (Idempotency.key k) = Some v ->
  Redis.live (pf_redis s) (cur_clock (bump e)) (Idempotency.key k) = Some v ->
  (forall e', later e e' -> Q (Ok (false, v)) (MkWorld e' s)) -> wp (idem_Begin k) Q (MkWorld e s).
Proof.
  intros Hc Hv H1' H2' HQ. eapply wp_local; [apply _|by apply (Begin_present k v)|].
  intros a e' red Hl (-> & Hred). simpl in Hred. subst red. rewrite bool_decide_eq_false_2 by done.
  destruct s. by apply HQ.
Qed.

Lemma run_join key row old evs obs con led bank (red : R) e :
  let s := MkPlatform (MkPaymentDB (old ++ [row]) evs obs) con led bank red in
  calm e -> uuid_Parse (p_ID row) = Some (p_ID row) -> is_empty (p_ID row) = false -> p_ID row ∉ map p_ID old ->
  wp (join_other key (p_ID row)) (fun a w => a = (Some row, None) /\ w_st w = s) (MkWorld e s).
Proof.
  intros s Hc Hp He Hn. unfold join_other. rewrite He, Hp. cbn [negb]. wp_step. by apply step_get.
Qed.

(** A request with a new key, in an environment without failures. *)
Lemma run_first_request req amount c e s :
  let cur := ToUpper (TrimSpace (pm_currency amount)) in
  let key := ipr_idempotency_key req in
  ordered_payment req amount c -> calm e -> proper_ids e -> fresh e (platform_ids s) ->
  key ∉ map p_IdempotencyKey (payments (pf_payments s)) ->
  Redis.live (pf_redis s) (cur_clock e) (Idempotency.key key) = None ->
  payable (pf_consents s) (pf_ledger s) (pf_redis s) (ipr_merchant_id req) (pm_amount_pence amount) cur c e ->
  wp (platform_InitiatePayment draws fallback req) (fun r w => exists row, r = Ok (toProto row) /\
    owner_paid s key (ipr_merchant_id req) (ipr_description req) cur (pm_amount_pence amount) c row (w_st w)) (MkWorld e s).
Proof.
  intros cur key Ho Hc Hpr Hf Hk Hl Hpay.
  apply (wp_request req amount c (fun a w => exists row, a = (Some row, None) /\
      owner_paid s key (ipr_merchant_id req) (ipr_description req) cur (pm_amount_pence amount) c row (w_st w))); [done| |].
  - eapply wp_initiate_checked; [done|reflexivity|done|]. apply step_begin; [done|done|]. intros e1 red Hl1 Hm.
    eapply wp_mono; [eapply run_owner|].
    + by eapply later_calm.
    + by eapply proper_later.
    + by eapply later_fresh.
    + done.
    + destruct (payable_later _ _ _ _ _ _ _ _ _ Hl1 Hpay) as [? ? ? ? ? ? Hnb ?]. constructor; try done.
      intros (ty & v & Hin & Hv & Hmem). apply Hnb. exists ty, v. by rewrite <- Hm.
    + done.
  - intros a w' (row & -> & Hrow). by exists row.
Qed.

(** The same request again, while the key answers the payment. *)
Lemma run_same_request req amount c e con0 led0 red0 e0 cur old row evs obs con led bank (red : R) :
  let s := MkPlatform (MkPaymentDB (old ++ [row]) evs obs) con led bank red in
  ordered_payment req amount c -> cur = ToUpper (TrimSpace (pm_currency amount)) ->
  payable con0 led0 red0 (ipr_merchant_id req) (pm_amount_pence amount) cur c e0 ->
  uuid_Parse (p_ID row) = Some (p_ID row) -> p_ID row <> StatusProcessing -> is_empty (p_ID row) = false -> p_ID row ∉ map p_ID old ->
  calm e -> Redis.live red (cur_clock e) (Idempotency.key (ipr_idempotency_key req)) = Some (p_ID row) ->
  Redis.live red (cur_clock (bump e)) (Idempotency.key (ipr_idempotency_key req)) = Some (p_ID row) ->
  wp (platform_InitiatePayment draws fallback req) (fun r w => r = Ok (toProto row) /\ w_st w = s) (MkWorld e s).
Proof.
  intros s Ho Hcur Hpay Hpp Hps Hpe Hn Hc Hl1 Hl2.
  apply (wp_request req amount c (fun a w => a = (Some row, None) /\ w_st w = s)); [done| |by intros ? ? [-> ->]].
  eapply wp_initiate_checked; [done|exact Hcur|exact Hpay|].
  apply (step_taken _ (p_ID row)); [done..|]. intros e3 Hl3. apply run_join; [by eapply later_calm|done..].
Qed.

Lemma paid_settled s key mid desc cur amount c row s' : owner_paid s key mid desc cur amount c row s' ->
  pp_status (toProto row) = PS_SETTLED /\ pp_merchant_id (toProto row) = mid /\ pp_consent_id (toProto row) = c_ID c /\
  pp_consumer_id (toProto row) = c_ConsumerID c.
Proof.
  intros (pid & t0 & t & _ & _ & _ & _ & Hp & _). pose proof (paid_request _ _ _ _ _ _ _ _ _ _ _ Hp) as Hreq.
  pose proof (paid_status _ _ _ _ _ _ _ _ _ _ _ Hp) as (Hst & _ & Hcon). injection Hreq as _ _ Hm Hc _ _ _.
  unfold toProto. cbn [pp_status pp_merchant_id pp_consent_id pp_consumer_id]. by rewrite Hst.
Qed.

(** C3.  A payment settles across the services: a well-formed request under an
active consent with room, by parties not on the blocklist, with a key not used
before, in an environment without failures, answers the payment SETTLED; the
payment has its row, its audit trail and one message to the merchant, the
reservation is confirmed and counted towards the month, the bank has taken the
money, the ledger has the balanced entry of the three parties, and nothing else
has changed; and as long as the key lives the same request again answers the
same payment and changes nothing anywhere. *)
Theorem payment_settles_end_to_end req amount c e s :
  let cur := ToUpper (TrimSpace (pm_currency amount)) in
  let key := ipr_idempotency_key req in
  ordered_payment req amount c -> calm e -> proper_ids e -> fresh e (platform_ids s) ->
  key ∉ map p_IdempotencyKey (payments (pf_payments s)) ->
  Redis.live (pf_redis s) (cur_clock e) (Idempotency.key key) = None ->
  payable (pf_consents s) (pf_ledger s) (pf_redis s) (ipr_merchant_id req) (pm_amount_pence amount) cur c e ->
  let a := platform_InitiatePayment draws fallback req (MkWorld e s) in
  let s' := w_st (snd a) in
  exists row, fst a = Ok (toProto row) /\ pp_status (toProto row) = PS_SETTLED /\
    owner_paid s key (ipr_merchant_id req) (ipr_description req) cur (pm_amount_pence amount) c row s' /\
    forall e2, calm e2 -> Redis.live (pf_redis s') (cur_clock e2) (Idempotency.key key) = Some (p_ID row) ->
      Redis.live (pf_redis s') (cur_clock (bump e2)) (Idempotency.key key) = Some (p_ID row) ->
      let b := platform_InitiatePayment draws fallback req (MkWorld e2 s') in
      fst b = fst a /\ w_st (snd b) = s'.
Proof.
  intros cur key Ho Hc Hpr Hf Hk Hl Hpay.
  pose proof (run_first_request req amount c e s Ho Hc Hpr Hf Hk Hl Hpay) as Hrun.
  unfold wp in Hrun. intros a s'. destruct Hrun as (row & Ha & Hown). exists row. fold a in Ha, Hown. fold s' in Hown.
  split; [done|]. pose proof Hown as (pid & t0 & t & Hn & Hpp & Hps & Hpe & Hpaid & _).
  split; [by eapply paid_settled|]. split; [done|].
  intros e2 Hc2 Hl1 Hl2. rewrite Ha. clearbody s'.
  change (wp (platform_InitiatePayment draws fallback req) (fun r w => r = Ok (toProto row) /\ w_st w = s') (MkWorld e2 s')).
  destruct s' as [[pay evs obs] con led bank red]. assert (pay = payments (pf_payments s) ++ [row]) as -> by apply Hpaid.
  assert (Hid : p_ID row = pid) by (pose proof (paid_request _ _ _ _ _ _ _ _ _ _ _ Hpaid) as Hreq; by injection Hreq).
  eapply run_same_request; [done|reflexivity|exact Hpay|by rewrite Hid..|done|done|done].
Qed.

(** C32.  Nobody asks whose consent it is: under the same conditions a merchant
who names a consent that was granted to another merchant is paid from it.  The
answer is SETTLED for the asking merchant, the use is counted on the other
merchant's consent, and the bank has taken the money of its consumer (whose names
are valid text, as the database keeps them). *)
Theorem foreign_consent_is_charged req amount c e s :
  let cur := ToUpper (TrimSpace (pm_currency amount)) in
  let key := ipr_idempotency_key req in
  c_MerchantID c <> ipr_merchant_id req -> valid_utf8 (c_ConsumerID c) -> valid_utf8 (c_BankConsentRef c) ->
  ordered_payment req amount c -> calm e -> proper_ids e -> fresh e (platform_ids s) ->
  key ∉ map p_IdempotencyKey (payments (pf_payments s)) ->
  Redis.live (pf_redis s) (cur_clock e) (Idempotency.key key) = None ->
  payable (pf_consents s) (pf_ledger s) (pf_redis s) (ipr_merchant_id req) (pm_amount_pence amount) cur c e ->
  let a := platform_InitiatePayment draws fallback req (MkWorld e s) in
  let s' := w_st (snd a) in
  exists p use rec ref, fst a = Ok p /\ pp_status p = PS_SETTLED /\
    pp_merchant_id p = ipr_merchant_id req /\ pp_consumer_id p = c_ConsumerID c /\
    usages (pf_consents s') = usages (pf_consents s) ++ [use] /\ u_consent_id use = c_ID c /\
    u_amount_pence use = pm_amount_pence amount /\
    pf_bank s' !! ref = Some rec /\ pr_ConsumerID rec = c_ConsumerID c /\ pr_BankConsentRef rec = c_BankConsentRef c /\
    pr_AmountPence rec = pm_amount_pence amount /\ pr_Status rec = "SETTLED".
Proof.
  intros cur key _ Hv1 Hv2 Ho Hc Hpr Hf Hk Hl Hpay.
  pose proof (run_first_request req amount c e s Ho Hc Hpr Hf Hk Hl Hpay) as (row & Ha & Hown).
  destruct (paid_settled _ _ _ _ _ _ _ _ _ Hown) as (Hst & Hm & _ & Hcon). intros a s'. fold a in Ha, Hown. fold s' in Hown.
  destruct Hown as (pid & t0 & t & _ & _ & _ & _ & Hp & _).
  destruct Hp as [_ _ _ _ _ (rid & t1 & uid & t2 & _ & Hcons) (uuid & t3 & Href & Hbank) _].
  exists (toProto row), (MkUsageRow uid (c_ID c) pid (pm_amount_pence amount) t2). eexists _, _.
  rewrite Hcons, Hbank, lookup_insert_eq. by split_and!.
Qed.
End Payment.
