(* ===== verification/PlatformExamples.v ===== *)
(** * A payment across the services, evaluated, and the claims of the system on it. *)
From S2P Require Import Prelude GoStrings DomainErr World Advance Proto Uuid Redis Idempotency.
From S2P Require Import LedgerStore LedgerTheory LedgerProps LedgerServer ConsentRepo ConsentService ConsentTheory ConsentProps ConsentHandler.
From S2P Require Import RiskRules RiskHandler BankAdapter MockBank BankProps BankRoutes PaymentRepo Saga SagaTrace SagaProps PaymentHandler.
From S2P Require Import Platform PlatformCalls PlatformProps.
Local Open Scope Z_scope.
Local Open Scope go_scope.

#[local] Existing Instance ascii_tables.
#[local] Existing Instance text_uuids.
#[local] Existing Instance text_uuid_laws.
#[local] Existing Instance simple_grpc.
#[local] Existing Instance no_quotes.
#[local] Existing Instance no_json_errors.

(** A consent of 100.00 a payment and 250.00 a month that alice gave to "shop". *)
Definition alice_consent : ConsentRow :=
  MkConsentRow "c1" "shop" "alice" "bc1" ConsentRepo.StatusActive 10000 25000 "GBP" 0 (1000 * hour) 0 0.

Definition one_consent : Platform Memory :=
  MkPlatform (MkPaymentDB [] [] []) (MkConsentDB [alice_consent] [] []) empty_ledger ∅ empty_memory.

Definition system_env (n : nat) : env := MkEnv n (fun _ => hour) (fun n => "u-" +:+ pretty (N.of_nat n)) (fun _ => NoFault).

Definition order_of (merchant : string) : InitiatePaymentRequest :=
  MkInitiatePaymentRequest "order-7" merchant "c1" (Some (MkPMoney 2500 " gbp")) "book".

Lemma system_fresh n : fresh (system_env n) [].
Proof.
  split; [set_solver|]. simpl. intros i j Hij [= Heq]. apply (inj (String.append "")), (inj pretty) in Heq. lia.
Qed.

Lemma system_proper n : proper_ids (system_env n).
Proof. intros i _. simpl. rewrite !(numbered_canonical "u-") by done. split_and!; try done. set_solver. Qed.

Lemma one_consent_payable merchant : is_empty (TrimSpace merchant) = false ->
  payable (pf_consents one_consent) (pf_ledger one_consent) (pf_redis one_consent) merchant 2500 "GBP" alice_consent (system_env 0).
Proof.
  intros Hm. constructor; try done.
  - intros (ty & v & Hin & Hv & Hmem). unfold member, memory_laws in Hmem. simpl in Hmem. set_solver.
  - apply empty_inv.
Qed.

Lemma order_ok merchant : canonical_text merchant = true -> ordered_payment (order_of merchant) (MkPMoney 2500 " gbp") alice_consent.
Proof. intros Hm. constructor; try done; simpl. by rewrite Hm. Qed.

Lemma payment_settles_witness :
  let a := platform_InitiatePayment no_draws no_route (order_of "shop") (MkWorld (system_env 0) one_consent) in
  let b := platform_InitiatePayment no_draws no_route (order_of "shop") (MkWorld (system_env 500) (w_st (snd a))) in
  fst b = fst a /\ w_st (snd b) = w_st (snd a).
Proof.
  destruct (payment_settles_end_to_end no_draws no_route (order_of "shop") (MkPMoney 2500 " gbp") alice_consent (system_env 0) one_consent)
    as (row & Ha & _ & _ & Hagain).
  - by apply order_ok.
  - intros n. reflexivity.
  - apply system_proper.
  - apply (system_fresh 0).
  - set_solver.
  - reflexivity.
  - by apply one_consent_payable.
  - assert (Hrow : p_ID row = "u-1").
    { vm_compute in Ha. injection Ha. done. }
    apply Hagain; [intros n; reflexivity|rewrite Hrow; vm_compute; reflexivity..].
Defined.

Lemma foreign_consent_witness :
  let a := platform_InitiatePayment no_draws no_route (order_of "mallory's") (MkWorld (system_env 0) one_consent) in
  exists p use rec ref, fst a = Ok p /\ pp_status p = PS_SETTLED /\
    pp_merchant_id p = "mallory's" /\ pp_consumer_id p = "alice" /\
    usages (pf_consents (w_st (snd a))) = [use] /\ u_consent_id use = "c1" /\ u_amount_pence use = 2500 /\
    pf_bank (w_st (snd a)) !! ref = Some rec /\ pr_ConsumerID rec = "alice" /\ pr_BankConsentRef rec = "bc1" /\
    pr_AmountPence rec = 2500 /\ pr_Status rec = "SETTLED".
Proof.
  apply (foreign_consent_is_charged no_draws no_route (order_of "mallory's") (MkPMoney 2500 " gbp") alice_consent (system_env 0) one_consent).
  - discriminate.
  - reflexivity.
  - reflexivity.
  - by apply order_ok.
  - intros n. reflexivity.
  - apply system_proper.
  - apply (system_fresh 0).
  - set_solver.
  - reflexivity.
  - by apply one_consent_payable.
Defined.
