(* ===== verification/Storefront.v ===== *)
(** * The platform behind its API.

[Shop] is everything behind the gateway: the merchant service and the services of
[Platform].  The clients of the gateway are gRPC calls of the services' own
handlers, so a request over HTTP runs through every service it needs. *)
From S2P Require Import Prelude GoStrings DomainErr World Advance Proto Uuid Redis Idempotency GoTime GoJson Auth RateLimit.
From S2P Require Import LedgerStore LedgerProps ConsentRepo ConsentService ConsentHandler RiskRules MerchantRepo MerchantHandler.
From S2P Require Import Gateway GatewayHandlers GatewayAuth GatewayProps Onboarding BankAdapter MockBank BankProps PaymentRepo Saga SagaProps PaymentHandler.
From S2P Require Import Platform PlatformCalls PlatformProps.
Local Open Scope Z_scope.
Local Open Scope go_scope.

Record Shop (R : Type) := MkShop { sh_merchants : MerchantDB; sh_platform : Platform R }.
Arguments MkShop {R}.
Arguments sh_merchants {R}.
Arguments sh_platform {R}.

Section Shop.
Context {R : Type} `{Redis R} `{UuidLib} `{Unicode} `{GrpcLib} `{GoFmt} `{JsonErrors} `{Entropy} `{Bcrypt}.
Context (draws : nat -> Draws) (fallback : string -> string -> option string -> M (world Bank) http_outcome).

Definition on_merchants {A} (m : M (world MerchantDB) A) : M (world (Shop R)) A :=
  within sh_merchants (fun x s => MkShop x (sh_platform s)) m.
Definition on_platform {A} (m : M (world (Platform R)) A) : M (world (Shop R)) A :=
  within sh_platform (fun x s => MkShop (sh_merchants s) x) m.

#[export] Instance shop_merchants : MerchantClient (Shop R) := {|
  mc_GetMerchantByApiKey key := on_merchants (remote_merchants.(mc_GetMerchantByApiKey) key);
  mc_RegisterMerchant req := on_merchants (remote_merchants.(mc_RegisterMerchant) req);
  mc_GetMerchant id := on_merchants (remote_merchants.(mc_GetMerchant) id);
|}.

#[export] Instance shop_consents : ConsentClient (Shop R) := {|
  cc_CreateConsent req := remote (on_platform (on_consents (ConsentHandler.CreateConsent req)));
  cc_GetConsent id mid := remote (on_platform (on_consents (ConsentHandler.GetConsent id mid)));
  cc_RevokeConsent id mid reason := remote (on_platform (on_consents (ConsentHandler.RevokeConsent id mid reason)));
  cc_ListConsents req := remote (on_platform (on_consents (ConsentHandler.ListConsents req)));
|}.

#[local] Existing Instance platform_repo.

(** GetPayment of the payment service on the platform. *)
Definition platform_GetPayment (req : GetPaymentRequest) : M (world (Platform R)) (result error PPayment) :=
  PaymentHandler.GetPayment (fun id m => on_payments (GetByIDAndMerchant id m)) (Some req).

#[export] Instance shop_payments : PaymentClient (Shop R) := {|
  pc_InitiatePayment req := remote (on_platform (platform_InitiatePayment draws fallback req));
  pc_GetPayment req := remote (on_platform (platform_GetPayment req));
  pc_RetryPayment req := remote (on_platform (platform_RetryPayment draws fallback req));
|}.
End Shop.

Section Story.
Context {R : Type} `{RedisLaws R} `{UuidLaws} `{Unicode} `{GrpcLib} `{GoFmt} `{JsonErrors} `{Entropy} `{Bcrypt} `{JwtLib}.
Context (draws : nat -> Draws) (fallback : string -> string -> option string -> M (world Bank) http_outcome).
#[local] Instance story_payments : PaymentClient (Shop R) := shop_payments draws fallback.

(** A payment that is the last row of its table, asked for by a merchant. *)
Lemma run_GetPayment mid old row evs obs con led bank (red : R) e :
  let s := MkPlatform (MkPaymentDB (old ++ [row]) evs obs) con led bank red in
  calm e -> uuid_Parse (p_ID row) = Some (p_ID row) -> is_empty (TrimSpace (p_ID row)) = false -> p_ID row ∉ map p_ID old ->
  uuid_Parse mid = Some mid -> TrimSpace mid = mid -> is_empty mid = false ->
  wp (platform_GetPayment (MkGetPaymentRequest (p_ID row) mid)) (fun r w =>
    r = (if bool_decide (p_MerchantID row = mid) then Ok (toProto row)
         else Err (ToGRPC (DomainErr.New CodeNotFound "payment not found"))) /\ w_st w = s) (MkWorld e s).
Proof.
  intros s Hc Hp Hpe Hn Hm Htrim Hme. unfold platform_GetPayment, PaymentHandler.GetPayment, find_payment.
  cbn [gp_payment_id gp_merchant_id]. rewrite Hpe, Hp, Htrim, Hme, Hm. wp_step. wp_step. unfold on_payments. apply wp_within.
  unfold GetByIDAndMerchant. wp_step. eapply wp_mono; [by apply (run_get row old)|]. intros a w [-> Hw]. simpl in Hw.
  case_bool_decide; cbn [negb]; repeat wp_step; by rewrite Hw.
Qed.

(** An order of a payment of [amount] under the consent [c]: the key is in its header, the rest in its body. *)
Record payment_order (r : Request) (key desc : string) (amount : PMoney) (c : ConsentRow) : Prop := {
  order_key : rq_header r "Idempotency-Key" = key;
  order_text : plain_text key /\ key <> "" /\ str_len key <= 128;
  order_body : dec_InitiatePayment (rq_body r) = (false, MkHttpInitiatePayment (c_ID c) amount desc);
}.

Definition order_request (key desc mid : string) (amount : PMoney) (c : ConsentRow) : InitiatePaymentRequest :=
  MkInitiatePaymentRequest key mid (c_ID c) (Some amount) desc.

Lemma order_ordered r key desc mid amount c : payment_order r key desc amount c -> uuid_Parse mid = Some mid ->
  ordered_payment (order_request key desc mid amount c) amount c.
Proof.
  intros [_ (Ht & Hne & _) _] Hm. constructor; try done. cbn [ipr_idempotency_key order_request].
  rewrite (TrimSpace_visible key Ht). by apply is_empty_false.
Qed.

(** The answer of the platform to an order, as the merchant sees it. *)
Lemma wp_order cx r key desc amount c con led red0 e0 e red M P (Q : Response -> world (Gw R (Shop R)) -> Prop) :
  payment_order r key desc amount c -> calm e ->
  payable con led red0 (cx_MerchantID cx) (pm_amount_pence amount) (ToUpper (TrimSpace (pm_currency amount))) c e0 ->
  wp (platform_InitiatePayment draws fallback (order_request key desc (cx_MerchantID cx) amount c))
    (fun a w => exists p, a = Ok p /\ pp_status p = PS_SETTLED /\
       Q (Gateway.writeJSON 201 [] (PaymentResponse_json (paymentFromProto p))) (MkWorld (w_env w) (MkGw red (MkShop M (w_st w))))) (MkWorld (bump e) P) ->
  wp (GatewayHandlers.InitiatePayment cx r) Q (MkWorld e (MkGw red (MkShop M P))).
Proof.
  intros [Hk (Ht & Hne & Hlen) Hb] Hc [_ _ (_ & Hce & _) _ (Ham & _) (_ & _ & Hcl) _ _] Hrun.
  unfold GatewayHandlers.InitiatePayment. rewrite Hk, (TrimSpace_visible key Ht), (proj2 (is_empty_false key) Hne).
  destruct (Z.ltb_spec 128 (str_len key)); [lia|]. unfold GatewayHandlers.with_body. rewrite Hb. cbn [fst snd hp_ConsentID hp_Amount hp_Description].
  rewrite Hce. destruct (Z.leb_spec (pm_amount_pence amount) 0); [lia|].
  destruct (is_empty (pm_currency amount)) eqn:Hcur; [apply is_empty_true in Hcur; rewrite Hcur in Hcl; done|].
  cbn [orb]. apply wp_reply. cbn [pc_InitiatePayment story_payments shop_payments].
  apply wp_remote_calm; [done|]. unfold on_platform. apply wp_within. eapply wp_mono; [exact Hrun|].
  intros a w (p & -> & Hst & HQ). rewrite Hst. by wp_step.
Qed.

Context (d : RouterDeps).

(** The first order with a key, at the gateway. *)
Lemma gateway_first_order mid r key desc amount c e red M P :
  uuid_Parse mid = Some mid -> payment_order r key desc amount c -> bearer d r mid e -> lets_through d mid e red ->
  calm e -> proper_ids e -> fresh e (platform_ids P) -> key ∉ map p_IdempotencyKey (payments (pf_payments P)) ->
  (forall e', later e e' -> Redis.live (pf_redis P) (cur_clock e') (Idempotency.key key) = None) ->
  payable (pf_consents P) (pf_ledger P) (pf_redis P) mid (pm_amount_pence amount) (ToUpper (TrimSpace (pm_currency amount))) c e ->
  wp (NewRouter d PostPayments r) (fun resp w => exists row P', g_backend (w_st w) = MkShop M P' /\
      rs_status resp = 201 /\ rs_body resp = PaymentResponse_json (paymentFromProto (toProto row)) /\
      owner_paid P key mid desc (ToUpper (TrimSpace (pm_currency amount))) (pm_amount_pence amount) c row P')
    (MkWorld e (MkGw red (MkShop M P))).
Proof.
  intros Hm Ho Hb Hlim Hc Hpr Hf Hk Hl Hpay.
  eapply (wp_authenticated d PostPayments GatewayHandlers.InitiatePayment); [done|exact Hb|exact Hlim|].
  intros cx e' red' Hcx Hlater _. subst mid.
  eapply wp_order; [done|by eapply later_calm|exact Hpay|]. assert (Hl2 : later e (bump e')) by (etrans; [done|apply later_bump]).
  eapply wp_mono; [eapply (run_first_request draws fallback (order_request key desc (cx_MerchantID cx) amount c) amount c)|].
  - by eapply order_ordered.
  - by eapply later_calm.
  - by eapply proper_later.
  - by eapply later_fresh.
  - done.
  - by apply Hl.
  - by eapply payable_later.
  - intros a w (row & -> & Hown). exists (toProto row). split; [done|]. split; [by eapply paid_settled|].
    intros id. by exists row, (w_st w).
Qed.

(** The same order again, by the same merchant, while the key answers the payment. *)
Lemma gateway_same_order mid r key desc amount c con0 led0 red0 e0 row old evs obs con led bank (rd : R) e red M :
  let P := MkPlatform (MkPaymentDB (old ++ [row]) evs obs) con led bank rd in
  uuid_Parse mid = Some mid -> payment_order r key desc amount c -> bearer d r mid e -> lets_through d mid e red -> calm e ->
  payable con0 led0 red0 mid (pm_amount_pence amount) (ToUpper (TrimSpace (pm_currency amount))) c e0 ->
  uuid_Parse (p_ID row) = Some (p_ID row) -> p_ID row <> StatusProcessing -> is_empty (p_ID row) = false -> p_ID row ∉ map p_ID old ->
  pp_status (toProto row) = PS_SETTLED ->
  (forall e', later e e' -> Redis.live rd (cur_clock e') (Idempotency.key key) = Some (p_ID row)) ->
  wp (NewRouter d PostPayments r) (fun resp w => g_backend (w_st w) = MkShop M P /\
      rs_status resp = 201 /\ rs_body resp = PaymentResponse_json (paymentFromProto (toProto row))) (MkWorld e (MkGw red (MkShop M P))).
Proof.
  intros P Hm Ho Hb Hlim Hc Hpay Hpp Hps Hpe Hn Hst Hl.
  eapply (wp_authenticated d PostPayments GatewayHandlers.InitiatePayment); [done|exact Hb|exact Hlim|].
  intros cx e' red' Hcx Hlater _. subst mid.
  eapply wp_order; [done|by eapply later_calm|exact Hpay|]. assert (Hl2 : later e (bump e')) by (etrans; [done|apply later_bump]).
  eapply wp_mono; [eapply (run_same_request draws fallback (order_request key desc (cx_MerchantID cx) amount c) amount c)|]; try done.
  - by eapply order_ordered.
  - by eapply later_calm.
  - by apply Hl.
  - apply Hl. etrans; [done|apply later_bump].
  - intros a w (-> & Hw). exists (toProto row). split_and!; [done..|]. intros id. by rewrite Hw.
Qed.

(** A payment asked for at the gateway, by whoever it is. *)
Lemma gateway_get mid r row old evs obs con led bank (rd : R) e red M :
  let P := MkPlatform (MkPaymentDB (old ++ [row]) evs obs) con led bank rd in
  uuid_Parse mid = Some mid -> bearer d r mid e -> lets_through d mid e red -> calm e ->
  uuid_Parse (p_ID row) = Some (p_ID row) -> p_ID row ∉ map p_ID old ->
  wp (NewRouter d (GetPaymentRoute (p_ID row)) r) (fun resp w => g_backend (w_st w) = MkShop M P /\
      if bool_decide (p_MerchantID row = mid) then rs_status resp = 200 /\ rs_body resp = PaymentResponse_json (paymentFromProto (toProto row))
      else rs_status resp = 404 /\ exists rid, rs_body resp = error_body CodeNotFound "payment not found" rid)
    (MkWorld e (MkGw red (MkShop M P))).
Proof.
  intros P Hm Hb Hlim Hc Hpp Hn.
  eapply (wp_authenticated d (GetPaymentRoute _) (GatewayHandlers.GetPayment _)); [done|exact Hb|exact Hlim|].
  intros cx e' red' Hcx Hlater _. subst mid. unfold GatewayHandlers.GetPayment. apply wp_reply.
  cbn [pc_GetPayment story_payments shop_payments].
  apply wp_remote_calm; [by eapply later_calm|]. unfold on_platform. apply wp_within.
  assert (Hl2 : later e (bump e')) by (etrans; [done|apply later_bump]).
  destruct (uuid_Parse_text _ _ Hpp) as [Hne Hvis]. destruct (uuid_Parse_text _ _ Hm) as [Hme Hmvis].
  eapply wp_mono; [apply (run_GetPayment (cx_MerchantID cx) old row)|]; try done.
  - by eapply later_calm.
  - rewrite (TrimSpace_visible _ Hvis). by apply is_empty_false.
  - apply (TrimSpace_visible _ Hmvis).
  - by apply is_empty_false.
  - intros a w (-> & Hw). unfold P. rewrite <- Hw. case_bool_decide.
    + wp_step. by intros id.
    + intros id. split; [done|]. rewrite (mapped_error cx CodeNotFound "payment not found" None); [|done|by intros i].
      split; [done|]. by eexists.
Qed.

(** C2.  A payment over HTTP: where nothing fails, an order that a merchant with
a good token posts, with a key not used before and a body that names an active
consent with room, goes through every service and is answered 201 with the
payment, which the platform has settled and booked; the merchant service is as it
was.  From then on the merchant who asks for the payment is shown the same body
with 200, every other merchant is told 404 "payment not found", and the
merchant's same order again, for as long as the key lives, is answered 201 with
the same body; none of these changes anything behind the gateway.  (A good token is [bearer]; room at the limiter is [lets_through].) *)
Theorem payment_over_http mid r key desc amount c e red M P :
  uuid_Parse mid = Some mid -> payment_order r key desc amount c -> bearer d r mid e -> lets_through d mid e red ->
  calm e -> proper_ids e -> fresh e (platform_ids P) -> key ∉ map p_IdempotencyKey (payments (pf_payments P)) ->
  (forall e', later e e' -> Redis.live (pf_redis P) (cur_clock e') (Idempotency.key key) = None) ->
  payable (pf_consents P) (pf_ledger P) (pf_redis P) mid (pm_amount_pence amount) (ToUpper (TrimSpace (pm_currency amount))) c e ->
  let a := NewRouter d PostPayments r (MkWorld e (MkGw red (MkShop M P))) in
  let s' := g_backend (w_st (snd a)) in
  exists row, rs_status (fst a) = 201 /\ rs_body (fst a) = PaymentResponse_json (paymentFromProto (toProto row)) /\ sh_merchants s' = M /\
    owner_paid P key mid desc (ToUpper (TrimSpace (pm_currency amount))) (pm_amount_pence amount) c row (sh_platform s') /\
    forall mid2 r2 e2 red2, uuid_Parse mid2 = Some mid2 -> bearer d r2 mid2 e2 -> lets_through d mid2 e2 red2 -> calm e2 ->
      let get := NewRouter d (GetPaymentRoute (p_ID row)) r2 (MkWorld e2 (MkGw red2 s')) in
      let again := NewRouter d PostPayments r2 (MkWorld e2 (MkGw red2 s')) in
      g_backend (w_st (snd get)) = s' /\
      (if bool_decide (mid = mid2) then rs_status (fst get) = 200 /\ rs_body (fst get) = rs_body (fst a)
       else rs_status (fst get) = 404 /\ exists rid, rs_body (fst get) = error_body CodeNotFound "payment not found" rid) /\
      (mid2 = mid -> payment_order r2 key desc amount c ->
       (forall e', later e2 e' -> Redis.live (pf_redis (sh_platform s')) (cur_clock e') (Idempotency.key key) = Some (p_ID row)) ->
       rs_status (fst again) = 201 /\ rs_body (fst again) = rs_body (fst a) /\ g_backend (w_st (snd again)) = s').
Proof.
  intros Hm Ho Hb Hlim Hc Hpr Hf Hk Hl Hpay.
  pose proof (gateway_first_order mid r key desc amount c e red M P Hm Ho Hb Hlim Hc Hpr Hf Hk Hl Hpay) as Hrun.
  unfold wp in Hrun. intros a s'. fold a in Hrun. destruct Hrun as (row & P' & Hs & Hst & Hbody & Hown). fold s' in Hs.
  clearbody s'. subst s'. exists row. cbn [sh_merchants sh_platform]. do 4 (split; [done|]).
  destruct (paid_settled _ _ _ _ _ _ _ _ _ Hown) as (Hsettled & Hmer & _). cbn [toProto pp_merchant_id] in Hmer.
  destruct Hown as (pid & t0 & t & Hn & Hpp & Hps & Hpe & Hpaid & _). rewrite Hbody. clearbody a. destruct P' as [[pay evs obs] con led bank rd].
  assert (pay = payments (pf_payments P) ++ [row]) as -> by apply Hpaid.
  assert (Hid : p_ID row = pid) by (pose proof (paid_request _ _ _ _ _ _ _ _ _ _ _ Hpaid) as Hreq; by injection Hreq).
  rewrite <- Hid in *. intros mid2 r2 e2 red2 Hm2 Hb2 Hlim2 Hc2.
  destruct (gateway_get mid2 r2 row _ evs obs con led bank rd e2 red2 M Hm2 Hb2 Hlim2 Hc2 Hpp Hn) as [Hget Hwho]. rewrite Hmer in Hwho.
  do 2 (split; [done|]). intros -> Ho2 Hl2.
  destruct (gateway_same_order mid r2 key desc amount c _ _ _ e row _ evs obs con led bank rd e2 red2 M
    Hm Ho2 Hb2 Hlim2 Hc2 Hpay Hpp Hps Hpe Hn Hsettled Hl2) as (? & ? & ?). done.
Qed.
End Story.
