(* ===== verification/StorefrontExamples.v ===== *)
(** * The platform behind its API on concrete requests: the claim of [Storefront]
applied to one, and a day of two shops evaluated. *)
From S2P Require Import Prelude GoStrings DomainErr World Advance Proto Uuid Redis Idempotency GoTime GoJson Auth RateLimit.
From S2P Require Import LedgerStore LedgerProps ConsentRepo ConsentService ConsentHandler MerchantRepo MerchantService MerchantProps.
From S2P Require Import Gateway GatewayHandlers GatewayAuth Onboarding BankAdapter MockBank BankProps PaymentRepo Saga SagaProps PaymentHandler.
From S2P Require Import Platform PlatformCalls PlatformProps PlatformExamples Storefront.
Local Open Scope Z_scope.
Local Open Scope go_scope.

#[local] Existing Instances text_uuids text_uuid_laws ascii_tables simple_grpc no_quotes no_json_errors.
#[local] Existing Instances demo_entropy demo_bcrypt bit_jwt bit_jwt_laws.
#[local] Instance demo_payments : PaymentClient (Shop Memory) := shop_payments no_draws no_route.

(** A request with a token (when there is one), a key and a body. *)
Definition request (token key body : string) : Request :=
  MkRequest (fun h => if bool_decide (h = "Authorization") then (if is_empty token then "" else "Bearer " +:+ token)
                      else if bool_decide (h = "Idempotency-Key") then key else "") (fun _ => "") body.

Definition order_text_25 (consent : string) : string :=
  json_text (VObj [("consent_id", VStr consent); ("amount", money_value (MkPMoney 2500 "gbp")); ("description", VStr "book")]).

(** The token that [Issue] gives a merchant. *)
Definition ticket (mid : string) : string :=
  match fst (Issue demo_tokens mid (MkWorld (system_env 0) tt)) with Ok (token, _) => token | Err _ => "" end.

Lemma canonical_plain s : canonical_text s = true -> plain_text s.
Proof. intros Hs. apply (uuid_Parse_text s s). simpl. by rewrite Hs. Qed.

Lemma ticket_bearer mid n r : canonical_text mid = true -> rq_header r "Authorization" = "Bearer " +:+ ticket mid ->
  bearer demo_deps r mid (system_env n).
Proof.
  intros Hm Hauth. split; [by intros ->|].
  destruct (issue_spec demo_tokens mid (system_env 0) tt) as (token & w1 & Hrun & _ & Htext & Hne & Hparse).
  - by apply canonical_plain.
  - intros k. apply canonical_plain. by apply (numbered_canonical "u-").
  - vm_compute. split; [discriminate|reflexivity].
  - vm_compute. split; [discriminate|reflexivity].
  - exists token. unfold ticket in Hauth. rewrite Hrun in Hauth. split_and!; try done.
    intros e' He'. specialize (Hparse e' tt). assert (Hclock : cur_clock e' = hour) by (by destruct He' as [-> | ->]).
    rewrite Hclock in Hparse. exact Hparse.
Qed.

(** The shop orders a book for 25.00; then it, another merchant and it again ask. *)
Definition book_order (mid : string) : Request := request (ticket mid) "order-7" (order_text_25 "c1").
Definition shop_start : Shop Memory := MkShop empty_merchants one_consent.
Definition visit (rt : Route) (r : Request) (n : nat) (s : Shop Memory) : Response * world (Gw Memory (Shop Memory)) :=
  NewRouter demo_deps rt r (MkWorld (system_env n) (MkGw None s)).

Lemma book_is_ordered mid : payment_order (book_order mid) "order-7" "book" (MkPMoney 2500 "gbp") alice_consent.
Proof. constructor; [done|by repeat constructor|vm_compute; reflexivity]. Qed.

Lemma payment_over_http_witness :
  let a := visit PostPayments (book_order "shop") 0 shop_start in
  let s' := g_backend (w_st (snd a)) in
  exists pid, rs_status (fst a) = 201 /\
    rs_status (fst (visit (GetPaymentRoute pid) (book_order "shop") 500 s')) = 200 /\
    rs_status (fst (visit (GetPaymentRoute pid) (book_order "other") 500 s')) = 404 /\
    rs_status (fst (visit PostPayments (book_order "shop") 500 s')) = 201 /\
    g_backend (w_st (snd (visit PostPayments (book_order "shop") 500 s'))) = s'.
Proof.
  unfold visit, shop_start.
  destruct (payment_over_http no_draws no_route demo_deps "shop" (book_order "shop") "order-7" "book" (MkPMoney 2500 "gbp")
    alice_consent (system_env 0) None empty_merchants one_consent) as (row & Hst & _ & _ & Hown & Hlater).
  - done.
  - apply book_is_ordered.
  - by apply ticket_bearer.
  - apply no_limiter.
  - intros n. reflexivity.
  - apply system_proper.
  - apply (system_fresh 0).
  - set_solver.
  - reflexivity.
  - by apply one_consent_payable.
  - exists (p_ID row).
    destruct Hown as (pid & t0 & t & _ & _ & _ & _ & Hpaid & _).
    pose proof (paid_row _ _ _ _ _ _ _ _ _ _ _ Hpaid) as Hrow. clear Hpaid.
    assert (Hid : p_ID row = "u-4") by (vm_compute in Hrow; by injection Hrow as <-).
    assert (Hdoor : forall mid, canonical_text mid = true -> bearer demo_deps (book_order mid) mid (system_env 500)) by (intros mid Hm; by apply ticket_bearer).
    pose proof (Hlater "shop" (book_order "shop") (system_env 500) None eq_refl (Hdoor "shop" eq_refl) (no_limiter _ _ _) (fun _ _ => eq_refl)) as Hown.
    pose proof (Hlater "other" (book_order "other") (system_env 500) None eq_refl (Hdoor "other" eq_refl) (no_limiter _ _ _) (fun _ _ => eq_refl)) as Hother.
    clear Hlater.
    rewrite bool_decide_eq_true_2 in Hown by reflexivity. rewrite bool_decide_eq_false_2 in Hother by discriminate.
    destruct Hown as (_ & Hget & Hagain). destruct Hget as [Hget _]. destruct Hother as (_ & Hget2 & _). destruct Hget2 as [Hget2 _].
    destruct (Hagain eq_refl (book_is_ordered "shop")) as (Hag & _ & Hsame).
    + intros e' [_ Hclock _ _]. unfold cur_clock. rewrite Hid, Hclock. vm_compute. reflexivity.
   + split; [exact Hst|]. split; [exact Hget|]. split; [exact Hget2|]. split; [exact Hag|exact Hsame].
Defined.

(** A day of two shops, through the API alone: both register and get a token; the
first is granted a consent, is paid under it, sees the payment, which the second
does not; an order with the same key makes no second payment; once the consent is
revoked an order with another key is refused. *)
Definition member_text (name : string) (v : value) : string :=
  match v with
  | VObj l => match find (fun p => bool_decide (fst p = name)) l with Some (_, VStr s) => s | _ => "" end
  | _ => ""
  end.
Definition empty_shop : Shop Memory :=
  MkShop empty_merchants (MkPlatform (MkPaymentDB [] [] []) (MkConsentDB [] [] []) empty_ledger ∅ empty_memory).
Definition sign_up (name : string) : Request :=
  request "" "" (json_text (VObj [("name", VStr name); ("webhook_url", VStr ("https://" +:+ name +:+ ".example/hook"));
    ("contact_email", VStr (name +:+ "@" +:+ name +:+ ".example"))])).
Definition grant : string :=
  json_text (VObj [("consumer_id", VStr "alice"); ("bank_consent_ref", VStr "bc1"); ("max_per_transaction", money_value (MkPMoney 10000 "GBP"));
    ("max_per_month", money_value (MkPMoney 25000 "GBP")); ("valid_until", VStr "2030-01-01T00:00:00Z")]).

(** A step of the day: the request made of what the answers so far gave; its
answer's member is remembered. *)
Definition day_step := ((list string -> Route * Request) * string)%type.
Fixpoint live_day (n : nat) (steps : list day_step) (known : list string) (s : Shop Memory) : list Z * list string * Shop Memory :=
  match steps with
  | [] => ([], known, s)
  | (make, name) :: rest =>
      let '(rt, r) := make known in
      let '(resp, w) := visit rt r n s in
      let '(sts, known', s') := live_day (n + 200) rest (known ++ [member_text name (rs_body resp)]) (g_backend (w_st w)) in
      (rs_status resp :: sts, known', s')
  end.
Definition known_at (k : list string) (n : nat) : string := nth n k "".
Definition two_shops : list day_step := [
  (fun _ => (PostMerchants, sign_up "books"), "api_key");
  (fun _ => (PostMerchants, sign_up "tea"), "api_key");
  (fun k => (PostToken, request "" "" (json_text (VObj [("api_key", VStr (known_at k 0))]))), "token");
  (fun k => (PostToken, request "" "" (json_text (VObj [("api_key", VStr (known_at k 1))]))), "token");
  (fun k => (PostConsents, request (known_at k 2) "" grant), "id");
  (fun k => (PostPayments, request (known_at k 2) "order-1" (order_text_25 (known_at k 4))), "id");
  (fun k => (GetPaymentRoute (known_at k 5), request (known_at k 2) "" ""), "status");
  (fun k => (GetPaymentRoute (known_at k 5), request (known_at k 3) "" ""), "status");
  (fun k => (PostPayments, request (known_at k 2) "order-1" (order_text_25 (known_at k 4))), "id");
  (fun k => (DeleteConsent (known_at k 4), request (known_at k 2) "" ""), "status");
  (fun k => (PostPayments, request (known_at k 2) "order-2" (order_text_25 (known_at k 4))), "failure_reason") ].

Example day :
  let '(statuses, known, s) := live_day 0 two_shops [] empty_shop in
  (statuses, drop 4 known, map (fun p => (p_AmountPence p, p_Status p)) (payments (pf_payments (sh_platform s))),
   size (pf_bank (sh_platform s))) =
  ([201; 201; 200; 200; 201; 201; 200; 404; 201; 200; 422],
   ["u-804"; "u-1004"; "SETTLED"; ""; "u-1004"; "REVOKED"; "CONSENT_REVOKED: consent revoked"],
   [(2500, "SETTLED"); (2500, "FAILED")], 1%nat).
Proof. vm_compute. reflexivity. Qed.
