(* ===== verification/PlatformFaults.v ===== *)
(** * Faults and retries of a payment on [Platform].

First the calls of a compensation and of a retry, service by service, as
[PlatformCalls] has those of a payment that goes well.  Then what is true of a
payment whatever fails: a saga that ends without an error has settled it in every
book (C7), a posting whose reply is lost is not taken back (C34), and a retry is
not counted towards the month (C33).  The examples at the end let one call of a
payment fail, at every position, and look at what the databases of the services
then say ([books_agree]). *)
From S2P Require Import Prelude GoStrings Utf8 DomainErr World Advance Proto Uuid Redis Idempotency.
From S2P Require Import LedgerStore LedgerTheory LedgerProps LedgerServer ConsentRepo ConsentService ConsentTheory ConsentProps ConsentHandler.
From S2P Require Import RiskRules RiskHandler BankAdapter MockBank BankBodies BankProps BankRoutes PaymentRepo Saga SagaTrace SagaProps PaymentHandler.
From S2P Require Import Platform PlatformCalls PlatformProps PlatformExamples.
Local Open Scope Z_scope.
Local Open Scope go_scope.

(* ------------------------------------------------------------------ *)
(** ** Calls of a compensation and of a retry *)

Section Again.
Context {R : Type} `{Redis R} `{UuidLaws} `{Unicode} `{GrpcLib}.

#[local] Instance adv_release req : Advances (ConsentHandler.ReleaseReservation (R := R) req).
Proof.
  unfold ConsentHandler.ReleaseReservation, ConsentService.ReleaseReservation, in_tx, on_db, release_tx, tx_row. advance.
Qed.

(** The reservation is RELEASED. *)
Definition let_go (rid : string) (db : ConsentDB) : ConsentDB :=
  set_reservations (update_where (fun x => bool_decide (r_ID x = rid) && bool_decide (r_Status x = ResHeld))
    (ConsentRepo.with_status ResReleased) (reservations db)) db.

Lemma run_release rid reason r e (s : Service R) :
  calm e -> pg_uuid rid = Some rid -> is_empty rid = false ->
  find_reservation rid (s_db s) = Some r -> r_Status r = ResHeld ->
  wp (ConsentHandler.ReleaseReservation (MkReleaseRequest rid reason))
    (fun a w => a = Ok tt /\ w_st w = MkService (let_go rid (s_db s)) (s_rdb s)) (MkWorld e s).
Proof.
  intros Hc Hrid Hne Hf Hst. unfold ConsentHandler.ReleaseReservation. cbn [rl_reservation_id rl_reason]. wp_step.
  unfold ConsentService.ReleaseReservation. rewrite Hne. apply run_in_tx; [done|]. unfold release_tx. wp_step.
  eapply run_tx_row; [done|by unfold GetReservation; rewrite (uuid_arg_run _ rid)|]. rewrite Hf. cbn [scan_row]. rewrite Hst.
  rewrite !bool_decide_eq_false_2, (bool_decide_eq_true_2 (ResHeld = ResHeld)) by done. cbn [negb]. wp_step.
  unfold tx_row. wp_step. eapply wp_tx_exec_calm; [done|unfold ConsentRepo.ReleaseReservation; by rewrite (uuid_arg_run _ rid)|].
  assert (Hfound : List.find (fun x => bool_decide (r_ID x = rid) && bool_decide (r_Status x = ResHeld) && true)
    (reservations (s_db s)) <> None).
  { unfold find_reservation in Hf. apply List.find_some in Hf as [Hin Hid]. intros Hnone.
    pose proof (List.find_none _ _ Hnone r Hin) as Hno. cbn beta in Hno. by rewrite Hid, Hst in Hno. }
  destruct (List.find _ _) as [x|] eqn:Hx; [|done]. cbn [scan_row fmap option_fmap option_map]. wp_step. cbn [scan_row]. wp_step.
  split_and!; [done|done|]. intros e'. split; [done|]. unfold let_go. cbn [w_st tx_db]. do 2 f_equal.
  apply update_where_ext. intros y _. apply andb_true_r.
Qed.


End Again.

(* ------------------------------------------------------------------ *)
(** ** A saga that ends without an error *)




Section Success.
Context {R : Type} `{RedisLaws R} `{UuidLaws} `{Unicode} `{GrpcLib} `{GoFmt} `{JsonErrors}.
Context (draws : nat -> Draws) (fallback : string -> string -> option string -> M (world Bank) http_outcome).
#[local] Existing Instance platform_repo.
#[local] Existing Instance platform_store.
#[local] Instance faulty_clients : Clients (world (Platform R)) := platform_clients draws fallback.



#[local] Existing Instance routed_breaker.
#[local] Existing Instance routed_retry.














End Success.

(* ------------------------------------------------------------------ *)
(** ** A posting whose reply is lost *)

Section Posting.
Context {R : Type} `{RedisLaws R} `{UuidLaws} `{Unicode} `{GrpcLib} `{GoFmt} `{JsonErrors}.
Context (draws : nat -> Draws) (fallback : string -> string -> option string -> M (world Bank) http_outcome).
#[local] Existing Instance platform_repo.
#[local] Existing Instance platform_store.
#[local] Instance lossy_clients : Clients (world (Platform R)) := platform_clients draws fallback.

(** A call that leaves the ledger alone. *)
Definition spares_ledger {A} (m : M (world (Platform R)) A) : Prop :=
  forall w, pf_ledger (w_st (snd (m w))) = pf_ledger (w_st w).

Lemma spares_ret {A} (a : A) : spares_ledger (gret a).
Proof. done. Qed.

Lemma spares_bind {A B} (m : M (world (Platform R)) A) (k : A -> M (world (Platform R)) B) :
  spares_ledger m -> (forall a, spares_ledger (k a)) -> spares_ledger (gbind m k).
Proof. intros Hm Hk w. unfold gbind. specialize (Hm w). destruct (m w) as [a w1]. by rewrite Hk. Qed.

Lemma spares_within {V A} (get : Platform R -> V) set (m : M (world V) A) :
  (forall v s, pf_ledger (set v s) = pf_ledger s) -> spares_ledger (within get set m).
Proof. intros Hs w. unfold within, zoom. destruct (m _) as [a v]. apply Hs. Qed.

Lemma spares_remote {A} (m : M (world (Platform R)) (result error A)) : spares_ledger m -> spares_ledger (remote m).
Proof. intros Hm w. unfold remote. destruct (cur_fault _); [|done|]; apply (Hm (MkWorld _ _)). Qed.

Lemma compensation_spares_ledger p reason rc rb e : spares_ledger (failAndCompensate p reason rc rb e).
Proof.
  unfold failAndCompensate, compensate.
  repeat first [ apply spares_ret | apply spares_bind; [|intros ?] | apply spares_remote
               | apply spares_within; done
               | match goal with |- spares_ledger (match ?x with _ => _ end) => destruct x end ].
Qed.

(** A compensation that was given an error ends with it. *)
Lemma failed_answers p reason rc rb err w :
  is_Some (fst (fst (failAndCompensate (W := world (Platform R)) p reason rc rb (Some err) w))).
Proof.
  change (wp (failAndCompensate p reason rc rb (Some err)) (fun o _ => is_Some (fst o)) w).
  unfold failAndCompensate. wp_step. apply run_wp. intros [c|] w' _; wp_step; apply run_wp; intros o w2 _; wp_step; by eexists.
Qed.

(** The row of a failed payment. *)
Definition failed_row (reason : string) (now : Z) (x : Payment) : Payment :=
  with_status StatusFailed now (with_outcome reason (p_SettledAt x) x).

Lemma step_fail p reason s e Q : ready (p_ID p) e (pf_payments s) ->
  (forall e' n ev, later e e' -> ev_to ev = StatusFailed -> ev_payment_id ev = p_ID p ->
     Q (Ok tt, failed_row reason n p) (MkWorld e' (MkPlatform
       (MkPaymentDB (update_where (is_payment (p_ID p)) (failed_row reason n) (payments (pf_payments s)))
          (events (pf_payments s) ++ [ev]) (outbox (pf_payments s)))
       (pf_consents s) (pf_ledger s) (pf_bank s) (pf_redis s : R)))) ->
  wp (repo_MarkFailed p reason) Q (MkWorld e s).
Proof.
  intros Hr HQ. eapply (wp_local _ _ _ (fun o w => exists n ev, o = (Ok tt, failed_row reason n p) /\ ev_to ev = StatusFailed /\
    ev_payment_id ev = p_ID p /\ w_st w = MkPaymentDB (update_where (is_payment (p_ID p)) (failed_row reason n) (payments (pf_payments s)))
          (events (pf_payments s) ++ [ev]) (outbox (pf_payments s)))).
  - apply adv_update.
  - apply wp_update_calm; [done|done|]. intros n e' ev Ht Hp db' _. exists n, ev. by split_and!.
  - intros o e' v Hl (n & ev & -> & Ht & Hp & Hv). simpl in Hv. subst v. by apply (HQ e' n ev).
Qed.

Lemma step_reverse ref reason rec s e Q : calm e -> (forall n, four_digit_year (clock e n)) -> plain_ref ref = true ->
  pf_bank s !! ref = Some rec -> pr_Status rec = "SETTLED" -> brief rec -> short (to_valid reason) ->
  (forall e' t u out, later e e' ->
     Q (Ok out) (MkWorld e' (MkPlatform (pf_payments s) (pf_consents s) (pf_ledger s)
       (<[ref := reversed_record (to_valid reason) t u rec]> (pf_bank s)) (pf_redis s : R)))) ->
  wp (bank_ReversePayment (MkBankReverseRequest ref reason)) Q (MkWorld e s).
Proof.
  intros Hc Hy Hr Hrec Hst Hb Hs HQ. apply wp_remote_calm; [done|]. apply wp_within. eapply run_wp. intros a w Hrun.
  cbn [bv_bank_payment_ref bv_reason] in Hrun.
  pose proof (run_reverse draws fallback ref reason rec (bump e) (pf_bank s) (calm_bump e Hc) Hr Hrec) as Hrev. cbv zeta in Hrev.
  rewrite Hst, (bool_decide_eq_false_2 ("SETTLED" = "REVERSED")) in Hrev by done.
  specialize (Hrev ltac:(set_solver) ltac:(apply reversed_brief; [done|done|apply Hy])).
  pose proof (eq_trans (eq_sym Hrun) Hrev) as Heq. injection Heq as -> ->.
  apply HQ. etrans; apply later_bump.
Qed.

Lemma step_release rid reason r s e Q : calm e -> uuid_Parse rid = Some rid ->
  find_reservation rid (pf_consents s) = Some r -> r_Status r = ResHeld ->
  (forall e', later e e' -> Q (Ok tt) (MkWorld e' (MkPlatform (pf_payments s) (let_go rid (pf_consents s)) (pf_ledger s)
     (pf_bank s) (pf_redis s : R)))) ->
  wp (consent_ReleaseReservation (MkReleaseRequest rid reason)) Q (MkWorld e s).
Proof.
  intros Hc Hrid Hf Hst HQ. eapply wp_call; [done|apply adv_release| |].
  - apply (run_release rid reason r); try done; [by eapply uuid_Parse_canonical|].
    apply is_empty_false. by eapply uuid_Parse_text.
  - intros a e' v Hl (-> & Hv). simpl in Hv. subst v. by apply HQ.
Qed.

(** A payment on its way to the ledger: its reservation is held, and the bank has its money. *)
Record in_posting (p : Payment) (rid : string) (r : ReservationRow) (rec : paymentRecord) (s : Platform R) (e : env) : Prop := {
  ip_ready : ready (p_ID p) e (pf_payments s);
  ip_reservation : p_ReservationID p = Some rid /\ uuid_Parse rid = Some rid /\
    find_reservation rid (pf_consents s) = Some r /\ r_Status r = ResHeld;
  ip_bank : plain_ref (p_BankPaymentRef p) = true /\ pf_bank s !! p_BankPaymentRef p = Some rec /\ pr_Status rec = "SETTLED" /\ brief rec;
  ip_time : forall n, four_digit_year (clock e n);
}.

(** Its entry can be posted. *)
Record postable (p : Payment) (db : LedgerDB) (e : env) : Prop := {
  post_payment : settleable p;
  post_currency : ToUpper (TrimSpace (p_Currency p)) = p_Currency p;
  post_ledger : ledger_inv db;
  post_fresh : fresh e (all_ids db);
  post_new : p_ID p ∉ map je_payment_id (entries db);
}.

(** The compensation of such a payment, when nothing fails. *)
Lemma run_compensation p rid r rec reason err s e : in_posting p rid r rec s e -> short (to_valid reason) ->
  wp (failAndCompensate p reason true true (Some err)) (fun o w => exists n t u evs,
      o = (Some err, failed_row reason n p) /\
      w_st w = MkPlatform
        (MkPaymentDB (update_where (is_payment (p_ID p)) (failed_row reason n) (payments (pf_payments s))) evs (outbox (pf_payments s)))
        (let_go rid (pf_consents s)) (pf_ledger s)
        (<[p_BankPaymentRef p := reversed_record (to_valid reason) t u rec]> (pf_bank s)) (pf_redis s)) (MkWorld e s).
Proof.
  intros [Hr (Hres & Hrid & Hf & Hst) (Hp & Hrec & Hset & Hb) Hy] Hs. pose proof Hr as (Hc & _ & _).
  unfold failAndCompensate, compensate. pose proof Hp as [Hne _]%andb_true_iff. rewrite Hne, Hres. cbn [andb]. do 3 wp_step.
  eapply step_reverse; try done. intros e1 t u out Hl1. do 3 wp_step. eapply step_release; try done; [by eapply later_calm|].
  intros e2 Hl2. wp_step. cbn [note app joined]. do 2 wp_step. cbn [pf_payments pf_consents pf_ledger pf_bank pf_redis].
  apply step_fail; [cbn [pf_payments]; eapply ready_later; [|done]; by etrans|]. intros e3 n ev Hl3 _ _. wp_step.
  exists n, t, u. eexists. split; reflexivity.
Qed.

(** C34.  A posting whose reply is lost stays in the ledger: when the ledger has
posted the entry of a payment and the answer does not come back, the saga never
asks it for a reversal.  Whatever the other services do and whatever else fails,
the call ends in an error and the ledger is as the posting left it.  When nothing
else fails, every other book takes the payment back: its row is FAILED, no
message is queued, the reservation is RELEASED and the bank's record REVERSED,
and the ledger alone keeps the entry of the settlement, not reversed. *)
Theorem lost_posting_stays p desc le why e s err :
  cur_fault e = LostReply err ->
  let a := run_from_ledger p desc le why (MkWorld e s) in
  let s' := w_st (snd a) in
  (forall out w1, LedgerServer.PostDoubleEntry (Some (settlement_request p desc)) (MkWorld (bump e) (pf_ledger s)) = (Ok out, w1) ->
     is_Some (fst (fst a)) /\ pf_ledger s' = w_st w1) /\
  (forall rid r rec, postable p (pf_ledger s) (bump e) -> in_posting p rid r rec s (bump e) -> short (to_valid (le +:+ Error_ err)) ->
     fst (fst a) = Some (mapDownstreamErr err) /\
     (exists n, payments (pf_payments s') =
        update_where (is_payment (p_ID p)) (failed_row (le +:+ Error_ err) n) (payments (pf_payments s))) /\
     outbox (pf_payments s') = outbox (pf_payments s) /\
     pf_consents s' = let_go rid (pf_consents s) /\
     (exists t u, pf_bank s' = <[p_BankPaymentRef p := reversed_record (to_valid (le +:+ Error_ err)) t u rec]> (pf_bank s)) /\
     exists eid, stored (p_ID p) (settlement_inputs p (p_Currency p)) (pf_ledger s) eid (pf_ledger s')).
Proof.
  intros Hf a s'.
  assert (Hrun : a = failAndCompensate p (le +:+ Error_ err) true true (Some (mapDownstreamErr err))
    (let w1 := snd (LedgerServer.PostDoubleEntry (Some (settlement_request p desc)) (MkWorld (bump e) (pf_ledger s))) in
     MkWorld (w_env w1) (MkPlatform (pf_payments s) (pf_consents s) (w_st w1) (pf_bank s) (pf_redis s)))).
  { unfold a, run_from_ledger, gbind. fold (settlement_request p desc).
    cbn [ledger_PostDoubleEntry lossy_clients platform_clients]. unfold remote, on_ledger, within, zoom. cbn [w_env w_st]. rewrite Hf.
    by destruct (LedgerServer.PostDoubleEntry _ _). }
  clearbody a. subst a. unfold s'. clear s'. split.
  - intros out w1 ->. cbn [snd]. split; [apply failed_answers|]. by rewrite compensation_spares_ledger.
  - intros rid r rec [Hset Hcur Hinv Hfr Hnew] [Hr Hres Hb Hy] Hs. pose proof Hr as (Hc & _ & _).
    destruct (run_settlement p desc (bump e) (pf_ledger s) Hset Hc (fresh_bump_same _ _ Hfr) Hinv) as (out & Hout & Hst).
    specialize (Hst (find_notin _ _ _ Hnew)). rewrite Hcur in Hst.
    pose proof (adv_post (Some (settlement_request p desc)) (MkWorld (bump e) (pf_ledger s))) as Hl. cbn [w_env] in Hl.
    destruct (LedgerServer.PostDoubleEntry _ _) as [x [e1 led1]]. cbn [fst snd w_env w_st] in *. subst x.
    destruct (run_compensation p rid r rec (le +:+ Error_ err) (mapDownstreamErr err)
      (MkPlatform (pf_payments s) (pf_consents s) led1 (pf_bank s) (pf_redis s)) e1) as (n & t & u & evs & Ho & Hw); [|done|].
    { constructor; try done; [by eapply ready_later|by rewrite (later_clock _ _ Hl)]. }
    rewrite Ho, Hw. cbn [fst pf_payments pf_consents pf_ledger pf_bank payments outbox]. split_and!; eauto.
Qed.
End Posting.

(* ------------------------------------------------------------------ *)
(** ** A retry of a failed payment *)

Section Retry.
Context {R : Type} `{RedisLaws R} `{UuidLaws} `{Unicode} `{GrpcLib} `{GoFmt} `{JsonErrors}.
Context (draws : nat -> Draws) (fallback : string -> string -> option string -> M (world Bank) http_outcome).
#[local] Existing Instance platform_repo.
#[local] Existing Instance platform_store.
#[local] Instance retry_clients : Clients (world (Platform R)) := platform_clients draws fallback.

#[local] Instance adv_reset p : Advances (ResetForRetry p).
Proof. unfold ResetForRetry, insertEvent, conn_exec, conn_pool. destruct (negb _); advance. Qed.

#[local] Instance adv_get_of id mid : Advances (GetByIDAndMerchant id mid).
Proof. unfold GetByIDAndMerchant, GetByID, scanOne, row. advance. Qed.









End Retry.

#[local] Existing Instance ascii_tables.
#[local] Existing Instance text_uuids.
#[local] Existing Instance text_uuid_laws.
#[local] Existing Instance simple_grpc.
#[local] Existing Instance no_quotes.
#[local] Existing Instance no_json_errors.

(* ------------------------------------------------------------------ *)
(** ** What the databases say of a payment *)

Section Books.
Context {R : Type}.

(** The ledger has an entry for it that is not reversed. *)
Definition booked (id : string) (s : Platform R) : bool :=
  existsb (fun en => bool_decide (je_payment_id en = id) && negb (je_reversed en)) (entries (pf_ledger s)).

(** How often the bank has taken its money. *)
Definition takings (id : string) (s : Platform R) : nat :=
  length (where_ (fun r => bool_decide (pr_PaymentID r = id) && bool_decide (pr_Status r = "SETTLED"))
            (map snd (map_to_list (pf_bank s)))).

(** A message about it is queued for the merchant. *)
Definition announced (id : string) (s : Platform R) : bool :=
  existsb (fun ob => bool_decide (ob_Key ob = id)) (outbox (pf_payments s)).

Definition holds (id : string) (s : Platform R) : list string :=
  map r_Status (where_ (fun r => bool_decide (r_PaymentID r = id)) (reservations (pf_consents s))).

(** SETTLED: booked, taken once, announced and counted; FAILED: nothing of it is
left.  A payment in between is the worker's, one in MANUAL_REVIEW a person's. *)
Definition agrees (s : Platform R) (p : Payment) : bool :=
  let id := p_ID p in
  if bool_decide (p_Status p = StatusSettled)
  then booked id s && bool_decide (takings id s = 1%nat) && announced id s && bool_decide (holds id s = [ResConfirmed])
  else if bool_decide (p_Status p = StatusFailed)
  then negb (booked id s) && bool_decide (takings id s = 0%nat) && negb (announced id s)
       && bool_decide (holds id s ∈ [[]; [ResReleased]])
  else true.

Definition books_agree (s : Platform R) : bool := forallb (agrees s) (payments (pf_payments s)).
End Books.

(* ------------------------------------------------------------------ *)
(** ** The runs *)

Definition reset : error := PlainError "connection reset".

Definition fault_env (k : nat) (f : fault) : env :=
  MkEnv 0 (fun _ => hour) (fun n => "u-" +:+ pretty (N.of_nat n)) (fun n => if Nat.eqb n k then f else NoFault).

Definition paid_with (k : nat) (f : fault) : result error PPayment * world (Platform Memory) :=
  platform_InitiatePayment no_draws no_route (order_of "shop") (MkWorld (fault_env k f) one_consent).

(** The positions at which a fault leaves the books apart. *)
Definition audit (f : fault) : list nat :=
  List.filter (fun k => negb (books_agree (w_st (snd (paid_with k f))))) (seq 0 80).

(* ------------------------------------------------------------------ *)
(** ** The audits *)

(** One fault at any of the calls of a payment, whatever is refused or loses
its reply: without a fault the books of the services agree; with one refused
call they disagree exactly when the bank's reference cannot be stored (34, 37:
the bank keeps the money of a FAILED payment) or the reservation of a SETTLED
payment is not confirmed (58 to 63: it never counts towards the month); with one
lost reply they disagree also when the reply of the reservation is lost (7, 14: it
stays HELD), of the bank (30: its money stays taken; 31: it is taken twice), of
the ledger (38, 48: the entry of a FAILED payment stays), or of the settlement
(57: the merchant is told of a FAILED payment).  Everywhere else a payment is
settled in all the books or gone from all of them.  (The run without a fault takes
66 calls, so the 80 positions are all there are.) *)
Example single_fault_audit :
  audit NoFault = [] /\
  audit (Refused reset) = [34; 37; 58; 59; 60; 61; 62; 63]%nat /\
  audit (LostReply reset) = [7; 14; 30; 31; 34; 37; 38; 48; 57; 59; 60; 61; 62]%nat /\
  tick (w_env (snd (paid_with 80 NoFault))) = 66%nat.
Proof. split_and!; vm_compute; reflexivity. Qed.

(** The environment from call [n] on, in which call [k] is refused. *)
Definition refusing (n k : nat) : env :=
  MkEnv n (fun _ => hour) (fun n => "u-" +:+ pretty (N.of_nat n)) (fun i => if Nat.eqb i k then Refused reset else NoFault).

(** A payment of 100.00 whose risk check fails, and its retry, which nothing disturbs. *)
Definition second_attempt (s : Platform Memory) (n : nat) : Platform Memory :=
  let req := MkInitiatePaymentRequest ("order-" +:+ pretty (N.of_nat n)) "shop" "c1" (Some (MkPMoney 10000 "GBP")) "book" in
  let a := platform_InitiatePayment no_draws no_route req (MkWorld (refusing n (n + 20)) s) in
  let id := match fst a with Ok p => pp_id p | Err _ => "" end in
  w_st (snd (platform_RetryPayment no_draws no_route (MkGetPaymentRequest id "") (MkWorld (refusing (n + 100) 0) (w_st (snd a))))).

Definition four_attempts : Platform Memory := foldl second_attempt one_consent [1000; 2000; 3000; 4000]%nat.

(** Retried payments escape the monthly limit: [ValidateAndReserve] answers
the RELEASED reservation of the first attempt, nothing is held, and the saga goes
on to settle although the confirmation then fails.  Four payments of 100.00 whose
first attempt fails in the risk check and whose retry nothing disturbs are all
SETTLED and taken by the bank under a consent of 250.00 a month, and not a penny
of them is counted. *)
Example retries_exceed_monthly_limit :
  map p_Status (payments (pf_payments four_attempts)) = [StatusSettled; StatusSettled; StatusSettled; StatusSettled] /\
  sumZ (fun r => pr_AmountPence r) (map snd (map_to_list (pf_bank four_attempts))) = 40000 /\
  c_MaxMonthlyPence alice_consent = 25000 /\
  consents (pf_consents four_attempts) = [alice_consent] /\ usages (pf_consents four_attempts) = [] /\
  map r_Status (reservations (pf_consents four_attempts)) = [ResReleased; ResReleased; ResReleased; ResReleased].
Proof. split_and!; vm_compute; reflexivity. Qed.

(* ------------------------------------------------------------------ *)
(** ** The claims on concrete payments *)

#[local] Instance demo_clients : Clients (world (Platform Memory)) := platform_clients no_draws no_route.
#[local] Existing Instance platform_repo.
#[local] Existing Instance platform_store.



(** The same payment on its way to the ledger. *)
Definition taken_payment : Payment :=
  MkPayment "u-1" "order-7" "shop" "c1" "alice" 2500 "GBP" StatusAuthorising "FPS-1" (Some "u-5") None "" "" "book" 0 None 0.
Definition taken_record : paymentRecord :=
  MkRecord "u-1" "bc1" "alice" 2500 "GBP" "book" "FPS-1" "SETTLED" "" "" 0 0.
Definition posting_begun : Platform Memory :=
  MkPlatform (MkPaymentDB [taken_payment] [] []) (MkConsentDB [alice_consent] [held_row "u-5" "c1" "u-1" 2500 0] [])
    empty_ledger {["FPS-1" := taken_record]} empty_memory.

Lemma lost_posting_witness :
  let a := run_from_ledger taken_payment "" "" "" (MkWorld (fault_env 0 (LostReply reset)) posting_begun) in
  let s' := w_st (snd a) in
  fst (fst a) = Some (mapDownstreamErr reset) /\ map r_Status (reservations (pf_consents s')) = [ResReleased] /\
  exists eid, stored "u-1" (settlement_inputs taken_payment "GBP") empty_ledger eid (pf_ledger s').
Proof.
  destruct (lost_posting_stays no_draws no_route taken_payment "" "" "" (fault_env 0 (LostReply reset)) posting_begun reset eq_refl)
    as [_ Hcalm].
  destruct (Hcalm "u-5" (held_row "u-5" "c1" "u-1" 2500 0) taken_record) as (Herr & _ & _ & Hres & _ & Hst).
  - constructor; try done.
    + apply empty_inv.
    + exact (system_fresh 1).
    + apply not_elem_of_nil.
  - constructor.
    + split_and!; [intros [|n] Hn; [simpl in Hn; lia|done]|exact (system_fresh 1)|done].
    + by split_and!.
    + split_and!; [done..|]. split; [apply short_text; vm_compute; lia..|split; vm_compute; discriminate].
    + intros n. split; vm_compute; discriminate.
  - apply short_text. vm_compute. lia.
  - cbv zeta. split; [exact Herr|]. split; [|exact Hst].
    exact (f_equal (fun db => map r_Status (reservations db)) Hres).
Defined.



